(** * HIPDiff: reader of HIP archives and structural diff

    Shallow embedding of [hip.h], [hip.cpp] and [main.cpp].

    - 32-bit unsigned integers ([uint32_t]) are [Z] values in [0, 2^32);
      every place where the C++ code truncates to 32 bits is written
      out with [wrap32].
    - The [FILE*] is the list of bytes of the file and a position.
    - The C++ code signals a failed read by returning [false]; every
      caller of a [readXXXX] member propagates it, so [false] is a
      [fault] of the reader monad.  [readLong] is the exception: its
      result is inspected by [enterBlock], so it returns an [option].
    - [assert] aborts the process when assertions are compiled in and
      does nothing when they are compiled out; the build is the
      parameter [NDEBUG] of every definition that asserts.
    - Reads and writes outside an allocated array have no defined
      behaviour in C++; the model stops with [UndefinedBehaviour]. *)

From Stdlib Require Import String Ascii.
From Stdlib Require Import ZArith List Bool Lia.
From Stdlib Require Import Strings.Byte.
From Stdlib Require Import Sorted Permutation.
Import ListNotations.
Local Open Scope Z_scope.

Set Implicit Arguments.

(** ** Machine integers *)

Definition wrap32 (x : Z) : Z := x mod 2 ^ 32.

(** Value of an [unsigned] seen through [%d]. *)
Definition to_int (x : Z) : Z :=
  let y := wrap32 x in if y <? 2 ^ 31 then y else y - 2 ^ 32.

Definition byteZ (b : byte) : Z := Z.of_N (Byte.to_N b).

Definition byte_of_Z (z : Z) : byte :=
  match Byte.of_N (Z.to_N (z mod 256)) with
  | Some b => b
  | None => x00
  end.

(** [BLKID(a,b,c,d)] of [hip.cpp]. *)
Definition BLKID (a b c d : ascii) : Z :=
  let n (x : ascii) := Z.of_N (N_of_ascii x) in
  Z.lor (Z.lor (Z.lor (Z.shiftl (n a) 24) (Z.shiftl (n b) 16))
               (Z.shiftl (n c) 8)) (Z.shiftl (n d) 0).

(** ** Constants of [hip.h] *)

Definition HIP_MAX_STACK_DEPTH : Z := 8.
Definition HIP_MAX_PLATFORM_STRINGS : Z := 4.
Definition HIP_STRING_SIZE : Z := 32.

(** ** The [Hip] class *)

Record PVER := { subVersion : Z; clientVersion : Z; compatVersion : Z }.
Record PFLG := { pflg_flags : Z }.
Record PCNT := { assetCount : Z; layerCount : Z; maxAssetSize : Z;
                 maxLayerSize : Z; maxXformAssetSize : Z }.
(** [char string[HIP_STRING_SIZE]] is kept as the C string it holds
    (the characters before the first NUL). *)
Record PCRT := { pcrt_time : Z; pcrt_string : string }.
Record PMOD := { pmod_time : Z }.
Record PLAT := { plat_exists : bool; plat_id : Z; stringCount : Z;
                 strings : list string }.
Record AINF := { ainf_ainf : Z }.
(** [char* data] points into a buffer obtained from [malloc] in
    [readDPAK]: [None] is the null pointer left by the [memset] of
    [readDICT], [Some (b, off)] is the address [off] bytes after the
    start of buffer number [b] of [heap] ([off] may lie outside the
    buffer). *)
Record AHDR := { id : Z; type : Z; offset : Z; size : Z; plus : Z;
                 flags : Z; data : option (nat * Z) }.
Record ADBG := { align : Z; name : string; filename : string;
                 checksum : Z }.
Record LINF := { linf_linf : Z }.
(** [uint32_t* assetIDs] points into [layerAssetIDs]: [None] is the
    null pointer, [Some k] is [layerAssetIDs + k]. *)
Record LHDR := { lhdr_type : Z; lhdr_assetCount : Z;
                 assetIDs : option Z }.
Record LDBG := { ldbg_ldbg : Z }.
Record DHDR := { dhdr_dhdr : Z }.
(** [dpak.data] is the number of its buffer in [heap]. *)
Record DPAK := { padAmount : Z; dpak_data : option nat }.

Record Block := { blk_id : Z; endpos : Z }.

(** [stack] holds the [stackDepth] live entries of [Block stack[8]],
    innermost first; [stackDepth] is its length.  [heap] collects the
    buffers [readDPAK] allocates (they are only freed by the
    destructor). *)
Record Hip := {
  pver : PVER; pflg : PFLG; pcnt : PCNT; pcrt : PCRT; pmod : PMOD;
  plat : PLAT; ainf : AINF; ahdr : list AHDR; adbg : list ADBG;
  linf : LINF; lhdr : list LHDR; ldbg : list LDBG; dhdr : DHDR;
  dpak : DPAK;
  file : list byte; fpos : Z;
  stack : list Block;
  layerAssetIDs : list Z;
  heap : list (list byte)
}.

Definition stackDepth (h : Hip) : Z := Z.of_nat (length (stack h)).

Definition set_pver v (h : Hip) : Hip :=
  {| pver := v; pflg := pflg h; pcnt := pcnt h; pcrt := pcrt h; pmod := pmod h;
     plat := plat h; ainf := ainf h; ahdr := ahdr h; adbg := adbg h; linf := linf h;
     lhdr := lhdr h; ldbg := ldbg h; dhdr := dhdr h; dpak := dpak h; file := file h;
     fpos := fpos h; stack := stack h; layerAssetIDs := layerAssetIDs h; heap := heap h |}.
Definition set_pflg v (h : Hip) : Hip :=
  {| pver := pver h; pflg := v; pcnt := pcnt h; pcrt := pcrt h; pmod := pmod h;
     plat := plat h; ainf := ainf h; ahdr := ahdr h; adbg := adbg h; linf := linf h;
     lhdr := lhdr h; ldbg := ldbg h; dhdr := dhdr h; dpak := dpak h; file := file h;
     fpos := fpos h; stack := stack h; layerAssetIDs := layerAssetIDs h; heap := heap h |}.
Definition set_pcnt v (h : Hip) : Hip :=
  {| pver := pver h; pflg := pflg h; pcnt := v; pcrt := pcrt h; pmod := pmod h;
     plat := plat h; ainf := ainf h; ahdr := ahdr h; adbg := adbg h; linf := linf h;
     lhdr := lhdr h; ldbg := ldbg h; dhdr := dhdr h; dpak := dpak h; file := file h;
     fpos := fpos h; stack := stack h; layerAssetIDs := layerAssetIDs h; heap := heap h |}.
Definition set_pcrt v (h : Hip) : Hip :=
  {| pver := pver h; pflg := pflg h; pcnt := pcnt h; pcrt := v; pmod := pmod h;
     plat := plat h; ainf := ainf h; ahdr := ahdr h; adbg := adbg h; linf := linf h;
     lhdr := lhdr h; ldbg := ldbg h; dhdr := dhdr h; dpak := dpak h; file := file h;
     fpos := fpos h; stack := stack h; layerAssetIDs := layerAssetIDs h; heap := heap h |}.
Definition set_pmod v (h : Hip) : Hip :=
  {| pver := pver h; pflg := pflg h; pcnt := pcnt h; pcrt := pcrt h; pmod := v;
     plat := plat h; ainf := ainf h; ahdr := ahdr h; adbg := adbg h; linf := linf h;
     lhdr := lhdr h; ldbg := ldbg h; dhdr := dhdr h; dpak := dpak h; file := file h;
     fpos := fpos h; stack := stack h; layerAssetIDs := layerAssetIDs h; heap := heap h |}.
Definition set_plat v (h : Hip) : Hip :=
  {| pver := pver h; pflg := pflg h; pcnt := pcnt h; pcrt := pcrt h; pmod := pmod h;
     plat := v; ainf := ainf h; ahdr := ahdr h; adbg := adbg h; linf := linf h;
     lhdr := lhdr h; ldbg := ldbg h; dhdr := dhdr h; dpak := dpak h; file := file h;
     fpos := fpos h; stack := stack h; layerAssetIDs := layerAssetIDs h; heap := heap h |}.
Definition set_ainf v (h : Hip) : Hip :=
  {| pver := pver h; pflg := pflg h; pcnt := pcnt h; pcrt := pcrt h; pmod := pmod h;
     plat := plat h; ainf := v; ahdr := ahdr h; adbg := adbg h; linf := linf h;
     lhdr := lhdr h; ldbg := ldbg h; dhdr := dhdr h; dpak := dpak h; file := file h;
     fpos := fpos h; stack := stack h; layerAssetIDs := layerAssetIDs h; heap := heap h |}.
Definition set_ahdr v (h : Hip) : Hip :=
  {| pver := pver h; pflg := pflg h; pcnt := pcnt h; pcrt := pcrt h; pmod := pmod h;
     plat := plat h; ainf := ainf h; ahdr := v; adbg := adbg h; linf := linf h;
     lhdr := lhdr h; ldbg := ldbg h; dhdr := dhdr h; dpak := dpak h; file := file h;
     fpos := fpos h; stack := stack h; layerAssetIDs := layerAssetIDs h; heap := heap h |}.
Definition set_adbg v (h : Hip) : Hip :=
  {| pver := pver h; pflg := pflg h; pcnt := pcnt h; pcrt := pcrt h; pmod := pmod h;
     plat := plat h; ainf := ainf h; ahdr := ahdr h; adbg := v; linf := linf h;
     lhdr := lhdr h; ldbg := ldbg h; dhdr := dhdr h; dpak := dpak h; file := file h;
     fpos := fpos h; stack := stack h; layerAssetIDs := layerAssetIDs h; heap := heap h |}.
Definition set_linf v (h : Hip) : Hip :=
  {| pver := pver h; pflg := pflg h; pcnt := pcnt h; pcrt := pcrt h; pmod := pmod h;
     plat := plat h; ainf := ainf h; ahdr := ahdr h; adbg := adbg h; linf := v;
     lhdr := lhdr h; ldbg := ldbg h; dhdr := dhdr h; dpak := dpak h; file := file h;
     fpos := fpos h; stack := stack h; layerAssetIDs := layerAssetIDs h; heap := heap h |}.
Definition set_lhdr v (h : Hip) : Hip :=
  {| pver := pver h; pflg := pflg h; pcnt := pcnt h; pcrt := pcrt h; pmod := pmod h;
     plat := plat h; ainf := ainf h; ahdr := ahdr h; adbg := adbg h; linf := linf h;
     lhdr := v; ldbg := ldbg h; dhdr := dhdr h; dpak := dpak h; file := file h;
     fpos := fpos h; stack := stack h; layerAssetIDs := layerAssetIDs h; heap := heap h |}.
Definition set_ldbg v (h : Hip) : Hip :=
  {| pver := pver h; pflg := pflg h; pcnt := pcnt h; pcrt := pcrt h; pmod := pmod h;
     plat := plat h; ainf := ainf h; ahdr := ahdr h; adbg := adbg h; linf := linf h;
     lhdr := lhdr h; ldbg := v; dhdr := dhdr h; dpak := dpak h; file := file h;
     fpos := fpos h; stack := stack h; layerAssetIDs := layerAssetIDs h; heap := heap h |}.
Definition set_dhdr v (h : Hip) : Hip :=
  {| pver := pver h; pflg := pflg h; pcnt := pcnt h; pcrt := pcrt h; pmod := pmod h;
     plat := plat h; ainf := ainf h; ahdr := ahdr h; adbg := adbg h; linf := linf h;
     lhdr := lhdr h; ldbg := ldbg h; dhdr := v; dpak := dpak h; file := file h;
     fpos := fpos h; stack := stack h; layerAssetIDs := layerAssetIDs h; heap := heap h |}.
Definition set_dpak v (h : Hip) : Hip :=
  {| pver := pver h; pflg := pflg h; pcnt := pcnt h; pcrt := pcrt h; pmod := pmod h;
     plat := plat h; ainf := ainf h; ahdr := ahdr h; adbg := adbg h; linf := linf h;
     lhdr := lhdr h; ldbg := ldbg h; dhdr := dhdr h; dpak := v; file := file h;
     fpos := fpos h; stack := stack h; layerAssetIDs := layerAssetIDs h; heap := heap h |}.
Definition set_fpos v (h : Hip) : Hip :=
  {| pver := pver h; pflg := pflg h; pcnt := pcnt h; pcrt := pcrt h; pmod := pmod h;
     plat := plat h; ainf := ainf h; ahdr := ahdr h; adbg := adbg h; linf := linf h;
     lhdr := lhdr h; ldbg := ldbg h; dhdr := dhdr h; dpak := dpak h; file := file h;
     fpos := v; stack := stack h; layerAssetIDs := layerAssetIDs h; heap := heap h |}.
Definition set_stack v (h : Hip) : Hip :=
  {| pver := pver h; pflg := pflg h; pcnt := pcnt h; pcrt := pcrt h; pmod := pmod h;
     plat := plat h; ainf := ainf h; ahdr := ahdr h; adbg := adbg h; linf := linf h;
     lhdr := lhdr h; ldbg := ldbg h; dhdr := dhdr h; dpak := dpak h; file := file h;
     fpos := fpos h; stack := v; layerAssetIDs := layerAssetIDs h; heap := heap h |}.
Definition set_layerAssetIDs v (h : Hip) : Hip :=
  {| pver := pver h; pflg := pflg h; pcnt := pcnt h; pcrt := pcrt h; pmod := pmod h;
     plat := plat h; ainf := ainf h; ahdr := ahdr h; adbg := adbg h; linf := linf h;
     lhdr := lhdr h; ldbg := ldbg h; dhdr := dhdr h; dpak := dpak h; file := file h;
     fpos := fpos h; stack := stack h; layerAssetIDs := v; heap := heap h |}.
Definition set_heap v (h : Hip) : Hip :=
  {| pver := pver h; pflg := pflg h; pcnt := pcnt h; pcrt := pcrt h; pmod := pmod h;
     plat := plat h; ainf := ainf h; ahdr := ahdr h; adbg := adbg h; linf := linf h;
     lhdr := lhdr h; ldbg := ldbg h; dhdr := dhdr h; dpak := dpak h; file := file h;
     fpos := fpos h; stack := stack h; layerAssetIDs := layerAssetIDs h; heap := v |}.

Definition AHDR0 : AHDR :=
  {| id := 0; type := 0; offset := 0; size := 0; plus := 0; flags := 0;
     data := None |}.
Definition ADBG0 : ADBG :=
  {| align := 0; name := EmptyString; filename := EmptyString; checksum := 0 |}.
Definition LHDR0 : LHDR :=
  {| lhdr_type := 0; lhdr_assetCount := 0; assetIDs := None |}.
Definition LDBG0 : LDBG := {| ldbg_ldbg := 0 |}.

(** [Hip::Hip] ([memset] to zero) followed by a successful
    [Hip::open] on a file with the given bytes. *)
Definition open (bytes : list byte) : Hip :=
  {| pver := {| subVersion := 0; clientVersion := 0; compatVersion := 0 |};
     pflg := {| pflg_flags := 0 |};
     pcnt := {| assetCount := 0; layerCount := 0; maxAssetSize := 0;
                maxLayerSize := 0; maxXformAssetSize := 0 |};
     pcrt := {| pcrt_time := 0; pcrt_string := EmptyString |};
     pmod := {| pmod_time := 0 |};
     plat := {| plat_exists := false; plat_id := 0; stringCount := 0;
                strings := repeat EmptyString 4 |};
     ainf := {| ainf_ainf := 0 |}; ahdr := []; adbg := [];
     linf := {| linf_linf := 0 |}; lhdr := []; ldbg := [];
     dhdr := {| dhdr_dhdr := 0 |};
     dpak := {| padAmount := 0; dpak_data := None |};
     file := bytes; fpos := 0; stack := []; layerAssetIDs := [];
     heap := [] |}.

(** Array access [a[i]] and store [a[i] = v]; [None] outside the
    array. *)
Definition at_ {A} (l : list A) (i : Z) : option A :=
  if i <? 0 then None else nth_error l (Z.to_nat i).

Fixpoint store_nat {A} (l : list A) (n : nat) (v : A) : option (list A) :=
  match l, n with
  | [], _ => None
  | _ :: t, O => Some (v :: t)
  | x :: t, S n' =>
      match store_nat t n' v with
      | Some t' => Some (x :: t')
      | None => None
      end
  end.

Definition store {A} (l : list A) (i : Z) (v : A) : option (list A) :=
  if i <? 0 then None else store_nat l (Z.to_nat i) v.

(** ** State and faults *)

Inductive fault :=
| ReturnedFalse        (* a [readXXXX] member returned [false] *)
| AssertionFailed      (* [assert] aborted the process *)
| InvalidParameter     (* [sprintf_s] found its buffer too small *)
| UndefinedBehaviour   (* access outside an allocated object *)
| FuelExhausted.       (* the model ran out of loop iterations *)

Inductive outcome (A : Type) :=
| Done (a : A)
| Stop (f : fault).
Arguments Stop {A} f.

(** Computations over a mutable state [S]. *)
Definition St (S A : Type) := S -> outcome (A * S).

Definition ret {S A} (a : A) : St S A := fun h => Done (a, h).
Definition bind {S A B} (m : St S A) (k : A -> St S B) : St S B :=
  fun h => match m h with
           | Done (a, h') => k a h'
           | Stop f => Stop f
           end.
Definition stop {S A} (f : fault) : St S A := fun _ => Stop f.
Definition get {S} : St S S := fun h => Done (h, h).
Definition modify {S} (f : S -> S) : St S unit := fun h => Done (tt, f h).

Declare Scope hip_scope.
Delimit Scope hip_scope with hip.
Notation "x <- m ;; k" := (bind m (fun x => k))
  (at level 61, m at next level, right associativity) : hip_scope.
Notation "m ;;; k" := (bind m (fun _ => k))
  (at level 61, right associativity) : hip_scope.
Local Open Scope hip_scope.

(** [if (!readXXXX()) return false;] on an [option] result. *)
Definition orFalse {S A} (m : St S (option A)) : St S A :=
  r <- m ;; match r with Some a => ret a | None => stop ReturnedFalse end.

(** An array access that is undefined outside the array. *)
Definition defined {S A} (o : option A) : St S A :=
  match o with Some a => ret a | None => stop UndefinedBehaviour end.

(** [assert(b)]; [NDEBUG = true] means assertions are compiled out. *)
Definition assert {S} (NDEBUG : bool) (b : bool) : St S unit :=
  if NDEBUG || b then ret tt else stop AssertionFailed.

(** The reader works on the [Hip] object. *)
Definition M := St Hip.

(** ** The file *)

(** [fread] of [n] bytes: what is left of the file, at most [n] bytes;
    the position advances by the number of bytes obtained. *)
Definition fread (n : Z) : M (list byte) := fun h =>
  let got := firstn (Z.to_nat n) (skipn (Z.to_nat (fpos h)) (file h)) in
  Done (got, set_fpos (fpos h + Z.of_nat (length got)) h).

Definition ftell : M Z := fun h => Done (fpos h, h).

(** [fseek(file, d, SEEK_CUR)] and [fseek(file, p, SEEK_SET)] with
    non-negative arguments; seeking past the end of the file is
    allowed, later reads then obtain nothing. *)
Definition fseek_cur (d : Z) : M unit :=
  modify (fun h => set_fpos (fpos h + d) h).
Definition fseek_set (p : Z) : M unit := modify (set_fpos p).

(** The four bytes [fread] stored at [&val], read back as a
    [uint32_t] by a little-endian host. *)
Definition host32 (b0 b1 b2 b3 : byte) : Z :=
  byteZ b0 + byteZ b1 * 2 ^ 8 + byteZ b2 * 2 ^ 16 + byteZ b3 * 2 ^ 24.

(** The [// Swap endian] expression of [readLong]. *)
Definition swap_endian (val : Z) : Z :=
  Z.lor (Z.lor (Z.lor (Z.shiftr (Z.land val 0xFF000000) 24)
                      (Z.shiftr (Z.land val 0x00FF0000) 8))
               (Z.shiftl (Z.land val 0x0000FF00) 8))
        (Z.shiftl (Z.land val 0x000000FF) 24).

Definition readLong : M (option Z) :=
  bs <- fread 4 ;;
  match bs with
  | [b0; b1; b2; b3] => ret (Some (swap_endian (host32 b0 b1 b2 b3)))
  | _ => ret None
  end.

Definition isNUL (c : byte) : bool := byteZ c =? 0.

(** First loop of [readString]: [n] is [bufsize - len], [buf] the
    characters stored so far and [c] the last character read. *)
Fixpoint readString_fill (n : nat) (buf : list byte) (c : byte)
  : M (option (list byte * byte)) :=
  match n with
  | O => ret (Some (buf, c))
  | S n' =>
      bs <- fread 1 ;;
      match bs with
      | [c'] =>
          if isNUL c' then ret (Some (buf ++ [c'], c'))
          else readString_fill n' (buf ++ [c']) c'
      | _ => ret None
      end
  end.

(** Second loop of [readString] over the bytes left in the file: the
    number of bytes read up to and including the first NUL. *)
Fixpoint skip_to_NUL (rest : list byte) (n : Z) : option Z :=
  match rest with
  | [] => None
  | c :: r => if isNUL c then Some (n + 1) else skip_to_NUL r (n + 1)
  end.

Definition readString_skip : M (option Z) := fun h =>
  let rest := skipn (Z.to_nat (fpos h)) (file h) in
  match skip_to_NUL rest 0 with
  | Some k => Done (Some k, set_fpos (fpos h + k) h)
  | None => Done (None, set_fpos (fpos h + Z.of_nat (length rest)) h)
  end.

(** The C string held by a character array. *)
Fixpoint c_str (buf : list byte) : list byte :=
  match buf with
  | [] => []
  | c :: r => if isNUL c then [] else c :: c_str r
  end.

Definition readString (bufsize : Z) : M string :=
  r <- orFalse (readString_fill (Z.to_nat bufsize) [] x00) ;;
  let '(buf, c) := r in
  let len := Z.of_nat (length buf) in
  let buf :=
    if 0 <? bufsize
    then match store buf (bufsize - 1) x00 with
         | Some b => b
         | None => buf   (* the store lands after the terminator *)
         end
    else buf in
  len <- (if (bufsize =? 0) || ((len =? bufsize) && negb (isNUL c))
          then k <- orFalse readString_skip ;; ret (len + k)
          else ret len) ;;
  (if Z.odd len then fseek_cur 1 else ret tt) ;;;
  ret (string_of_list_byte (c_str buf)).

Section Reader.

Variable NDEBUG : bool.

(** ** Blocks *)

Definition enterBlock : M Z :=
  h <- get ;;
  assert NDEBUG (stackDepth h <? HIP_MAX_STACK_DEPTH) ;;;
  if stackDepth h >=? HIP_MAX_STACK_DEPTH then ret 0 else
  if match stack h with
     | [] => false
     | blk :: _ => wrap32 (fpos h) >=? endpos blk
     end
  then ret 0 (* end of current block reached (not an error) *)
  else
    i <- readLong ;;
    match i with
    | None => ret 0
    | Some i =>
        len <- readLong ;;
        match len with
        | None => ret 0
        | Some len =>
            pos <- ftell ;;
            modify (fun h => set_stack
              ({| blk_id := i; endpos := wrap32 (pos + len) |} :: stack h) h) ;;;
            ret i
        end
    end.

Definition exitBlock : M unit :=
  h <- get ;;
  assert NDEBUG (0 <? stackDepth h) ;;;
  match stack h with
  | [] => ret tt (* stack depth underflow *)
  | blk :: rest => modify (set_stack rest) ;;; fseek_set (endpos blk)
  end.

(** ** Leaf chunks *)

Definition readHIPA : M unit := ret tt.

Definition readPVER : M unit :=
  a <- orFalse readLong ;;
  modify (fun h => set_pver {| subVersion := a;
    clientVersion := clientVersion (pver h);
    compatVersion := compatVersion (pver h) |} h) ;;;
  b <- orFalse readLong ;;
  modify (fun h => set_pver {| subVersion := subVersion (pver h);
    clientVersion := b; compatVersion := compatVersion (pver h) |} h) ;;;
  c <- orFalse readLong ;;
  modify (fun h => set_pver {| subVersion := subVersion (pver h);
    clientVersion := clientVersion (pver h); compatVersion := c |} h).

Definition readPFLG : M unit :=
  a <- orFalse readLong ;; modify (set_pflg {| pflg_flags := a |}).

Definition readPCNT : M unit :=
  a <- orFalse readLong ;;
  modify (fun h => let p := pcnt h in set_pcnt {| assetCount := a;
    layerCount := layerCount p; maxAssetSize := maxAssetSize p;
    maxLayerSize := maxLayerSize p;
    maxXformAssetSize := maxXformAssetSize p |} h) ;;;
  b <- orFalse readLong ;;
  modify (fun h => let p := pcnt h in set_pcnt {| assetCount := assetCount p;
    layerCount := b; maxAssetSize := maxAssetSize p;
    maxLayerSize := maxLayerSize p;
    maxXformAssetSize := maxXformAssetSize p |} h) ;;;
  c <- orFalse readLong ;;
  modify (fun h => let p := pcnt h in set_pcnt {| assetCount := assetCount p;
    layerCount := layerCount p; maxAssetSize := c;
    maxLayerSize := maxLayerSize p;
    maxXformAssetSize := maxXformAssetSize p |} h) ;;;
  d <- orFalse readLong ;;
  modify (fun h => let p := pcnt h in set_pcnt {| assetCount := assetCount p;
    layerCount := layerCount p; maxAssetSize := maxAssetSize p;
    maxLayerSize := d;
    maxXformAssetSize := maxXformAssetSize p |} h) ;;;
  e <- orFalse readLong ;;
  modify (fun h => let p := pcnt h in set_pcnt {| assetCount := assetCount p;
    layerCount := layerCount p; maxAssetSize := maxAssetSize p;
    maxLayerSize := maxLayerSize p; maxXformAssetSize := e |} h).

Definition readPCRT : M unit :=
  t <- orFalse readLong ;;
  modify (fun h => set_pcrt {| pcrt_time := t;
    pcrt_string := pcrt_string (pcrt h) |} h) ;;;
  s <- readString HIP_STRING_SIZE ;;
  modify (fun h => set_pcrt {| pcrt_time := pcrt_time (pcrt h);
    pcrt_string := s |} h).

Definition readPMOD : M unit :=
  t <- orFalse readLong ;; modify (set_pmod {| pmod_time := t |}).

(** The [while] loop of [readPLAT]; it runs at most
    [HIP_MAX_PLATFORM_STRINGS + 1] times.  The warning it prints
    before it breaks goes to the standard output, which is not part
    of the object: the standard output is modelled from the report
    on, as the text appended to what was printed before. *)
Fixpoint readPLAT_strings (n : nat) (blk : Block) : M unit :=
  match n with
  | O => stop FuelExhausted
  | S n' =>
      h <- get ;;
      if wrap32 (fpos h) <? endpos blk then
        if stringCount (plat h) >=? HIP_MAX_PLATFORM_STRINGS
        then ret tt (* warning printed, break *)
        else
          let k := stringCount (plat h) in
          modify (fun h => let p := plat h in set_plat {|
            plat_exists := plat_exists p; plat_id := plat_id p;
            stringCount := k + 1; strings := strings p |} h) ;;;
          s <- readString HIP_STRING_SIZE ;;
          h <- get ;;
          l <- defined (store (strings (plat h)) k s) ;;
          modify (fun h => let p := plat h in set_plat {|
            plat_exists := plat_exists p; plat_id := plat_id p;
            stringCount := stringCount p; strings := l |} h) ;;;
          readPLAT_strings n' blk
      else ret tt
  end.

Definition readPLAT : M unit :=
  modify (fun h => let p := plat h in set_plat {| plat_exists := true;
    plat_id := plat_id p; stringCount := stringCount p;
    strings := strings p |} h) ;;;
  i <- orFalse readLong ;;
  modify (fun h => let p := plat h in set_plat {|
    plat_exists := plat_exists p; plat_id := i;
    stringCount := stringCount p; strings := strings p |} h) ;;;
  h <- get ;;
  blk <- defined (hd_error (stack h)) ;;
  readPLAT_strings (S (Z.to_nat HIP_MAX_PLATFORM_STRINGS)) blk.

Definition readAINF : M unit :=
  a <- orFalse readLong ;; modify (set_ainf {| ainf_ainf := a |}).

Definition readLINF : M unit :=
  a <- orFalse readLong ;; modify (set_linf {| linf_linf := a |}).

Definition readDHDR : M unit :=
  a <- orFalse readLong ;; modify (set_dhdr {| dhdr_dhdr := a |}).

(** ** The dictionary *)

Definition modify_ahdr (i : Z) (f : AHDR -> AHDR) : M unit :=
  h <- get ;;
  a <- defined (at_ (ahdr h) i) ;;
  l <- defined (store (ahdr h) i (f a)) ;;
  modify (set_ahdr l).

Definition modify_adbg (i : Z) (f : ADBG -> ADBG) : M unit :=
  h <- get ;;
  a <- defined (at_ (adbg h) i) ;;
  l <- defined (store (adbg h) i (f a)) ;;
  modify (set_adbg l).

Definition modify_lhdr (i : Z) (f : LHDR -> LHDR) : M unit :=
  h <- get ;;
  a <- defined (at_ (lhdr h) i) ;;
  l <- defined (store (lhdr h) i (f a)) ;;
  modify (set_lhdr l).

Definition readADBG (i : Z) : M unit :=
  v <- orFalse readLong ;;
  modify_adbg i (fun a => {| align := v; name := name a;
    filename := filename a; checksum := checksum a |}) ;;;
  s <- readString HIP_STRING_SIZE ;;
  modify_adbg i (fun a => {| align := align a; name := s;
    filename := filename a; checksum := checksum a |}) ;;;
  s <- readString HIP_STRING_SIZE ;;
  modify_adbg i (fun a => {| align := align a; name := name a;
    filename := s; checksum := checksum a |}) ;;;
  v <- orFalse readLong ;;
  modify_adbg i (fun a => {| align := align a; name := name a;
    filename := filename a; checksum := v |}).

Fixpoint readAHDR_blocks (fuel : nat) (i : Z) : M unit :=
  match fuel with
  | O => stop FuelExhausted
  | S fuel' =>
      cid <- enterBlock ;;
      if cid =? 0 then ret tt else
      (if cid =? BLKID "A" "D" "B" "G" then readADBG i else ret tt) ;;;
      exitBlock ;;;
      readAHDR_blocks fuel' i
  end.

Definition readAHDR (fuel : nat) (i : Z) : M unit :=
  v <- orFalse readLong ;;
  modify_ahdr i (fun a => {| id := v; type := type a; offset := offset a;
    size := size a; plus := plus a; flags := flags a; data := data a |}) ;;;
  v <- orFalse readLong ;;
  modify_ahdr i (fun a => {| id := id a; type := v; offset := offset a;
    size := size a; plus := plus a; flags := flags a; data := data a |}) ;;;
  v <- orFalse readLong ;;
  modify_ahdr i (fun a => {| id := id a; type := type a; offset := v;
    size := size a; plus := plus a; flags := flags a; data := data a |}) ;;;
  v <- orFalse readLong ;;
  modify_ahdr i (fun a => {| id := id a; type := type a; offset := offset a;
    size := v; plus := plus a; flags := flags a; data := data a |}) ;;;
  v <- orFalse readLong ;;
  modify_ahdr i (fun a => {| id := id a; type := type a; offset := offset a;
    size := size a; plus := v; flags := flags a; data := data a |}) ;;;
  v <- orFalse readLong ;;
  modify_ahdr i (fun a => {| id := id a; type := type a; offset := offset a;
    size := size a; plus := plus a; flags := v; data := data a |}) ;;;
  readAHDR_blocks fuel i.

Fixpoint readATOC_blocks (fuel : nat) (i : Z) : M Z :=
  match fuel with
  | O => stop FuelExhausted
  | S fuel' =>
      cid <- enterBlock ;;
      if cid =? 0 then ret i else
      i' <- (if cid =? BLKID "A" "I" "N" "F" then readAINF ;;; ret i
             else if cid =? BLKID "A" "H" "D" "R"
                  then readAHDR fuel' i ;;; ret (i + 1)
             else ret i) ;;
      exitBlock ;;;
      readATOC_blocks fuel' i'
  end.

Definition readATOC (fuel : nat) : M unit :=
  i <- readATOC_blocks fuel 0 ;;
  h <- get ;;
  assert NDEBUG (wrap32 i =? assetCount (pcnt h)).

Definition readLDBG (i : Z) : M unit :=
  v <- orFalse readLong ;;
  h <- get ;;
  l <- defined (store (ldbg h) i {| ldbg_ldbg := v |}) ;;
  modify (set_ldbg l).

(** The [for] loop of [readLHDR]: [n] ids are still to be read, the
    next one goes to [assetIDs[j]], where the pointer [assetIDs] is
    [layerAssetIDs + ptr]. *)
Fixpoint readLHDR_ids (n : nat) (ptr j : Z) : M unit :=
  match n with
  | O => ret tt
  | S n' =>
      v <- orFalse readLong ;;
      h <- get ;;
      l <- defined (store (layerAssetIDs h) (ptr + j) v) ;;
      modify (set_layerAssetIDs l) ;;;
      readLHDR_ids n' ptr (j + 1)
  end.

Fixpoint readLHDR_blocks (fuel : nat) (i : Z) : M unit :=
  match fuel with
  | O => stop FuelExhausted
  | S fuel' =>
      cid <- enterBlock ;;
      if cid =? 0 then ret tt else
      (if cid =? BLKID "L" "D" "B" "G" then readLDBG i else ret tt) ;;;
      exitBlock ;;;
      readLHDR_blocks fuel' i
  end.

Definition readLHDR (fuel : nat) (i ptr : Z) : M unit :=
  v <- orFalse readLong ;;
  modify_lhdr i (fun a => {| lhdr_type := v;
    lhdr_assetCount := lhdr_assetCount a; assetIDs := assetIDs a |}) ;;;
  v <- orFalse readLong ;;
  modify_lhdr i (fun a => {| lhdr_type := lhdr_type a;
    lhdr_assetCount := v; assetIDs := assetIDs a |}) ;;;
  (if v =? 0 then ret tt else
     modify_lhdr i (fun a => {| lhdr_type := lhdr_type a;
       lhdr_assetCount := lhdr_assetCount a; assetIDs := Some ptr |}) ;;;
     readLHDR_ids (Z.to_nat v) ptr 0) ;;;
  readLHDR_blocks fuel i.

Fixpoint readLTOC_blocks (fuel : nat) (i ptr : Z) : M (Z * Z) :=
  match fuel with
  | O => stop FuelExhausted
  | S fuel' =>
      cid <- enterBlock ;;
      if cid =? 0 then ret (i, ptr) else
      r <- (if cid =? BLKID "L" "I" "N" "F"
            then readLINF ;;; ret (i, ptr)
            else if cid =? BLKID "L" "H" "D" "R"
                 then readLHDR fuel' i ptr ;;;
                      h <- get ;;
                      l <- defined (at_ (lhdr h) i) ;;
                      ret (i + 1, ptr + lhdr_assetCount l)
            else ret (i, ptr)) ;;
      exitBlock ;;;
      readLTOC_blocks fuel' (fst r) (snd r)
  end.

Definition readLTOC (fuel : nat) : M unit :=
  r <- readLTOC_blocks fuel 0 0 ;;
  h <- get ;;
  assert NDEBUG (snd r =? assetCount (pcnt h)) ;;;
  assert NDEBUG (wrap32 (fst r) =? layerCount (pcnt h)).

Fixpoint readDICT_blocks (fuel : nat) : M unit :=
  match fuel with
  | O => stop FuelExhausted
  | S fuel' =>
      cid <- enterBlock ;;
      if cid =? 0 then ret tt else
      (if cid =? BLKID "A" "T" "O" "C" then readATOC fuel'
       else if cid =? BLKID "L" "T" "O" "C" then readLTOC fuel'
       else ret tt) ;;;
      exitBlock ;;;
      readDICT_blocks fuel'
  end.

(** The three [malloc]s are taken to succeed.  [layerAssetIDs] is
    not initialised by the code; it is only read where [readLHDR]
    has written, so its initial contents are not observable. *)
Definition readDICT (fuel : nat) : M unit :=
  modify (fun h =>
    set_layerAssetIDs (repeat 0 (Z.to_nat (assetCount (pcnt h)))) h) ;;;
  modify (fun h =>
    set_adbg (repeat ADBG0 (Z.to_nat (assetCount (pcnt h))))
      (set_ahdr (repeat AHDR0 (Z.to_nat (assetCount (pcnt h)))) h)) ;;;
  modify (fun h =>
    set_ldbg (repeat LDBG0 (Z.to_nat (layerCount (pcnt h))))
      (set_lhdr (repeat LHDR0 (Z.to_nat (layerCount (pcnt h)))) h)) ;;;
  readDICT_blocks fuel.

(** ** The stream *)

(** The [for] loop of [readDPAK]: asset [i] and the [n - 1] after it
    get their view into buffer [b]. *)
Fixpoint readDPAK_views (n : nat) (i : Z) (b : nat) (dataStart : Z)
  : M unit :=
  match n with
  | O => ret tt
  | S n' =>
      modify_ahdr i (fun a => {| id := id a; type := type a;
        offset := offset a; size := size a; plus := plus a;
        flags := flags a;
        data := Some (b, offset a - dataStart) |}) ;;;
      readDPAK_views n' (i + 1) b dataStart
  end.

(** [malloc(dataSize)] is taken to succeed. *)
Definition readDPAK : M unit :=
  h <- get ;;
  if assetCount (pcnt h) =? 0 then ret tt else
  pad <- orFalse readLong ;;
  modify (fun h => set_dpak {| padAmount := pad;
    dpak_data := dpak_data (dpak h) |} h) ;;;
  fseek_cur pad ;;;
  pos <- ftell ;;
  let dataStart := wrap32 pos in
  h <- get ;;
  blk <- defined (hd_error (stack h)) ;;
  let dataSize := wrap32 (endpos blk - dataStart) in
  let b := length (heap h) in
  bs <- fread dataSize ;;
  modify (fun h => set_heap (heap h ++ [bs])
    (set_dpak {| padAmount := padAmount (dpak h);
                 dpak_data := Some b |} h)) ;;;
  if negb (Z.of_nat (length bs) =? dataSize) then stop ReturnedFalse else
  h <- get ;;
  readDPAK_views (Z.to_nat (assetCount (pcnt h))) 0 b dataStart.

Fixpoint readSTRM (fuel : nat) : M unit :=
  match fuel with
  | O => stop FuelExhausted
  | S fuel' =>
      cid <- enterBlock ;;
      if cid =? 0 then ret tt else
      (if cid =? BLKID "D" "H" "D" "R" then readDHDR
       else if cid =? BLKID "D" "P" "A" "K" then readDPAK
       else ret tt) ;;;
      exitBlock ;;;
      readSTRM fuel'
  end.

(** ** The package *)

Fixpoint readPACK (fuel : nat) : M unit :=
  match fuel with
  | O => stop FuelExhausted
  | S fuel' =>
      cid <- enterBlock ;;
      if cid =? 0 then ret tt else
      (if cid =? BLKID "P" "V" "E" "R" then readPVER
       else if cid =? BLKID "P" "F" "L" "G" then readPFLG
       else if cid =? BLKID "P" "C" "N" "T" then readPCNT
       else if cid =? BLKID "P" "C" "R" "T" then readPCRT
       else if cid =? BLKID "P" "M" "O" "D" then readPMOD
       else if cid =? BLKID "P" "L" "A" "T" then readPLAT
       else ret tt) ;;;
      exitBlock ;;;
      readPACK fuel'
  end.

(** ** [Hip::read] *)

Fixpoint read_blocks (fuel : nat) (valid : bool) : M unit :=
  match fuel with
  | O => stop FuelExhausted
  | S fuel' =>
      cid <- enterBlock ;;
      if cid =? 0 then ret tt else
      valid' <- (if cid =? BLKID "H" "I" "P" "A"
                 then readHIPA ;;; ret true
                 else if cid =? BLKID "P" "A" "C" "K"
                      then readPACK fuel' ;;; ret valid
                 else if cid =? BLKID "D" "I" "C" "T"
                      then readDICT fuel' ;;; ret valid
                 else if cid =? BLKID "S" "T" "R" "M"
                      then readSTRM fuel' ;;; ret valid
                 else ret valid) ;;
      exitBlock ;;;
      if negb valid' then stop ReturnedFalse (* Not a valid HIP file *)
      else read_blocks fuel' valid'
  end.

(** [read] returning [true] is [Done]; returning [false] is
    [Stop ReturnedFalse]. *)
Definition read (fuel : nat) : M unit := read_blocks fuel false.

End Reader.

(** [Hip::open] then [Hip::read] on a file: the loaded object. *)
Definition load (NDEBUG : bool) (fuel : nat) (bytes : list byte)
  : outcome Hip :=
  match read NDEBUG fuel (open bytes) with
  | Done (_, h) => Done h
  | Stop f => Stop f
  end.

(** ** Writing test archives *)

Definition be32 (x : Z) : list byte :=
  [byte_of_Z (Z.shiftr x 24); byte_of_Z (Z.shiftr x 16);
   byte_of_Z (Z.shiftr x 8); byte_of_Z x].

Definition chunk (tag : string) (body : list byte) : list byte :=
  list_byte_of_string tag ++ be32 (Z.of_nat (length body)) ++ body.

(** A NUL-terminated string padded to an even number of bytes. *)
Definition padded (s : string) : list byte :=
  let bs := list_byte_of_string s ++ [x00] in
  if Nat.odd (length bs) then bs ++ [x00] else bs.

Definition PCNT_chunk (assets layers : Z) : list byte :=
  chunk "PCNT" (be32 assets ++ be32 layers ++ be32 0 ++ be32 0 ++ be32 0).

Definition PACK_chunk (assets layers : Z) (created : string) : list byte :=
  chunk "PACK"
    (chunk "PVER" (be32 2 ++ be32 0x000A000F ++ be32 1)
     ++ chunk "PFLG" (be32 0x2E)
     ++ PCNT_chunk assets layers
     ++ chunk "PCRT" (be32 0x3F000000 ++ padded created)
     ++ chunk "PMOD" (be32 0x3F000000)).

(** An [AHDR] chunk with its [ADBG]: id, type, offset, size, name and
    checksum. *)
Definition AHDR_chunk (i t off sz : Z) (nm : string) (ck : Z) : list byte :=
  chunk "AHDR"
    (be32 i ++ be32 t ++ be32 off ++ be32 sz ++ be32 0 ++ be32 0
     ++ chunk "ADBG" (be32 16 ++ padded nm ++ padded nm ++ be32 ck)).

(** An [LHDR] chunk with its [LDBG]: type and member ids. *)
Definition LHDR_chunk (t : Z) (ids : list Z) : list byte :=
  chunk "LHDR"
    (be32 t ++ be32 (Z.of_nat (length ids)) ++ concat (map be32 ids)
     ++ chunk "LDBG" (be32 0xFFFFFFFF)).

Definition DICT_chunk (assets layers : list (list byte)) : list byte :=
  chunk "DICT"
    (chunk "ATOC" (chunk "AINF" (be32 0) ++ concat assets)
     ++ chunk "LTOC" (chunk "LINF" (be32 0) ++ concat layers)).

Definition STRM_chunk (payload : list byte) : list byte :=
  chunk "STRM"
    (chunk "DHDR" (be32 0xFFFFFFFF)
     ++ chunk "DPAK" (be32 0 ++ payload)).

(** The offset in the file of the first byte after [prefix] followed
    by the headers of [STRM], [DHDR] and [DPAK] and the pad amount. *)
Definition data_start (prefix : list byte) : Z :=
  Z.of_nat (length prefix) + 8 + 12 + 8 + 4.

Definition archive (created : string) (nlayers : Z)
  (assets : Z -> list (list byte)) (layers : list (list byte))
  (payload : list byte) : list byte :=
  let n := Z.of_nat (length (assets 0)) in
  let prefix s := chunk "HIPA" [] ++ PACK_chunk n nlayers created
                  ++ DICT_chunk (assets s) layers in
  prefix (data_start (prefix 0)) ++ STRM_chunk payload.

(** * [main.cpp] *)

(** ** Rendering *)

Definition hex_digit (d : Z) : ascii :=
  ascii_of_N (Z.to_N (if d <? 10 then 48 + d else 55 + d)).

(** The [n] low hexadecimal digits of [x], most significant first. *)
Fixpoint hex_digits (n : nat) (x : Z) : string :=
  match n with
  | O => EmptyString
  | S n' => (hex_digits n' (x / 16)
             ++ String (hex_digit (x mod 16)) EmptyString)%string
  end.

Fixpoint dec_digits (n : nat) (x : Z) : string :=
  match n with
  | O => EmptyString
  | S n' => (dec_digits n' (x / 10)
             ++ String (hex_digit (x mod 10)) EmptyString)%string
  end.

(** Leading zeros removed, the last digit kept. *)
Fixpoint strip0 (s : string) : string :=
  match s with
  | String c r =>
      match r with
      | EmptyString => s
      | String _ _ => if (c =? "0")%char then strip0 r else s
      end
  | EmptyString => s
  end.

(** A [uint32_t] printed with [%08X], [%X] and [%d]. *)
Definition print_08X (x : Z) : string := hex_digits 8 (wrap32 x).
Definition print_X (x : Z) : string := strip0 (hex_digits 8 (wrap32 x)).
Definition print_d (x : Z) : string :=
  let v := to_int x in
  if v <? 0 then String "-" (strip0 (dec_digits 10 (- v)))
  else strip0 (dec_digits 10 v).

(** The value given to a formatting call: nothing ([nullptr]), a
    [uint32_t] or a C string. *)
Inductive arg :=
| ANone
| AInt (x : Z)
| AStr (s : string).

Definition arg_string (val : arg) : string :=
  match val with AStr s => s | _ => EmptyString end.
Definition arg_int (val : arg) : Z :=
  match val with AInt x => x | _ => 0 end.

(** [printf]-style formatting with the conversions [main.cpp] uses;
    every call there passes the kind of value its format names. *)
Fixpoint sprintf (fmt : string) (val : arg) : string :=
  match fmt with
  | EmptyString => EmptyString
  | String "%" (String "s" r) => (arg_string val ++ sprintf r val)%string
  | String "%" (String "d" r) =>
      (print_d (arg_int val) ++ sprintf r val)%string
  | String "%" (String "X" r) =>
      (print_X (arg_int val) ++ sprintf r val)%string
  | String "%" (String "0" (String "8" (String "X" r))) =>
      (print_08X (arg_int val) ++ sprintf r val)%string
  | String c r => String c (sprintf r val)
  end.

(** [sprintf_s(buf, sizeOfBuffer, fmt, val)]: the text and its
    terminator must fit the buffer. *)
Definition sprintf_s {S} (sizeOfBuffer : Z) (fmt : string) (val : arg)
  : St S string :=
  let s := sprintf fmt val in
  if Z.of_nat (String.length s) <? sizeOfBuffer then ret s
  else stop InvalidParameter.

(** The double quote that the formats of quoted strings contain. *)
Definition dquote : string := String "034" EmptyString.

(** ** Diffs and counters *)

Inductive DiffType := Addition | Deletion | Modification.

(** [char left[64]; char right[64]] as the C strings they hold. *)
Record Diff := { diff_type : DiffType; left : string; right : string }.

(** The global counters; [int] is not bounded here. *)
Record Counts := { additionCount : Z; deletionCount : Z;
                   modificationCount : Z; countsEnabled : bool }.

Definition D := St Counts.

Definition additionCount_incr : D unit :=
  modify (fun c => {| additionCount := additionCount c + 1;
    deletionCount := deletionCount c;
    modificationCount := modificationCount c;
    countsEnabled := countsEnabled c |}).
Definition deletionCount_incr : D unit :=
  modify (fun c => {| additionCount := additionCount c;
    deletionCount := deletionCount c + 1;
    modificationCount := modificationCount c;
    countsEnabled := countsEnabled c |}).
Definition modificationCount_incr : D unit :=
  modify (fun c => {| additionCount := additionCount c;
    deletionCount := deletionCount c;
    modificationCount := modificationCount c + 1;
    countsEnabled := countsEnabled c |}).
Definition set_countsEnabled (b : bool) : D unit :=
  modify (fun c => {| additionCount := additionCount c;
    deletionCount := deletionCount c;
    modificationCount := modificationCount c;
    countsEnabled := b |}).

(** [ADDITION(diffs, fmt, val)] and its siblings: the vector passed by
    reference is returned with the new entry at its end. *)
Definition ADDITION (diffs : list Diff) (fmt : string) (val : arg)
  : D (list Diff) :=
  r <- sprintf_s 64 fmt val ;;
  c <- get ;;
  (if countsEnabled c then additionCount_incr else ret tt) ;;;
  ret (diffs ++ [{| diff_type := Addition; left := EmptyString;
                    right := r |}]).

Definition DELETION (diffs : list Diff) (fmt : string) (val : arg)
  : D (list Diff) :=
  l <- sprintf_s 64 fmt val ;;
  c <- get ;;
  (if countsEnabled c then deletionCount_incr else ret tt) ;;;
  ret (diffs ++ [{| diff_type := Deletion; left := l;
                    right := EmptyString |}]).

Definition MODIFICATION (diffs : list Diff) (fmt : string)
  (left right : arg) : D (list Diff) :=
  l <- sprintf_s 64 fmt left ;;
  r <- sprintf_s 64 fmt right ;;
  c <- get ;;
  (if countsEnabled c then modificationCount_incr else ret tt) ;;;
  ret (diffs ++ [{| diff_type := Modification; left := l; right := r |}]).

(** [if (cond) EMIT(diffs, ...);] *)
Definition when_ {S A} (cond : bool) (m : St S A) (a : A) : St S A :=
  if cond then m else ret a.

(** [// Remove newline from end to make diff cleaner]: [None] when
    [str[len-1]] lies before the array ([len] is 0). *)
Fixpoint drop_last_newline (s : string) : string :=
  match s with
  | EmptyString => EmptyString
  | String c EmptyString => if (c =? "010")%char then EmptyString else s
  | String c r => String c (drop_last_newline r)
  end.

Definition hackPCRTString (str : string) : option string :=
  let len := String.length str in
  if Nat.eqb len 0 then None else Some (drop_last_newline str).

(** ** Loops *)

(** [for (uint32_t i = i0; ...; i++)] run [n] times on a value the
    body updates. *)
Fixpoint for_loop {S A} (n : nat) (i : Z) (body : Z -> A -> St S A) (a : A)
  : St S A :=
  match n with
  | O => ret a
  | S n' => a' <- body i a ;; for_loop n' (i + 1) body a'
  end.

Definition for_ {S A} (count : Z) (body : Z -> A -> St S A) (a : A)
  : St S A :=
  for_loop (Z.to_nat count) 0 body a.

(** [for (x : container)]. *)
Fixpoint foreach {S A B} (l : list B) (body : B -> A -> St S A) (a : A)
  : St S A :=
  match l with
  | [] => ret a
  | x :: r => a' <- body x a ;; foreach r body a'
  end.

(** Loops that only read arrays: [None] when an access is outside. *)
Fixpoint ofor_loop {A} (n : nat) (i : Z) (body : Z -> A -> option A) (a : A)
  : option A :=
  match n with
  | O => Some a
  | S n' => match body i a with
            | Some a' => ofor_loop n' (i + 1) body a'
            | None => None
            end
  end.

Definition ofor {A} (count : Z) (body : Z -> A -> option A) (a : A)
  : option A :=
  ofor_loop (Z.to_nat count) 0 body a.

(** ** [std::map] and the index tables *)

(** [struct Index]; [-1] is the absent index. *)
Record Index := { oidx : Z; midx : Z }.
Definition Index0 : Index := {| oidx := -1; midx := -1 |}.
Definition set_oidx (i : Z) (a : Index) : Index :=
  {| oidx := i; midx := midx a |}.
Definition set_midx (i : Z) (a : Index) : Index :=
  {| oidx := oidx a; midx := i |}.

(** A map with [uint32_t] keys, held in increasing key order, which
    is the order in which [std::map] is traversed. *)
Definition map_ (V : Type) := list (Z * V).

Fixpoint map_find {V} (k : Z) (m : map_ V) : option V :=
  match m with
  | [] => None
  | (k', v) :: r => if k =? k' then Some v else map_find k r
  end.

(** [m[k] = f(m[k])], where [operator[]] first inserts the value [d]
    when the key is new. *)
Fixpoint map_update {V} (d : V) (k : Z) (f : V -> V) (m : map_ V) : map_ V :=
  match m with
  | [] => [(k, f d)]
  | (k', v) :: r =>
      if k <? k' then (k, f d) :: m
      else if k =? k' then (k', f v) :: r
      else (k', v) :: map_update d k f r
  end.

(** [m[k]] read. *)
Definition map_at {V} (d : V) (k : Z) (m : map_ V) : V :=
  match map_find k m with Some v => v | None => d end.

(** [std::unordered_set<uint32_t>]: [insert] and [find(id) != end()]. *)
Definition set_insert (x : Z) (s : list Z) : list Z := x :: s.
Definition set_mem (x : Z) (s : list Z) : bool := existsb (Z.eqb x) s.

(** [lhdr.assetIDs[j]]. *)
Definition layer_assetID (h : Hip) (l : LHDR) (j : Z) : option Z :=
  match assetIDs l with
  | Some p => at_ (layerAssetIDs h) (p + j)
  | None => None
  end.

Section Indices.

Variables ohip mhip : Hip.

(** [ahdrIndices]. *)
Definition build_ahdrIndices : option (map_ Index) :=
  match ofor (assetCount (pcnt ohip)) (fun i t =>
          match at_ (ahdr ohip) i with
          | Some a => Some (map_update Index0 (id a) (set_oidx (to_int i)) t)
          | None => None
          end) [] with
  | Some t =>
      ofor (assetCount (pcnt mhip)) (fun i t =>
          match at_ (ahdr mhip) i with
          | Some a => Some (map_update Index0 (id a) (set_midx (to_int i)) t)
          | None => None
          end) t
  | None => None
  end.

(** One round of the second [lhdrIndices] loop, for the layer [l]
    read at [mhip.lhdr[i]], on [lhdrIndices] and [mLayerCounts]. *)
Definition lhdrIndices_modified (i : Z) (l : LHDR)
  (t : map_ (list Index) * map_ Z) : option (map_ (list Index) * map_ Z) :=
  let '(lhdrIndices, mLayerCounts) := t in
  let type := lhdr_type l in
  let v := map_at [] type lhdrIndices in
  let n := map_at 0 type mLayerCounts in
  if Z.of_nat (length v) <? n + 1
  then Some (map_update [] type
               (fun v => v ++ [{| oidx := -1; midx := to_int i |}])
               lhdrIndices,
             map_update 0 type Z.succ mLayerCounts)
  else
    match at_ v n with
    | None => None
    | Some x =>
        match store v n (set_midx (to_int i) x) with
        | None => None
        | Some v' =>
            Some (map_update [] type (fun _ => v') lhdrIndices,
                  map_update 0 type Z.succ mLayerCounts)
        end
    end.

(** [lhdrIndices].  [std::unordered_map] does not fix the order in
    which its keys are traversed; here it is the increasing one. *)
Definition build_lhdrIndices : option (map_ (list Index)) :=
  match ofor (layerCount (pcnt ohip)) (fun i t =>
          match at_ (lhdr ohip) i with
          | Some l =>
              Some (map_update [] (lhdr_type l)
                      (fun v => v ++ [{| oidx := to_int i; midx := -1 |}]) t)
          | None => None
          end) [] with
  | Some t =>
      match ofor (layerCount (pcnt mhip)) (fun i t =>
              match at_ (lhdr mhip) i with
              | Some l => lhdrIndices_modified i l t
              | None => None
              end) (t, []) with
      | Some (t', _) => Some t'
      | None => None
      end
  | None => None
  end.

(** The two loops over the layers of one file that fill
    [ahdrLHDRIndices]. *)
Definition ahdrLHDRIndices_fill (h : Hip) (set : Z -> Index -> Index)
  (t : map_ Index) : option (map_ Index) :=
  ofor (layerCount (pcnt h)) (fun i t =>
    match at_ (lhdr h) i with
    | Some l =>
        ofor (lhdr_assetCount l) (fun j t =>
          match layer_assetID h l j with
          | Some a => Some (map_update Index0 a (set (to_int i)) t)
          | None => None
          end) t
    | None => None
    end) t.

Definition build_ahdrLHDRIndices : option (map_ Index) :=
  match ahdrLHDRIndices_fill ohip set_oidx [] with
  | Some t => ahdrLHDRIndices_fill mhip set_midx t
  | None => None
  end.

End Indices.

(** ** The diff *)

Record Options := { assetDiffsOnly : bool; detailedAssets : bool;
                    ignoreDataIfChksumMatch : bool; diffOffsets : bool;
                    diffPluses : bool }.

(** The header vectors. *)
Record Header := { pverDiffs : list Diff; pflgDiffs : list Diff;
                   pcntDiffs : list Diff; pcrtDiffs : list Diff;
                   pmodDiffs : list Diff; platDiffs : list Diff;
                   ainfDiffs : list Diff }.

(** What the loop over [ahdrIndices] updates. *)
Record Assets := { assetAdditions : list Diff; assetDeletions : list Diff;
                   assetModifications : list Diff;
                   numAssetsAdded : Z; numAssetsDeleted : Z;
                   numAssetsModified : Z;
                   addedAssets : list Z; deletedAssets : list Z }.

(** What the loop over [lhdrIndices] updates. *)
Record Layers := { layerAdditions : list Diff; layerDeletions : list Diff;
                   layerModifications : list Diff;
                   numLayersAdded : Z; numLayersDeleted : Z;
                   numLayersModified : Z }.

Definition Header0 : Header :=
  {| pverDiffs := []; pflgDiffs := []; pcntDiffs := []; pcrtDiffs := [];
     pmodDiffs := []; platDiffs := []; ainfDiffs := [] |}.
Definition Assets0 : Assets :=
  {| assetAdditions := []; assetDeletions := []; assetModifications := [];
     numAssetsAdded := 0; numAssetsDeleted := 0; numAssetsModified := 0;
     addedAssets := []; deletedAssets := [] |}.
Definition Layers0 : Layers :=
  {| layerAdditions := []; layerDeletions := []; layerModifications := [];
     numLayersAdded := 0; numLayersDeleted := 0; numLayersModified := 0 |}.
Definition Counts0 : Counts :=
  {| additionCount := 0; deletionCount := 0; modificationCount := 0;
     countsEnabled := true |}.

(** Successive calls on one vector. *)
Definition ADDITIONS (diffs : list Diff) (calls : list (string * arg))
  : D (list Diff) :=
  foreach calls (fun c v => ADDITION v (fst c) (snd c)) diffs.
Definition DELETIONS (diffs : list Diff) (calls : list (string * arg))
  : D (list Diff) :=
  foreach calls (fun c v => DELETION v (fst c) (snd c)) diffs.

Fixpoint bytes_eqb (a b : list byte) : bool :=
  match a, b with
  | [], [] => true
  | x :: a', y :: b' => Byte.eqb x y && bytes_eqb a' b'
  | _, _ => false
  end.

(** The [n] bytes [memcmp] reads at [a.data]: they must lie in the
    buffer [data] points into; nothing is read when [n] is 0. *)
Definition view (h : Hip) (a : AHDR) (n : Z) : option (list byte) :=
  if n =? 0 then Some [] else
  match data a with
  | None => None
  | Some (b, off) =>
      match nth_error (heap h) b with
      | None => None
      | Some buf =>
          if (0 <=? off) && (off + n <=? Z.of_nat (length buf))
          then Some (firstn (Z.to_nat n) (skipn (Z.to_nat off) buf))
          else None
      end
  end.

Section Main.

Variable NDEBUG : bool.
Variable opt : Options.
Variables ohip mhip : Hip.

Definition strdiff (a b : string) : bool := negb (String.eqb a b).
Definition neq (a b : Z) : bool := negb (a =? b).

(** The comparison of the two [PLAT] chunks. *)
Definition diffPLAT : D (list Diff) :=
  let o := plat ohip in
  let m := plat mhip in
  let platDiffs := [] in
  if plat_exists o || plat_exists m then
    if negb (Bool.eqb (plat_exists o) (plat_exists m)) then
      if plat_exists o && negb (plat_exists m) then
        v <- DELETION platDiffs "  id: 0x%08X" (AInt (plat_id o)) ;;
        for_ (stringCount o) (fun i v =>
          s <- defined (at_ (strings o) i) ;;
          DELETION v ("  " ++ dquote ++ "%s" ++ dquote) (AStr s)) v
      else
        v <- ADDITION platDiffs "  id: 0x%08X" (AInt (plat_id m)) ;;
        for_ (stringCount m) (fun i v =>
          s <- defined (at_ (strings m) i) ;;
          ADDITION v ("  " ++ dquote ++ "%s" ++ dquote) (AStr s)) v
    else
      v <- when_ (neq (plat_id o) (plat_id m))
             (MODIFICATION platDiffs "  id: 0x%08X"
                (AInt (plat_id o)) (AInt (plat_id m))) platDiffs ;;
      let platStringCount :=
        if stringCount o <? stringCount m then stringCount m
        else stringCount o in
      for_ platStringCount (fun i v =>
        if i >=? stringCount o then
          s <- defined (at_ (strings m) i) ;;
          ADDITION v ("  " ++ dquote ++ "%s" ++ dquote) (AStr s)
        else if i >=? stringCount m then
          s <- defined (at_ (strings o) i) ;;
          DELETION v ("  " ++ dquote ++ "%s" ++ dquote) (AStr s)
        else
          so <- defined (at_ (strings o) i) ;;
          sm <- defined (at_ (strings m) i) ;;
          when_ (strdiff sm so)
            (MODIFICATION v ("  " ++ dquote ++ "%s" ++ dquote)
               (AStr so) (AStr sm)) v) v
  else ret platDiffs.

(** The first [if (!assetDiffsOnly)] block of [// Perform diff]. *)
Definition diffHeader : D Header :=
  let o := ohip in
  let m := mhip in
  let v := [] in
  v <- when_ (neq (subVersion (pver o)) (subVersion (pver m)))
         (MODIFICATION v "  subVersion: 0x%X"
            (AInt (subVersion (pver o))) (AInt (subVersion (pver m)))) v ;;
  v <- when_ (neq (clientVersion (pver o)) (clientVersion (pver m)))
         (MODIFICATION v "  clientVersion: 0x%X"
            (AInt (clientVersion (pver o)))
            (AInt (clientVersion (pver m)))) v ;;
  v <- when_ (neq (compatVersion (pver o)) (compatVersion (pver m)))
         (MODIFICATION v "  compatVersion: 0x%X"
            (AInt (compatVersion (pver o)))
            (AInt (compatVersion (pver m)))) v ;;
  let pverD := v in
  pflgD <- when_ (neq (pflg_flags (pflg o)) (pflg_flags (pflg m)))
         (MODIFICATION [] "  flags: 0x%X"
            (AInt (pflg_flags (pflg o))) (AInt (pflg_flags (pflg m)))) [] ;;
  let v := [] in
  v <- when_ (neq (assetCount (pcnt o)) (assetCount (pcnt m)))
         (MODIFICATION v "  assetCount: %d"
            (AInt (assetCount (pcnt o))) (AInt (assetCount (pcnt m)))) v ;;
  v <- when_ (neq (layerCount (pcnt o)) (layerCount (pcnt m)))
         (MODIFICATION v "  layerCount: %d"
            (AInt (layerCount (pcnt o))) (AInt (layerCount (pcnt m)))) v ;;
  v <- when_ (neq (maxAssetSize (pcnt o)) (maxAssetSize (pcnt m)))
         (MODIFICATION v "  maxAssetSize: %d"
            (AInt (maxAssetSize (pcnt o)))
            (AInt (maxAssetSize (pcnt m)))) v ;;
  v <- when_ (neq (maxLayerSize (pcnt o)) (maxLayerSize (pcnt m)))
         (MODIFICATION v "  maxLayerSize: %d"
            (AInt (maxLayerSize (pcnt o)))
            (AInt (maxLayerSize (pcnt m)))) v ;;
  v <- when_ (neq (maxXformAssetSize (pcnt o)) (maxXformAssetSize (pcnt m)))
         (MODIFICATION v "  maxXformAssetSize: %d"
            (AInt (maxXformAssetSize (pcnt o)))
            (AInt (maxXformAssetSize (pcnt m)))) v ;;
  let pcntD := v in
  let v := [] in
  v <- when_ (neq (pcrt_time (pcrt o)) (pcrt_time (pcrt m)))
         (MODIFICATION v "  time: %d"
            (AInt (pcrt_time (pcrt o))) (AInt (pcrt_time (pcrt m)))) v ;;
  v <- when_ (strdiff (pcrt_string (pcrt o)) (pcrt_string (pcrt m)))
         (MODIFICATION v ("  " ++ dquote ++ "%s" ++ dquote)
            (AStr (pcrt_string (pcrt o)))
            (AStr (pcrt_string (pcrt m)))) v ;;
  let pcrtD := v in
  pmodD <- when_ (neq (pmod_time (pmod o)) (pmod_time (pmod m)))
         (MODIFICATION [] "  time: %d"
            (AInt (pmod_time (pmod o))) (AInt (pmod_time (pmod m)))) [] ;;
  platD <- diffPLAT ;;
  ainfD <- when_ (neq (ainf_ainf (ainf o)) (ainf_ainf (ainf m)))
         (MODIFICATION [] "  ainf: %d"
            (AInt (ainf_ainf (ainf o))) (AInt (ainf_ainf (ainf m)))) [] ;;
  ret {| pverDiffs := pverD; pflgDiffs := pflgD; pcntDiffs := pcntD;
         pcrtDiffs := pcrtD; pmodDiffs := pmodD; platDiffs := platD;
         ainfDiffs := ainfD |}.

Variable ahdrIndices : map_ Index.
Variable ahdrLHDRIndices : map_ Index.

(** [bool dataChanged] of a pair of assets. *)
Definition dataChanged (oahdr mahdr : AHDR) (oadbg madbg : ADBG) : D bool :=
  if ignoreDataIfChksumMatch opt then
    ret (neq (checksum oadbg) (checksum madbg))
  else if size oahdr =? size mahdr then
    ob <- defined (view ohip oahdr (size oahdr)) ;;
    mb <- defined (view mhip mahdr (size oahdr)) ;;
    ret (negb (bytes_eqb ob mb))
  else ret true.

Definition asset_lines (a : AHDR) (d : ADBG) : list (string * arg) :=
  [("  AHDR (%s)", AStr (name d));
   ("    id: 0x%08X", AInt (id a));
   ("    type: 0x%08X", AInt (type a));
   ("    offset: %d", AInt (offset a));
   ("    size: %d", AInt (size a));
   ("    plus: %d", AInt (plus a));
   ("    flags: 0x%08X", AInt (flags a));
   ("    ADBG", ANone);
   ("      align: %d", AInt (align d));
   ("      name: %s", AStr (name d));
   ("      filename: %s", AStr (filename d));
   ("      checksum: 0x%08X", AInt (checksum d))]%string.

(** The detailed comparison of a pair of assets: [ahdrMods] and
    [adbgMods]. *)
Definition assetMods (oahdr mahdr : AHDR) (oadbg madbg : ADBG)
  (changed : bool) : D (list Diff * list Diff) :=
  v <- MODIFICATION [] "  AHDR (%s)" (AStr (name oadbg)) (AStr (name madbg)) ;;
  v <- (if neq (id oahdr) (id mahdr) then
          assert NDEBUG false ;;;
          MODIFICATION v "    id: 0x%08X" (AInt (id oahdr)) (AInt (id mahdr))
        else ret v) ;;
  v <- when_ (neq (type oahdr) (type mahdr))
         (MODIFICATION v "    type: 0x%08X"
            (AInt (type oahdr)) (AInt (type mahdr))) v ;;
  v <- when_ (neq (offset oahdr) (offset mahdr) && diffOffsets opt)
         (MODIFICATION v "    offset: %d"
            (AInt (offset oahdr)) (AInt (offset mahdr))) v ;;
  v <- when_ (neq (size oahdr) (size mahdr))
         (MODIFICATION v "    size: %d"
            (AInt (size oahdr)) (AInt (size mahdr))) v ;;
  v <- when_ (neq (plus oahdr) (plus mahdr) && diffPluses opt)
         (MODIFICATION v "    plus: %d"
            (AInt (plus oahdr)) (AInt (plus mahdr))) v ;;
  v <- when_ (neq (flags oahdr) (flags mahdr))
         (MODIFICATION v "    flags: 0x%08X"
            (AInt (flags oahdr)) (AInt (flags mahdr))) v ;;
  v <- when_ changed (MODIFICATION v "    data changed" ANone ANone) v ;;
  let ahdrMods := v in
  v <- MODIFICATION [] "    ADBG" ANone ANone ;;
  v <- when_ (neq (align oadbg) (align madbg))
         (MODIFICATION v "      align: %d"
            (AInt (align oadbg)) (AInt (align madbg))) v ;;
  v <- when_ (strdiff (name oadbg) (name madbg))
         (MODIFICATION v "      name: %s"
            (AStr (name oadbg)) (AStr (name madbg))) v ;;
  v <- when_ (strdiff (filename oadbg) (filename madbg))
         (MODIFICATION v "      filename: %s"
            (AStr (filename oadbg)) (AStr (filename madbg))) v ;;
  v <- when_ (neq (checksum oadbg) (checksum madbg))
         (MODIFICATION v "      checksum: 0x%08X"
            (AInt (checksum oadbg)) (AInt (checksum madbg))) v ;;
  ret (ahdrMods, v).

(** The condition of the summary comparison of a pair of assets. *)
Definition assetDiffers (oahdr mahdr : AHDR) (oadbg madbg : ADBG)
  (changed : bool) : bool :=
  neq (id oahdr) (id mahdr)
  || neq (type oahdr) (type mahdr)
  || (neq (offset oahdr) (offset mahdr) && diffOffsets opt)
  || neq (size oahdr) (size mahdr)
  || (neq (plus oahdr) (plus mahdr) && diffPluses opt)
  || neq (flags oahdr) (flags mahdr)
  || neq (align oadbg) (align madbg)
  || strdiff (name oadbg) (name madbg)
  || strdiff (filename oadbg) (filename madbg)
  || neq (checksum oadbg) (checksum madbg)
  || changed.

(** The body of the loop over [ahdrIndices]. *)
Definition diffAsset (it : Z * Index) (s : Assets) : D Assets :=
  let a := snd it in
  assert NDEBUG (neq (oidx a) (-1) || neq (midx a) (-1)) ;;;
  if oidx a =? -1 then
    mahdr <- defined (at_ (ahdr mhip) (midx a)) ;;
    madbg <- defined (at_ (adbg mhip) (midx a)) ;;
    v <- (if detailedAssets opt then
            set_countsEnabled false ;;;
            v <- ADDITIONS (assetAdditions s) (asset_lines mahdr madbg) ;;
            additionCount_incr ;;;
            set_countsEnabled true ;;;
            ret v
          else ADDITION (assetAdditions s) "  %s" (AStr (name madbg))) ;;
    ret {| assetAdditions := v; assetDeletions := assetDeletions s;
           assetModifications := assetModifications s;
           numAssetsAdded := numAssetsAdded s + 1;
           numAssetsDeleted := numAssetsDeleted s;
           numAssetsModified := numAssetsModified s;
           addedAssets := set_insert (id mahdr) (addedAssets s);
           deletedAssets := deletedAssets s |}
  else if midx a =? -1 then
    oahdr <- defined (at_ (ahdr ohip) (oidx a)) ;;
    oadbg <- defined (at_ (adbg ohip) (oidx a)) ;;
    v <- (if detailedAssets opt then
            set_countsEnabled false ;;;
            v <- DELETIONS (assetDeletions s) (asset_lines oahdr oadbg) ;;
            deletionCount_incr ;;;
            set_countsEnabled true ;;;
            ret v
          else DELETION (assetDeletions s) "  %s" (AStr (name oadbg))) ;;
    ret {| assetAdditions := assetAdditions s; assetDeletions := v;
           assetModifications := assetModifications s;
           numAssetsAdded := numAssetsAdded s;
           numAssetsDeleted := numAssetsDeleted s + 1;
           numAssetsModified := numAssetsModified s;
           addedAssets := addedAssets s;
           deletedAssets := set_insert (id oahdr) (deletedAssets s) |}
  else
    oahdr <- defined (at_ (ahdr ohip) (oidx a)) ;;
    mahdr <- defined (at_ (ahdr mhip) (midx a)) ;;
    oadbg <- defined (at_ (adbg ohip) (oidx a)) ;;
    madbg <- defined (at_ (adbg mhip) (midx a)) ;;
    assert NDEBUG (id oahdr =? id mahdr) ;;;
    changed <- dataChanged oahdr mahdr oadbg madbg ;;
    if detailedAssets opt then
      set_countsEnabled false ;;;
      mods <- assetMods oahdr mahdr oadbg madbg changed ;;
      let '(ahdrMods, adbgMods) := mods in
      s' <- (if (1 <? Z.of_nat (length ahdrMods))
                || (1 <? Z.of_nat (length adbgMods)) then
               let v := assetModifications s ++ ahdrMods in
               let v := if 1 <? Z.of_nat (length adbgMods)
                        then v ++ adbgMods else v in
               modificationCount_incr ;;;
               ret {| assetAdditions := assetAdditions s;
                      assetDeletions := assetDeletions s;
                      assetModifications := v;
                      numAssetsAdded := numAssetsAdded s;
                      numAssetsDeleted := numAssetsDeleted s;
                      numAssetsModified := numAssetsModified s + 1;
                      addedAssets := addedAssets s;
                      deletedAssets := deletedAssets s |}
             else ret s) ;;
      set_countsEnabled true ;;;
      ret s'
    else
      if assetDiffers oahdr mahdr oadbg madbg changed then
        v <- MODIFICATION (assetModifications s) "  %s"
               (AStr (name oadbg)) (AStr (name madbg)) ;;
        ret {| assetAdditions := assetAdditions s;
               assetDeletions := assetDeletions s;
               assetModifications := v;
               numAssetsAdded := numAssetsAdded s;
               numAssetsDeleted := numAssetsDeleted s;
               numAssetsModified := numAssetsModified s + 1;
               addedAssets := addedAssets s;
               deletedAssets := deletedAssets s |}
      else ret s.

Definition diffAssets : D Assets := foreach ahdrIndices diffAsset Assets0.

Variable assets : Assets.

(** [mhip.adbg[ahdrIndices[id].midx].name] and its sibling. *)
Definition mname (i : Z) : option string :=
  option_map name (at_ (adbg mhip) (midx (map_at Index0 i ahdrIndices))).
Definition oname (i : Z) : option string :=
  option_map name (at_ (adbg ohip) (oidx (map_at Index0 i ahdrIndices))).

(** The member lines of an added layer, of a deleted layer and of a
    modified pair of layers [l]. *)
Definition addedLayerMember (i : Z) (v : list Diff) : D (list Diff) :=
  if negb (set_mem i (addedAssets assets)) then
    n <- defined (mname i) ;; ADDITION v "    %s" (AStr n)
  else ret v.

Definition deletedLayerMember (i : Z) (v : list Diff) : D (list Diff) :=
  if negb (set_mem i (deletedAssets assets)) then
    n <- defined (oname i) ;; DELETION v "    %s" (AStr n)
  else ret v.

Definition modifiedLayerMember (l : Index) (it : Z * Index) (v : list Diff)
  : D (list Diff) :=
  let i := fst it in
  let a := snd it in
  assert NDEBUG (neq (oidx a) (-1) || neq (midx a) (-1)) ;;;
  if (oidx a =? oidx l) || (midx a =? midx l) then
    if neq (oidx a) (oidx l) then
      if negb (set_mem i (addedAssets assets)) then
        n <- defined (mname i) ;;
        v <- ADDITION v ("    " ++ dquote ++ "%s" ++ dquote) (AStr n) ;;
        additionCount_incr ;;;
        ret v
      else ret v
    else if neq (midx a) (midx l) then
      if negb (set_mem i (deletedAssets assets)) then
        n <- defined (oname i) ;;
        v <- DELETION v ("    " ++ dquote ++ "%s" ++ dquote) (AStr n) ;;
        deletionCount_incr ;;;
        ret v
      else ret v
    else ret v
  else ret v.

(** The body of the loops over [lhdrIndices]. *)
Definition diffLayer (l : Index) (s : Layers) : D Layers :=
  assert NDEBUG (neq (oidx l) (-1) || neq (midx l) (-1)) ;;;
  if oidx l =? -1 then
    mlhdr <- defined (at_ (lhdr mhip) (midx l)) ;;
    mldbg <- defined (at_ (ldbg mhip) (midx l)) ;;
    set_countsEnabled false ;;;
    v <- ADDITION (layerAdditions s) "  LHDR (%d)" (AInt (lhdr_type mlhdr)) ;;
    v <- ADDITION v "    type: %d" (AInt (lhdr_type mlhdr)) ;;
    v <- for_ (lhdr_assetCount mlhdr) (fun i v =>
           a <- defined (layer_assetID mhip mlhdr i) ;;
           addedLayerMember a v) v ;;
    v <- ADDITION v "    LDBG" ANone ;;
    v <- ADDITION v "      ldbg: %d" (AInt (ldbg_ldbg mldbg)) ;;
    additionCount_incr ;;;
    set_countsEnabled true ;;;
    ret {| layerAdditions := v; layerDeletions := layerDeletions s;
           layerModifications := layerModifications s;
           numLayersAdded := numLayersAdded s + 1;
           numLayersDeleted := numLayersDeleted s;
           numLayersModified := numLayersModified s |}
  else if midx l =? -1 then
    olhdr <- defined (at_ (lhdr ohip) (oidx l)) ;;
    oldbg <- defined (at_ (ldbg ohip) (oidx l)) ;;
    set_countsEnabled false ;;;
    v <- DELETION (layerDeletions s) "  LHDR (%d)" (AInt (lhdr_type olhdr)) ;;
    v <- DELETION v "    type: %d" (AInt (lhdr_type olhdr)) ;;
    v <- for_ (lhdr_assetCount olhdr) (fun i v =>
           a <- defined (layer_assetID ohip olhdr i) ;;
           deletedLayerMember a v) v ;;
    v <- DELETION v "    LDBG" ANone ;;
    v <- DELETION v "      ldbg: %d" (AInt (ldbg_ldbg oldbg)) ;;
    deletionCount_incr ;;;
    set_countsEnabled true ;;;
    ret {| layerAdditions := layerAdditions s; layerDeletions := v;
           layerModifications := layerModifications s;
           numLayersAdded := numLayersAdded s;
           numLayersDeleted := numLayersDeleted s + 1;
           numLayersModified := numLayersModified s |}
  else
    olhdr <- defined (at_ (lhdr ohip) (oidx l)) ;;
    oldbg <- defined (at_ (ldbg ohip) (oidx l)) ;;
    mlhdr <- defined (at_ (lhdr mhip) (midx l)) ;;
    mldbg <- defined (at_ (ldbg mhip) (midx l)) ;;
    assert NDEBUG (lhdr_type olhdr =? lhdr_type mlhdr) ;;;
    set_countsEnabled false ;;;
    v <- MODIFICATION [] "  LHDR (%d)"
           (AInt (lhdr_type olhdr)) (AInt (lhdr_type mlhdr)) ;;
    v <- (if neq (lhdr_type olhdr) (lhdr_type mlhdr) then
            assert NDEBUG false ;;;
            MODIFICATION v "    type: %d"
              (AInt (lhdr_type olhdr)) (AInt (lhdr_type mlhdr))
          else ret v) ;;
    lhdrMods <- foreach ahdrLHDRIndices (modifiedLayerMember l) v ;;
    v <- MODIFICATION [] "    LDBG" ANone ANone ;;
    ldbgMods <- when_ (neq (ldbg_ldbg oldbg) (ldbg_ldbg mldbg))
           (MODIFICATION v "      ldbg: %d"
              (AInt (ldbg_ldbg oldbg)) (AInt (ldbg_ldbg mldbg))) v ;;
    s' <- (if (1 <? Z.of_nat (length lhdrMods))
              || (1 <? Z.of_nat (length ldbgMods)) then
             let v := layerModifications s ++ lhdrMods in
             let v := if 1 <? Z.of_nat (length ldbgMods)
                      then v ++ ldbgMods else v in
             modificationCount_incr ;;;
             ret {| layerAdditions := layerAdditions s;
                    layerDeletions := layerDeletions s;
                    layerModifications := v;
                    numLayersAdded := numLayersAdded s;
                    numLayersDeleted := numLayersDeleted s;
                    numLayersModified := numLayersModified s + 1 |}
           else ret s) ;;
    set_countsEnabled true ;;;
    ret s'.

Variable lhdrIndices : map_ (list Index).

Definition diffLayers : D Layers :=
  foreach lhdrIndices (fun it s => foreach (snd it) diffLayer s) Layers0.

End Main.

(** What [main] has computed when it starts printing. *)
Record Report := { header : Header; assets : Assets; layers : Layers;
                   counts : Counts }.

(** [main] from the two successful [read]s to the printing. *)
Definition main_body (NDEBUG : bool) (opt : Options) (ohip mhip : Hip)
  : D (Header * Assets * Layers) :=
  ostr <- defined (hackPCRTString (pcrt_string (pcrt ohip))) ;;
  mstr <- defined (hackPCRTString (pcrt_string (pcrt mhip))) ;;
  let ohip := set_pcrt {| pcrt_time := pcrt_time (pcrt ohip);
                          pcrt_string := ostr |} ohip in
  let mhip := set_pcrt {| pcrt_time := pcrt_time (pcrt mhip);
                          pcrt_string := mstr |} mhip in
  ahdrIndices <- defined (build_ahdrIndices ohip mhip) ;;
  tables <- (if negb (assetDiffsOnly opt) then
               l <- defined (build_lhdrIndices ohip mhip) ;;
               a <- defined (build_ahdrLHDRIndices ohip mhip) ;;
               ret (l, a)
             else ret ([], [])) ;;
  let '(lhdrIndices, ahdrLHDRIndices) := tables in
  hd <- (if negb (assetDiffsOnly opt) then diffHeader ohip mhip
         else ret Header0) ;;
  a <- diffAssets NDEBUG opt ohip mhip ahdrIndices ;;
  l <- (if negb (assetDiffsOnly opt)
        then diffLayers NDEBUG ohip mhip ahdrIndices ahdrLHDRIndices a
               lhdrIndices
        else ret Layers0) ;;
  ret (hd, a, l).

Definition main_diff (NDEBUG : bool) (opt : Options) (ohip mhip : Hip)
  : outcome Report :=
  match main_body NDEBUG opt ohip mhip Counts0 with
  | Done ((hd, a, l), c) =>
      Done {| header := hd; assets := a; layers := l; counts := c |}
  | Stop f => Stop f
  end.

(** [main] on the bytes of the two files. *)
Definition main (NDEBUG : bool) (opt : Options) (fuel : nat)
  (obytes mbytes : list byte) : outcome Report :=
  match load NDEBUG fuel obytes with
  | Stop f => Stop f
  | Done ohip =>
      match load NDEBUG fuel mbytes with
      | Stop f => Stop f
      | Done mhip => main_diff NDEBUG opt ohip mhip
      end
  end.

(** * Vocabulary of the properties *)

(** A value of type [uint32_t]. *)
Definition uint32 (x : Z) : Prop := 0 <= x < 2 ^ 32.

Definition is_type (t : DiffType) (d : Diff) : bool :=
  match t, diff_type d with
  | Addition, Addition => true
  | Deletion, Deletion => true
  | Modification, Modification => true
  | _, _ => false
  end.

(** Number of entries of one kind in a vector. *)
Definition count_type (t : DiffType) (l : list Diff) : Z :=
  Z.of_nat (length (filter (is_type t) l)).

(** All entries of the header vectors. *)
Definition header_entries (hd : Header) : list Diff :=
  pverDiffs hd ++ pflgDiffs hd ++ pcntDiffs hd ++ pcrtDiffs hd
  ++ pmodDiffs hd ++ platDiffs hd ++ ainfDiffs hd.

(** The counters as the events of a report determine them: one per
    entry of a header vector, one per added, deleted or modified asset
    or layer, and one more addition (deletion) per line of a modified
    layer that names a joining (leaving) asset. *)
Definition counted (t : DiffType) (r : Report) : Z :=
  count_type t (header_entries (header r))
  + match t with
    | Addition =>
        numAssetsAdded (assets r) + numLayersAdded (layers r)
        + count_type Addition (layerModifications (layers r))
    | Deletion =>
        numAssetsDeleted (assets r) + numLayersDeleted (layers r)
        + count_type Deletion (layerModifications (layers r))
    | Modification =>
        numAssetsModified (assets r) + numLayersModified (layers r)
    end.

(** The counters if each were incremented once per record-level
    event only: header entries and added, deleted or modified assets
    and layers. *)
Definition record_events (t : DiffType) (r : Report) : Z :=
  count_type t (header_entries (header r))
  + match t with
    | Addition => numAssetsAdded (assets r) + numLayersAdded (layers r)
    | Deletion => numAssetsDeleted (assets r) + numLayersDeleted (layers r)
    | Modification =>
        numAssetsModified (assets r) + numLayersModified (layers r)
    end.

(** The asset headers and layer headers [main] reads. *)
Definition assets_of (h : Hip) : list AHDR :=
  firstn (Z.to_nat (assetCount (pcnt h))) (ahdr h).
Definition layers_of (h : Hip) : list LHDR :=
  firstn (Z.to_nat (layerCount (pcnt h))) (lhdr h).

Definition asset_ids (h : Hip) : list Z := map id (assets_of h).

(** The elements of an array with their indices as [main] stores
    them in an [int]; the first element has index [i]. *)
Fixpoint with_index {B} (i : Z) (l : list B) : list (Z * B) :=
  match l with
  | [] => []
  | x :: r => (to_int i, x) :: with_index (i + 1) r
  end.

(** The keys under which the loops that fill [ahdrIndices] and
    [ahdrLHDRIndices] store an index, in the order of the stores:
    the id of every asset with the index of the asset, and every
    member id of every layer with the index of the layer. *)
Definition asset_keys (h : Hip) : list (Z * Z) :=
  map (fun ia => (id (snd ia), fst ia)) (with_index 0 (assets_of h)).

(** The value stored last under the key [k], [acc] if there is none. *)
Fixpoint last_value (k : Z) (kis : list (Z * Z)) (acc : Z) : Z :=
  match kis with
  | [] => acc
  | (x, i) :: r => last_value k r (if x =? k then i else acc)
  end.

Definition has_key (k : Z) (kis : list (Z * Z)) : bool :=
  existsb (fun xi => fst xi =? k) kis.

(** The indices of the layers of type [ty] among [l], whose first
    element has index [i], in file order. *)
Fixpoint positions (ty : Z) (i : Z) (l : list LHDR) : list Z :=
  match l with
  | [] => []
  | x :: r =>
      if lhdr_type x =? ty then to_int i :: positions ty (i + 1) r
      else positions ty (i + 1) r
  end.

Definition layer_positions (h : Hip) (ty : Z) : list Z :=
  positions ty 0 (layers_of h).

(** The k-th of one side with the k-th of the other; the surplus of
    either side with the other side absent. *)
Fixpoint zipPad (o m : list Z) : list Index :=
  match o with
  | [] => map (fun y => {| oidx := -1; midx := y |}) m
  | x :: o' =>
      match m with
      | [] => {| oidx := x; midx := -1 |} :: zipPad o' []
      | y :: m' => {| oidx := x; midx := y |} :: zipPad o' m'
      end
  end.

Definition layer_ids_readable (h : Hip) (l : LHDR) : bool :=
  (lhdr_assetCount l <=? 0)
  || match assetIDs l with
     | Some p => (0 <=? p)
                 && (p + lhdr_assetCount l
                     <=? Z.of_nat (length (layerAssetIDs h)))
     | None => false
     end.

Definition view_readable (h : Hip) (a : AHDR) : bool :=
  match view h a (size a) with Some _ => true | None => false end.

(** The tables of an archive that [main] can walk without leaving
    its arrays: they hold as many records as the counts say, the
    counts fit an [int], every payload view lies in its buffer, every
    layer's ids lie in the id array, and asset names fit their 32-byte
    arrays. *)
Definition tables_readable (h : Hip) : bool :=
  let n := assetCount (pcnt h) in
  let k := layerCount (pcnt h) in
  (0 <=? n) && (n <? 2 ^ 31)
  && (n <=? Z.of_nat (length (ahdr h)))
  && (n <=? Z.of_nat (length (adbg h)))
  && (0 <=? k) && (k <? 2 ^ 31)
  && (k <=? Z.of_nat (length (lhdr h)))
  && (k <=? Z.of_nat (length (ldbg h)))
  && forallb (view_readable h) (assets_of h)
  && forallb (fun d => (String.length (name d) <? 32)%nat)
       (firstn (Z.to_nat n) (adbg h))
  && forallb (layer_ids_readable h) (layers_of h)
  && (stringCount (plat h) <=? Z.of_nat (length (strings (plat h)))).

(** An archive [main] can diff: its creation string is not empty and
    its tables are readable. *)
Definition well_formed (h : Hip) : bool :=
  negb (Nat.eqb (String.length (pcrt_string (pcrt h))) 0)
  && tables_readable h.

Definition Report0 : Report :=
  {| header := Header0; assets := Assets0; layers := Layers0;
     counts := Counts0 |}.

(** ** Example archives *)

Definition newline : string := String "010" EmptyString.

Definition Options0 : Options :=
  {| assetDiffsOnly := false; detailedAssets := false;
     ignoreDataIfChksumMatch := false; diffOffsets := false;
     diffPluses := false |}.

Definition Options_detailed : Options :=
  {| assetDiffsOnly := false; detailedAssets := true;
     ignoreDataIfChksumMatch := false; diffOffsets := false;
     diffPluses := false |}.

Definition Options_checksum (detailed : bool) : Options :=
  {| assetDiffsOnly := false; detailedAssets := detailed;
     ignoreDataIfChksumMatch := true; diffOffsets := false;
     diffPluses := false |}.

(** Assets 1 (foo) and 2 (bar) in one layer. *)
Definition archive_A : list byte :=
  archive ("Mon Jan  1 00:00:00 2001" ++ newline) 1
    (fun s => [AHDR_chunk 1 0x54455854 s 4 "foo" 0x11;
               AHDR_chunk 2 0x54455854 (s + 4) 4 "bar" 0x22])
    [LHDR_chunk 1 [1; 2]]
    (map byte_of_Z [1; 2; 3; 4; 5; 6; 7; 8]).

(** Assets 2 (bar, unchanged, at the same place) and 3 (baz) in one
    layer. *)
Definition archive_B : list byte :=
  archive ("Mon Jan  1 00:00:00 2001" ++ newline) 1
    (fun s => [AHDR_chunk 2 0x54455854 (s + 4) 4 "bar" 0x22;
               AHDR_chunk 3 0x54455854 s 4 "baz" 0x33])
    [LHDR_chunk 1 [2; 3]]
    (map byte_of_Z [9; 9; 9; 9; 5; 6; 7; 8]).

(** The assets of [archive_A] with bar moved to a second layer. *)
Definition archive_A_moved : list byte :=
  archive ("Mon Jan  1 00:00:00 2001" ++ newline) 2
    (fun s => [AHDR_chunk 1 0x54455854 s 4 "foo" 0x11;
               AHDR_chunk 2 0x54455854 (s + 4) 4 "bar" 0x22])
    [LHDR_chunk 1 [1]; LHDR_chunk 2 [2]]
    (map byte_of_Z [1; 2; 3; 4; 5; 6; 7; 8]).

Definition archive_A_layers : list byte :=
  archive ("Mon Jan  1 00:00:00 2001" ++ newline) 2
    (fun s => [AHDR_chunk 1 0x54455854 s 4 "foo" 0x11;
               AHDR_chunk 2 0x54455854 (s + 4) 4 "bar" 0x22])
    [LHDR_chunk 1 [1; 2]; LHDR_chunk 2 []]
    (map byte_of_Z [1; 2; 3; 4; 5; 6; 7; 8]).

(** One asset of 4 bytes at offset [0x10000], far after the end of
    the file, and a payload of 4 bytes. *)
Definition archive_out_of_bounds : list byte :=
  archive ("Mon Jan  1 00:00:00 2001" ++ newline) 1
    (fun _ => [AHDR_chunk 1 0x54455854 0x10000 4 "foo" 0x11])
    [LHDR_chunk 1 [1]]
    (map byte_of_Z [1; 2; 3; 4]).

(** A header that declares one asset, and no dictionary. *)
Definition archive_no_DICT : list byte :=
  chunk "HIPA" []
  ++ PACK_chunk 1 0 ("Mon Jan  1 00:00:00 2001" ++ newline).

(** A chunk whose tag is four NUL bytes. *)
Definition zero_chunk : list byte := be32 0 ++ be32 0.

(** [n] [PACK] chunks inside each other, each starting with a
    [zero_chunk]. *)
Fixpoint nested (n : nat) : list byte :=
  match n with
  | O => []
  | S n' => chunk "PACK" (zero_chunk ++ nested n')
  end.

Definition archive_deep : list byte :=
  chunk "HIPA" [] ++ nested 8
  ++ PACK_chunk 0 0 ("Mon Jan  1 00:00:00 2001" ++ newline).



(** The object [read] leaves for a file, [open] of it if [read]
    fails (assertions compiled out). *)
Definition loaded (bytes : list byte) : Hip :=
  match load true 100 bytes with
  | Done h => h
  | Stop _ => open bytes
  end.

(** An asset header with the view [readDPAK] gives it: [off - dataStart]
    bytes after the start of buffer [b]. *)
Definition with_view (b : nat) (dataStart : Z) (a : AHDR) : AHDR :=
  {| id := id a; type := type a; offset := offset a; size := size a;
     plus := plus a; flags := flags a;
     data := Some (b, offset a - dataStart) |}.

(** The object as [readDPAK] finds it in a file made of a pad amount
    of 0 and four bytes of payload, with one asset of four bytes
    declared at offset [0x10000]. *)
Definition at_DPAK : Hip :=
  set_stack [{| blk_id := BLKID "D" "P" "A" "K"; endpos := 8 |}]
    (set_ahdr [{| id := 1; type := 0; offset := 0x10000; size := 4;
                  plus := 0; flags := 0; data := None |}]
       (set_adbg [ADBG0]
          (set_pcnt {| assetCount := 1; layerCount := 0; maxAssetSize := 0;
                       maxLayerSize := 0; maxXformAssetSize := 0 |}
             (open (be32 0 ++ map byte_of_Z [1; 2; 3; 4]))))).

(** The number of added, deleted or modified assets, and the same
    for layers together with the member lines of modified layers. *)
Definition asset_num (t : DiffType) (s : Assets) : Z :=
  match t with
  | Addition => numAssetsAdded s
  | Deletion => numAssetsDeleted s
  | Modification => numAssetsModified s
  end.

Definition layer_num (t : DiffType) (s : Layers) : Z :=
  match t with
  | Addition =>
      numLayersAdded s + count_type Addition (layerModifications s)
  | Deletion =>
      numLayersDeleted s + count_type Deletion (layerModifications s)
  | Modification => numLayersModified s
  end.

(** Two assets whose checksums are equal and whose sizes differ. *)
Definition asset_4_bytes : AHDR :=
  {| id := 7; type := 0x54455854; offset := 0; size := 4; plus := 0;
     flags := 0; data := Some (0%nat, 0) |}.
Definition asset_3_bytes : AHDR :=
  {| id := 7; type := 0x54455854; offset := 0; size := 3; plus := 0;
     flags := 0; data := Some (0%nat, 0) |}.
Definition asset_debug : ADBG :=
  {| align := 16; name := "foo"; filename := "foo.txt";
     checksum := 0x11 |}.

(** An object that holds one asset and four bytes of payload. *)
Definition Hip_of (a : AHDR) : Hip :=
  set_heap [map byte_of_Z [1; 2; 3; 4]]
    (set_ahdr [a]
       (set_adbg [asset_debug]
          (set_pcnt {| assetCount := 1; layerCount := 0; maxAssetSize := 0;
                       maxLayerSize := 0; maxXformAssetSize := 0 |}
             (set_pcrt {| pcrt_time := 0; pcrt_string := "Mon" |}
                (open []))))).

Definition nat_of_bool (b : bool) : nat := if b then 1%nat else 0%nat.

(** The keys of a map increase strictly and lie above [lo]. *)
Fixpoint keys_above {V} (lo : Z) (m : map_ V) : Prop :=
  match m with
  | [] => True
  | (k, _) :: r => lo < k /\ keys_above k r
  end.

Definition sorted_map {V} (m : map_ V) : Prop :=
  match m with
  | [] => True
  | (k, _) :: r => keys_above k r
  end.

(** A loop over the elements of an array with their indices. *)
Fixpoint ofold {A B} (f : Z -> B -> A -> option A) (i : Z) (l : list B)
  (a : A) : option A :=
  match l with
  | [] => Some a
  | x :: r => match f i x a with
              | Some a' => ofold f (i + 1) r a'
              | None => None
              end
  end.

(** What a sequence of stores [m[x].oidx = i] (or [midx]) leaves
    under the key [k]; [a] is what the map held under [k] before. *)
Fixpoint entry_after (set : Z -> Index -> Index) (k : Z)
  (kis : list (Z * Z)) (a : option Index) : option Index :=
  match kis with
  | [] => a
  | (x, i) :: r =>
      entry_after set k r
        (if x =? k
         then Some (set i (match a with Some v => v | None => Index0 end))
         else a)
  end.

(** The member ids of a layer, when they lie in the id array. *)
Definition layer_ids (h : Hip) (l : LHDR) : list Z :=
  match assetIDs l with
  | Some p => firstn (Z.to_nat (lhdr_assetCount l))
                (skipn (Z.to_nat p) (layerAssetIDs h))
  | None => []
  end.

Definition layer_keys (h : Hip) : list (Z * Z) :=
  flat_map (fun il => map (fun x => (x, fst il)) (layer_ids h (snd il)))
    (with_index 0 (layers_of h)).

(** ** String helpers of [main.cpp] *)

(** [tolower] in the C locale, the one the program runs in: only the
    letters [A] to [Z] change. *)
Definition tolower (c : ascii) : ascii :=
  let n := N_of_ascii c in
  if ((65 <=? n) && (n <=? 90))%N then ascii_of_N (n + 32) else c.

(** The value of a [char]; whether [char] is signed is the
    compiler's choice. *)
Definition char_value (char_signed : bool) (c : ascii) : Z :=
  let n := Z.of_N (N_of_ascii c) in
  if char_signed && (128 <=? n) then n - 256 else n.

(** [Stricmp] on two C strings, each given by its characters before
    the terminator. *)
Fixpoint Stricmp (char_signed : bool) (a b : string) : Z :=
  match a, b with
  | String x a', String y b' =>
      let ca := char_value char_signed (tolower x) in
      let cb := char_value char_signed (tolower y) in
      if ca <? cb then -1
      else if ca >? cb then 1
      else Stricmp char_signed a' b'
  | String _ _, EmptyString => 1
  | EmptyString, String _ _ => -1
  | EmptyString, EmptyString => 0
  end.

(** A string with every character through [tolower]. *)
Fixpoint lower (s : string) : string :=
  match s with
  | EmptyString => EmptyString
  | String c r => String (tolower c) (lower r)
  end.

(** [path[n] == '/' || path[n] == '\\']. *)
Definition is_separator (c : ascii) : bool :=
  ((c =? "/") || (c =? "092"))%char.

(** [&s[n]]: the string that starts at index [n]. *)
Fixpoint drop (n : nat) (s : string) : string :=
  match n, s with
  | O, _ => s
  | S n', String _ r => drop n' r
  | S _, EmptyString => EmptyString
  end.

(** The [while (n >= 0)] loop of [filenameFromPath], entered with
    [n = k - 1]. *)
Fixpoint filenameFromPath_loop (path : string) (k : nat) : string :=
  match k with
  | O => path
  | S n =>
      match String.get n path with
      | Some c => if is_separator c then drop (S n) path
                  else filenameFromPath_loop path n
      | None => path (* not reached: [n] is below [strlen(path)] *)
      end
  end.

(** [filenameFromPath], for paths shorter than [INT_MAX]. *)
Definition filenameFromPath (path : string) : string :=
  filenameFromPath_loop path (String.length path).

Fixpoint has_separator (s : string) : bool :=
  match s with
  | EmptyString => false
  | String c r => is_separator c || has_separator r
  end.

(** The first [n] characters of a string. *)
Fixpoint take (n : nat) (s : string) : string :=
  match n, s with
  | O, _ => EmptyString
  | S n', String c r => String c (take n' r)
  | S _, EmptyString => EmptyString
  end.


(** The 32-bit word with the given bytes, most significant first. *)
Definition be_word (b0 b1 b2 b3 : byte) : Z :=
  byteZ b0 * 2 ^ 24 + byteZ b1 * 2 ^ 16 + byteZ b2 * 2 ^ 8 + byteZ b3.

(** A string that fits a [char[HIP_STRING_SIZE]] with its terminator. *)
Definition short (s : string) : Prop :=
  Z.of_nat (String.length s) < HIP_STRING_SIZE.

(** The fixed-size arrays of [Hip] are used within their bounds: the
    block stack holds at most [HIP_MAX_STACK_DEPTH] blocks, the
    platform record at most [HIP_MAX_PLATFORM_STRINGS] strings, every
    string fits its array, and the debug tables are as long as the
    header tables they were allocated with. *)
Definition arrays_in_bounds (h : Hip) : Prop :=
  stackDepth h <= HIP_MAX_STACK_DEPTH
  /\ 0 <= stringCount (plat h) <= HIP_MAX_PLATFORM_STRINGS
  /\ Z.of_nat (length (strings (plat h))) = HIP_MAX_PLATFORM_STRINGS
  /\ Forall short (strings (plat h))
  /\ short (pcrt_string (pcrt h))
  /\ Forall (fun d => short (name d) /\ short (filename d)) (adbg h)
  /\ length (adbg h) = length (ahdr h)
  /\ length (ldbg h) = length (lhdr h).

(** ** The command line *)

Definition DEFAULT_COLUMN_WIDTH : Z := 50.

Definition isspace (c : ascii) : bool :=
  let n := N_of_ascii c in ((n =? 32) || ((9 <=? n) && (n <=? 13)))%N.
Definition isdigit (c : ascii) : bool :=
  let n := N_of_ascii c in ((48 <=? n) && (n <=? 57))%N.

Fixpoint skip_space (s : string) : string :=
  match s with
  | String c r => if isspace c then skip_space r else s
  | EmptyString => s
  end.

Fixpoint digits_value (s : string) (acc : Z) : Z :=
  match s with
  | String c r =>
      if isdigit c
      then digits_value r (acc * 10 + (Z.of_N (N_of_ascii c) - 48))
      else acc
  | EmptyString => acc
  end.

(** The value [atoi] computes: white space, an optional sign, then
    the decimal digits there are (none gives 0). *)
Definition atoi_value (s : string) : Z :=
  match skip_space s with
  | String c r =>
      if (c =? "-")%char then - digits_value r 0
      else if (c =? "+")%char then digits_value r 0
      else digits_value (String c r) 0
  | EmptyString => 0
  end.

(** [atoi]; [None] when the value does not fit an [int], where the
    behaviour is undefined. *)
Definition atoi (s : string) : option Z :=
  let v := atoi_value s in
  if (- 2 ^ 31 <=? v) && (v <? 2 ^ 31) then Some v else None.

(** The variables the argument loop of [main] sets. *)
Record Args := { showHelp : bool; showVersion : bool; flags_ : Options;
                 columnWidth : Z; paths : list string }.

Definition Args0 : Args :=
  {| showHelp := false; showVersion := false;
     flags_ := {| assetDiffsOnly := false; detailedAssets := false;
                  ignoreDataIfChksumMatch := false; diffOffsets := false;
                  diffPluses := false |};
     columnWidth := DEFAULT_COLUMN_WIDTH; paths := [] |}.

Definition set_flags (f : Options -> Options) (st : Args) : Args :=
  {| showHelp := showHelp st; showVersion := showVersion st;
     flags_ := f (flags_ st); columnWidth := columnWidth st;
     paths := paths st |}.

(** The ways [main] returns before it opens a file, by what it
    prints. *)
Inductive Usage :=
| NoArguments
| UnknownOption (arg : string)
| TooManyArguments (arg : string)
| HelpShown
| VersionShown
| OriginalMissing
| ModifiedMissing.

(** [arg[0] == '-']. *)
Definition is_option (arg : string) : bool :=
  match arg with
  | String c _ => (c =? "-")%char
  | EmptyString => false
  end.

(** The loop [for (int i = 1; i < argc; i++)] on the arguments that
    are left.  [-w] as the last argument passes [argv[argc]], a null
    pointer, to [atoi]. *)
Fixpoint parse_args (char_signed : bool) (args : list string) (st : Args)
  : outcome (Args + Usage) :=
  let same (o : string) (arg : string) := Stricmp char_signed arg o =? 0 in
  match args with
  | [] => Done (inl st)
  | arg :: rest =>
      if is_option arg then
        if same "-h"%string arg then
          parse_args char_signed rest
            {| showHelp := true; showVersion := showVersion st;
               flags_ := flags_ st; columnWidth := columnWidth st;
               paths := paths st |}
        else if same "-v"%string arg then
          parse_args char_signed rest
            {| showHelp := showHelp st; showVersion := true;
               flags_ := flags_ st; columnWidth := columnWidth st;
               paths := paths st |}
        else if same "-a"%string arg then
          parse_args char_signed rest
            (set_flags (fun o => {| assetDiffsOnly := true;
               detailedAssets := detailedAssets o;
               ignoreDataIfChksumMatch := ignoreDataIfChksumMatch o;
               diffOffsets := diffOffsets o;
               diffPluses := diffPluses o |}) st)
        else if same "-d"%string arg then
          parse_args char_signed rest
            (set_flags (fun o => {| assetDiffsOnly := assetDiffsOnly o;
               detailedAssets := true;
               ignoreDataIfChksumMatch := ignoreDataIfChksumMatch o;
               diffOffsets := diffOffsets o;
               diffPluses := diffPluses o |}) st)
        else if same "-c"%string arg then
          parse_args char_signed rest
            (set_flags (fun o => {| assetDiffsOnly := assetDiffsOnly o;
               detailedAssets := detailedAssets o;
               ignoreDataIfChksumMatch := true;
               diffOffsets := diffOffsets o;
               diffPluses := diffPluses o |}) st)
        else if same "-o"%string arg then
          parse_args char_signed rest
            (set_flags (fun o => {| assetDiffsOnly := assetDiffsOnly o;
               detailedAssets := detailedAssets o;
               ignoreDataIfChksumMatch := ignoreDataIfChksumMatch o;
               diffOffsets := true;
               diffPluses := diffPluses o |}) st)
        else if same "-p"%string arg then
          parse_args char_signed rest
            (set_flags (fun o => {| assetDiffsOnly := assetDiffsOnly o;
               detailedAssets := detailedAssets o;
               ignoreDataIfChksumMatch := ignoreDataIfChksumMatch o;
               diffOffsets := diffOffsets o;
               diffPluses := true |}) st)
        else if same "-w"%string arg then
          match rest with
          | [] => Stop UndefinedBehaviour
          | width :: rest' =>
              match atoi width with
              | None => Stop UndefinedBehaviour
              | Some w =>
                  parse_args char_signed rest'
                    {| showHelp := showHelp st;
                       showVersion := showVersion st;
                       flags_ := flags_ st;
                       columnWidth := if w <=? 0 then DEFAULT_COLUMN_WIDTH
                                      else w;
                       paths := paths st |}
              end
          end
        else Done (inr (UnknownOption arg))
      else if (length (paths st) <? 2)%nat then
        parse_args char_signed rest
          {| showHelp := showHelp st; showVersion := showVersion st;
             flags_ := flags_ st; columnWidth := columnWidth st;
             paths := paths st ++ [arg] |}
      else Done (inr (TooManyArguments arg))
  end.

(** [main] up to the two [open] calls, on [argv]: the settings it
    goes on with, or the message it returns with. *)
Definition command_line (char_signed : bool) (argv : list string)
  : outcome (Args + Usage) :=
  match argv with
  | [] | [_] => Done (inr NoArguments)
  | _ :: args =>
      match parse_args char_signed args Args0 with
      | Stop f => Stop f
      | Done (inr u) => Done (inr u)
      | Done (inl st) =>
          if showHelp st then Done (inr HelpShown)
          else if showVersion st then Done (inr VersionShown)
          else match paths st with
               | [] => Done (inr OriginalMissing)
               | [_] => Done (inr ModifiedMissing)
               | _ => Done (inl st)
               end
      end
  end.

(** The value [main] returns with a message. *)
Definition exit_code (u : Usage) : Z :=
  match u with
  | HelpShown | VersionShown => 0
  | _ => 1
  end.

(** ** Printing *)

(** What the program has written to the standard output. *)
Definition Out := St string.

Definition printf (s : string) : Out unit :=
  modify (fun o => (o ++ s)%string).

Definition ESC : string := String "027" EmptyString.
Definition RED : string := (ESC ++ "[31m")%string.
Definition GRN : string := (ESC ++ "[32m")%string.
Definition YEL : string := (ESC ++ "[33m")%string.
Definition RESET : string := (ESC ++ "[0m")%string.

Fixpoint spaces (n : nat) : string :=
  match n with
  | O => EmptyString
  | S n' => String " " (spaces n')
  end.

(** A string printed with [%-Ns], for a positive [N]: as it is,
    then spaces up to [N] characters. *)
Definition left_justified (N : Z) (s : string) : string :=
  (s ++ spaces (Z.to_nat N - String.length s))%string.

(** [printDiffLine], for a positive [columnWidth]: the format
    [%-Ns] is written to a buffer of 16 bytes first. *)
Definition printDiffLine (columnWidth : Z) (left right : string)
  : Out unit :=
  let bufFmt := ("%-" ++ print_d columnWidth ++ "s")%string in
  (if Z.of_nat (String.length bufFmt) <? 16 then ret tt
   else stop InvalidParameter) ;;;
  printf (left_justified columnWidth left) ;;;
  printf (left_justified columnWidth right) ;;;
  printf newline.

(** [columnWidth * 2] is computed in [int]. *)
Definition printDiffHeader (columnWidth : Z) (left right : string)
  : Out unit :=
  printDiffLine columnWidth left right ;;;
  (if columnWidth * 2 <? 2 ^ 31 then ret tt else stop UndefinedBehaviour) ;;;
  for_ (columnWidth * 2) (fun _ u => printf "=" ;;; ret u) tt ;;;
  printf newline.

Definition printDiff (columnWidth : Z) (diff : Diff) : Out unit :=
  printf (match diff_type diff with
          | Addition => GRN
          | Deletion => RED
          | Modification => YEL
          end) ;;;
  printDiffLine columnWidth (left diff) (right diff) ;;;
  printf RESET.

(** [printDiffs(diffs, title, count)] with a title, as in every call
    of [main]. *)
Definition printDiffs (columnWidth : Z) (diffs : list Diff) (title : string)
  (count : Z) : Out unit :=
  match diffs with
  | [] => ret tt
  | _ =>
      (if count =? -1 then printDiffLine columnWidth title title
       else
         let buf := (title ++ " (" ++ print_d count ++ ")")%string in
         (if Z.of_nat (String.length buf) <? 64 then ret tt
          else stop InvalidParameter) ;;;
         printDiffLine columnWidth buf buf) ;;;
      foreach diffs (fun diff u => printDiff columnWidth diff ;;; ret u) tt
  end.

(** [main] from [const char* oname = opath] to its end: the report
    on the standard output. *)
Definition print_report (assetDiffsOnly : bool) (columnWidth : Z)
  (opath mpath : string) (r : Report) : Out unit :=
  let oname := opath in
  let mname := mpath in
  let onameWidth := Z.of_nat (String.length oname) + 1 in
  let mnameWidth := Z.of_nat (String.length oname) + 1 in
  let columnWidth :=
    if onameWidth >? columnWidth then onameWidth else columnWidth in
  let columnWidth :=
    if mnameWidth >? columnWidth then mnameWidth else columnWidth in
  let hd := header r in
  let a := assets r in
  let l := layers r in
  printDiffHeader columnWidth oname mname ;;;
  (if negb assetDiffsOnly then
     printDiffs columnWidth (pverDiffs hd) "PVER" (-1) ;;;
     printDiffs columnWidth (pflgDiffs hd) "PFLG" (-1) ;;;
     printDiffs columnWidth (pcntDiffs hd) "PCNT" (-1) ;;;
     printDiffs columnWidth (pcrtDiffs hd) "PCRT" (-1) ;;;
     printDiffs columnWidth (pmodDiffs hd) "PMOD" (-1) ;;;
     printDiffs columnWidth (platDiffs hd) "PLAT" (-1) ;;;
     printDiffs columnWidth (ainfDiffs hd) "AINF" (-1)
   else ret tt) ;;;
  printDiffs columnWidth (assetAdditions a) "Added assets"
    (numAssetsAdded a) ;;;
  printDiffs columnWidth (assetDeletions a) "Deleted assets"
    (numAssetsDeleted a) ;;;
  printDiffs columnWidth (assetModifications a) "Modified assets"
    (numAssetsModified a) ;;;
  (if negb assetDiffsOnly then
     printDiffs columnWidth (layerAdditions l) "Added layers"
       (numLayersAdded l) ;;;
     printDiffs columnWidth (layerDeletions l) "Deleted layers"
       (numLayersDeleted l) ;;;
     printDiffs columnWidth (layerModifications l) "Modified layers"
       (numLayersModified l)
   else ret tt) ;;;
  printf newline ;;;
  printf (print_d (additionCount (counts r)) ++ " addition(s), "
          ++ print_d (deletionCount (counts r)) ++ " deletion(s), "
          ++ print_d (modificationCount (counts r))
          ++ " modification(s)" ++ newline).

(** A row of [n] signs [=]. *)
Fixpoint rule (n : nat) : string :=
  match n with
  | O => EmptyString
  | S n' => String "=" (rule n')
  end.

(** ** What the options may change *)

(** The part of [Assets] that does not hold lines: the three numbers
    and the two sets. *)
Definition asset_numbers (s : Assets) : Z * Z * Z * list Z * list Z :=
  (numAssetsAdded s, numAssetsDeleted s, numAssetsModified s,
   addedAssets s, deletedAssets s).

(** Two settings that differ at most in [detailedAssets]. *)
Definition same_but_detailed (opt1 opt2 : Options) : Prop :=
  assetDiffsOnly opt1 = assetDiffsOnly opt2
  /\ ignoreDataIfChksumMatch opt1 = ignoreDataIfChksumMatch opt2
  /\ diffOffsets opt1 = diffOffsets opt2
  /\ diffPluses opt1 = diffPluses opt2.

(** [m] reads of the counters only whether counting is enabled: from
    two states that agree on it, it returns the same value. *)
Definition steady {A} (m : D A) : Prop :=
  forall c1 c2 a c1',
    countsEnabled c1 = countsEnabled c2 ->
    m c1 = Done (a, c1') ->
    exists c2', m c2 = Done (a, c2') /\ countsEnabled c1' = countsEnabled c2'.

(** Two settings that differ at most in [assetDiffsOnly]. *)
Definition same_but_assetDiffsOnly (opt1 opt2 : Options) : Prop :=
  detailedAssets opt1 = detailedAssets opt2
  /\ ignoreDataIfChksumMatch opt1 = ignoreDataIfChksumMatch opt2
  /\ diffOffsets opt1 = diffOffsets opt2
  /\ diffPluses opt1 = diffPluses opt2.

(** The text [printDiff] writes for one entry, and the text of the
    loop of [printDiffs] over a bucket. *)
Definition entry_text (columnWidth : Z) (d : Diff) : string :=
  ((match diff_type d with
    | Addition => GRN
    | Deletion => RED
    | Modification => YEL
    end)
   ++ left_justified columnWidth (left d)
   ++ left_justified columnWidth (right d) ++ newline ++ RESET)%string.

Fixpoint entries_text (columnWidth : Z) (diffs : list Diff) : string :=
  match diffs with
  | [] => EmptyString
  | d :: r => (entry_text columnWidth d ++ entries_text columnWidth r)%string
  end.

(** The text [printDiffs] writes for a bucket. *)
Definition section_text (columnWidth : Z) (diffs : list Diff)
  (title : string) (count : Z) : string :=
  match diffs with
  | [] => EmptyString
  | _ =>
      let t := if count =? -1 then title
               else (title ++ " (" ++ print_d count ++ ")")%string in
      (left_justified columnWidth t ++ left_justified columnWidth t
       ++ newline ++ entries_text columnWidth diffs)%string
  end.

(** ** Layers and their members *)

(** The layer at position [j] of the file lists the id [k]. *)
Definition in_layer (h : Hip) (k : Z) (j : nat) : Prop :=
  exists l, nth_error (layers_of h) j = Some l /\ In k (layer_ids h l).

(** [i] is the position of the last layer of the file that lists [k],
    or -1 when no layer does. *)
Definition last_layer_of (h : Hip) (k : Z) (i : Z) : Prop :=
  (i = -1 /\ forall j, ~ in_layer h k j)
  \/ exists j, i = Z.of_nat j /\ in_layer h k j
               /\ forall j', (j < j')%nat -> ~ in_layer h k j'.

(** The keys of [ahdrIndices] without an asset in the original
    file, and those with one in the original file only. *)
Definition added_keys (idx : list (Z * Index)) : list Z :=
  map fst (filter (fun it => oidx (snd it) =? -1) idx).
Definition deleted_keys (idx : list (Z * Index)) : list Z :=
  map fst (filter (fun it => negb (oidx (snd it) =? -1)
                             && (midx (snd it) =? -1)) idx).

(** ** Comparisons that end *)

(** [m] returns a value from every state of the counters. *)
Definition runs {A} (m : D A) : Prop :=
  forall c, exists a c', m c = Done (a, c').

(** The asset of id [k] at the index [j] of [h] can be compared: its
    records are in the tables, its payload is in the buffer and its
    names fit the lines of the report. *)
Definition readable_asset (h : Hip) (k j : Z) : Prop :=
  exists x d b,
    at_ (ahdr h) j = Some x /\ at_ (adbg h) j = Some d /\ id x = k
    /\ view h x (size x) = Some b
    /\ (String.length (name d) < 32)%nat
    /\ (String.length (filename d) < 32)%nat.

(** Every id a layer of [h] lists is the id of an asset of [h]. *)
Definition members_are_assets (h : Hip) : Prop :=
  forall l, In l (layers_of h) ->
  forall i, In i (layer_ids h l) -> In i (asset_ids h).

(** The layer of type [ty] at the index [j] of [h] can be compared:
    its records are in the tables and its ids in the id array. *)
Definition readable_layer (h : Hip) (ty j : Z) : Prop :=
  exists y g,
    at_ (lhdr h) j = Some y /\ at_ (ldbg h) j = Some g
    /\ lhdr_type y = ty /\ In y (layers_of h).

(** The strings of [h] that the report shows fit their lines, as the
    strings of every archive that was read do. *)
Definition strings_fit (h : Hip) : bool :=
  (String.length (pcrt_string (pcrt h)) <? 32)%nat
  && forallb (fun s => (String.length s <? 32)%nat) (strings (plat h))
  && forallb (fun d => (String.length (filename d) <? 32)%nat)
       (firstn (Z.to_nat (assetCount (pcnt h))) (adbg h)).

(** [members_are_assets], decided. *)
Definition members_listed (h : Hip) : bool :=
  forallb (fun l => forallb (fun i => set_mem i (asset_ids h))
                      (layer_ids h l))
    (layers_of h).

(** An archive whose tables agree with each other: it is well
    formed, its strings fit, and its layers list assets it has. *)
Definition consistent (h : Hip) : bool :=
  well_formed h && strings_fit h && members_listed h.

(** The text of the sections of the report, in the order [main]
    prints them. *)
Definition sections_text (assetDiffsOnly : bool) (W : Z) (r : Report)
  : string :=
  ((if assetDiffsOnly then EmptyString
    else
      section_text W (pverDiffs (header r)) "PVER" (-1)
      ++ section_text W (pflgDiffs (header r)) "PFLG" (-1)
      ++ section_text W (pcntDiffs (header r)) "PCNT" (-1)
      ++ section_text W (pcrtDiffs (header r)) "PCRT" (-1)
      ++ section_text W (pmodDiffs (header r)) "PMOD" (-1)
      ++ section_text W (platDiffs (header r)) "PLAT" (-1)
      ++ section_text W (ainfDiffs (header r)) "AINF" (-1))
   ++ section_text W (assetAdditions (assets r)) "Added assets"
        (numAssetsAdded (assets r))
   ++ section_text W (assetDeletions (assets r)) "Deleted assets"
        (numAssetsDeleted (assets r))
   ++ section_text W (assetModifications (assets r)) "Modified assets"
        (numAssetsModified (assets r))
   ++ (if assetDiffsOnly then EmptyString
       else
         section_text W (layerAdditions (layers r)) "Added layers"
           (numLayersAdded (layers r))
         ++ section_text W (layerDeletions (layers r)) "Deleted layers"
              (numLayersDeleted (layers r))
         ++ section_text W (layerModifications (layers r)) "Modified layers"
              (numLayersModified (layers r))))%string.

(** Asset foo (id 1) in a layer of type 5; and asset baz (id 3) with
    a layer of type 0 that lists the id 1, which no asset of that
    file has. *)
Definition archive_foo : list byte :=
  archive ("Mon Jan  1 00:00:00 2001" ++ newline) 1
    (fun s => [AHDR_chunk 1 0x54455854 s 4 "foo" 0x11])
    [LHDR_chunk 5 [1]]
    (map byte_of_Z [1; 2; 3; 4]).

Definition archive_baz_lists_foo : list byte :=
  archive ("Mon Jan  1 00:00:00 2001" ++ newline) 1
    (fun s => [AHDR_chunk 3 0x54455854 s 4 "baz" 0x33])
    [LHDR_chunk 0 [1]]
    (map byte_of_Z [9; 9; 9; 9]).

(** ** The events of a comparison *)

(** The events are told from the two archives [main] compares and
    from the tables of the identity matcher, not from what the
    comparison writes or counts. *)

Definition same_type (t u : DiffType) : bool :=
  match t, u with
  | Addition, Addition => true
  | Deletion, Deletion => true
  | Modification, Modification => true
  | _, _ => false
  end.

(** The number of events of the kind [t]. *)
Definition count_events (t : DiffType) (es : list DiffType) : Z :=
  Z.of_nat (length (filter (same_type t) es)).

(** The archive as [main] compares it: the creation string without
    the newline at its end. *)
Definition hacked (h : Hip) : Hip :=
  set_pcrt {| pcrt_time := pcrt_time (pcrt h);
              pcrt_string := drop_last_newline (pcrt_string (pcrt h)) |} h.

(** A field that differs is one modification. *)
Definition changed (differs : bool) : list DiffType :=
  if differs then [Modification] else [].

(** The indices [i], [i + 1], ... of [n] rounds of a loop. *)
Fixpoint upto (n : nat) (i : Z) : list Z :=
  match n with
  | O => []
  | S n' => i :: upto n' (i + 1)
  end.

(** The string at place [i] of two platform records: added when only
    the modified record has it, deleted when only the original has
    it, modified when both have it and it differs. *)
Definition plat_string_events (o m : PLAT) (i : Z) : list DiffType :=
  if i >=? stringCount o then [Addition]
  else if i >=? stringCount m then [Deletion]
  else match at_ (strings o) i, at_ (strings m) i with
       | Some so, Some sm => changed (strdiff sm so)
       | _, _ => []
       end.

(** A platform record only one archive has is added or deleted with
    each of its strings; of two records the id and the strings are
    compared. *)
Definition plat_events (o m : PLAT) : list DiffType :=
  if plat_exists o || plat_exists m then
    if negb (Bool.eqb (plat_exists o) (plat_exists m)) then
      if plat_exists o && negb (plat_exists m)
      then Deletion :: repeat Deletion (Z.to_nat (stringCount o))
      else Addition :: repeat Addition (Z.to_nat (stringCount m))
    else
      changed (neq (plat_id o) (plat_id m))
      ++ flat_map (plat_string_events o m)
           (upto (Z.to_nat (Z.max (stringCount o) (stringCount m))) 0)
  else [].

(** The events of the header: one per field that differs, and those
    of the platform record. *)
Definition header_events (o m : Hip) : list DiffType :=
  changed (neq (subVersion (pver o)) (subVersion (pver m)))
  ++ changed (neq (clientVersion (pver o)) (clientVersion (pver m)))
  ++ changed (neq (compatVersion (pver o)) (compatVersion (pver m)))
  ++ changed (neq (pflg_flags (pflg o)) (pflg_flags (pflg m)))
  ++ changed (neq (assetCount (pcnt o)) (assetCount (pcnt m)))
  ++ changed (neq (layerCount (pcnt o)) (layerCount (pcnt m)))
  ++ changed (neq (maxAssetSize (pcnt o)) (maxAssetSize (pcnt m)))
  ++ changed (neq (maxLayerSize (pcnt o)) (maxLayerSize (pcnt m)))
  ++ changed (neq (maxXformAssetSize (pcnt o)) (maxXformAssetSize (pcnt m)))
  ++ changed (neq (pcrt_time (pcrt o)) (pcrt_time (pcrt m)))
  ++ changed (strdiff (pcrt_string (pcrt o)) (pcrt_string (pcrt m)))
  ++ changed (neq (pmod_time (pmod o)) (pmod_time (pmod m)))
  ++ plat_events (plat o) (plat m)
  ++ changed (neq (ainf_ainf (ainf o)) (ainf_ainf (ainf m))).

(** [m] appends to the vector [v] entries of the kinds [ts], in this
    order. *)
Definition yields (m : D (list Diff)) (v : list Diff) (ts : list DiffType)
  : Prop :=
  forall c v' c', m c = Done (v', c') ->
    map diff_type v' = map diff_type v ++ ts.

(** Whether the payloads of a pair of assets differ, as [main]
    decides it. *)
Definition data_changed (opt : Options) (o m : Hip) (oa ma : AHDR)
  (od md : ADBG) : bool :=
  if ignoreDataIfChksumMatch opt then neq (checksum od) (checksum md)
  else if size oa =? size ma then
    match view o oa (size oa), view m ma (size oa) with
    | Some ob, Some mb => negb (bytes_eqb ob mb)
    | _, _ => false
    end
  else true.

(** The event of one entry of [ahdrIndices]: an asset of the
    modified archive only is added, one of the original archive only
    is deleted, and one of both is modified when a compared field or
    the payload differs. *)
Definition asset_event (opt : Options) (o m : Hip) (it : Z * Index)
  : list DiffType :=
  let a := snd it in
  if oidx a =? -1 then [Addition]
  else if midx a =? -1 then [Deletion]
  else
    match at_ (ahdr o) (oidx a), at_ (ahdr m) (midx a),
          at_ (adbg o) (oidx a), at_ (adbg m) (midx a) with
    | Some oa, Some ma, Some od, Some md =>
        changed (assetDiffers opt oa ma od md
                   (data_changed opt o m oa ma od md))
    | _, _, _, _ => []
    end.

Definition asset_events (opt : Options) (o m : Hip) (idx : map_ Index)
  : list DiffType :=
  flat_map (asset_event opt o m) idx.

(** The ids of the added assets and of the deleted assets. *)
Definition added_ids (m : Hip) (idx : map_ Index) : list Z :=
  flat_map (fun it : Z * Index =>
              if oidx (snd it) =? -1 then
                match at_ (ahdr m) (midx (snd it)) with
                | Some x => [id x]
                | None => []
                end
              else []) idx.

Definition deleted_ids (o : Hip) (idx : map_ Index) : list Z :=
  flat_map (fun it : Z * Index =>
              if oidx (snd it) =? -1 then []
              else if midx (snd it) =? -1 then
                match at_ (ahdr o) (oidx (snd it)) with
                | Some x => [id x]
                | None => []
                end
              else []) idx.

(** The event of one entry of [ahdrLHDRIndices] for the pair of
    layers [l]: an asset that is in the modified layer and was in
    another original layer joins, unless the asset itself is added;
    an asset that was in the original layer and is in another
    modified layer leaves, unless the asset itself is deleted. *)
Definition member_event (added deleted : list Z) (l : Index)
  (it : Z * Index) : list DiffType :=
  let i := fst it in
  let a := snd it in
  if (oidx a =? oidx l) || (midx a =? midx l) then
    if neq (oidx a) (oidx l) then
      if negb (set_mem i added) then [Addition] else []
    else if neq (midx a) (midx l) then
      if negb (set_mem i deleted) then [Deletion] else []
    else []
  else [].

Definition nonempty {A} (l : list A) : bool :=
  match l with
  | [] => false
  | _ :: _ => true
  end.

(** The events of one entry of [lhdrIndices]: a layer of the
    modified archive only is added, one of the original archive only
    is deleted; of a pair, the members that join or leave are events,
    and the pair is modified when there is such a member or the type
    or the debug value differs. *)
Definition pair_events (o m : Hip) (added deleted : list Z)
  (T : map_ Index) (l : Index) : list DiffType :=
  if oidx l =? -1 then [Addition]
  else if midx l =? -1 then [Deletion]
  else
    match at_ (lhdr o) (oidx l), at_ (ldbg o) (oidx l),
          at_ (lhdr m) (midx l), at_ (ldbg m) (midx l) with
    | Some ol, Some od, Some ml, Some md =>
        let members := flat_map (member_event added deleted l) T in
        members
        ++ changed (neq (lhdr_type ol) (lhdr_type ml)
                    || nonempty members
                    || neq (ldbg_ldbg od) (ldbg_ldbg md))
    | _, _, _, _ => []
    end.

Definition layer_events (o m : Hip) (added deleted : list Z)
  (T : map_ Index) (L : map_ (list Index)) : list DiffType :=
  flat_map (fun it : Z * list Index =>
              flat_map (pair_events o m added deleted T) (snd it)) L.

(** A table of the identity matcher, empty when it cannot be built. *)
Definition table {V} (t : option (map_ V)) : map_ V :=
  match t with
  | Some t => t
  | None => []
  end.

(** The events of the comparison of two archives: those of the
    assets, and unless only the assets are compared those of the
    header and of the layers. *)
Definition diff_events (opt : Options) (o m : Hip) : list DiffType :=
  let idx := table (build_ahdrIndices o m) in
  if assetDiffsOnly opt then asset_events opt o m idx
  else
    header_events o m
    ++ asset_events opt o m idx
    ++ layer_events o m (added_ids m idx) (deleted_ids o idx)
         (table (build_ahdrLHDRIndices o m)) (table (build_lhdrIndices o m)).

(** An archive and a later state of it: foo is gone, bar has a new
    payload and has moved into the first layer, baz is new, qux is as
    it was; the second layer is gone and two layers are new. *)
Definition archive_before : list byte :=
  archive ("Mon Jan  1 00:00:00 2001" ++ newline) 3
    (fun s => [AHDR_chunk 1 0x54455854 s 4 "foo" 0x11;
               AHDR_chunk 2 0x54455854 (s + 4) 4 "bar" 0x22;
               AHDR_chunk 4 0x54455854 (s + 8) 4 "qux" 0x44])
    [LHDR_chunk 1 [1; 4]; LHDR_chunk 1 [2]; LHDR_chunk 2 []]
    (map byte_of_Z [1; 2; 3; 4; 5; 6; 7; 8; 9; 10; 11; 12]).

Definition archive_after : list byte :=
  archive ("Mon Jan  1 00:00:00 2001" ++ newline) 4
    (fun s => [AHDR_chunk 2 0x54455854 s 4 "bar" 0x23;
               AHDR_chunk 3 0x54455854 (s + 4) 4 "baz" 0x33;
               AHDR_chunk 4 0x54455854 (s + 8) 4 "qux" 0x44])
    [LHDR_chunk 1 [2; 3; 4]; LHDR_chunk 2 []; LHDR_chunk 2 [];
     LHDR_chunk 3 []]
    (map byte_of_Z [8; 7; 6; 5; 0; 0; 0; 0; 9; 10; 11; 12]).

(** ** Proof tools *)

(** Splits a hypothesis [bind m k s = Done r] into the run of [m]
    and the run of [k]. *)
Ltac run_bind H :=
  match type of H with
  | bind ?m ?k ?s = Done _ =>
      let E := fresh "E" in
      let a := fresh "a" in
      let s' := fresh "s" in
      unfold bind at 1 in H;
      destruct (m s) as [[a s'] |] eqn:E; [ | discriminate H]
  end.

(** Counter [t] incremented. *)
Definition incr (t : DiffType) (c : Counts) : Counts :=
  match t with
  | Addition => {| additionCount := additionCount c + 1;
                   deletionCount := deletionCount c;
                   modificationCount := modificationCount c;
                   countsEnabled := countsEnabled c |}
  | Deletion => {| additionCount := additionCount c;
                   deletionCount := deletionCount c + 1;
                   modificationCount := modificationCount c;
                   countsEnabled := countsEnabled c |}
  | Modification => {| additionCount := additionCount c;
                       deletionCount := deletionCount c;
                       modificationCount := modificationCount c + 1;
                       countsEnabled := countsEnabled c |}
  end.

(** The counters after entries [ds] went through [ADDITION],
    [DELETION] or [MODIFICATION]. *)
Definition bumps (c : Counts) (ds : list Diff) : Counts :=
  fold_left (fun c d => if countsEnabled c then incr (diff_type d) c else c)
    ds c.

(** [m] appends entries to the vector [v] and counts them as the
    emitting functions do. *)
Definition emits (m : D (list Diff)) (v : list Diff) : Prop :=
  forall c v' c', m c = Done (v', c') ->
    exists ds, v' = v ++ ds /\ c' = bumps c ds.

(** [m] leaves the counters alone while counting is disabled. *)
Definition quiet {A} (m : D A) : Prop :=
  forall c a c', countsEnabled c = false -> m c = Done (a, c') -> c' = c.

(** The value of a counter. *)
Definition counter (t : DiffType) (c : Counts) : Z :=
  match t with
  | Addition => additionCount c
  | Deletion => deletionCount c
  | Modification => modificationCount c
  end.

Create HintDb emit.
Create HintDb quiet.

(** * The reader *)

Lemma bind_Done {S A B} (m : St S A) (k : A -> St S B) s r :
  bind m k s = Done r ->
  exists a s', m s = Done (a, s') /\ k a s' = Done r.
Proof.
  unfold bind. destruct (m s) as [[a s'] |]; [eauto | discriminate].
Qed.

Lemma bind_run {S A B} (m : St S A) (k : A -> St S B) s a s' :
  m s = Done (a, s') -> bind m k s = k a s'.
Proof. unfold bind. intros ->. reflexivity. Qed.

(** ** Arrays *)

Lemma at_nth_error {A} (l : list A) (i : nat) :
  at_ l (Z.of_nat i) = nth_error l i.
Proof.
  unfold at_. destruct (Z.ltb_spec (Z.of_nat i) 0) as [L | L]; [lia |].
  now rewrite Nat2Z.id.
Qed.

Lemma at_Some_range {A} (l : list A) i x :
  at_ l i = Some x -> 0 <= i < Z.of_nat (length l).
Proof.
  unfold at_. destruct (Z.ltb_spec i 0) as [L | L]; [discriminate |].
  intros H.
  assert (Z.to_nat i < length l)%nat by (apply nth_error_Some; congruence).
  lia.
Qed.

Lemma at_in_range {A} (l : list A) i :
  0 <= i < Z.of_nat (length l) -> exists x, at_ l i = Some x.
Proof.
  intros H. unfold at_. destruct (Z.ltb_spec i 0) as [L | L]; [lia |].
  destruct (nth_error l (Z.to_nat i)) eqn:N; [eauto |].
  apply nth_error_None in N. lia.
Qed.

Lemma store_nat_spec {A} (l : list A) n v :
  (n < length l)%nat ->
  store_nat l n v = Some (firstn n l ++ v :: skipn (S n) l).
Proof.
  revert n. induction l as [| x l IH]; intros n H; simpl in H; [lia |].
  destruct n as [| n]; simpl; [reflexivity |].
  rewrite IH by lia. reflexivity.
Qed.

Lemma store_spec {A} (l : list A) i v :
  0 <= i < Z.of_nat (length l) ->
  store l i v
  = Some (firstn (Z.to_nat i) l ++ v :: skipn (S (Z.to_nat i)) l).
Proof.
  intros H. unfold store. destruct (Z.ltb_spec i 0) as [L | L]; [lia |].
  apply store_nat_spec. lia.
Qed.

(** ** Entering a block *)

(** At the depth cap, [enterBlock] with assertions compiled out gives
    the answer it gives at the end of a block, and changes nothing. *)
Lemma enterBlock_at_cap (h : Hip) :
  HIP_MAX_STACK_DEPTH <= stackDepth h ->
  enterBlock true h = Done (0, h).
Proof.
  intros H. unfold enterBlock, bind, get, assert. simpl.
  destruct (Z.geb_spec (stackDepth h) HIP_MAX_STACK_DEPTH) as [L | L];
    [reflexivity | lia].
Qed.

(** With assertions compiled in, it aborts. *)
Lemma enterBlock_at_cap_asserted (h : Hip) :
  HIP_MAX_STACK_DEPTH <= stackDepth h ->
  enterBlock false h = Stop AssertionFailed.
Proof.
  intros H. unfold enterBlock, bind, get, assert. simpl.
  destruct (Z.ltb_spec (stackDepth h) HIP_MAX_STACK_DEPTH) as [L | L];
    [lia | reflexivity].
Qed.

(** On a file with fewer than four bytes left and no open block,
    [enterBlock] answers 0. *)
Lemma enterBlock_empty (NDEBUG : bool) :
  enterBlock NDEBUG (open []) = Done (0, open []).
Proof. destruct NDEBUG; reflexivity. Qed.

(** ** C2 *)

(** C2, at the failing input: [read] on the empty file finds no
    block, never reaches its test of [valid], and returns [true];
    the object is the one [open] left. *)
Theorem read_empty_file_succeeds :
  forall (NDEBUG : bool) (fuel : nat),
    load NDEBUG (S fuel) [] = Done (open []).
Proof.
  intros NDEBUG fuel. unfold load, read. simpl.
  unfold bind. rewrite enterBlock_empty. reflexivity.
Qed.

(** A file that begins with a block other than [HIPA] is refused. *)
Example read_without_HIPA_fails :
  load true 100 (PACK_chunk 0 0 "x") = Stop ReturnedFalse
  /\ load false 100 (PACK_chunk 0 0 "x") = Stop ReturnedFalse.
Proof. split; vm_compute; reflexivity. Qed.

(** ** C5 *)

(** C5, at the failing input: the header declares one asset, the
    file has no dictionary, and [read] returns [true] with an empty
    asset table, whether assertions are compiled in or not. *)
Theorem read_count_mismatch_succeeds :
  forall NDEBUG : bool,
    exists h, load NDEBUG 100 archive_no_DICT = Done h
              /\ assetCount (pcnt h) = 1 /\ ahdr h = [].
Proof.
  intros NDEBUG. destruct NDEBUG; eexists; (split; [vm_compute; reflexivity |]);
    split; reflexivity.
Qed.

(** The assertion of [readATOC] is reached when the table is there:
    it aborts the process, and is no check at all when assertions are
    compiled out. *)
Example read_count_mismatch_ATOC :
  load false 100 (chunk "HIPA" [] ++ PACK_chunk 1 0 "x" ++ DICT_chunk [] [])
  = Stop AssertionFailed
  /\ exists h,
       load true 100 (chunk "HIPA" [] ++ PACK_chunk 1 0 "x" ++ DICT_chunk [] [])
       = Done h /\ assetCount (pcnt h) = 1
       /\ ahdr h = [AHDR0].
Proof.
  split; [vm_compute; reflexivity |].
  eexists. split; [vm_compute; reflexivity |]. split; reflexivity.
Qed.

(** ** C6 *)

(** C6, at the failing input: eight levels of blocks fill the stack;
    with assertions compiled out the ninth [enterBlock] answers 0,
    the load goes on and returns [true] with seven blocks still open,
    and the [PACK] chunk that follows is never read. *)
Theorem read_beyond_stack_cap_succeeds :
  exists h, load true 100 archive_deep = Done h
            /\ stackDepth h = 7
            /\ fpos h < Z.of_nat (length (file h))
            /\ pcrt_string (pcrt h) = EmptyString.
Proof.
  eexists. split; [vm_compute; reflexivity |].
  repeat split; vm_compute; reflexivity.
Qed.

(** With assertions compiled in, the same file aborts the process. *)
Example read_beyond_stack_cap_asserted :
  load false 100 archive_deep = Stop AssertionFailed.
Proof. vm_compute. reflexivity. Qed.

(** ** Running the monad *)

Lemma bind_ret {S A B} (a : A) (k : A -> St S B) s :
  bind (ret a) k s = k a s.
Proof. reflexivity. Qed.

Lemma bind_get {S B} (k : S -> St S B) s : bind get k s = k s s.
Proof. reflexivity. Qed.

Lemma bind_modify {S B} (f : S -> S) (k : unit -> St S B) s :
  bind (modify f) k s = k tt (f s).
Proof. reflexivity. Qed.

Lemma bind_bind {S A B C} (m : St S A) (k : A -> St S B) (k' : B -> St S C) s :
  bind (bind m k) k' s = bind m (fun a => bind (k a) k') s.
Proof. unfold bind. destruct (m s) as [[a s'] |]; reflexivity. Qed.

Lemma bind_stop {S A B} (f : fault) (k : A -> St S B) s :
  bind (stop f) k s = Stop f.
Proof. reflexivity. Qed.

(** ** C1: [readDPAK] *)

Lemma readLong_state (h h1 : Hip) (r : option Z) :
  readLong h = Done (r, h1) -> exists p, h1 = set_fpos p h.
Proof.
  unfold readLong, bind.
  destruct (fread 4 h) as [[bs h'] |] eqn:F; [| discriminate].
  unfold fread in F. injection F as _ <-.
  destruct bs as [| b0 [| b1 [| b2 [| b3 [| b4 l]]]]];
    unfold ret; intros H; injection H as _ <-; eexists; reflexivity.
Qed.

Lemma modify_ahdr_run (i : Z) (f : AHDR -> AHDR) (h : Hip) (a : AHDR) :
  at_ (ahdr h) i = Some a ->
  modify_ahdr i f h
  = Done (tt, set_ahdr (firstn (Z.to_nat i) (ahdr h)
                        ++ f a :: skipn (S (Z.to_nat i)) (ahdr h)) h).
Proof.
  intros H. unfold modify_ahdr, bind, get. simpl. rewrite H. simpl.
  rewrite store_spec by (eapply at_Some_range; eassumption).
  reflexivity.
Qed.

(** The loop gives the next [n] assets their views, whatever their
    offsets and sizes, and succeeds as long as the table holds them. *)
Lemma readDPAK_views_run (b : nat) (dataStart : Z) :
  forall (n : nat) (done todo : list AHDR) (h : Hip),
    ahdr h = done ++ todo ->
    (n <= length todo)%nat ->
    readDPAK_views n (Z.of_nat (length done)) b dataStart h
    = Done (tt, set_ahdr (done ++ map (with_view b dataStart) (firstn n todo)
                          ++ skipn n todo) h).
Proof.
  induction n as [| n IH]; intros done todo h E L.
  - simpl. unfold ret. rewrite <- E. destruct h; reflexivity.
  - destruct todo as [| a todo]; [simpl in L; lia |].
    simpl readDPAK_views.
    assert (A : at_ (ahdr h) (Z.of_nat (length done)) = Some a).
    { rewrite at_nth_error, E, nth_error_app2, Nat.sub_diag by lia.
      reflexivity. }
    erewrite bind_run by (apply modify_ahdr_run; exact A).
    rewrite Nat2Z.id, E.
    rewrite firstn_app, firstn_all, Nat.sub_diag, firstn_O, app_nil_r.
    replace (skipn (S (length done)) (done ++ a :: todo)) with todo.
    2:{ rewrite skipn_app, skipn_all2 by lia.
        replace (S (length done) - length done)%nat with 1%nat by lia.
        reflexivity. }
    replace (Z.of_nat (length done) + 1)
      with (Z.of_nat (length (done ++ [with_view b dataStart a])))
      by (rewrite length_app; simpl; lia).
    rewrite (IH (done ++ [with_view b dataStart a]) todo).
    + simpl. rewrite <- !app_assoc. simpl. destruct h; reflexivity.
    + simpl. rewrite <- app_assoc. reflexivity.
    + simpl in L. lia.
Qed.

(** C1, as amended: [readDPAK] checks no bounds.  Whenever the pad
    amount and the rest of the chunk can be read and the asset table
    has its [assetCount] entries, it succeeds, and the view of every
    asset starts [offset - dataStart] bytes after the start of the new
    buffer, whatever the declared offset and size are. *)
Theorem readDPAK_sets_views_unchecked :
  forall (h h1 : Hip) (pad : Z) (blk : Block),
    assetCount (pcnt h) <> 0 ->
    readLong h = Done (Some pad, h1) ->
    hd_error (stack h) = Some blk ->
    0 <= fpos h1 + pad ->
    let dataStart := wrap32 (fpos h1 + pad) in
    let dataSize := wrap32 (endpos blk - dataStart) in
    fpos h1 + pad + dataSize <= Z.of_nat (length (file h)) ->
    (Z.to_nat (assetCount (pcnt h)) <= length (ahdr h))%nat ->
    exists h',
      readDPAK h = Done (tt, h')
      /\ assets_of h'
         = map (with_view (length (heap h)) dataStart) (assets_of h)
      /\ nth_error (heap h') (length (heap h))
         = Some (firstn (Z.to_nat dataSize)
                   (skipn (Z.to_nat (fpos h1 + pad)) (file h))).
Proof.
  intros h h1 pad blk Hn HL Hs Hp dataStart dataSize Hf Ha.
  pose proof HL as HL'. apply readLong_state in HL'. destruct HL' as [p ->].
  subst dataStart dataSize. simpl fpos in *.
  unfold readDPAK. rewrite bind_get.
  destruct (Z.eqb_spec (assetCount (pcnt h)) 0) as [E | _]; [contradiction |].
  unfold orFalse. rewrite bind_bind. erewrite bind_run by exact HL.
  cbv beta iota. rewrite bind_ret, bind_modify. unfold fseek_cur.
  rewrite bind_modify.
  unfold ftell at 1. unfold bind at 1. rewrite bind_get. simpl stack.
  rewrite Hs. simpl defined. rewrite bind_ret.
  unfold fread at 1. unfold bind at 1. simpl fpos. simpl file.
  rewrite bind_modify. simpl heap.
  set (dataStart := wrap32 (p + pad)) in *.
  set (dataSize := wrap32 (endpos blk - dataStart)) in *.
  assert (D0 : 0 <= dataSize) by (apply Z.mod_pos_bound; lia).
  assert (LN : length (firstn (Z.to_nat dataSize)
                         (skipn (Z.to_nat (p + pad)) (file h)))
               = Z.to_nat dataSize).
  { apply firstn_length_le. rewrite length_skipn. lia. }
  rewrite LN, Z2Nat.id by lia. rewrite Z.eqb_refl.
  change (negb true) with false. cbv iota. rewrite bind_get. simpl pcnt.
  simpl heap.
  pose proof (@readDPAK_views_run (length (heap h)) dataStart
                (Z.to_nat (assetCount (pcnt h))) [] (ahdr h)) as R.
  simpl in R. erewrite R; [| reflexivity | exact Ha]. clear R.
  eexists. split; [reflexivity |]. split.
  - unfold assets_of. simpl.
    rewrite firstn_app, length_map, length_firstn, Nat.min_l by lia.
    rewrite Nat.sub_diag, firstn_O, app_nil_r.
    apply firstn_all2. rewrite length_map, length_firstn. lia.
  - simpl. rewrite nth_error_app2, Nat.sub_diag by lia. reflexivity.
Qed.

(** At a concrete input: one asset of four bytes is declared at
    offset [0x10000] of a file of eight bytes. *)
Lemma readDPAK_sets_views_unchecked_witness :
  exists h',
    readDPAK at_DPAK = Done (tt, h')
    /\ assets_of h' = map (with_view 0 4) (assets_of at_DPAK)
    /\ nth_error (heap h') 0 = Some (map byte_of_Z [1; 2; 3; 4]).
Proof.
  apply (@readDPAK_sets_views_unchecked at_DPAK (set_fpos 4 at_DPAK) 0
           {| blk_id := BLKID "D" "P" "A" "K"; endpos := 8 |}).
  - vm_compute. discriminate.
  - vm_compute. reflexivity.
  - reflexivity.
  - vm_compute. discriminate.
  - vm_compute. discriminate.
  - vm_compute. lia.
Defined.

(** C1, as stated, fails: the archive whose only asset is declared
    far outside the payload loads, in either build, and the asset's
    view does not lie in the buffer. *)
Lemma load_keeps_view_out_of_bounds :
  exists h a,
    load false 100 archive_out_of_bounds = Done h
    /\ load true 100 archive_out_of_bounds = Done h
    /\ assets_of h = [a]
    /\ view h a (size a) = None.
Proof.
  eexists. eexists. split; [vm_compute; reflexivity |].
  split; [vm_compute; reflexivity |].
  split; vm_compute; reflexivity.
Qed.

(** * Rendering *)

Lemma string_length_app (s1 s2 : string) :
  String.length (s1 ++ s2) = (String.length s1 + String.length s2)%nat.
Proof. induction s1 as [| c s1 IH]; simpl; [reflexivity | now rewrite IH]. Qed.

Lemma hex_digits_length (n : nat) (x : Z) :
  String.length (hex_digits n x) = n.
Proof.
  revert x. induction n as [| n IH]; intros x; simpl; [reflexivity |].
  rewrite string_length_app, IH. simpl. lia.
Qed.

Lemma dec_digits_length (n : nat) (x : Z) :
  String.length (dec_digits n x) = n.
Proof.
  revert x. induction n as [| n IH]; intros x; simpl; [reflexivity |].
  rewrite string_length_app, IH. simpl. lia.
Qed.

Lemma strip0_length (s : string) :
  (String.length (strip0 s) <= String.length s)%nat.
Proof.
  induction s as [| c s IH]; simpl; [lia |].
  destruct s as [| c' s']; [simpl; lia |].
  destruct (c =? "0")%char; [| simpl; lia].
  simpl in IH |- *. lia.
Qed.

Lemma print_08X_length (x : Z) : String.length (print_08X x) = 8%nat.
Proof. apply hex_digits_length. Qed.

Lemma print_X_length (x : Z) : (String.length (print_X x) <= 8)%nat.
Proof.
  unfold print_X. rewrite <- (hex_digits_length 8 (wrap32 x)) at 2.
  apply strip0_length.
Qed.

Lemma print_d_length (x : Z) : (String.length (print_d x) <= 11)%nat.
Proof.
  unfold print_d. destruct (to_int x <? 0).
  - change (String.length (String "-" ?s)) with (S (String.length s)).
    pose proof (strip0_length (dec_digits 10 (- to_int x))) as H.
    rewrite dec_digits_length in H. lia.
  - pose proof (strip0_length (dec_digits 10 (to_int x))) as H.
    rewrite dec_digits_length in H. lia.
Qed.

(** Proves that a line made by a constant format fits the 64 bytes
    of [left] and [right]. *)
Ltac fits :=
  cbn [sprintf arg_string arg_int String.append dquote];
  repeat (cbn [String.length]; rewrite ?string_length_app);
  repeat match goal with
    | |- context [String.length (print_d ?x)] =>
        let H := fresh in
        pose proof (print_d_length x) as H; revert H;
        generalize (String.length (print_d x)); intros ? ?
    | |- context [String.length (print_X ?x)] =>
        let H := fresh in
        pose proof (print_X_length x) as H; revert H;
        generalize (String.length (print_X x)); intros ? ?
    | |- context [String.length (print_08X ?x)] =>
        rewrite (print_08X_length x)
    end;
  lia.

Example fits_size (x : Z) :
  Z.of_nat (String.length (sprintf "    size: %d" (AInt x))) < 64.
Proof. fits. Qed.

Example fits_checksum (x : Z) :
  Z.of_nat (String.length (sprintf "      checksum: 0x%08X" (AInt x))) < 64.
Proof. fits. Qed.

Example fits_filename (s : string) :
  (String.length s < 32)%nat ->
  Z.of_nat (String.length (sprintf "      filename: %s" (AStr s))) < 64.
Proof. intros H. fits. Qed.

Example fits_quoted (s : string) :
  (String.length s < 32)%nat ->
  Z.of_nat (String.length
              (sprintf ("    " ++ dquote ++ "%s" ++ dquote) (AStr s))) < 64.
Proof. intros H. fits. Qed.

(** * Counting *)

Lemma count_type_nil (t : DiffType) : count_type t [] = 0.
Proof. reflexivity. Qed.

Lemma count_type_app (t : DiffType) (l1 l2 : list Diff) :
  count_type t (l1 ++ l2) = count_type t l1 + count_type t l2.
Proof.
  unfold count_type. rewrite filter_app, length_app. lia.
Qed.

Lemma count_type_one (t : DiffType) (d : Diff) :
  count_type t [d] = if is_type t d then 1 else 0.
Proof. unfold count_type. simpl. destruct (is_type t d); reflexivity. Qed.

Lemma count_type_nonneg (t : DiffType) (l : list Diff) : 0 <= count_type t l.
Proof. unfold count_type. lia. Qed.

Lemma countsEnabled_incr (t : DiffType) (c : Counts) :
  countsEnabled (incr t c) = countsEnabled c.
Proof. destruct t; reflexivity. Qed.

Lemma counter_incr (t u : DiffType) (c : Counts) :
  counter t (incr u c)
  = counter t c + if is_type t {| diff_type := u; left := EmptyString;
                                  right := EmptyString |} then 1 else 0.
Proof. destruct t, u; simpl; lia. Qed.

Lemma bumps_app (c : Counts) (l1 l2 : list Diff) :
  bumps c (l1 ++ l2) = bumps (bumps c l1) l2.
Proof. apply fold_left_app. Qed.

Lemma countsEnabled_bumps (c : Counts) (ds : list Diff) :
  countsEnabled (bumps c ds) = countsEnabled c.
Proof.
  revert c. induction ds as [| d ds IH]; intros c; simpl; [reflexivity |].
  fold (bumps (if countsEnabled c then incr (diff_type d) c else c) ds).
  rewrite IH. destruct (countsEnabled c) eqn:E;
    [rewrite countsEnabled_incr; exact E | exact E].
Qed.

(** While counting is disabled the emitting functions count nothing. *)
Lemma bumps_disabled (c : Counts) (ds : list Diff) :
  countsEnabled c = false -> bumps c ds = c.
Proof.
  intros H. induction ds as [| d ds IH]; simpl; [reflexivity |].
  rewrite H. exact IH.
Qed.

(** While it is enabled they count every entry once. *)
Lemma counter_bumps (t : DiffType) (c : Counts) (ds : list Diff) :
  countsEnabled c = true ->
  counter t (bumps c ds) = counter t c + count_type t ds.
Proof.
  revert c. induction ds as [| d ds IH]; intros c H; simpl.
  - rewrite count_type_nil. lia.
  - fold (bumps (if countsEnabled c then incr (diff_type d) c else c) ds).
    rewrite H, IH by (rewrite countsEnabled_incr; exact H).
    change (d :: ds) with ([d] ++ ds).
    rewrite count_type_app, count_type_one, counter_incr.
    unfold is_type. simpl. lia.
Qed.

(** ** The emitting functions *)

Lemma sprintf_s_Done {S} (n : Z) (fmt : string) (val : arg) (s : S) r :
  sprintf_s n fmt val s = Done r -> r = (sprintf fmt val, s).
Proof.
  unfold sprintf_s.
  destruct (Z.of_nat (String.length (sprintf fmt val)) <? n);
    [unfold ret | unfold stop]; congruence.
Qed.

Lemma sprintf_s_run {S} (n : Z) (fmt : string) (val : arg) (s : S) :
  Z.of_nat (String.length (sprintf fmt val)) < n ->
  sprintf_s n fmt val s = Done (sprintf fmt val, s).
Proof.
  intros H. unfold sprintf_s.
  destruct (Z.ltb_spec (Z.of_nat (String.length (sprintf fmt val))) n)
    as [L | L]; [reflexivity | lia].
Qed.

Lemma ADDITION_Done (v : list Diff) (fmt : string) (val : arg) c v' c' :
  ADDITION v fmt val c = Done (v', c') ->
  v' = v ++ [{| diff_type := Addition; left := EmptyString;
                right := sprintf fmt val |}]
  /\ c' = bumps c [{| diff_type := Addition; left := EmptyString;
                      right := sprintf fmt val |}].
Proof.
  unfold ADDITION. intros H. run_bind H.
  apply sprintf_s_Done in E. injection E as -> ->.
  rewrite bind_get in H. destruct c as [ca cd cm [|]]; simpl in H;
    injection H as <- <-; split; reflexivity.
Qed.

Lemma DELETION_Done (v : list Diff) (fmt : string) (val : arg) c v' c' :
  DELETION v fmt val c = Done (v', c') ->
  v' = v ++ [{| diff_type := Deletion; left := sprintf fmt val;
                right := EmptyString |}]
  /\ c' = bumps c [{| diff_type := Deletion; left := sprintf fmt val;
                      right := EmptyString |}].
Proof.
  unfold DELETION. intros H. run_bind H.
  apply sprintf_s_Done in E. injection E as -> ->.
  rewrite bind_get in H. destruct c as [ca cd cm [|]]; simpl in H;
    injection H as <- <-; split; reflexivity.
Qed.

Lemma MODIFICATION_Done (v : list Diff) (fmt : string) (l r : arg) c v' c' :
  MODIFICATION v fmt l r c = Done (v', c') ->
  v' = v ++ [{| diff_type := Modification; left := sprintf fmt l;
                right := sprintf fmt r |}]
  /\ c' = bumps c [{| diff_type := Modification; left := sprintf fmt l;
                      right := sprintf fmt r |}].
Proof.
  unfold MODIFICATION. intros H. run_bind H.
  apply sprintf_s_Done in E. injection E as -> ->.
  run_bind H. apply sprintf_s_Done in E. injection E as -> ->.
  rewrite bind_get in H. destruct c as [ca cd cm [|]]; simpl in H;
    injection H as <- <-; split; reflexivity.
Qed.

Lemma MODIFICATION_run (v : list Diff) (fmt : string) (l r : arg) c :
  Z.of_nat (String.length (sprintf fmt l)) < 64 ->
  Z.of_nat (String.length (sprintf fmt r)) < 64 ->
  MODIFICATION v fmt l r c
  = Done (v ++ [{| diff_type := Modification; left := sprintf fmt l;
                   right := sprintf fmt r |}],
          bumps c [{| diff_type := Modification; left := sprintf fmt l;
                      right := sprintf fmt r |}]).
Proof.
  intros Hl Hr. unfold MODIFICATION.
  erewrite bind_run by (apply sprintf_s_run; exact Hl).
  erewrite bind_run by (apply sprintf_s_run; exact Hr).
  rewrite bind_get. destruct c as [ca cd cm [|]]; reflexivity.
Qed.

(** [if (cond) MODIFICATION(v, ...)] while counting is disabled. *)
Lemma when_MODIFICATION_run (b : bool) (v : list Diff) (fmt : string)
  (l r : arg) c :
  countsEnabled c = false ->
  Z.of_nat (String.length (sprintf fmt l)) < 64 ->
  Z.of_nat (String.length (sprintf fmt r)) < 64 ->
  when_ b (MODIFICATION v fmt l r) v c
  = Done (v ++ (if b then [{| diff_type := Modification;
                              left := sprintf fmt l;
                              right := sprintf fmt r |}] else []), c).
Proof.
  intros Hc Hl Hr. unfold when_. destruct b.
  - rewrite MODIFICATION_run, bumps_disabled by assumption. reflexivity.
  - rewrite app_nil_r. reflexivity.
Qed.

(** ** Computations that only emit *)

Lemma emits_ret (v : list Diff) : emits (ret v) v.
Proof.
  intros c v' c' H. injection H as <- <-. exists []. now rewrite app_nil_r.
Qed.

Lemma emits_bind (m : D (list Diff)) (k : list Diff -> D (list Diff)) v :
  emits m v -> (forall v1, emits (k v1) v1) -> emits (bind m k) v.
Proof.
  intros Hm Hk c v' c' H. run_bind H.
  apply Hm in E. destruct E as (ds1 & -> & ->).
  apply Hk in H. destruct H as (ds2 & -> & ->).
  exists (ds1 ++ ds2). now rewrite app_assoc, bumps_app.
Qed.

Lemma emits_ADDITION v fmt val : emits (ADDITION v fmt val) v.
Proof. intros c v' c' H. apply ADDITION_Done in H. destruct H; eauto. Qed.

Lemma emits_DELETION v fmt val : emits (DELETION v fmt val) v.
Proof. intros c v' c' H. apply DELETION_Done in H. destruct H; eauto. Qed.

Lemma emits_MODIFICATION v fmt l r : emits (MODIFICATION v fmt l r) v.
Proof. intros c v' c' H. apply MODIFICATION_Done in H. destruct H; eauto. Qed.

Lemma emits_when (b : bool) (m : D (list Diff)) v :
  emits m v -> emits (when_ b m v) v.
Proof. intros H. unfold when_. destruct b; [exact H | apply emits_ret]. Qed.

Lemma emits_if (b : bool) (m1 m2 : D (list Diff)) v :
  emits m1 v -> emits m2 v -> emits (if b then m1 else m2) v.
Proof. destruct b; auto. Qed.

Lemma emits_defined {A} (o : option A) (k : A -> D (list Diff)) v :
  (forall a, emits (k a) v) -> emits (bind (defined o) k) v.
Proof.
  intros Hk c v' c' H. destruct o as [a |]; [| discriminate].
  apply (Hk a). exact H.
Qed.

Lemma emits_assert (NDEBUG b : bool) (k : D (list Diff)) v :
  emits k v -> emits (bind (assert NDEBUG b) (fun _ => k)) v.
Proof.
  intros Hk c v' c' H. unfold assert in H.
  destruct (NDEBUG || b); [| discriminate]. apply Hk. exact H.
Qed.

Lemma emits_for_loop (body : Z -> list Diff -> D (list Diff)) :
  (forall i v, emits (body i v) v) ->
  forall n i v, emits (for_loop n i body v) v.
Proof.
  intros Hb. induction n as [| n IH]; intros i v; simpl.
  - apply emits_ret.
  - apply emits_bind; [apply Hb | intros v1; apply IH].
Qed.

Lemma emits_for (body : Z -> list Diff -> D (list Diff)) count v :
  (forall i v, emits (body i v) v) -> emits (for_ count body v) v.
Proof. intros Hb. apply emits_for_loop. exact Hb. Qed.

Lemma emits_foreach {B} (body : B -> list Diff -> D (list Diff)) :
  (forall x v, emits (body x v) v) ->
  forall l v, emits (foreach l body v) v.
Proof.
  intros Hb. induction l as [| x l IH]; intros v; simpl.
  - apply emits_ret.
  - apply emits_bind; [apply Hb | intros v1; apply IH].
Qed.

#[export] Hint Resolve emits_ret emits_ADDITION emits_DELETION
  emits_MODIFICATION emits_when emits_if emits_defined emits_assert
  emits_for emits_foreach emits_bind : emit.

(** An emitting computation counts nothing while counting is
    disabled. *)
Lemma emits_disabled (m : D (list Diff)) v c v' c' :
  emits m v -> countsEnabled c = false -> m c = Done (v', c') ->
  c' = c /\ exists ds, v' = v ++ ds.
Proof.
  intros Hm Hc H. apply Hm in H. destruct H as (ds & -> & ->).
  rewrite bumps_disabled by exact Hc. eauto.
Qed.

(** And counts what it emitted while counting is enabled. *)
Lemma emits_enabled (m : D (list Diff)) v c v' c' :
  emits m v -> countsEnabled c = true -> m c = Done (v', c') ->
  countsEnabled c' = true
  /\ exists ds, v' = v ++ ds
                /\ forall t, counter t c' = counter t c + count_type t ds.
Proof.
  intros Hm Hc H. apply Hm in H. destruct H as (ds & -> & ->).
  rewrite countsEnabled_bumps. split; [exact Hc |].
  exists ds. split; [reflexivity |]. intros t. now apply counter_bumps.
Qed.

(** Proves [emits m v] for a computation built from the emitting
    functions. *)
Ltac emit_tac :=
  repeat first
    [ simple apply emits_ret | simple apply emits_ADDITION
    | simple apply emits_DELETION | simple apply emits_MODIFICATION
    | simple apply emits_when | simple apply emits_if
    | simple apply emits_defined; intro | simple apply emits_assert
    | simple apply emits_for; intros | simple apply emits_foreach; intros
    | simple apply emits_bind; [| intro] ].

(** ** Computations that are quiet while counting is disabled *)

Lemma quiet_ret {A} (a : A) : quiet (ret a).
Proof. intros c a' c' _ H. injection H as _ <-. reflexivity. Qed.

Lemma quiet_bind {A B} (m : D A) (k : A -> D B) :
  quiet m -> (forall a, quiet (k a)) -> quiet (bind m k).
Proof.
  intros Hm Hk c b c' Hc H. run_bind H.
  apply Hm in E; [| exact Hc]. subst s. eapply Hk; eassumption.
Qed.

Lemma quiet_emits (m : D (list Diff)) v : emits m v -> quiet m.
Proof.
  intros Hm c v' c' Hc H.
  destruct (@emits_disabled m v c v' c' Hm Hc H) as [-> _]. reflexivity.
Qed.

Lemma quiet_defined {A} (o : option A) : quiet (defined o).
Proof.
  intros c a c' _ H. destruct o; [| discriminate].
  injection H as _ <-. reflexivity.
Qed.

Lemma quiet_assert (NDEBUG b : bool) : quiet (assert NDEBUG b).
Proof.
  intros c a c' _ H. unfold assert in H.
  destruct (NDEBUG || b); [| discriminate]. injection H as _ <-. reflexivity.
Qed.

Lemma quiet_if {A} (b : bool) (m1 m2 : D A) :
  quiet m1 -> quiet m2 -> quiet (if b then m1 else m2).
Proof. destruct b; auto. Qed.

Lemma quiet_when {A} (b : bool) (m : D A) (a : A) :
  quiet m -> quiet (when_ b m a).
Proof. intros H. unfold when_. destruct b; [exact H | apply quiet_ret]. Qed.

Ltac quiet_tac :=
  repeat first
    [ simple apply quiet_ret | simple apply quiet_defined
    | simple apply quiet_assert
    | simple eapply quiet_emits; solve [emit_tac]
    | simple apply quiet_when | simple apply quiet_if
    | simple apply quiet_bind; [| intro] ].

(** * The header *)

Lemma diffPLAT_emits (ohip mhip : Hip) : emits (diffPLAT ohip mhip) [].
Proof. unfold diffPLAT. emit_tac. Qed.

(** The counters move by the entries the header vectors received. *)
Lemma diffHeader_bumps (ohip mhip : Hip) (c c' : Counts) (hd : Header) :
  diffHeader ohip mhip c = Done (hd, c') ->
  c' = bumps c (header_entries hd).
Proof.
  unfold diffHeader. intros H.
  repeat (run_bind H;
          match goal with
          | E : when_ _ _ _ _ = Done _ |- _ =>
              apply (emits_when _ (emits_MODIFICATION _ _ _ _)) in E;
              destruct E as (? & -> & ->)
          | E : diffPLAT _ _ _ = Done _ |- _ =>
              apply diffPLAT_emits in E; destruct E as (? & -> & ->)
          end).
  injection H as <- <-. unfold header_entries. simpl.
  rewrite !bumps_app. reflexivity.
Qed.

(** * The assets *)

(** Runs the steps of a hypothesis [H : (...) c = Done r] that read
    an array, assert, or set a counter or [countsEnabled]. *)
Ltac run_plain H :=
  repeat match type of H with
    | bind (bind _ _) _ _ = Done _ => rewrite bind_bind in H
    | bind (ret _) _ _ = Done _ => rewrite bind_ret in H
    | bind (defined ?o) _ _ = Done _ =>
        let E := fresh "E" in
        destruct o eqn:E; [cbn [defined] in H; rewrite bind_ret in H
                          | discriminate H]
    | bind (assert ?n ?b) _ _ = Done _ =>
        let E := fresh "E" in
        unfold assert at 1 in H;
        destruct (n || b) eqn:E; [rewrite bind_ret in H | discriminate H]
    | bind (set_countsEnabled _) _ _ = Done _ =>
        unfold set_countsEnabled at 1 in H; rewrite bind_modify in H
    | bind additionCount_incr _ _ = Done _ =>
        unfold additionCount_incr at 1 in H; rewrite bind_modify in H
    | bind deletionCount_incr _ _ = Done _ =>
        unfold deletionCount_incr at 1 in H; rewrite bind_modify in H
    | bind modificationCount_incr _ _ = Done _ =>
        unfold modificationCount_incr at 1 in H; rewrite bind_modify in H
    end.

Lemma ADDITIONS_emits v calls : emits (ADDITIONS v calls) v.
Proof. unfold ADDITIONS. emit_tac. Qed.

Lemma DELETIONS_emits v calls : emits (DELETIONS v calls) v.
Proof. unfold DELETIONS. emit_tac. Qed.

Lemma dataChanged_state opt ohip mhip oahdr mahdr oadbg madbg c b c' :
  dataChanged opt ohip mhip oahdr mahdr oadbg madbg c = Done (b, c') ->
  c' = c.
Proof.
  unfold dataChanged. intros H.
  destruct (ignoreDataIfChksumMatch opt); [injection H as _ <-; reflexivity |].
  destruct (size oahdr =? size mahdr); [| injection H as _ <-; reflexivity].
  run_plain H. injection H as _ <-. reflexivity.
Qed.

Lemma assetMods_quiet NDEBUG opt oahdr mahdr oadbg madbg changed :
  quiet (assetMods NDEBUG opt oahdr mahdr oadbg madbg changed).
Proof. unfold assetMods. quiet_tac. Qed.

Lemma ADDITION_counts v fmt val c v' c' :
  ADDITION v fmt val c = Done (v', c') -> countsEnabled c = true ->
  countsEnabled c' = true
  /\ forall t, counter t c'
               = counter t c + match t with Addition => 1 | _ => 0 end.
Proof.
  intros H Hc. apply ADDITION_Done in H. destruct H as [_ ->].
  rewrite countsEnabled_bumps. split; [exact Hc |]. intros t.
  rewrite counter_bumps by exact Hc. destruct t; reflexivity.
Qed.

Lemma DELETION_counts v fmt val c v' c' :
  DELETION v fmt val c = Done (v', c') -> countsEnabled c = true ->
  countsEnabled c' = true
  /\ forall t, counter t c'
               = counter t c + match t with Deletion => 1 | _ => 0 end.
Proof.
  intros H Hc. apply DELETION_Done in H. destruct H as [_ ->].
  rewrite countsEnabled_bumps. split; [exact Hc |]. intros t.
  rewrite counter_bumps by exact Hc. destruct t; reflexivity.
Qed.

Lemma MODIFICATION_counts v fmt l r c v' c' :
  MODIFICATION v fmt l r c = Done (v', c') -> countsEnabled c = true ->
  countsEnabled c' = true
  /\ forall t, counter t c'
               = counter t c + match t with Modification => 1 | _ => 0 end.
Proof.
  intros H Hc. apply MODIFICATION_Done in H. destruct H as [_ ->].
  rewrite countsEnabled_bumps. split; [exact Hc |]. intros t.
  rewrite counter_bumps by exact Hc. destruct t; reflexivity.
Qed.

(** Replaces the run of a quiet or emitting computation under
    disabled counting by the fact that it left the counters alone. *)
Ltac run_quiet H lem :=
  run_bind H;
  match goal with
  | E : _ ?c = Done (_, ?c1) |- _ =>
      let Q := fresh "Q" in
      assert (Q : c1 = c) by (eapply lem; [reflexivity | exact E]);
      clear E; subst c1
  end.

(** One round of the loop over [ahdrIndices] moves each counter by
    what it adds to the number of added, deleted or modified assets. *)
Lemma diffAsset_counts NDEBUG opt ohip mhip it s c s' c' :
  diffAsset NDEBUG opt ohip mhip it s c = Done (s', c') ->
  countsEnabled c = true ->
  countsEnabled c' = true
  /\ forall t, counter t c' - counter t c = asset_num t s' - asset_num t s.
Proof.
  unfold diffAsset. intros H Hc. run_plain H.
  destruct (oidx (snd it) =? -1); [| destruct (midx (snd it) =? -1)].
  - run_plain H. destruct (detailedAssets opt).
    + run_plain H.
      run_quiet H (quiet_emits (@ADDITIONS_emits (assetAdditions s)
                                  (asset_lines a a0))).
      run_plain H. injection H as <- <-.
      split; [reflexivity |]. intros t; destruct t; simpl; lia.
    + run_bind H.
      match goal with
      | E : ADDITION _ _ _ _ = Done _ |- _ =>
          apply ADDITION_counts in E; [destruct E as [He Ht] | exact Hc]
      end.
      injection H as <- <-.
      split; [exact He |]. intros t; rewrite Ht; destruct t; simpl; lia.
  - run_plain H. destruct (detailedAssets opt).
    + run_plain H.
      run_quiet H (quiet_emits (@DELETIONS_emits (assetDeletions s)
                                  (asset_lines a a0))).
      run_plain H. injection H as <- <-.
      split; [reflexivity |]. intros t; destruct t; simpl; lia.
    + run_bind H.
      match goal with
      | E : DELETION _ _ _ _ = Done _ |- _ =>
          apply DELETION_counts in E; [destruct E as [He Ht] | exact Hc]
      end.
      injection H as <- <-.
      split; [exact He |]. intros t; rewrite Ht; destruct t; simpl; lia.
  - run_plain H. run_bind H.
    match goal with
    | E : dataChanged _ _ _ _ _ _ _ _ = Done _ |- _ =>
        apply dataChanged_state in E; subst
    end.
    destruct (detailedAssets opt).
    + run_plain H.
      run_quiet H (@assetMods_quiet NDEBUG opt a a0 a1 a2 a3).
      destruct a4 as [ahdrMods adbgMods].
      destruct ((1 <? Z.of_nat (length ahdrMods))
                || (1 <? Z.of_nat (length adbgMods))).
      * run_plain H. injection H as <- <-.
        split; [reflexivity |]. intros t; destruct t; simpl; lia.
      * run_plain H. injection H as <- <-.
        split; [reflexivity |]. intros t; destruct t; simpl; lia.
    + destruct (assetDiffers opt a a0 a1 a2 a3).
      * run_bind H.
        match goal with
        | E : MODIFICATION _ _ _ _ _ = Done _ |- _ =>
            apply MODIFICATION_counts in E;
            [destruct E as [He Ht] | exact Hc]
        end.
        injection H as <- <-.
        split; [exact He |]. intros t; rewrite Ht; destruct t; simpl; lia.
      * injection H as <- <-. split; [exact Hc |]. intros t; lia.
Qed.

(** So does the whole loop. *)
Lemma diffAssets_counts NDEBUG opt ohip mhip idx s c s' c' :
  foreach idx (diffAsset NDEBUG opt ohip mhip) s c = Done (s', c') ->
  countsEnabled c = true ->
  countsEnabled c' = true
  /\ forall t, counter t c' - counter t c = asset_num t s' - asset_num t s.
Proof.
  revert s c. induction idx as [| it idx IH]; intros s c H Hc; simpl in H.
  - injection H as <- <-. split; [exact Hc |]. intros t; lia.
  - run_bind H. apply diffAsset_counts in E; [| exact Hc].
    destruct E as [He Ht]. apply IH in H; [| exact He].
    destruct H as [He' Ht']. split; [exact He' |].
    intros t. specialize (Ht t). specialize (Ht' t). lia.
Qed.

(** * The layers *)

Lemma addedLayerMember_emits mhip idx s i v :
  emits (addedLayerMember mhip idx s i v) v.
Proof. unfold addedLayerMember. emit_tac. Qed.

Lemma deletedLayerMember_emits ohip idx s i v :
  emits (deletedLayerMember ohip idx s i v) v.
Proof. unfold deletedLayerMember. emit_tac. Qed.

(** A member line of a modified layer is an addition or a deletion,
    and is counted although counting is disabled. *)
Lemma modifiedLayerMember_counts NDEBUG ohip mhip idx s l it v c v' c' :
  modifiedLayerMember NDEBUG ohip mhip idx s l it v c = Done (v', c') ->
  countsEnabled c = false ->
  countsEnabled c' = false
  /\ exists ds, v' = v ++ ds
                /\ count_type Modification ds = 0
                /\ forall t, counter t c' = counter t c + count_type t ds.
Proof.
  unfold modifiedLayerMember. intros H Hc. run_plain H.
  assert (N : countsEnabled c = false
              /\ exists ds, v = v ++ ds /\ count_type Modification ds = 0
                            /\ forall t, counter t c
                                         = counter t c + count_type t ds).
  { split; [exact Hc |]. exists []. rewrite app_nil_r.
    repeat split. intros t. rewrite count_type_nil. lia. }
  destruct ((oidx (snd it) =? oidx l) || (midx (snd it) =? midx l));
    [| injection H as <- <-; exact N].
  destruct (neq (oidx (snd it)) (oidx l)).
  - destruct (negb (set_mem (fst it) (addedAssets s)));
      [| injection H as <- <-; exact N].
    run_plain H. run_bind H.
    match goal with
    | E : ADDITION _ _ _ _ = Done _ |- _ =>
        apply ADDITION_Done in E; destruct E as [-> ->]
    end.
    rewrite bumps_disabled in H by exact Hc.
    run_plain H. injection H as <- <-.
    split; [exact Hc |]. eexists. split; [reflexivity |].
    split; [reflexivity |].
    intros t; destruct t; unfold count_type; simpl; lia.
  - destruct (neq (midx (snd it)) (midx l));
      [| injection H as <- <-; exact N].
    destruct (negb (set_mem (fst it) (deletedAssets s)));
      [| injection H as <- <-; exact N].
    run_plain H. run_bind H.
    match goal with
    | E : DELETION _ _ _ _ = Done _ |- _ =>
        apply DELETION_Done in E; destruct E as [-> ->]
    end.
    rewrite bumps_disabled in H by exact Hc.
    run_plain H. injection H as <- <-.
    split; [exact Hc |]. eexists. split; [reflexivity |].
    split; [reflexivity |].
    intros t; destruct t; unfold count_type; simpl; lia.
Qed.

Lemma modifiedLayerMembers_counts NDEBUG ohip mhip idx s l its :
  forall v c v' c',
    foreach its (modifiedLayerMember NDEBUG ohip mhip idx s l) v c
    = Done (v', c') ->
    countsEnabled c = false ->
    countsEnabled c' = false
    /\ exists ds, v' = v ++ ds
                  /\ count_type Modification ds = 0
                  /\ forall t, counter t c' = counter t c + count_type t ds.
Proof.
  induction its as [| it its IH]; intros v c v' c' H Hc; simpl in H.
  - injection H as <- <-. split; [exact Hc |]. exists [].
    rewrite app_nil_r. repeat split. intros t. rewrite count_type_nil. lia.
  - run_bind H. apply modifiedLayerMember_counts in E; [| exact Hc].
    destruct E as (He & ds1 & -> & M1 & T1).
    apply IH in H; [| exact He].
    destruct H as (He' & ds2 & -> & M2 & T2).
    split; [exact He' |]. exists (ds1 ++ ds2).
    rewrite app_assoc, count_type_app. repeat split; [lia |].
    intros t. rewrite T2, T1, count_type_app. lia.
Qed.

Lemma length_le_1_app {A} (x : A) (l1 l2 : list A) :
  (1 <? Z.of_nat (length ((x :: l1) ++ l2))) = false -> l1 = [] /\ l2 = [].
Proof.
  intros H. apply Z.ltb_ge in H. simpl in H. rewrite length_app in H.
  destruct l1, l2; simpl in H; try lia. split; reflexivity.
Qed.

(** A [MODIFICATION] while counting is disabled: one entry that is
    neither an addition nor a deletion, counters untouched. *)
Lemma MODIFICATION_disabled v fmt l r c v' c' :
  MODIFICATION v fmt l r c = Done (v', c') ->
  countsEnabled c = false ->
  c' = c
  /\ exists d, v' = v ++ [d]
               /\ count_type Addition [d] = 0
               /\ count_type Deletion [d] = 0.
Proof.
  intros H Hc. apply MODIFICATION_Done in H. destruct H as [-> ->].
  rewrite bumps_disabled by exact Hc. split; [reflexivity |].
  eexists. split; [reflexivity |]. split; reflexivity.
Qed.

(** One round of the loops over [lhdrIndices] moves each counter by
    what it adds to the number of added, deleted or modified layers
    and to the member lines of modified layers. *)
Lemma diffLayer_counts NDEBUG ohip mhip idx lidx a l s c s' c' :
  diffLayer NDEBUG ohip mhip idx lidx a l s c = Done (s', c') ->
  countsEnabled c = true ->
  countsEnabled c' = true
  /\ forall t, counter t c' - counter t c = layer_num t s' - layer_num t s.
Proof.
  unfold diffLayer. intros H Hc. run_plain H.
  destruct (oidx l =? -1); [| destruct (midx l =? -1)].
  - run_plain H.
    repeat (run_bind H;
            match goal with
            | E : _ ?c0 = Done (_, ?c1) |- _ =>
                let Q := fresh "Q" in
                assert (Q : c1 = c0)
                  by (eapply quiet_emits;
                      [| reflexivity | exact E];
                      first [ apply emits_ADDITION
                            | apply emits_for; intros; apply emits_defined;
                              intros; apply addedLayerMember_emits ]);
                clear E; subst c1
            end).
    run_plain H. injection H as <- <-.
    split; [reflexivity |]. intros t; destruct t; simpl; lia.
  - run_plain H.
    repeat (run_bind H;
            match goal with
            | E : _ ?c0 = Done (_, ?c1) |- _ =>
                let Q := fresh "Q" in
                assert (Q : c1 = c0)
                  by (eapply quiet_emits;
                      [| reflexivity | exact E];
                      first [ apply emits_DELETION
                            | apply emits_for; intros; apply emits_defined;
                              intros; apply deletedLayerMember_emits ]);
                clear E; subst c1
            end).
    run_plain H. injection H as <- <-.
    split; [reflexivity |]. intros t; destruct t; simpl; lia.
  - run_plain H.
    (* lhdrMods *)
    run_bind H.
    match goal with
    | E : MODIFICATION _ _ _ _ _ = Done _ |- _ =>
        apply MODIFICATION_disabled in E; [| reflexivity];
        destruct E as (-> & d1 & -> & A1 & D1)
    end.
    run_bind H.
    match goal with
    | E : (if ?b then _ else _) ?c0 = Done (?v1, ?c1) |- _ =>
        assert (T : c1 = c0
                    /\ exists ds, v1 = [d1] ++ ds
                                  /\ count_type Addition ds = 0
                                  /\ count_type Deletion ds = 0);
        [ destruct b;
          [ run_plain E; apply MODIFICATION_disabled in E; [| reflexivity];
            destruct E as (-> & d2 & -> & A2 & D2);
            split; [reflexivity |]; exists [d2]; repeat split; assumption
          | injection E as <- <-; split; [reflexivity |];
            exists []; repeat split ]
        | clear E; destruct T as (-> & ds2 & -> & A2 & D2) ]
    end.
    run_bind H.
    match goal with
    | E : foreach _ _ _ _ = Done _ |- _ =>
        apply modifiedLayerMembers_counts in E; [| reflexivity];
        destruct E as (He & ds & -> & M & T)
    end.
    (* ldbgMods *)
    run_bind H.
    match goal with
    | E : MODIFICATION _ _ _ _ _ = Done _ |- _ =>
        apply MODIFICATION_disabled in E; [| exact He];
        destruct E as (-> & d4 & -> & A4 & D4)
    end.
    run_bind H.
    match goal with
    | E : when_ ?b _ _ ?c0 = Done (?v1, ?c1) |- _ =>
        assert (T5 : c1 = c0
                     /\ exists ds5, v1 = [d4] ++ ds5
                                    /\ count_type Addition ds5 = 0
                                    /\ count_type Deletion ds5 = 0);
        [ unfold when_ in E; destruct b;
          [ apply MODIFICATION_disabled in E; [| exact He];
            destruct E as (-> & d5 & -> & A5 & D5);
            split; [reflexivity |]; exists [d5]; repeat split; assumption
          | injection E as <- <-; split; [reflexivity |];
            exists []; repeat split ]
        | clear E; destruct T5 as (-> & ds5 & -> & A5 & D5) ]
    end.
    pose proof (T Addition) as TA. pose proof (T Deletion) as TD.
    pose proof (T Modification) as TM. rewrite M in TM.
    cbn [counter additionCount deletionCount modificationCount] in TA, TD, TM.
    clear T.
    assert (A6 : count_type Addition ([d4] ++ ds5) = 0)
      by (rewrite count_type_app; lia).
    assert (D6 : count_type Deletion ([d4] ++ ds5) = 0)
      by (rewrite count_type_app; lia).
    assert (A7 : count_type Addition (([d1] ++ ds2) ++ ds)
                 = count_type Addition ds)
      by (rewrite !count_type_app; lia).
    assert (D7 : count_type Deletion (([d1] ++ ds2) ++ ds)
                 = count_type Deletion ds)
      by (rewrite !count_type_app; lia).
    remember ([d4] ++ ds5) as ldbgMods eqn:L2. clear L2.
    remember (([d1] ++ ds2) ++ ds) as lhdrMods eqn:L1.
    destruct ((1 <? Z.of_nat (length lhdrMods))
              || (1 <? Z.of_nat (length ldbgMods))) eqn:C.
    + run_plain H. injection H as <- <-.
      split; [reflexivity |].
      destruct (1 <? Z.of_nat (length ldbgMods));
        intros t; destruct t;
        cbn [counter layer_num additionCount deletionCount
             modificationCount numLayersAdded numLayersDeleted
             numLayersModified layerModifications];
        rewrite ?count_type_app; lia.
    + run_plain H. injection H as <- <-.
      apply orb_false_iff in C. destruct C as [C _]. subst lhdrMods.
      replace (([d1] ++ ds2) ++ ds) with ((d1 :: ds2) ++ ds) in C
        by reflexivity.
      apply length_le_1_app in C. destruct C as [_ ->].
      rewrite count_type_nil in TA, TD.
      split; [reflexivity |]. intros t; destruct t; simpl; lia.
Qed.

(** So do the loops. *)
Lemma diffLayers_inner_counts NDEBUG ohip mhip idx lidx a ls :
  forall s c s' c',
    foreach ls (diffLayer NDEBUG ohip mhip idx lidx a) s c = Done (s', c') ->
    countsEnabled c = true ->
    countsEnabled c' = true
    /\ forall t, counter t c' - counter t c = layer_num t s' - layer_num t s.
Proof.
  induction ls as [| l ls IH]; intros s c s' c' H Hc; simpl in H.
  - injection H as <- <-. split; [exact Hc |]. intros t; lia.
  - run_bind H. apply diffLayer_counts in E; [| exact Hc].
    destruct E as [He Ht]. apply IH in H; [| exact He].
    destruct H as [He' Ht']. split; [exact He' |].
    intros t. specialize (Ht t). specialize (Ht' t). lia.
Qed.

Lemma diffLayers_counts NDEBUG ohip mhip idx lidx a
  (lhdrIndices : map_ (list Index)) :
  forall s c s' c',
    foreach lhdrIndices
      (fun it s => foreach (snd it) (diffLayer NDEBUG ohip mhip idx lidx a) s)
      s c = Done (s', c') ->
    countsEnabled c = true ->
    countsEnabled c' = true
    /\ forall t, counter t c' - counter t c = layer_num t s' - layer_num t s.
Proof.
  induction lhdrIndices as [| it its IH]; intros s c s' c' H Hc; simpl in H.
  - injection H as <- <-. split; [exact Hc |]. intros t; lia.
  - run_bind H. apply diffLayers_inner_counts in E; [| exact Hc].
    destruct E as [He Ht]. apply IH in H; [| exact He].
    destruct H as [He' Ht']. split; [exact He' |].
    intros t. specialize (Ht t). specialize (Ht' t). lia.
Qed.

(** * C4: the counters *)

(** [run_bind] with the names of the value, the state and the
    equation. *)
Ltac run_bind_as H a s E :=
  match type of H with
  | bind ?m ?k ?st = Done _ =>
      unfold bind at 1 in H;
      destruct (m st) as [[a s] |] eqn:E; [ | discriminate H]
  end.

Lemma main_body_counts NDEBUG opt ohip mhip hd a l c :
  main_body NDEBUG opt ohip mhip Counts0 = Done ((hd, a, l), c) ->
  forall t,
    counter t c
    = count_type t (header_entries hd) + asset_num t a + layer_num t l.
Proof.
  unfold main_body. intros H. run_plain H.
  run_bind_as H tables c1 Et.
  assert (Q : c1 = Counts0).
  { destruct (negb (assetDiffsOnly opt)).
    - run_plain Et. injection Et as _ <-. reflexivity.
    - injection Et as _ <-. reflexivity. }
  clear Et. subst c1.
  destruct tables as [lhdrIndices ahdrLHDRIndices].
  run_bind_as H hd' c2 Eh.
  assert (Hd : countsEnabled c2 = true
               /\ forall t, counter t c2 = count_type t (header_entries hd')).
  { destruct (negb (assetDiffsOnly opt)).
    - apply diffHeader_bumps in Eh. subst c2.
      rewrite countsEnabled_bumps. split; [reflexivity |].
      intros t. rewrite counter_bumps by reflexivity.
      destruct t; reflexivity.
    - injection Eh as <- <-. split; [reflexivity |].
      intros t; destruct t; reflexivity. }
  clear Eh. destruct Hd as [He Hd].
  run_bind_as H a' c3 Ea. unfold diffAssets in Ea.
  apply diffAssets_counts in Ea; [| exact He]. destruct Ea as [He1 Ha].
  run_bind_as H l' c4 El.
  assert (Hl : forall t, counter t c4 - counter t c3 = layer_num t l').
  { destruct (negb (assetDiffsOnly opt)).
    - unfold diffLayers in El. apply diffLayers_counts in El; [| exact He1].
      destruct El as [_ Hl]. intros t. rewrite Hl.
      destruct t; unfold layer_num; simpl; rewrite ?count_type_nil; lia.
    - injection El as <- <-. intros t.
      destruct t; unfold layer_num; simpl; rewrite ?count_type_nil; lia. }
  injection H as <- <- <- <-. intros t.
  specialize (Hd t). specialize (Ha t). specialize (Hl t).
  assert (Z0 : asset_num t Assets0 = 0) by (destruct t; reflexivity).
  lia.
Qed.

(** C4, as stated, fails: when bar moves from the first layer to
    the second, no asset and no layer is added or deleted and the
    headers are equal, yet one addition and one deletion are
    counted, one for each member line of the two modified layers. *)
Lemma moved_asset_is_counted_per_line :
  exists r,
    main false Options0 100 archive_A_layers archive_A_moved = Done r
    /\ record_events Addition r = 0
    /\ additionCount (counts r) = 1
    /\ record_events Deletion r = 0
    /\ deletionCount (counts r) = 1
    /\ record_events Modification r = 2
    /\ modificationCount (counts r) = 2
    /\ length (layerModifications (layers r)) = 4%nat.
Proof.
  eexists. split; [vm_compute; reflexivity |].
  repeat split.
Qed.

(** * C3: a pair of assets *)

Lemma neq_refl (x : Z) : neq x x = false.
Proof. unfold neq. now rewrite Z.eqb_refl. Qed.

Lemma neq_true (x y : Z) : x <> y -> neq x y = true.
Proof. intros H. unfold neq. apply Z.eqb_neq in H. now rewrite H. Qed.

Lemma strdiff_refl (s : string) : strdiff s s = false.
Proof. unfold strdiff. now rewrite String.eqb_refl. Qed.

(** The detailed comparison succeeds when the names fit their arrays,
    and yields one line per difference after the two title lines. *)
Lemma assetMods_run NDEBUG opt oahdr mahdr oadbg madbg changed c :
  countsEnabled c = false ->
  id oahdr = id mahdr ->
  (String.length (name oadbg) < 32)%nat ->
  (String.length (name madbg) < 32)%nat ->
  (String.length (filename oadbg) < 32)%nat ->
  (String.length (filename madbg) < 32)%nat ->
  exists ahdrMods adbgMods,
    assetMods NDEBUG opt oahdr mahdr oadbg madbg changed c
    = Done ((ahdrMods, adbgMods), c)
    /\ length ahdrMods
       = (1 + nat_of_bool (neq (type oahdr) (type mahdr))
          + nat_of_bool (neq (offset oahdr) (offset mahdr) && diffOffsets opt)
          + nat_of_bool (neq (size oahdr) (size mahdr))
          + nat_of_bool (neq (plus oahdr) (plus mahdr) && diffPluses opt)
          + nat_of_bool (neq (flags oahdr) (flags mahdr))
          + nat_of_bool changed)%nat
    /\ length adbgMods
       = (1 + nat_of_bool (neq (align oadbg) (align madbg))
          + nat_of_bool (strdiff (name oadbg) (name madbg))
          + nat_of_bool (strdiff (filename oadbg) (filename madbg))
          + nat_of_bool (neq (checksum oadbg) (checksum madbg)))%nat.
Proof.
  intros Hc Hid N1 N2 F1 F2. unfold assetMods.
  erewrite bind_run by (apply MODIFICATION_run; fits).
  rewrite bumps_disabled by exact Hc.
  rewrite Hid, neq_refl. rewrite bind_ret.
  repeat (erewrite bind_run
            by (apply when_MODIFICATION_run; [exact Hc | fits | fits])).
  erewrite bind_run by (apply MODIFICATION_run; fits).
  rewrite bumps_disabled by exact Hc.
  repeat (erewrite bind_run
            by (apply when_MODIFICATION_run; [exact Hc | fits | fits])).
  eexists. eexists. split; [reflexivity |].
  split; rewrite !length_app;
    repeat match goal with
      | |- context [if ?b then _ else _] => destruct b
      end; reflexivity.
Qed.

Lemma assert_run {S} (NDEBUG b : bool) (s : S) :
  b = true -> assert NDEBUG b s = Done (tt, s).
Proof. intros ->. unfold assert. rewrite orb_true_r. reflexivity. Qed.

(** C3, as amended: for a pair of assets with equal checksums and
    different sizes, the data is classified as changed exactly when
    [ignoreDataIfChksumMatch] is off, and then without reading the
    payload; with the option on it is classified as unchanged.  In
    both cases, summary or detailed, the pair is reported and counted
    as one modified asset, because the sizes differ. *)
Theorem size_mismatch_is_modification :
  forall NDEBUG opt ohip mhip key a s c oahdr mahdr oadbg madbg,
    oidx a <> -1 -> midx a <> -1 ->
    at_ (ahdr ohip) (oidx a) = Some oahdr ->
    at_ (ahdr mhip) (midx a) = Some mahdr ->
    at_ (adbg ohip) (oidx a) = Some oadbg ->
    at_ (adbg mhip) (midx a) = Some madbg ->
    id oahdr = id mahdr ->
    checksum oadbg = checksum madbg ->
    size oahdr <> size mahdr ->
    (String.length (name oadbg) < 32)%nat ->
    (String.length (name madbg) < 32)%nat ->
    (String.length (filename oadbg) < 32)%nat ->
    (String.length (filename madbg) < 32)%nat ->
    countsEnabled c = true ->
    dataChanged opt ohip mhip oahdr mahdr oadbg madbg c
    = Done (negb (ignoreDataIfChksumMatch opt), c)
    /\ exists s' c' new,
         diffAsset NDEBUG opt ohip mhip (key, a) s c = Done (s', c')
         /\ (forall t, counter t c'
                       = counter t c
                         + match t with Modification => 1 | _ => 0 end)
         /\ countsEnabled c' = true
         /\ numAssetsModified s' = numAssetsModified s + 1
         /\ new <> []
         /\ assetModifications s' = assetModifications s ++ new.
Proof.
  intros NDEBUG opt ohip mhip key a s c oahdr mahdr oadbg madbg
    Ho Hm Hoa Hma Hod Hmd Hid Hck Hsz N1 N2 F1 F2 Hc.
  assert (DC : dataChanged opt ohip mhip oahdr mahdr oadbg madbg c
               = Done (negb (ignoreDataIfChksumMatch opt), c)).
  { unfold dataChanged. destruct (ignoreDataIfChksumMatch opt).
    - rewrite Hck, neq_refl. reflexivity.
    - apply Z.eqb_neq in Hsz. rewrite Hsz. reflexivity. }
  split; [exact DC |].
  unfold diffAsset. cbn [snd].
  erewrite bind_run
    by (apply assert_run; rewrite (neq_true Ho); reflexivity).
  apply Z.eqb_neq in Ho, Hm. rewrite Ho, Hm.
  rewrite Hoa, Hma, Hod, Hmd. cbn [defined]. rewrite !bind_ret.
  erewrite bind_run
    by (apply assert_run; rewrite Hid; apply Z.eqb_refl).
  erewrite bind_run by exact DC.
  destruct (detailedAssets opt).
  - unfold set_countsEnabled at 1. rewrite bind_modify.
    destruct (@assetMods_run NDEBUG opt oahdr mahdr oadbg madbg
                (negb (ignoreDataIfChksumMatch opt))
                {| additionCount := additionCount c;
                   deletionCount := deletionCount c;
                   modificationCount := modificationCount c;
                   countsEnabled := false |})
      as (ahdrMods & adbgMods & R & L1 & L2); try assumption;
      [reflexivity |].
    erewrite bind_run by exact R. cbv beta iota.
    rewrite (neq_true Hsz) in L1.
    assert (G : (1 <? Z.of_nat (length ahdrMods)) = true).
    { apply Z.ltb_lt. rewrite L1. simpl nat_of_bool at 3. lia. }
    rewrite G. cbn [orb].
    unfold modificationCount_incr at 1. rewrite bind_bind, bind_modify.
    rewrite bind_ret. unfold set_countsEnabled at 1. rewrite bind_modify.
    unfold ret.
    eexists. eexists.
    exists (ahdrMods ++ if 1 <? Z.of_nat (length adbgMods)
                        then adbgMods else []).
    split; [reflexivity |].
    split; [intros t; destruct t; simpl; lia |].
    split; [reflexivity |]. split; [reflexivity |]. split.
    + destruct ahdrMods; [discriminate G | discriminate].
    + cbn [assetModifications].
      destruct (1 <? Z.of_nat (length adbgMods));
        [now rewrite app_assoc | now rewrite app_nil_r].
  - assert (G : assetDiffers opt oahdr mahdr oadbg madbg
                  (negb (ignoreDataIfChksumMatch opt)) = true).
    { unfold assetDiffers. rewrite (neq_true Hsz).
      rewrite !orb_true_r. reflexivity. }
    rewrite G.
    erewrite bind_run by (apply MODIFICATION_run; fits).
    unfold ret. eexists. eexists.
    exists [{| diff_type := Modification;
               left := sprintf "  %s" (AStr (name oadbg));
               right := sprintf "  %s" (AStr (name madbg)) |}].
    split; [reflexivity |].
    split; [intros t; rewrite counter_bumps by exact Hc;
            destruct t; unfold count_type; simpl; lia |].
    split; [rewrite countsEnabled_bumps; exact Hc |].
    split; [reflexivity |]. split; [discriminate |]. reflexivity.
Qed.

(** At a concrete input: an asset of four bytes against the same
    asset with three bytes, the checksum shortcut on, detailed. *)
Lemma size_mismatch_is_modification_witness :
  dataChanged (Options_checksum true) (Hip_of asset_4_bytes)
    (Hip_of asset_3_bytes) asset_4_bytes asset_3_bytes asset_debug
    asset_debug Counts0
  = Done (false, Counts0)
  /\ exists s' c' new,
       diffAsset false (Options_checksum true) (Hip_of asset_4_bytes)
         (Hip_of asset_3_bytes) (7, {| oidx := 0; midx := 0 |}) Assets0
         Counts0
       = Done (s', c')
       /\ (forall t, counter t c'
                     = counter t Counts0
                       + match t with Modification => 1 | _ => 0 end)
       /\ countsEnabled c' = true
       /\ numAssetsModified s' = numAssetsModified Assets0 + 1
       /\ new <> []
       /\ assetModifications s' = assetModifications Assets0 ++ new.
Proof.
  apply (@size_mismatch_is_modification false (Options_checksum true)
           (Hip_of asset_4_bytes) (Hip_of asset_3_bytes) 7
           {| oidx := 0; midx := 0 |} Assets0 Counts0
           asset_4_bytes asset_3_bytes asset_debug asset_debug);
    try reflexivity; try (vm_compute; discriminate); vm_compute; lia.
Defined.

(** C3, as stated, fails: with the checksum shortcut on, equal
    checksums make [dataChanged] false although the sizes differ, and
    the detailed report has no data line, which it has with the
    shortcut off. *)
Lemma size_mismatch_not_data_changed :
  (size asset_4_bytes =? size asset_3_bytes) = false
  /\ dataChanged (Options_checksum true) (Hip_of asset_4_bytes)
       (Hip_of asset_3_bytes) asset_4_bytes asset_3_bytes asset_debug
       asset_debug Counts0
     = Done (false, Counts0)
  /\ option_map (fun r => map left (assetModifications (assets r)))
       (match main_diff false (Options_checksum true)
                (Hip_of asset_4_bytes) (Hip_of asset_3_bytes) with
        | Done r => Some r
        | Stop _ => None
        end)
     = Some ["  AHDR (foo)"; "    size: 4"]%string
  /\ option_map (fun r => map left (assetModifications (assets r)))
       (match main_diff false Options_detailed
                (Hip_of asset_4_bytes) (Hip_of asset_3_bytes) with
        | Done r => Some r
        | Stop _ => None
        end)
     = Some ["  AHDR (foo)"; "    size: 4"; "    data changed"]%string.
Proof. repeat split; vm_compute; reflexivity. Qed.

(** * C10: the creation string *)

Lemma hackPCRTString_None (str : string) :
  hackPCRTString str = None <-> str = EmptyString.
Proof.
  unfold hackPCRTString. destruct str as [| c r]; simpl.
  - split; reflexivity.
  - split; discriminate.
Qed.

(** The newline at the end, and only it, is removed. *)
Example hackPCRTString_newline :
  hackPCRTString ("Mon Jan  1 00:00:00 2001" ++ newline)
  = Some "Mon Jan  1 00:00:00 2001"%string
  /\ hackPCRTString "Mon" = Some "Mon"%string
  /\ hackPCRTString newline = Some EmptyString.
Proof. repeat split. Qed.

(** C10: [hackPCRTString] reads [str[len-1]], which lies before the
    array exactly when the creation string is empty; [main] applies
    it to both archives whatever the options are, so the diff has a
    defined result only if both creation strings are non-empty, and
    leaves defined behaviour as soon as one of them is empty. *)
Theorem hackPCRTString_needs_nonempty :
  forall NDEBUG opt ohip mhip,
    (forall str, hackPCRTString str = None <-> str = EmptyString)
    /\ ((exists r, main_diff NDEBUG opt ohip mhip = Done r) ->
        pcrt_string (pcrt ohip) <> EmptyString
        /\ pcrt_string (pcrt mhip) <> EmptyString)
    /\ (pcrt_string (pcrt ohip) = EmptyString
        \/ pcrt_string (pcrt mhip) = EmptyString ->
        main_diff NDEBUG opt ohip mhip = Stop UndefinedBehaviour).
Proof.
  intros NDEBUG opt ohip mhip.
  assert (U : pcrt_string (pcrt ohip) = EmptyString
              \/ pcrt_string (pcrt mhip) = EmptyString ->
              main_diff NDEBUG opt ohip mhip = Stop UndefinedBehaviour).
  { intros H. unfold main_diff, main_body.
    destruct (hackPCRTString (pcrt_string (pcrt ohip))) as [so |] eqn:Eo;
      [| reflexivity].
    destruct H as [H | H].
    - apply hackPCRTString_None in H. congruence.
    - apply hackPCRTString_None in H. rewrite H. reflexivity. }
  split; [exact hackPCRTString_None |]. split; [| exact U].
  intros [r Hr]. split; intros E.
  - rewrite U in Hr by (left; exact E). discriminate.
  - rewrite U in Hr by (right; exact E). discriminate.
Qed.

(** An archive without a [PCRT] chunk loads with an empty creation
    string, and the diff of it is undefined. *)
Example diff_without_PCRT :
  exists h,
    load false 100 (chunk "HIPA" []) = Done h
    /\ pcrt_string (pcrt h) = EmptyString
    /\ main_diff false Options0 h h = Stop UndefinedBehaviour.
Proof. eexists. repeat split. Qed.

(** * Maps *)

Lemma keys_above_weaken {V} (lo lo' : Z) (m : map_ V) :
  lo' <= lo -> keys_above lo m -> keys_above lo' m.
Proof.
  destruct m as [| [k v] r]; simpl; [trivial |].
  intros H [L K]. split; [lia | exact K].
Qed.

Lemma keys_above_sorted {V} (lo : Z) (m : map_ V) :
  keys_above lo m -> sorted_map m.
Proof.
  destruct m as [| [k v] r]; simpl; [trivial |]. intros [_ K]. exact K.
Qed.

Lemma map_find_above {V} (lo k : Z) (m : map_ V) :
  keys_above lo m -> k <= lo -> map_find k m = None.
Proof.
  revert lo. induction m as [| [k' v] r IH]; intros lo K L; simpl;
    [reflexivity |].
  destruct K as [K1 K2].
  destruct (Z.eqb_spec k k') as [-> | N]; [lia |].
  apply (IH k'); [exact K2 | lia].
Qed.

Lemma map_find_In {V} (k : Z) (v : V) (m : map_ V) :
  map_find k m = Some v -> In (k, v) m.
Proof.
  induction m as [| [k' v'] r IH]; simpl; [discriminate |].
  destruct (Z.eqb_spec k k') as [-> | N].
  - intros H. injection H as ->. left. reflexivity.
  - intros H. right. apply IH. exact H.
Qed.

Lemma keys_above_In {V} (lo k : Z) (v : V) (m : map_ V) :
  keys_above lo m -> In (k, v) m -> lo < k.
Proof.
  revert lo. induction m as [| [k' v'] r IH]; intros lo K H; simpl in *;
    [contradiction |].
  destruct K as [K1 K2]. destruct H as [H | H].
  - injection H as -> ->. exact K1.
  - specialize (IH k' K2 H). lia.
Qed.

(** In a sorted map an entry is found under its key. *)
Lemma In_map_find {V} (k : Z) (v : V) (m : map_ V) :
  sorted_map m -> In (k, v) m -> map_find k m = Some v.
Proof.
  induction m as [| [k' v'] r IH]; intros S H; simpl in *; [contradiction |].
  destruct H as [H | H].
  - injection H as -> ->. now rewrite Z.eqb_refl.
  - assert (L : k' < k) by (eapply keys_above_In; eassumption).
    destruct (Z.eqb_spec k k') as [-> | N]; [lia |].
    apply IH; [| exact H]. eapply keys_above_sorted. exact S.
Qed.

Lemma sorted_map_NoDup {V} (m : map_ V) :
  sorted_map m -> NoDup (map fst m).
Proof.
  induction m as [| [k v] r IH]; intros S; simpl; constructor.
  - intros H. apply in_map_iff in H. destruct H as ([k' v'] & E & H).
    simpl in E. subst k'. simpl in S.
    assert (L : k < k) by (eapply keys_above_In; eassumption). lia.
  - apply IH. eapply keys_above_sorted. exact S.
Qed.

Lemma map_update_above {V} (d : V) (k : Z) (f : V -> V) (lo : Z)
  (m : map_ V) :
  keys_above lo m -> lo < k -> keys_above lo (map_update d k f m).
Proof.
  revert lo. induction m as [| [k' v] r IH]; intros lo K L; simpl.
  - split; [exact L | exact I].
  - destruct K as [K1 K2].
    destruct (Z.ltb_spec k k') as [L1 | L1].
    + simpl. repeat split; assumption.
    + destruct (Z.eqb_spec k k') as [-> | N].
      * simpl. split; assumption.
      * simpl. split; [exact K1 |]. apply IH; [exact K2 | lia].
Qed.

Lemma map_update_sorted {V} (d : V) (k : Z) (f : V -> V) (m : map_ V) :
  sorted_map m -> sorted_map (map_update d k f m).
Proof.
  intros S. destruct m as [| [k' v] r]; simpl; [exact I |].
  simpl in S.
  destruct (Z.ltb_spec k k') as [L1 | L1].
  - simpl. split; assumption.
  - destruct (Z.eqb_spec k k') as [-> | N].
    + simpl. exact S.
    + simpl. apply map_update_above; [exact S | lia].
Qed.

(** [m[k] = f(m[k])] read back. *)
Lemma map_find_update_eq {V} (d : V) (k : Z) (f : V -> V) (m : map_ V) :
  sorted_map m ->
  map_find k (map_update d k f m) = Some (f (map_at d k m)).
Proof.
  unfold map_at.
  induction m as [| [k' v] r IH]; intros S; simpl.
  - now rewrite Z.eqb_refl.
  - destruct (Z.ltb_spec k k') as [L1 | L1].
    + simpl. rewrite Z.eqb_refl.
      destruct (Z.eqb_spec k k') as [-> | N]; [lia |].
      simpl in S. erewrite map_find_above; [reflexivity | exact S | lia].
    + destruct (Z.eqb_spec k k') as [-> | N]; simpl.
      * rewrite Z.eqb_refl. reflexivity.
      * destruct (Z.eqb_spec k k') as [-> | _]; [contradiction |].
        apply IH. eapply keys_above_sorted. exact S.
Qed.

Lemma map_find_update_ne {V} (d : V) (k k' : Z) (f : V -> V) (m : map_ V) :
  k <> k' -> map_find k' (map_update d k f m) = map_find k' m.
Proof.
  intros N. induction m as [| [k1 v] r IH]; simpl.
  - destruct (Z.eqb_spec k' k) as [-> | _]; [contradiction | reflexivity].
  - destruct (Z.ltb_spec k k1) as [L1 | L1].
    + simpl. destruct (Z.eqb_spec k' k) as [-> | _];
        [contradiction | reflexivity].
    + destruct (Z.eqb_spec k k1) as [-> | N1]; simpl.
      * destruct (Z.eqb_spec k' k1) as [-> | _];
          [contradiction | reflexivity].
      * destruct (Z.eqb_spec k' k1); [reflexivity | exact IH].
Qed.

Lemma map_at_update_eq {V} (d : V) (k : Z) (f : V -> V) (m : map_ V) :
  sorted_map m -> map_at d k (map_update d k f m) = f (map_at d k m).
Proof.
  intros S. unfold map_at at 1. now rewrite map_find_update_eq.
Qed.

Lemma map_at_update_ne {V} (d : V) (k k' : Z) (f : V -> V) (m : map_ V) :
  k <> k' -> map_at d k' (map_update d k f m) = map_at d k' m.
Proof. intros N. unfold map_at. now rewrite map_find_update_ne. Qed.


(** * Loops over arrays *)

(** A loop that reads [arr[i]] in every round is the loop over the
    elements of [arr], and it leaves the array when there are too
    few. *)
Lemma ofor_loop_ofold {A B} (arr : list B) (f : Z -> B -> A -> option A) :
  forall (n i : nat) (a : A),
    (i + n <= length arr)%nat ->
    ofor_loop n (Z.of_nat i)
      (fun i a => match at_ arr i with
                  | Some x => f i x a
                  | None => None
                  end) a
    = ofold f (Z.of_nat i) (firstn n (skipn i arr)) a.
Proof.
  induction n as [| n IH]; intros i a L; simpl; [reflexivity |].
  rewrite at_nth_error.
  destruct (nth_error arr i) as [x |] eqn:N;
    [| apply nth_error_None in N; lia].
  pose proof (nth_error_split arr i N) as (l1 & l2 & -> & Hl).
  subst i. rewrite skipn_app, skipn_all, Nat.sub_diag. simpl.
  destruct (f (Z.of_nat (length l1)) x a) as [a' |]; [| reflexivity].
  replace (Z.of_nat (length l1) + 1) with (Z.of_nat (S (length l1))) by lia.
  rewrite IH by lia.
  f_equal. f_equal.
  replace (S (length l1)) with (length (l1 ++ [x]))
    by (rewrite length_app; simpl; lia).
  change (l1 ++ x :: l2) with (l1 ++ [x] ++ l2).
  rewrite app_assoc, skipn_app, skipn_all, Nat.sub_diag. reflexivity.
Qed.

Lemma ofor_loop_Some {A B} (arr : list B) (f : Z -> B -> A -> option A) :
  forall (n i : nat) (a a' : A),
    (i <= length arr)%nat ->
    ofor_loop n (Z.of_nat i)
      (fun i a => match at_ arr i with
                  | Some x => f i x a
                  | None => None
                  end) a = Some a' ->
    (i + n <= length arr)%nat.
Proof.
  induction n as [| n IH]; intros i a a' L H; simpl in H; [lia |].
  rewrite at_nth_error in H.
  destruct (nth_error arr i) as [x |] eqn:N; [| discriminate].
  assert (i < length arr)%nat by (apply nth_error_Some; congruence).
  destruct (f (Z.of_nat i) x a) as [a1 |]; [| discriminate].
  replace (Z.of_nat i + 1) with (Z.of_nat (S i)) in H by lia.
  apply IH in H; lia.
Qed.

(** [for (i = 0; i < count; i++)] reading [arr[i]]: the loop over the
    first [count] elements. *)
Lemma ofor_read {A B} (arr : list B) (f : Z -> B -> A -> option A)
  (count : Z) (a a' : A) :
  ofor count (fun i a => match at_ arr i with
                         | Some x => f i x a
                         | None => None
                         end) a = Some a' ->
  (Z.to_nat count <= length arr)%nat
  /\ ofold f 0 (firstn (Z.to_nat count) arr) a = Some a'.
Proof.
  unfold ofor. intros H.
  assert (L : (0 + Z.to_nat count <= length arr)%nat)
    by (eapply (@ofor_loop_Some A B arr f _ 0%nat); [lia | exact H]).
  split; [exact L |].
  rewrite <- H. symmetry.
  apply (@ofor_loop_ofold A B arr f (Z.to_nat count) 0%nat a L).
Qed.

Lemma ofor_read_run {A B} (arr : list B) (f : Z -> B -> A -> option A)
  (count : Z) (a : A) :
  (Z.to_nat count <= length arr)%nat ->
  ofor count (fun i a => match at_ arr i with
                         | Some x => f i x a
                         | None => None
                         end) a
  = ofold f 0 (firstn (Z.to_nat count) arr) a.
Proof.
  intros L. unfold ofor.
  apply (@ofor_loop_ofold A B arr f (Z.to_nat count) 0%nat a). exact L.
Qed.

(** * The index tables *)

(** ** Stores under keys *)

Lemma last_value_no_key (k : Z) (kis : list (Z * Z)) (acc : Z) :
  has_key k kis = false -> last_value k kis acc = acc.
Proof.
  revert acc. induction kis as [| [x i] r IH]; intros acc H; simpl in *;
    [reflexivity |].
  apply orb_false_iff in H. destruct H as [H1 H2].
  rewrite H1. apply IH. exact H2.
Qed.

Lemma last_value_key (k : Z) (kis : list (Z * Z)) (acc : Z) :
  has_key k kis = true -> In (k, last_value k kis acc) kis.
Proof.
  revert acc. induction kis as [| [x i] r IH]; intros acc H; simpl in *;
    [discriminate |].
  destruct (has_key k r) eqn:R.
  - right. apply IH. reflexivity.
  - rewrite orb_false_r in H. rewrite H.
    rewrite last_value_no_key by exact R.
    apply Z.eqb_eq in H. subst x. left. reflexivity.
Qed.

Lemma last_value_acc (k : Z) (kis : list (Z * Z)) (acc acc' : Z) :
  has_key k kis = true -> last_value k kis acc = last_value k kis acc'.
Proof.
  revert acc acc'. induction kis as [| [x i] r IH]; intros acc acc' H;
    simpl in *; [discriminate |].
  destruct (x =? k); simpl in H; [reflexivity |]. apply IH. exact H.
Qed.

Lemma has_key_In (k : Z) (kis : list (Z * Z)) :
  has_key k kis = true <-> In k (map fst kis).
Proof.
  unfold has_key. rewrite existsb_exists, in_map_iff.
  split; intros ([x i] & H1 & H2); exists (x, i); simpl in *.
  - apply Z.eqb_eq in H2. auto.
  - split; [exact H2 | apply Z.eqb_eq; exact H1].
Qed.

(** After stores to [oidx] the entry under [k] has the last index
    stored there and the [midx] it had; likewise for [midx]. *)
Lemma entry_after_oidx (k : Z) (kis : list (Z * Z)) (a : option Index) :
  entry_after set_oidx k kis a
  = if has_key k kis
    then Some {| oidx := last_value k kis (-1);
                 midx := midx (match a with Some v => v | None => Index0 end) |}
    else a.
Proof.
  revert a. induction kis as [| [x i] r IH]; intros a; simpl;
    [reflexivity |].
  rewrite IH. destruct (x =? k) eqn:X; simpl.
  - destruct (has_key k r) eqn:R.
    + f_equal. f_equal. apply last_value_acc. exact R.
    + rewrite last_value_no_key by exact R. reflexivity.
  - reflexivity.
Qed.

Lemma entry_after_midx (k : Z) (kis : list (Z * Z)) (a : option Index) :
  entry_after set_midx k kis a
  = if has_key k kis
    then Some {| oidx := oidx (match a with Some v => v | None => Index0 end);
                 midx := last_value k kis (-1) |}
    else a.
Proof.
  revert a. induction kis as [| [x i] r IH]; intros a; simpl;
    [reflexivity |].
  rewrite IH. destruct (x =? k) eqn:X; simpl.
  - destruct (has_key k r) eqn:R.
    + f_equal. f_equal. apply last_value_acc. exact R.
    + rewrite last_value_no_key by exact R. reflexivity.
  - reflexivity.
Qed.

(** The entry under [k] after the stores of the original and then
    the stores of the modified file, in a map that was empty. *)
Lemma entry_after_both (k : Z) (okeys mkeys : list (Z * Z)) :
  entry_after set_midx k mkeys (entry_after set_oidx k okeys None)
  = if has_key k okeys || has_key k mkeys
    then Some {| oidx := last_value k okeys (-1);
                 midx := last_value k mkeys (-1) |}
    else None.
Proof.
  rewrite entry_after_midx, entry_after_oidx.
  destruct (has_key k okeys) eqn:O, (has_key k mkeys) eqn:M; simpl;
    try reflexivity.
  - rewrite (@last_value_no_key k mkeys (-1) M). reflexivity.
  - rewrite (@last_value_no_key k okeys (-1) O). reflexivity.
Qed.

(** ** The loop that stores *)

Lemma ofold_stores {B} (key : B -> Z) (set : Z -> Index -> Index) :
  forall (l : list B) (i : Z) (t t' : map_ Index),
    sorted_map t ->
    ofold (fun i x t =>
             Some (map_update Index0 (key x) (set (to_int i)) t)) i l t
    = Some t' ->
    sorted_map t'
    /\ forall k, map_find k t'
                 = entry_after set k
                     (map (fun ix => (key (snd ix), fst ix)) (with_index i l))
                     (map_find k t).
Proof.
  induction l as [| x l IH]; intros i t t' S H; simpl in H.
  - injection H as <-. split; [exact S | reflexivity].
  - apply IH in H; [| apply map_update_sorted; exact S].
    destruct H as [S' F]. split; [exact S' |].
    intros k. rewrite F. simpl. f_equal.
    destruct (Z.eqb_spec (key x) k) as [-> | N].
    + rewrite map_find_update_eq by exact S. reflexivity.
    + apply map_find_update_ne. exact N.
Qed.

Lemma ofold_stores_total {B} (key : B -> Z) (set : Z -> Index -> Index) :
  forall (l : list B) (i : Z) (t : map_ Index),
    exists t',
      ofold (fun i x t =>
               Some (map_update Index0 (key x) (set (to_int i)) t)) i l t
      = Some t'.
Proof.
  induction l as [| x l IH]; intros i t; simpl; [eauto |]. apply IH.
Qed.

(** ** [ahdrIndices] *)

(** The table holds, under every id that either file has, the index
    of the last asset with that id in each file, and [-1] for a file
    that has none. *)
Lemma build_ahdrIndices_spec (ohip mhip : Hip) (t : map_ Index) :
  build_ahdrIndices ohip mhip = Some t ->
  sorted_map t
  /\ forall k,
       map_find k t
       = if has_key k (asset_keys ohip) || has_key k (asset_keys mhip)
         then Some {| oidx := last_value k (asset_keys ohip) (-1);
                      midx := last_value k (asset_keys mhip) (-1) |}
         else None.
Proof.
  unfold build_ahdrIndices. intros H.
  match type of H with
  | match ?x with _ => _ end = _ =>
      destruct x as [t1 |] eqn:E1; [| discriminate]
  end.
  apply (@ofor_read _ _ (ahdr ohip)
           (fun i a t => Some (map_update Index0 (id a) (set_oidx (to_int i)) t)))
    in E1.
  apply (@ofor_read _ _ (ahdr mhip)
           (fun i a t => Some (map_update Index0 (id a) (set_midx (to_int i)) t)))
    in H.
  destruct E1 as [_ E1]. destruct H as [_ H].
  apply ofold_stores in E1; [| exact I]. destruct E1 as [S1 F1].
  apply ofold_stores in H; [| exact S1]. destruct H as [S2 F2].
  split; [exact S2 |]. intros k.
  rewrite F2, F1. apply entry_after_both.
Qed.

(** The table exists when the asset tables hold as many records as
    the counts say. *)
Lemma build_ahdrIndices_total (ohip mhip : Hip) :
  (Z.to_nat (assetCount (pcnt ohip)) <= length (ahdr ohip))%nat ->
  (Z.to_nat (assetCount (pcnt mhip)) <= length (ahdr mhip))%nat ->
  exists t, build_ahdrIndices ohip mhip = Some t.
Proof.
  intros Lo Lm. unfold build_ahdrIndices.
  rewrite (@ofor_read_run _ _ (ahdr ohip)
             (fun i a t =>
                Some (map_update Index0 (id a) (set_oidx (to_int i)) t)))
    by exact Lo.
  destruct (@ofold_stores_total _ id set_oidx
              (firstn (Z.to_nat (assetCount (pcnt ohip))) (ahdr ohip)) 0 [])
    as [t1 ->].
  rewrite (@ofor_read_run _ _ (ahdr mhip)
             (fun i a t =>
                Some (map_update Index0 (id a) (set_midx (to_int i)) t)))
    by exact Lm.
  apply ofold_stores_total.
Qed.

(** ** Pairing by position *)

Lemma zipPad_nil_r (o : list Z) :
  zipPad o [] = map (fun x => {| oidx := x; midx := -1 |}) o.
Proof. induction o as [| x o IH]; simpl; [reflexivity | now rewrite IH]. Qed.

Lemma zipPad_length (o m : list Z) :
  length (zipPad o m) = Nat.max (length o) (length m).
Proof.
  revert m. induction o as [| x o IH]; intros m; simpl.
  - now rewrite length_map.
  - destruct m as [| y m]; simpl; rewrite IH; simpl; lia.
Qed.

(** A further modified layer beyond the original ones of its type
    gets a pair of its own. *)
Lemma zipPad_surplus (o m : list Z) (p : Z) :
  (length o <= length m)%nat ->
  zipPad o (m ++ [p]) = zipPad o m ++ [{| oidx := -1; midx := p |}].
Proof.
  revert m. induction o as [| x o IH]; intros m L; simpl.
  - now rewrite map_app.
  - destruct m as [| y m]; simpl in *; [lia |].
    rewrite IH by lia. reflexivity.
Qed.

(** Otherwise it joins the pair of the original layer at its
    position. *)
Lemma zipPad_match (o m : list Z) (p : Z) :
  (length m < length o)%nat ->
  exists x,
    nth_error (zipPad o m) (length m) = Some x
    /\ midx x = -1
    /\ zipPad o (m ++ [p])
       = firstn (length m) (zipPad o m)
         ++ set_midx p x :: skipn (S (length m)) (zipPad o m).
Proof.
  revert m. induction o as [| x o IH]; intros m L; simpl in L; [lia |].
  destruct m as [| y m]; simpl.
  - eexists. split; [reflexivity |]. split; [reflexivity |].
    reflexivity.
  - simpl in L. destruct (IH m) as (x' & N & M & E); [lia |].
    exists x'. split; [exact N |]. split; [exact M |].
    rewrite E. reflexivity.
Qed.

(** ** [lhdrIndices] *)

Lemma ofold_original_layers :
  forall (l : list LHDR) (i : Z) (t : map_ (list Index)),
    sorted_map t ->
    exists t',
      ofold (fun i x t =>
               Some (map_update [] (lhdr_type x)
                       (fun v => v ++ [{| oidx := to_int i; midx := -1 |}]) t))
        i l t = Some t'
      /\ sorted_map t'
      /\ forall ty,
           map_at [] ty t'
           = map_at [] ty t
             ++ map (fun x => {| oidx := x; midx := -1 |}) (positions ty i l).
Proof.
  induction l as [| x l IH]; intros i t S; simpl.
  - exists t. split; [reflexivity |]. split; [exact S |].
    intros ty. now rewrite app_nil_r.
  - destruct (IH (i + 1)
                (map_update [] (lhdr_type x)
                   (fun v => v ++ [{| oidx := to_int i; midx := -1 |}]) t))
      as (t' & E & S' & F); [apply map_update_sorted; exact S |].
    exists t'. split; [exact E |]. split; [exact S' |].
    intros ty. rewrite F.
    destruct (Z.eqb_spec (lhdr_type x) ty) as [-> | N].
    + rewrite map_at_update_eq by exact S. simpl.
      rewrite <- app_assoc. reflexivity.
    + rewrite map_at_update_ne by exact N. reflexivity.
Qed.

(** The second loop keeps, for every type, the pairs of the original
    layers with the modified layers seen so far. *)
Lemma ofold_modified_layers :
  forall (l : list LHDR) (i : Z) (L : map_ (list Index)) (C : map_ Z)
         (O Md : Z -> list Z),
    sorted_map L -> sorted_map C ->
    (forall ty, map_at [] ty L = zipPad (O ty) (Md ty)) ->
    (forall ty, map_at 0 ty C = Z.of_nat (length (Md ty))) ->
    exists L' C',
      ofold lhdrIndices_modified i l (L, C) = Some (L', C')
      /\ sorted_map L'
      /\ forall ty,
           map_at [] ty L' = zipPad (O ty) (Md ty ++ positions ty i l).
Proof.
  induction l as [| x l IH]; intros i L C O Md SL SC HL HC; simpl.
  - exists L, C. split; [reflexivity |]. split; [exact SL |].
    intros ty. now rewrite app_nil_r.
  - set (t0 := lhdr_type x).
    set (Md' := fun ty => if t0 =? ty then Md ty ++ [to_int i] else Md ty).
    assert (P : forall ty,
               Md ty ++ positions ty i (x :: l)
               = Md' ty ++ positions ty (i + 1) l).
    { intros ty. simpl. subst Md'. fold t0. simpl.
      destruct (t0 =? ty); [now rewrite <- app_assoc | reflexivity]. }
    assert (HC' : forall ty,
               map_at 0 ty (map_update 0 t0 Z.succ C)
               = Z.of_nat (length (Md' ty))).
    { intros ty. subst Md'. simpl.
      destruct (Z.eqb_spec t0 ty) as [<- | N].
      - rewrite map_at_update_eq by exact SC. rewrite HC, length_app.
        simpl. lia.
      - rewrite map_at_update_ne by exact N. apply HC. }
    rewrite (HL t0), (HC t0), zipPad_length.
    destruct (Z.ltb_spec (Z.of_nat (Nat.max (length (O t0)) (length (Md t0))))
                (Z.of_nat (length (Md t0)) + 1)) as [B | B].
    + destruct (IH (i + 1)
                  (map_update [] t0
                     (fun v => v ++ [{| oidx := -1; midx := to_int i |}]) L)
                  (map_update 0 t0 Z.succ C) O Md')
        as (L' & C' & E & S' & F).
      * apply map_update_sorted; exact SL.
      * apply map_update_sorted; exact SC.
      * intros ty. subst Md'. simpl.
        destruct (Z.eqb_spec t0 ty) as [<- | N].
        -- rewrite map_at_update_eq by exact SL. rewrite HL.
           symmetry. apply zipPad_surplus. lia.
        -- rewrite map_at_update_ne by exact N. apply HL.
      * exact HC'.
      * exists L', C'. split; [exact E |]. split; [exact S' |].
        intros ty. rewrite P. apply F.
    + destruct (@zipPad_match (O t0) (Md t0) (to_int i)) as (x' & N & M & Z3);
        [lia |].
      rewrite at_nth_error, N.
      rewrite store_spec
        by (rewrite zipPad_length; lia).
      rewrite Nat2Z.id.
      destruct (IH (i + 1)
                  (map_update [] t0
                     (fun _ => firstn (length (Md t0)) (zipPad (O t0) (Md t0))
                               ++ set_midx (to_int i) x'
                               :: skipn (S (length (Md t0)))
                                    (zipPad (O t0) (Md t0))) L)
                  (map_update 0 t0 Z.succ C) O Md')
        as (L' & C' & E & S' & F).
      * apply map_update_sorted; exact SL.
      * apply map_update_sorted; exact SC.
      * intros ty. subst Md'. simpl.
        destruct (Z.eqb_spec t0 ty) as [<- | N'].
        -- rewrite map_at_update_eq by exact SL. symmetry. exact Z3.
        -- rewrite map_at_update_ne by exact N'. apply HL.
      * exact HC'.
      * exists L', C'. split; [exact E |]. split; [exact S' |].
        intros ty. rewrite P. apply F.
Qed.

(** The table exists when the layer tables hold as many records as
    the counts say, and then pairs, for every type, the k-th original
    layer of the type with the k-th modified one. *)
Lemma build_lhdrIndices_run (ohip mhip : Hip) :
  (Z.to_nat (layerCount (pcnt ohip)) <= length (lhdr ohip))%nat ->
  (Z.to_nat (layerCount (pcnt mhip)) <= length (lhdr mhip))%nat ->
  exists L,
    build_lhdrIndices ohip mhip = Some L
    /\ sorted_map L
    /\ forall ty,
         map_at [] ty L
         = zipPad (layer_positions ohip ty) (layer_positions mhip ty).
Proof.
  intros Lo Lm. unfold build_lhdrIndices.
  rewrite (@ofor_read_run _ _ (lhdr ohip)
             (fun i x t =>
                Some (map_update [] (lhdr_type x)
                        (fun v => v ++ [{| oidx := to_int i; midx := -1 |}])
                        t))) by exact Lo.
  destruct (@ofold_original_layers
              (firstn (Z.to_nat (layerCount (pcnt ohip))) (lhdr ohip)) 0 [])
    as (t1 & -> & S1 & F1); [exact I |].
  rewrite (@ofor_read_run _ _ (lhdr mhip) lhdrIndices_modified)
    by exact Lm.
  destruct (@ofold_modified_layers
              (firstn (Z.to_nat (layerCount (pcnt mhip))) (lhdr mhip)) 0
              t1 [] (layer_positions ohip) (fun _ => []))
    as (L' & C' & E & S' & F); try exact I; try exact S1.
  - intros ty. rewrite F1, zipPad_nil_r. reflexivity.
  - intros ty. reflexivity.
  - match goal with
    | |- context [match ?x with _ => _ end] =>
        assert (EQ : x = Some (L', C')) by exact E; rewrite EQ
    end.
    exists L'. split; [reflexivity |]. split; [exact S' |]. exact F.
Qed.

Lemma build_lhdrIndices_spec (ohip mhip : Hip) (L : map_ (list Index)) :
  build_lhdrIndices ohip mhip = Some L ->
  sorted_map L
  /\ forall ty,
       map_at [] ty L
       = zipPad (layer_positions ohip ty) (layer_positions mhip ty).
Proof.
  intros H.
  assert (B : (Z.to_nat (layerCount (pcnt ohip)) <= length (lhdr ohip))%nat
              /\ (Z.to_nat (layerCount (pcnt mhip)) <= length (lhdr mhip))%nat).
  { unfold build_lhdrIndices in H.
    match type of H with
    | match ?x with _ => _ end = _ =>
        destruct x as [t1 |] eqn:E1; [| discriminate]
    end.
    match type of H with
    | match ?x with _ => _ end = _ =>
        destruct x as [t2 |] eqn:E2; [| discriminate]
    end.
    apply (@ofor_read _ _ (lhdr ohip)
             (fun i x t =>
                Some (map_update [] (lhdr_type x)
                        (fun v => v ++ [{| oidx := to_int i; midx := -1 |}])
                        t))) in E1.
    apply (@ofor_read _ _ (lhdr mhip) lhdrIndices_modified) in E2.
    split; [apply E1 | apply E2]. }
  destruct B as [Lo Lm].
  destruct (build_lhdrIndices_run ohip mhip Lo Lm) as (L' & E & S & F).
  rewrite E in H. injection H as <-. split; assumption.
Qed.

(** ** C9: the tables of the identity matcher *)


Lemma with_index_In {B} (l : list B) (i v : Z) (x : B) :
  In (v, x) (with_index i l)
  <-> exists j, nth_error l j = Some x /\ v = to_int (i + Z.of_nat j).
Proof.
  revert i. induction l as [| y l IH]; intros i; simpl.
  - split; [contradiction | intros (j & H & _); destruct j; discriminate].
  - rewrite IH. split.
    + intros [H | (j & H & E)].
      * injection H as <- <-. exists 0%nat. split; [reflexivity |].
        f_equal. lia.
      * exists (S j). split; [exact H |]. rewrite E. f_equal. lia.
    + intros (j & H & E). destruct j as [| j]; simpl in H.
      * injection H as <-. left. rewrite E. f_equal. f_equal. lia.
      * right. exists j. split; [exact H |]. rewrite E. f_equal. lia.
Qed.

Lemma with_index_snd {B} (l : list B) (i : Z) :
  map snd (with_index i l) = l.
Proof.
  revert i. induction l as [| y l IH]; intros i; simpl;
    [reflexivity | now rewrite IH].
Qed.

Lemma asset_keys_ids (h : Hip) : map fst (asset_keys h) = asset_ids h.
Proof.
  unfold asset_keys, asset_ids. rewrite map_map. simpl.
  rewrite <- (with_index_snd (assets_of h) 0) at 2. now rewrite map_map.
Qed.

(** A key of [asset_keys] is the id of an asset of the table, stored
    with the index of that asset. *)
Lemma asset_keys_In (h : Hip) (k v : Z) :
  In (k, v) (asset_keys h) ->
  exists j x,
    v = to_int j /\ 0 <= j < Z.of_nat (length (assets_of h))
    /\ at_ (assets_of h) j = Some x /\ id x = k.
Proof.
  unfold asset_keys. intros H. apply in_map_iff in H.
  destruct H as ([v' x] & E & H). simpl in E. injection E as <- <-.
  apply with_index_In in H. destruct H as (j & N & ->).
  exists (Z.of_nat j), x. split; [reflexivity |].
  assert (j < length (assets_of h))%nat by (apply nth_error_Some; congruence).
  split; [lia |]. split; [| reflexivity].
  rewrite at_nth_error. exact N.
Qed.

Lemma at_firstn {B} (l : list B) (n : nat) (j : Z) (x : B) :
  at_ (firstn n l) j = Some x -> at_ l j = Some x.
Proof.
  unfold at_. destruct (j <? 0); [discriminate |].
  revert l n. generalize (Z.to_nat j) as i.
  induction i as [| i IH]; intros l n H; destruct l, n; simpl in *;
    try discriminate; [exact H | apply (IH _ _ H)].
Qed.

Lemma to_int_not_absent (j : Z) : 0 <= j < 2 ^ 32 - 1 -> to_int j <> -1.
Proof.
  intros H. unfold to_int, wrap32. rewrite Z.mod_small by lia.
  destruct (Z.ltb_spec j (2 ^ 31)); lia.
Qed.

Lemma to_int_small (j : Z) : 0 <= j < 2 ^ 31 -> to_int j = j.
Proof.
  intros H. unfold to_int, wrap32. rewrite Z.mod_small by lia.
  destruct (Z.ltb_spec j (2 ^ 31)); lia.
Qed.

Lemma assets_of_length (h : Hip) :
  uint32 (assetCount (pcnt h)) ->
  Z.of_nat (length (assets_of h)) < 2 ^ 32.
Proof.
  intros [U1 U2]. unfold assets_of. rewrite length_firstn. lia.
Qed.

(** The side of an entry under [k] that [last_value] describes: it
    is absent exactly when the file has no asset with the id, and
    otherwise is the index of an asset with that id. *)
Lemma last_value_side (h : Hip) (k : Z) :
  uint32 (assetCount (pcnt h)) ->
  (last_value k (asset_keys h) (-1) = -1 <-> ~ In k (asset_ids h))
  /\ (last_value k (asset_keys h) (-1) <> -1 ->
      exists j x,
        last_value k (asset_keys h) (-1) = to_int j
        /\ 0 <= j < assetCount (pcnt h)
        /\ at_ (ahdr h) j = Some x /\ id x = k).
Proof.
  intros U. pose proof (@assets_of_length h U) as B.
  rewrite <- asset_keys_ids, <- has_key_In.
  destruct (has_key k (asset_keys h)) eqn:K.
  - pose proof (@last_value_key k (asset_keys h) (-1) K) as H.
    apply asset_keys_In in H. destruct H as (j & x & E & R & A & X).
    assert (N : to_int j <> -1) by (apply to_int_not_absent; lia).
    split.
    + split; [intros E'; congruence | intros C; exfalso; apply C; reflexivity].
    + intros _. exists j, x. split; [exact E |].
      split; [| split; [eapply at_firstn; exact A | exact X]].
      unfold assets_of in R. rewrite length_firstn in R.
      destruct U as [U1 U2]. lia.
  - rewrite last_value_no_key by exact K. split.
    + split; [intros _; discriminate | reflexivity].
    + intros C. contradiction.
Qed.


(** * Added and deleted assets in the layers *)

Lemma set_mem_In (x : Z) (s : list Z) : set_mem x s = true <-> In x s.
Proof.
  unfold set_mem. rewrite existsb_exists. split.
  - intros [y [Hy E]]. apply Z.eqb_eq in E. subst. exact Hy.
  - intros H. exists x. split; [exact H | apply Z.eqb_refl].
Qed.

(** One round of the loop over [ahdrIndices] only adds to the two
    sets, and it adds the id of the asset it reports as added or
    deleted. *)
Lemma diffAsset_sets NDEBUG opt ohip mhip it s c s' c' :
  diffAsset NDEBUG opt ohip mhip it s c = Done (s', c') ->
  incl (addedAssets s) (addedAssets s')
  /\ incl (deletedAssets s) (deletedAssets s')
  /\ (oidx (snd it) = -1 ->
      exists x, at_ (ahdr mhip) (midx (snd it)) = Some x
                /\ In (id x) (addedAssets s'))
  /\ (oidx (snd it) <> -1 -> midx (snd it) = -1 ->
      exists x, at_ (ahdr ohip) (oidx (snd it)) = Some x
                /\ In (id x) (deletedAssets s')).
Proof.
  unfold diffAsset. intros H. run_plain H.
  destruct (Z.eqb_spec (oidx (snd it)) (-1)) as [Ho | Ho];
    [| destruct (Z.eqb_spec (midx (snd it)) (-1)) as [Hm | Hm]].
  - run_plain H.
    assert (R : s' = {| assetAdditions := assetAdditions s';
                        assetDeletions := assetDeletions s;
                        assetModifications := assetModifications s;
                        numAssetsAdded := numAssetsAdded s + 1;
                        numAssetsDeleted := numAssetsDeleted s;
                        numAssetsModified := numAssetsModified s;
                        addedAssets := set_insert (id a) (addedAssets s);
                        deletedAssets := deletedAssets s |}).
    { destruct (detailedAssets opt).
      - run_plain H. run_bind H. run_plain H.
        injection H as <- <-. reflexivity.
      - run_bind H. injection H as <- <-. reflexivity. }
    rewrite R. cbn [addedAssets deletedAssets]. unfold set_insert.
    split; [intros x Hx; right; exact Hx |].
    split; [intros x Hx; exact Hx |].
    split; [| intros F; contradiction].
    intros _. exists a. split; [reflexivity | left; reflexivity].
  - run_plain H.
    assert (R : s' = {| assetAdditions := assetAdditions s;
                        assetDeletions := assetDeletions s';
                        assetModifications := assetModifications s;
                        numAssetsAdded := numAssetsAdded s;
                        numAssetsDeleted := numAssetsDeleted s + 1;
                        numAssetsModified := numAssetsModified s;
                        addedAssets := addedAssets s;
                        deletedAssets := set_insert (id a) (deletedAssets s) |}).
    { destruct (detailedAssets opt).
      - run_plain H. run_bind H. run_plain H.
        injection H as <- <-. reflexivity.
      - run_bind H. injection H as <- <-. reflexivity. }
    rewrite R. cbn [addedAssets deletedAssets]. unfold set_insert.
    split; [intros x Hx; exact Hx |].
    split; [intros x Hx; right; exact Hx |].
    split; [intros F; contradiction |].
    intros _ _. exists a. split; [reflexivity | left; reflexivity].
  - run_plain H. run_bind H.
    assert (R : addedAssets s' = addedAssets s
                /\ deletedAssets s' = deletedAssets s).
    { destruct (detailedAssets opt).
      - run_plain H. run_bind H.
        match goal with
        | a : (list Diff * list Diff)%type |- _ =>
            destruct a as [ahdrMods adbgMods]
        end.
        destruct ((1 <? Z.of_nat (length ahdrMods))
                  || (1 <? Z.of_nat (length adbgMods)));
          run_plain H; injection H as <- <-; split; reflexivity.
      - match type of H with
        | (if ?b then _ else _) _ = _ => destruct b
        end.
        + run_bind H. injection H as <- <-. split; reflexivity.
        + injection H as <- <-. split; reflexivity. }
    destruct R as [-> ->].
    split; [intros x Hx; exact Hx |].
    split; [intros x Hx; exact Hx |].
    split; intros; contradiction.
Qed.


(** So does the whole loop, for every entry of [ahdrIndices]. *)
Lemma diffAssets_sets NDEBUG opt ohip mhip :
  forall (l : list (Z * Index)) s c s' c',
    foreach l (diffAsset NDEBUG opt ohip mhip) s c = Done (s', c') ->
    incl (addedAssets s) (addedAssets s')
    /\ incl (deletedAssets s) (deletedAssets s')
    /\ forall it, In it l ->
         (oidx (snd it) = -1 ->
          exists x, at_ (ahdr mhip) (midx (snd it)) = Some x
                    /\ In (id x) (addedAssets s'))
         /\ (oidx (snd it) <> -1 -> midx (snd it) = -1 ->
             exists x, at_ (ahdr ohip) (oidx (snd it)) = Some x
                       /\ In (id x) (deletedAssets s')).
Proof.
  induction l as [| it l IH]; intros s c s' c' H.
  - injection H as <- <-.
    split; [apply incl_refl |]. split; [apply incl_refl |].
    intros it [].
  - cbn [foreach] in H. run_bind H.
    match goal with
    | E : diffAsset _ _ _ _ _ _ _ = Done _ |- _ =>
        apply diffAsset_sets in E; destruct E as (Ia & Id & Ha & Hd)
    end.
    apply IH in H. destruct H as (Ja & Jd & J).
    split; [eapply incl_tran; eassumption |].
    split; [eapply incl_tran; eassumption |].
    intros it' [<- | Hin]; [| apply J; exact Hin].
    split.
    + intros Ho. destruct (Ha Ho) as (x & Hx & Hi).
      exists x. split; [exact Hx | apply Ja; exact Hi].
    + intros Ho Hm. destruct (Hd Ho Hm) as (x & Hx & Hi).
      exists x. split; [exact Hx | apply Jd; exact Hi].
Qed.

Lemma to_int_nonneg (j : Z) : 0 <= j < 2 ^ 32 -> 0 <= to_int j -> to_int j = j.
Proof.
  intros Hj. unfold to_int, wrap32. rewrite Z.mod_small by exact Hj.
  destruct (Z.ltb_spec j (2 ^ 31)) as [L | L]; lia.
Qed.

(** The asset found at the index kept for the key [k] has the id
    [k]. *)
Lemma asset_at_key (h : Hip) (k : Z) (x : AHDR) :
  uint32 (assetCount (pcnt h)) ->
  at_ (ahdr h) (last_value k (asset_keys h) (-1)) = Some x -> id x = k.
Proof.
  intros U Hx. pose proof (at_Some_range _ _ Hx) as R.
  destruct (@last_value_side h k U) as [_ S].
  destruct S as (j & y & E & Hj & Hy & Hk); [lia |].
  rewrite E in Hx, R.
  rewrite to_int_nonneg in Hx by (unfold uint32 in U; lia).
  rewrite Hx in Hy. injection Hy as <-. exact Hk.
Qed.

(** An id that is only in the modified file ends in [addedAssets],
    one that is only in the original file in [deletedAssets]. *)
Lemma diffAssets_reported NDEBUG opt ohip mhip idx s c c' i :
  uint32 (assetCount (pcnt ohip)) -> uint32 (assetCount (pcnt mhip)) ->
  build_ahdrIndices ohip mhip = Some idx ->
  diffAssets NDEBUG opt ohip mhip idx c = Done (s, c') ->
  (In i (asset_ids mhip) -> ~ In i (asset_ids ohip) ->
   set_mem i (addedAssets s) = true
   /\ oidx (map_at Index0 i idx) = -1)
  /\ (In i (asset_ids ohip) -> ~ In i (asset_ids mhip) ->
      set_mem i (deletedAssets s) = true
      /\ midx (map_at Index0 i idx) = -1).
Proof.
  intros Uo Um Hb Hd.
  destruct (build_ahdrIndices_spec _ _ Hb) as [_ Hf].
  unfold diffAssets in Hd. apply diffAssets_sets in Hd.
  destruct Hd as (_ & _ & Hd).
  assert (K : forall h, In i (asset_ids h) -> has_key i (asset_keys h) = true).
  { intros h Hi. apply has_key_In. rewrite asset_keys_ids. exact Hi. }
  split; intros Hin Hnot.
  - assert (F : map_find i idx
                = Some {| oidx := last_value i (asset_keys ohip) (-1);
                          midx := last_value i (asset_keys mhip) (-1) |}).
    { rewrite Hf, (K mhip Hin), orb_true_r. reflexivity. }
    assert (O : last_value i (asset_keys ohip) (-1) = -1)
      by (apply (@last_value_side ohip i Uo); exact Hnot).
    destruct (Hd _ (map_find_In _ _ F)) as [Ha _].
    destruct (Ha O) as (x & Hx & Hi). cbn [snd midx] in Hx.
    apply asset_at_key in Hx; [| exact Um]. rewrite Hx in Hi.
    split; [apply set_mem_In; exact Hi |].
    unfold map_at. rewrite F. exact O.
  - assert (F : map_find i idx
                = Some {| oidx := last_value i (asset_keys ohip) (-1);
                          midx := last_value i (asset_keys mhip) (-1) |}).
    { rewrite Hf, (K ohip Hin). reflexivity. }
    assert (O : last_value i (asset_keys mhip) (-1) = -1)
      by (apply (@last_value_side mhip i Um); exact Hnot).
    assert (P : last_value i (asset_keys ohip) (-1) <> -1).
    { intros E. apply (@last_value_side ohip i Uo) in E. contradiction. }
    destruct (Hd _ (map_find_In _ _ F)) as [_ Ha].
    destruct (Ha P O) as (x & Hx & Hi). cbn [snd oidx] in Hx.
    apply asset_at_key in Hx; [| exact Uo]. rewrite Hx in Hi.
    split; [apply set_mem_In; exact Hi |].
    unfold map_at. rewrite F. exact O.
Qed.


(** A member that is in the set, or whose name would be read at the
    index [-1], gets no line. *)
Lemma addedLayerMember_skipped mhip idx s i v c r :
  set_mem i (addedAssets s) = true \/ midx (map_at Index0 i idx) = -1 ->
  addedLayerMember mhip idx s i v c = Done r -> r = (v, c).
Proof.
  unfold addedLayerMember, mname. intros [-> | ->]; cbn [negb at_ Z.ltb].
  - intros H. injection H as <-. reflexivity.
  - destruct (negb (set_mem i (addedAssets s))).
    + intros H. discriminate H.
    + intros H. injection H as <-. reflexivity.
Qed.

Lemma deletedLayerMember_skipped ohip idx s i v c r :
  set_mem i (deletedAssets s) = true \/ oidx (map_at Index0 i idx) = -1 ->
  deletedLayerMember ohip idx s i v c = Done r -> r = (v, c).
Proof.
  unfold deletedLayerMember, oname. intros [-> | ->]; cbn [negb at_ Z.ltb].
  - intros H. injection H as <-. reflexivity.
  - destruct (negb (set_mem i (deletedAssets s))).
    + intros H. discriminate H.
    + intros H. injection H as <-. reflexivity.
Qed.

Lemma modifiedLayerMember_skipped NDEBUG ohip mhip idx s l i a v c r :
  set_mem i (addedAssets s) = true \/ midx (map_at Index0 i idx) = -1 ->
  set_mem i (deletedAssets s) = true \/ oidx (map_at Index0 i idx) = -1 ->
  modifiedLayerMember NDEBUG ohip mhip idx s l (i, a) v c = Done r ->
  r = (v, c).
Proof.
  unfold modifiedLayerMember, mname, oname. cbn [fst snd].
  intros Ha Hd H. run_plain H.
  destruct ((oidx a =? oidx l) || (midx a =? midx l));
    [| injection H as <-; reflexivity].
  destruct (neq (oidx a) (oidx l)); [| destruct (neq (midx a) (midx l))].
  - destruct Ha as [Ha | Ha]; rewrite Ha in H; cbn [negb at_ Z.ltb] in H.
    + injection H as <-. reflexivity.
    + destruct (negb (set_mem i (addedAssets s)));
        [discriminate H | injection H as <-; reflexivity].
  - destruct Hd as [Hd | Hd]; rewrite Hd in H; cbn [negb at_ Z.ltb] in H.
    + injection H as <-. reflexivity.
    + destruct (negb (set_mem i (deletedAssets s)));
        [discriminate H | injection H as <-; reflexivity].
  - injection H as <-. reflexivity.
Qed.



(** * An archive against itself *)

Lemma tables_readable_facts (h : Hip) :
  tables_readable h = true ->
  0 <= assetCount (pcnt h) < 2 ^ 31
  /\ assetCount (pcnt h) <= Z.of_nat (length (ahdr h))
  /\ assetCount (pcnt h) <= Z.of_nat (length (adbg h))
  /\ 0 <= layerCount (pcnt h) < 2 ^ 31
  /\ layerCount (pcnt h) <= Z.of_nat (length (lhdr h))
  /\ layerCount (pcnt h) <= Z.of_nat (length (ldbg h))
  /\ (forall a, In a (assets_of h) -> exists b, view h a (size a) = Some b)
  /\ (forall d, In d (firstn (Z.to_nat (assetCount (pcnt h))) (adbg h)) ->
                (String.length (name d) < 32)%nat)
  /\ (forall l, In l (layers_of h) -> layer_ids_readable h l = true)
  /\ stringCount (plat h) <= Z.of_nat (length (strings (plat h))).
Proof.
  unfold tables_readable. cbv zeta. intros H.
  repeat match type of H with
    | _ && _ = true => apply andb_prop in H; destruct H as [H ?]
    end.
  repeat match goal with
    | E : (_ <=? _) = true |- _ => apply Z.leb_le in E
    | E : (_ <? _) = true |- _ => apply Z.ltb_lt in E
    | E : forallb _ _ = true |- _ => rewrite forallb_forall in E
    end.
  apply Z.leb_le in H.
  repeat split; try lia.
  - intros a Ha.
    match goal with
    | E : forall x, In x (assets_of h) -> view_readable h x = true |- _ =>
        specialize (E a Ha); unfold view_readable in E;
        destruct (view h a (size a)) as [b |]; [exists b; reflexivity
                                               | discriminate E]
    end.
  - intros d Hd.
    match goal with
    | E : forall x, In x (firstn _ (adbg h)) -> _ |- _ =>
        specialize (E d Hd); apply Nat.ltb_lt in E; exact E
    end.
  - intros l Hl.
    match goal with
    | E : forall x, In x (layers_of h) -> _ |- _ => exact (E l Hl)
    end.
Qed.

(** A loop whose every round returns the value and the state it was
    given returns them too. *)
Lemma for_loop_fixed {S A} (body : Z -> A -> St S A) (a : A) (s : S) :
  forall (n : nat) (i : Z),
    (forall j, i <= j < i + Z.of_nat n -> body j a s = Done (a, s)) ->
    for_loop n i body a s = Done (a, s).
Proof.
  induction n as [| n IH]; intros i H; [reflexivity |].
  cbn [for_loop]. erewrite bind_run by (apply H; lia).
  apply IH. intros j Hj. apply H. lia.
Qed.

Lemma foreach_fixed {S A B} (body : B -> A -> St S A) (a : A) (s : S) :
  forall l : list B,
    (forall x, In x l -> body x a s = Done (a, s)) ->
    foreach l body a s = Done (a, s).
Proof.
  induction l as [| x l IH]; intros H; [reflexivity |].
  cbn [foreach]. erewrite bind_run by (apply H; left; reflexivity).
  apply IH. intros y Hy. apply H. right. exact Hy.
Qed.

(** The platform record against itself. *)
Lemma diffPLAT_same (h : Hip) c :
  stringCount (plat h) <= Z.of_nat (length (strings (plat h))) ->
  diffPLAT h h c = Done ([], c).
Proof.
  intros Hs. unfold diffPLAT. cbv zeta.
  rewrite orb_diag, eqb_reflx, neq_refl, Z.ltb_irrefl.
  destruct (plat_exists (plat h)); [| reflexivity].
  cbn [negb when_]. rewrite bind_ret. unfold for_.
  apply for_loop_fixed. intros j Hj.
  assert (R : 0 <= j < stringCount (plat h)) by lia.
  rewrite Z.geb_leb.
  destruct (Z.leb_spec (stringCount (plat h)) j) as [L | L]; [lia |].
  destruct (@at_in_range _ (strings (plat h)) j ltac:(lia)) as [x ->].
  cbn [defined]. rewrite !bind_ret, strdiff_refl. reflexivity.
Qed.

(** The header chunks against themselves. *)
Lemma diffHeader_same (h : Hip) c :
  stringCount (plat h) <= Z.of_nat (length (strings (plat h))) ->
  diffHeader h h c = Done (Header0, c).
Proof.
  intros Hs. unfold diffHeader. cbv zeta.
  rewrite !neq_refl, strdiff_refl. cbn [when_].
  rewrite !bind_ret. erewrite bind_run by (apply diffPLAT_same; exact Hs).
  rewrite bind_ret. reflexivity.
Qed.


Lemma bytes_eqb_refl (b : list byte) : bytes_eqb b b = true.
Proof.
  induction b as [| x b IH]; [reflexivity |].
  cbn [bytes_eqb]. rewrite IH, andb_true_r.
  apply Byte.byte_dec_lb. reflexivity.
Qed.

(** Counting switched off and on again. *)
Lemma countsEnabled_restored (c : Counts) :
  countsEnabled c = true ->
  {| additionCount := additionCount c; deletionCount := deletionCount c;
     modificationCount := modificationCount c; countsEnabled := true |} = c.
Proof. destruct c as [a d m e]. cbn. intros ->. reflexivity. Qed.

(** The payload of an asset against itself. *)
Lemma dataChanged_same opt (h : Hip) (x : AHDR) (d : ADBG) b c :
  view h x (size x) = Some b ->
  dataChanged opt h h x x d d c = Done (false, c).
Proof.
  intros Hv. unfold dataChanged.
  destruct (ignoreDataIfChksumMatch opt).
  - rewrite neq_refl. reflexivity.
  - rewrite Z.eqb_refl, Hv. cbn [defined]. rewrite !bind_ret.
    rewrite bytes_eqb_refl. reflexivity.
Qed.

(** The detailed comparison of an asset with itself leaves the two
    title lines. *)
Lemma assetMods_same NDEBUG opt (x : AHDR) (d : ADBG) c :
  countsEnabled c = false ->
  (String.length (name d) < 32)%nat ->
  exists t1 t2,
    assetMods NDEBUG opt x x d d false c = Done (([t1], [t2]), c).
Proof.
  intros Hc N. unfold assetMods.
  erewrite bind_run by (apply MODIFICATION_run; fits).
  rewrite bumps_disabled by exact Hc.
  rewrite !neq_refl, !strdiff_refl. cbn [andb when_].
  rewrite !bind_ret.
  erewrite bind_run by (apply MODIFICATION_run; fits).
  rewrite bumps_disabled by exact Hc.
  rewrite !bind_ret. cbn [app].
  eexists. eexists. reflexivity.
Qed.

(** One round of the loop over [ahdrIndices] on an entry that pairs
    an asset with itself. *)
Lemma diffAsset_same NDEBUG opt (h : Hip) k a j x d b s c :
  oidx a = j -> midx a = j -> j <> -1 ->
  at_ (ahdr h) j = Some x -> at_ (adbg h) j = Some d ->
  view h x (size x) = Some b ->
  (String.length (name d) < 32)%nat ->
  countsEnabled c = true ->
  diffAsset NDEBUG opt h h (k, a) s c = Done (s, c).
Proof.
  intros Ho Hm Hj Hx Hd Hv N Hc. unfold diffAsset. cbn [snd].
  rewrite Ho, Hm.
  erewrite bind_run
    by (apply assert_run; rewrite (neq_true Hj); reflexivity).
  destruct (Z.eqb_spec j (-1)) as [E | _]; [contradiction |].
  rewrite Hx, Hd. cbn [defined]. rewrite !bind_ret.
  erewrite bind_run by (apply assert_run; apply Z.eqb_refl).
  erewrite bind_run by (eapply dataChanged_same; exact Hv).
  destruct (detailedAssets opt).
  - unfold set_countsEnabled at 1. rewrite bind_modify.
    edestruct (@assetMods_same NDEBUG opt x d) as (t1 & t2 & R);
      [| exact N | erewrite bind_run by exact R]; [reflexivity |].
    cbn [length Z.of_nat Pos.of_succ_nat Z.ltb Z.compare Pos.compare
         Pos.compare_cont orb].
    rewrite bind_ret. unfold set_countsEnabled. rewrite bind_modify.
    cbn [additionCount deletionCount modificationCount].
    rewrite (countsEnabled_restored c Hc). reflexivity.
  - unfold assetDiffers. rewrite !neq_refl, !strdiff_refl. reflexivity.
Qed.


Lemma nth_error_In_firstn {B} (x : B) :
  forall (l : list B) (n i : nat),
    nth_error l i = Some x -> (i < n)%nat -> In x (firstn n l).
Proof.
  induction l as [| y l IH]; intros n i H L.
  - destruct i; discriminate H.
  - destruct n as [| n]; [lia |]. destruct i as [| i].
    + injection H as ->. left. reflexivity.
    + right. eapply IH; [exact H | lia].
Qed.

Lemma at_In_firstn {B} (l : list B) (n : nat) (j : Z) (x : B) :
  at_ l j = Some x -> j < Z.of_nat n -> In x (firstn n l).
Proof.
  unfold at_. destruct (Z.ltb_spec j 0) as [L | L]; [discriminate |].
  intros H Hj. eapply nth_error_In_firstn; [exact H | lia].
Qed.

(** Every entry of [ahdrIndices], built from one archive twice,
    pairs an asset with itself. *)
Lemma ahdrIndices_same (h : Hip) (idx : map_ Index) :
  0 <= assetCount (pcnt h) < 2 ^ 31 ->
  build_ahdrIndices h h = Some idx ->
  forall k a, In (k, a) idx ->
    exists j x,
      oidx a = j /\ midx a = j /\ 0 <= j < assetCount (pcnt h)
      /\ at_ (ahdr h) j = Some x.
Proof.
  intros Hn Hb k a Hin.
  destruct (@build_ahdrIndices_spec h h idx Hb) as [Hs Hf].
  pose proof (@In_map_find _ k a idx Hs Hin) as F. rewrite Hf, orb_diag in F.
  destruct (has_key k (asset_keys h)) eqn:K; [| discriminate F].
  injection F as <-. cbn [oidx midx].
  assert (U : uint32 (assetCount (pcnt h))) by (unfold uint32; lia).
  destruct (@last_value_side h k U) as [Hi Hv].
  destruct Hv as (j & x & E & Hj & Hx & _).
  { intros E. apply Hi in E. apply E. rewrite <- asset_keys_ids.
    apply has_key_In. exact K. }
  rewrite to_int_small in E by lia.
  exists j, x. rewrite E. repeat split; try lia. exact Hx.
Qed.

(** The assets of an archive against themselves. *)
Lemma diffAssets_same NDEBUG opt (h : Hip) (idx : map_ Index) c :
  tables_readable h = true ->
  build_ahdrIndices h h = Some idx ->
  countsEnabled c = true ->
  diffAssets NDEBUG opt h h idx c = Done (Assets0, c).
Proof.
  intros W Hb Hc.
  destruct (@tables_readable_facts h W)
    as (Hn & Ha & Hd & _ & _ & _ & Hv & Hname & _ & _).
  unfold diffAssets. apply foreach_fixed. intros [k a] Hin.
  destruct (@ahdrIndices_same h idx Hn Hb k a Hin) as (j & x & Ho & Hm & Hj & Hx).
  destruct (@at_in_range _ (adbg h) j ltac:(lia)) as [d Hdj].
  assert (Ix : In x (assets_of h)).
  { unfold assets_of. eapply at_In_firstn; [exact Hx | lia]. }
  assert (Id : In d (firstn (Z.to_nat (assetCount (pcnt h))) (adbg h))).
  { eapply at_In_firstn; [exact Hdj | lia]. }
  destruct (Hv x Ix) as [b Hb'].
  eapply diffAsset_same; try eassumption; [lia | apply Hname; exact Id].
Qed.


(** ** [ahdrLHDRIndices] *)

Lemma entry_after_app (set : Z -> Index -> Index) (k : Z) :
  forall (a b : list (Z * Z)) (o : option Index),
    entry_after set k (a ++ b) o = entry_after set k b (entry_after set k a o).
Proof.
  induction a as [| [x i] a IH]; intros b o; [reflexivity |].
  cbn [app entry_after]. apply IH.
Qed.

Lemma skipn_nth_error {B} (x : B) :
  forall (l : list B) (n : nat),
    nth_error l n = Some x -> skipn n l = x :: skipn (S n) l.
Proof.
  induction l as [| y l IH]; intros n H.
  - destruct n; discriminate H.
  - destruct n as [| n].
    + injection H as ->. reflexivity.
    + cbn [skipn]. apply IH in H. exact H.
Qed.

(** The loop over the member ids of one layer stores the index [v] of
    the layer under each of them, in order. *)
Lemma member_loop_stores (arr : list Z) (set : Z -> Index -> Index)
  (v p : Z) :
  0 <= p ->
  forall (n : nat) (j : Z) (t : map_ Index),
    0 <= j ->
    p + j + Z.of_nat n <= Z.of_nat (length arr) ->
    sorted_map t ->
    exists t',
      ofor_loop n j
        (fun j t => match at_ arr (p + j) with
                    | Some a => Some (map_update Index0 a (set v) t)
                    | None => None
                    end) t = Some t'
      /\ sorted_map t'
      /\ forall k,
           map_find k t'
           = entry_after set k
               (map (fun x => (x, v))
                  (firstn n (skipn (Z.to_nat (p + j)) arr)))
               (map_find k t).
Proof.
  intros Hp. induction n as [| n IH]; intros j t Hj Hb St.
  - exists t. split; [reflexivity |]. split; [exact St |].
    intros k. reflexivity.
  - cbn [ofor_loop].
    destruct (@at_in_range _ arr (p + j) ltac:(lia)) as [a Ha].
    rewrite Ha.
    destruct (IH (j + 1) (map_update Index0 a (set v) t))
      as (t' & R & S' & F);
      [lia | lia | apply map_update_sorted; exact St |].
    exists t'. split; [exact R |]. split; [exact S' |].
    intros k. rewrite F.
    assert (N : nth_error arr (Z.to_nat (p + j)) = Some a).
    { unfold at_ in Ha.
      destruct (Z.ltb_spec (p + j) 0) as [L | L]; [lia | exact Ha]. }
    rewrite (skipn_nth_error _ _ N).
    replace (Z.to_nat (p + (j + 1))) with (Datatypes.S (Z.to_nat (p + j))) by lia.
    cbn [firstn map entry_after]. f_equal.
    destruct (Z.eqb_spec a k) as [-> | D].
    + rewrite map_find_update_eq by exact St. reflexivity.
    + apply map_find_update_ne. exact D.
Qed.

(** The same for a layer whose ids are readable. *)
Lemma layer_member_stores (h : Hip) (l : LHDR)
  (set : Z -> Index -> Index) (v : Z) (t : map_ Index) :
  layer_ids_readable h l = true ->
  sorted_map t ->
  exists t',
    ofor (lhdr_assetCount l)
      (fun j t => match layer_assetID h l j with
                  | Some a => Some (map_update Index0 a (set v) t)
                  | None => None
                  end) t = Some t'
    /\ sorted_map t'
    /\ forall k,
         map_find k t'
         = entry_after set k (map (fun x => (x, v)) (layer_ids h l))
             (map_find k t).
Proof.
  unfold layer_ids_readable, layer_ids, layer_assetID, ofor. intros R St.
  destruct (Z.leb_spec (lhdr_assetCount l) 0) as [L | L].
  - replace (Z.to_nat (lhdr_assetCount l)) with 0%nat by lia.
    exists t. split; [reflexivity |]. split; [exact St |].
    intros k. destruct (assetIDs l); reflexivity.
  - cbn [orb] in R. destruct (assetIDs l) as [p |]; [| discriminate R].
    apply andb_prop in R. destruct R as [R1 R2].
    apply Z.leb_le in R1, R2.
    destruct (@member_loop_stores (layerAssetIDs h) set v p R1
                (Z.to_nat (lhdr_assetCount l)) 0 t)
      as (t' & E & S' & F); [lia | lia | exact St |].
    exists t'. split; [exact E |]. split; [exact S' |].
    intros k. rewrite F. rewrite Z.add_0_r. reflexivity.
Qed.

(** The loops over the layers of one file store, under every member
    id, the index of the last layer that has it. *)
Lemma ofold_layer_stores (h : Hip) (set : Z -> Index -> Index) :
  forall (ls : list LHDR) (i : Z) (t : map_ Index),
    (forall l, In l ls -> layer_ids_readable h l = true) ->
    sorted_map t ->
    exists t',
      ofold (fun i l t =>
               ofor (lhdr_assetCount l)
                 (fun j t =>
                    match layer_assetID h l j with
                    | Some a => Some (map_update Index0 a (set (to_int i)) t)
                    | None => None
                    end) t) i ls t = Some t'
      /\ sorted_map t'
      /\ forall k,
           map_find k t'
           = entry_after set k
               (flat_map (fun il => map (fun x => (x, fst il))
                                      (layer_ids h (snd il)))
                  (with_index i ls))
               (map_find k t).
Proof.
  induction ls as [| l ls IH]; intros i t R S.
  - exists t. split; [reflexivity |]. split; [exact S |].
    intros k. reflexivity.
  - cbn [ofold].
    destruct (@layer_member_stores h l set (to_int i) t
                (R l (or_introl eq_refl)) S) as (t1 & E & S1 & F1).
    rewrite E.
    destruct (IH (i + 1) t1 (fun x Hx => R x (or_intror Hx)) S1)
      as (t' & E' & S' & F').
    exists t'. split; [exact E' |]. split; [exact S' |].
    intros k. rewrite F'. cbn [with_index flat_map fst snd].
    rewrite entry_after_app, F1. reflexivity.
Qed.

Lemma ahdrLHDRIndices_fill_run (h : Hip) (set : Z -> Index -> Index)
  (t : map_ Index) :
  tables_readable h = true ->
  sorted_map t ->
  exists t',
    ahdrLHDRIndices_fill h set t = Some t'
    /\ sorted_map t'
    /\ forall k,
         map_find k t' = entry_after set k (layer_keys h) (map_find k t).
Proof.
  intros W S.
  destruct (@tables_readable_facts h W)
    as (_ & _ & _ & Hk & Hl & _ & _ & _ & Hr & _).
  unfold ahdrLHDRIndices_fill.
  rewrite (@ofor_read_run _ _ (lhdr h)
             (fun i l t =>
                ofor (lhdr_assetCount l)
                  (fun j t =>
                     match layer_assetID h l j with
                     | Some a => Some (map_update Index0 a (set (to_int i)) t)
                     | None => None
                     end) t)) by lia.
  apply ofold_layer_stores; [exact Hr | exact S].
Qed.


Lemma layers_of_length (h : Hip) :
  (length (layers_of h) <= Z.to_nat (layerCount (pcnt h)))%nat.
Proof. unfold layers_of. rewrite length_firstn. lia. Qed.

(** Every entry of [ahdrLHDRIndices], built from one archive twice,
    names the same layer on both sides. *)
Lemma build_ahdrLHDRIndices_same (h : Hip) :
  tables_readable h = true ->
  exists T,
    build_ahdrLHDRIndices h h = Some T
    /\ forall k a, In (k, a) T -> oidx a = midx a /\ oidx a <> -1.
Proof.
  intros W. unfold build_ahdrLHDRIndices.
  destruct (@ahdrLHDRIndices_fill_run h set_oidx [] W I)
    as (t1 & E1 & S1 & F1).
  destruct (@ahdrLHDRIndices_fill_run h set_midx t1 W S1)
    as (T & E & St & F).
  rewrite E1. exists T. split; [exact E |].
  intros k a Hin. pose proof (@In_map_find _ k a T St Hin) as M.
  rewrite F, F1 in M. cbn [map_find] in M.
  rewrite entry_after_both, orb_diag in M.
  destruct (has_key k (layer_keys h)) eqn:K; [| discriminate M].
  injection M as <-. cbn [oidx midx]. split; [reflexivity |].
  pose proof (@last_value_key k (layer_keys h) (-1) K) as Hl.
  revert Hl. generalize (last_value k (layer_keys h) (-1)). intros lv Hl.
  unfold layer_keys in Hl. apply in_flat_map in Hl.
  destruct Hl as ([v x] & Hil & Hm). cbn [fst snd] in Hm.
  apply in_map_iff in Hm. destruct Hm as (y & Ey & _).
  injection Ey as _ <-.
  apply with_index_In in Hil. destruct Hil as (j & Hj & ->).
  pose proof (layers_of_length h) as Len.
  assert (Lj : (j < length (layers_of h))%nat).
  { apply nth_error_Some. rewrite Hj. discriminate. }
  destruct (@tables_readable_facts h W) as (_ & _ & _ & Hk & _).
  rewrite to_int_small by lia. lia.
Qed.

Lemma zipPad_same (p : list Z) :
  zipPad p p = map (fun x => {| oidx := x; midx := x |}) p.
Proof.
  induction p as [| x p IH]; [reflexivity |].
  cbn [zipPad map]. rewrite IH. reflexivity.
Qed.

Lemma positions_In (ty : Z) :
  forall (l : list LHDR) (i x : Z),
    In x (positions ty i l) ->
    exists j, (j < length l)%nat /\ x = to_int (i + Z.of_nat j).
Proof.
  induction l as [| y l IH]; intros i x H; [destruct H |].
  cbn [positions] in H.
  assert (T : In x (positions ty (i + 1) l) ->
              exists j, (j < length (y :: l))%nat
                        /\ x = to_int (i + Z.of_nat j)).
  { intros Hx. destruct (IH _ _ Hx) as (j & Hj & ->).
    exists (S j). split; [cbn [length]; lia | f_equal; lia]. }
  destruct (lhdr_type y =? ty); [| exact (T H)].
  destruct H as [<- | H]; [| exact (T H)].
  exists 0%nat. split; [cbn [length]; lia | f_equal; lia].
Qed.

(** Every entry of [lhdrIndices], built from one archive twice,
    pairs a layer with itself. *)
Lemma build_lhdrIndices_same (h : Hip) :
  tables_readable h = true ->
  exists L,
    build_lhdrIndices h h = Some L
    /\ forall ty v l, In (ty, v) L -> In l v ->
         exists j, oidx l = j /\ midx l = j
                   /\ 0 <= j < layerCount (pcnt h).
Proof.
  intros W.
  destruct (@tables_readable_facts h W) as (_ & _ & _ & Hk & Hl & _).
  destruct (@build_lhdrIndices_run h h ltac:(lia) ltac:(lia))
    as (L & E & St & F).
  exists L. split; [exact E |]. intros ty v l Hin Hl'.
  pose proof (@In_map_find _ ty v L St Hin) as M.
  specialize (F ty). unfold map_at in F. rewrite M, zipPad_same in F.
  rewrite F in Hl'. apply in_map_iff in Hl'.
  destruct Hl' as (x & <- & Hx). cbn [oidx midx].
  unfold layer_positions in Hx. apply positions_In in Hx.
  destruct Hx as (j & Hj & ->).
  pose proof (layers_of_length h) as Len.
  rewrite to_int_small by lia.
  exists (0 + Z.of_nat j). repeat split; lia.
Qed.


(** A member that is in the same layer on both sides gets no line. *)
Lemma modifiedLayerMember_same NDEBUG ohip mhip idx s l k a v c :
  oidx a = midx a -> oidx a <> -1 -> oidx l = midx l ->
  modifiedLayerMember NDEBUG ohip mhip idx s l (k, a) v c = Done (v, c).
Proof.
  intros Ha Hn Hl. unfold modifiedLayerMember. cbn [fst snd].
  erewrite bind_run
    by (apply assert_run; rewrite (neq_true Hn); reflexivity).
  rewrite <- Ha, <- Hl. unfold neq.
  destruct (oidx a =? oidx l); reflexivity.
Qed.

(** One round of the loop over [lhdrIndices] on an entry that pairs
    a layer with itself. *)
Lemma diffLayer_same NDEBUG (h : Hip) idx T s0 l s c j x d :
  oidx l = j -> midx l = j -> j <> -1 ->
  at_ (lhdr h) j = Some x -> at_ (ldbg h) j = Some d ->
  (forall k a, In (k, a) T -> oidx a = midx a /\ oidx a <> -1) ->
  countsEnabled c = true ->
  diffLayer NDEBUG h h idx T s0 l s c = Done (s, c).
Proof.
  intros Ho Hm Hj Hx Hd HT Hc. unfold diffLayer.
  assert (Hl : oidx l = midx l) by congruence.
  rewrite Ho, Hm.
  erewrite bind_run
    by (apply assert_run; rewrite (neq_true Hj); reflexivity).
  destruct (Z.eqb_spec j (-1)) as [E | _]; [contradiction |].
  rewrite Hx, Hd. cbn [defined]. rewrite !bind_ret.
  erewrite bind_run by (apply assert_run; apply Z.eqb_refl).
  unfold set_countsEnabled at 1. rewrite bind_modify.
  erewrite bind_run by (apply MODIFICATION_run; fits).
  rewrite bumps_disabled by reflexivity.
  rewrite neq_refl, bind_ret.
  erewrite bind_run.
  2: { apply foreach_fixed. intros [k a] Hin.
       destruct (HT k a Hin) as [Ea Na].
       apply modifiedLayerMember_same; assumption. }
  erewrite bind_run by (apply MODIFICATION_run; fits).
  rewrite bumps_disabled by reflexivity.
  rewrite neq_refl. cbn [when_]. rewrite bind_ret.
  cbn [app length Z.of_nat Pos.of_succ_nat Z.ltb Z.compare Pos.compare
       Pos.compare_cont orb].
  rewrite bind_ret. unfold set_countsEnabled. rewrite bind_modify.
  cbn [additionCount deletionCount modificationCount].
  rewrite (countsEnabled_restored c Hc). reflexivity.
Qed.

(** The layers of an archive against themselves. *)
Lemma diffLayers_same NDEBUG (h : Hip) idx T L s0 c :
  tables_readable h = true ->
  (forall k a, In (k, a) T -> oidx a = midx a /\ oidx a <> -1) ->
  (forall ty v l, In (ty, v) L -> In l v ->
     exists j, oidx l = j /\ midx l = j /\ 0 <= j < layerCount (pcnt h)) ->
  countsEnabled c = true ->
  diffLayers NDEBUG h h idx T s0 L c = Done (Layers0, c).
Proof.
  intros W HT HL Hc.
  destruct (@tables_readable_facts h W)
    as (_ & _ & _ & Hk & Hl & Hd & _).
  unfold diffLayers. apply foreach_fixed. intros [ty v] Hin. cbn [snd].
  apply foreach_fixed. intros l Hlv.
  destruct (HL ty v l Hin Hlv) as (j & Ho & Hm & Hj).
  destruct (@at_in_range _ (lhdr h) j ltac:(lia)) as [x Hx].
  destruct (@at_in_range _ (ldbg h) j ltac:(lia)) as [d Hdj].
  eapply diffLayer_same; try eassumption. lia.
Qed.


(** The body of [main] on a well-formed archive against itself. *)
Lemma main_body_same NDEBUG opt (h : Hip) c :
  well_formed h = true ->
  countsEnabled c = true ->
  main_body NDEBUG opt h h c = Done ((Header0, Assets0, Layers0), c).
Proof.
  intros W Hc. unfold well_formed in W. apply andb_prop in W.
  destruct W as [Hp W]. unfold main_body, hackPCRTString. cbv zeta.
  destruct (Nat.eqb (String.length (pcrt_string (pcrt h))) 0);
    [discriminate Hp |].
  cbn [defined]. rewrite !bind_ret.
  set (h' := set_pcrt _ h).
  assert (W' : tables_readable h' = true) by exact W.
  destruct (@tables_readable_facts h' W')
    as (Hn & Ha & _ & _ & _ & _ & _ & _ & _ & Hs).
  destruct (@build_ahdrIndices_total h' h' ltac:(lia) ltac:(lia))
    as [idx Hi].
  rewrite Hi. cbn [defined]. rewrite bind_ret.
  destruct (assetDiffsOnly opt); cbn [negb].
  - rewrite !bind_ret.
    erewrite bind_run by (apply diffAssets_same; assumption).
    rewrite !bind_ret. reflexivity.
  - destruct (@build_lhdrIndices_same h' W') as (L & EL & HL).
    destruct (@build_ahdrLHDRIndices_same h' W') as (T & ET & HT).
    rewrite EL, ET. cbn [defined].
    repeat (rewrite bind_bind || rewrite bind_ret).
    erewrite bind_run by (apply diffHeader_same; exact Hs).
    erewrite bind_run by (apply diffAssets_same; assumption).
    erewrite bind_run by (apply diffLayers_same; assumption).
    reflexivity.
Qed.

(** C8.  For every archive that is well formed (a creation string
    that is not empty and readable tables) and every setting of the
    options, in both builds, the diff of the archive against itself is
    the empty report: every vector of the header, of the assets and of
    the layers is empty, the numbers of added, deleted and modified
    assets and layers are zero and so are the three counters; and
    [main] returns it on two copies of a file that loads as such an
    archive. *)
Theorem self_diff_is_empty :
  forall NDEBUG opt h,
    well_formed h = true ->
    main_diff NDEBUG opt h h = Done Report0
    /\ forall fuel bytes,
         load NDEBUG fuel bytes = Done h ->
         main NDEBUG opt fuel bytes bytes = Done Report0.
Proof.
  intros NDEBUG opt h W.
  assert (R : main_diff NDEBUG opt h h = Done Report0).
  { unfold main_diff.
    rewrite (@main_body_same NDEBUG opt h Counts0 W eq_refl). reflexivity. }
  split; [exact R |].
  intros fuel bytes Hl. unfold main. rewrite Hl. exact R.
Qed.

(** At a concrete input: [archive_A], with details. *)
Lemma self_diff_is_empty_witness :
  well_formed (loaded archive_A) = true
  /\ main_diff false Options_detailed (loaded archive_A) (loaded archive_A)
     = Done Report0.
Proof.
  assert (W : well_formed (loaded archive_A) = true)
    by (vm_compute; reflexivity).
  split; [exact W |].
  exact (proj1 (@self_diff_is_empty false Options_detailed
                  (loaded archive_A) W)).
Defined.


(** * The string helpers *)

Lemma char_value_inj (sg : bool) (x y : ascii) :
  char_value sg x = char_value sg y -> x = y.
Proof.
  unfold char_value. intros H.
  pose proof (N_ascii_bounded x) as Bx. pose proof (N_ascii_bounded y) as By.
  assert (E : N_of_ascii x = N_of_ascii y).
  { destruct sg; cbn [andb] in H.
    - destruct (Z.leb_spec 128 (Z.of_N (N_of_ascii x)));
        destruct (Z.leb_spec 128 (Z.of_N (N_of_ascii y))); lia.
    - lia. }
  rewrite <- (ascii_N_embedding x), <- (ascii_N_embedding y), E.
  reflexivity.
Qed.

Lemma Stricmp_zero_iff :
  forall (char_signed : bool) (a b : string),
    (Stricmp char_signed a b = 0 <-> lower a = lower b)
    /\ (Stricmp char_signed a b = -1 \/ Stricmp char_signed a b = 0
        \/ Stricmp char_signed a b = 1).
Proof.
  intros sg. induction a as [| x a IH]; intros [| y b]; cbn [Stricmp lower].
  - split; [tauto | auto].
  - split; [| auto]. split; [lia | discriminate].
  - split; [| auto]. split; [lia | discriminate].
  - cbv zeta. rewrite Z.gtb_ltb.
    destruct (Z.ltb_spec (char_value sg (tolower x))
                (char_value sg (tolower y))) as [L | L].
    + split; [| auto]. split; [lia |].
      intros E. injection E as E _. rewrite E in L. lia.
    + destruct (Z.ltb_spec (char_value sg (tolower y))
                  (char_value sg (tolower x))) as [G | G].
      * split; [| auto]. split; [lia |].
        intros E. injection E as E _. rewrite E in G. lia.
      * assert (E : tolower x = tolower y)
          by (apply (char_value_inj sg); lia).
        destruct (IH b) as [I1 I2]. split; [| exact I2].
        rewrite I1, E. split; [intros ->; reflexivity |].
        intros F. injection F as F. exact F.
Qed.

(** X1.  [Stricmp] returns 0 exactly when its arguments are equal up
    to the case of the letters A to Z, whether [char] is signed or
    not; otherwise it returns -1 or 1. *)
Theorem Stricmp_zero_iff_equal_up_to_case :
  forall (char_signed : bool) (a b : string),
    (Stricmp char_signed a b = 0 <-> lower a = lower b)
    /\ (Stricmp char_signed a b = -1 \/ Stricmp char_signed a b = 0
        \/ Stricmp char_signed a b = 1).
Proof. exact Stricmp_zero_iff. Qed.

(** X2.  Exchanging the arguments of [Stricmp] negates the result. *)
Theorem Stricmp_antisymmetric :
  forall (char_signed : bool) (a b : string),
    Stricmp char_signed b a = - Stricmp char_signed a b.
Proof.
  intros sg. induction a as [| x a IH]; intros [| y b]; cbn [Stricmp];
    try reflexivity.
  cbv zeta. rewrite !Z.gtb_ltb.
  destruct (Z.ltb_spec (char_value sg (tolower x))
              (char_value sg (tolower y)));
    destruct (Z.ltb_spec (char_value sg (tolower y))
                (char_value sg (tolower x))); try lia.
  apply IH.
Qed.


Lemma take_drop (s : string) : forall n, (take n s ++ drop n s)%string = s.
Proof.
  induction s as [| c s IH]; intros [| n]; cbn; try reflexivity.
  rewrite IH. reflexivity.
Qed.

Lemma drop_get (s : string) :
  forall n c, String.get n s = Some c -> drop n s = String c (drop (S n) s).
Proof.
  induction s as [| x s IH]; intros [| n] c H; cbn in *; try discriminate.
  - injection H as ->. reflexivity.
  - apply IH. exact H.
Qed.

Lemma take_get (s : string) :
  forall n c, String.get n s = Some c ->
              take (S n) s = (take n s ++ String c EmptyString)%string.
Proof.
  induction s as [| x s IH]; intros [| n] c H; cbn in *; try discriminate.
  - injection H as ->. reflexivity.
  - f_equal. apply IH. exact H.
Qed.

Lemma get_below (s : string) :
  forall n, (n < String.length s)%nat -> exists c, String.get n s = Some c.
Proof.
  induction s as [| x s IH]; intros n H; cbn in H; [lia |].
  destruct n as [| n]; cbn; [eauto |]. apply IH. lia.
Qed.

Lemma drop_all (s : string) : drop (String.length s) s = EmptyString.
Proof. induction s as [| x s IH]; cbn; [reflexivity | exact IH]. Qed.

Lemma filenameFromPath_loop_spec (path : string) :
  forall k,
    (k <= String.length path)%nat ->
    has_separator (drop k path) = false ->
    exists dir,
      path = (dir ++ filenameFromPath_loop path k)%string
      /\ has_separator (filenameFromPath_loop path k) = false
      /\ (dir = EmptyString
          \/ exists d c, dir = (d ++ String c EmptyString)%string
                         /\ is_separator c = true).
Proof.
  induction k as [| n IH]; intros Hk Hs.
  - exists EmptyString. cbn. split; [reflexivity |].
    split; [exact Hs | left; reflexivity].
  - destruct (@get_below path n ltac:(lia)) as [c Hc].
    cbn [filenameFromPath_loop]. rewrite Hc.
    destruct (is_separator c) eqn:Sc.
    + exists (take (S n) path). split; [symmetry; apply take_drop |].
      split; [exact Hs |]. right. exists (take n path), c.
      split; [apply take_get; exact Hc | exact Sc].
    + apply IH; [lia |]. rewrite (drop_get _ _ Hc). cbn [has_separator].
      rewrite Sc, Hs. reflexivity.
Qed.

(** X3.  [filenameFromPath] returns the part of the path after its
    last ['/'] or ['\\']: the path is a directory part followed by
    the result, the result holds no separator, and the directory part
    is empty or ends with a separator.  A path without separator is
    returned whole. *)
Theorem filenameFromPath_is_last_component :
  forall path : string,
    (exists dir,
        path = (dir ++ filenameFromPath path)%string
        /\ has_separator (filenameFromPath path) = false
        /\ (dir = EmptyString
            \/ exists d c, dir = (d ++ String c EmptyString)%string
                           /\ is_separator c = true))
    /\ (has_separator path = false -> filenameFromPath path = path).
Proof.
  intros path. split.
  - apply filenameFromPath_loop_spec; [lia |]. rewrite drop_all. reflexivity.
  - intros H. unfold filenameFromPath.
    assert (G : forall k, (k <= String.length path)%nat ->
                          filenameFromPath_loop path k = path).
    { induction k as [| n IH]; intros Hk; [reflexivity |].
      destruct (@get_below path n ltac:(lia)) as [c Hc].
      cbn [filenameFromPath_loop]. rewrite Hc.
      assert (Sc : is_separator c = false).
      { clear IH Hk. revert n Hc H.
        induction path as [| x p IHp]; intros [| n] Hc H; cbn in *;
          try discriminate.
        - injection Hc as ->. apply orb_false_elim in H. apply H.
        - apply orb_false_elim in H. apply (IHp n Hc). apply H. }
      rewrite Sc. apply IH. lia. }
    apply G. lia.
Qed.


(** * Bytes and words *)

Lemma land_mask_shiftl (v m k : Z) :
  0 <= k ->
  Z.land v (Z.shiftl m k) = Z.shiftl (Z.land (Z.shiftr v k) m) k.
Proof.
  intros Hk. apply Z.bits_inj'. intros n Hn.
  rewrite Z.land_spec. destruct (Z.lt_ge_cases n k) as [L | L].
  - rewrite !Z.shiftl_spec_low by exact L. apply andb_false_r.
  - rewrite !Z.shiftl_spec by exact Hn.
    rewrite Z.land_spec, Z.shiftr_spec by lia.
    replace (n - k + k) with n by lia. reflexivity.
Qed.

(** The byte [i] of a word: [(v & (0xFF << 8i)) >> 8i]. *)
Lemma byte_of_word (v k : Z) :
  0 <= k ->
  Z.shiftr (Z.land v (Z.shiftl 255 k)) k = (v / 2 ^ k) mod 256.
Proof.
  intros Hk. rewrite (@land_mask_shiftl v 255 k) by exact Hk.
  rewrite Z.shiftr_shiftl_l by exact Hk. rewrite Z.sub_diag, Z.shiftl_0_r.
  change 255 with (Z.ones 8). rewrite Z.land_ones by lia.
  rewrite Z.shiftr_div_pow2 by exact Hk. reflexivity.
Qed.

Lemma lor_add_low (a b k : Z) :
  0 <= k -> 0 <= a < 2 ^ k ->
  Z.lor a (Z.shiftl b k) = a + b * 2 ^ k.
Proof.
  intros Hk Ha.
  assert (D : Z.land a (Z.shiftl b k) = 0).
  { apply Z.bits_inj'. intros n Hn. rewrite Z.land_spec, Z.bits_0.
    destruct (Z.lt_ge_cases n k) as [L | L].
    - rewrite Z.shiftl_spec_low by exact L. apply andb_false_r.
    - replace a with (a mod 2 ^ k) by (apply Z.mod_small; exact Ha).
      rewrite Z.mod_pow2_bits_high by lia. reflexivity. }
  rewrite <- Z.lxor_lor by exact D.
  rewrite <- Z.add_nocarry_lxor by exact D.
  rewrite Z.shiftl_mul_pow2 by exact Hk. reflexivity.
Qed.

Lemma byteZ_range (b : byte) : 0 <= byteZ b < 256.
Proof.
  unfold byteZ. pose proof (Byte.to_N_bounded b) as H. lia.
Qed.

(** The [// Swap endian] expression reverses the four bytes of a
    word. *)
Lemma swap_endian_bytes (x0 x1 x2 x3 : Z) :
  0 <= x0 < 256 -> 0 <= x1 < 256 -> 0 <= x2 < 256 -> 0 <= x3 < 256 ->
  swap_endian (x0 + x1 * 2 ^ 8 + x2 * 2 ^ 16 + x3 * 2 ^ 24)
  = x3 + x2 * 2 ^ 8 + x1 * 2 ^ 16 + x0 * 2 ^ 24.
Proof.
  intros H0 H1 H2 H3. unfold swap_endian.
  set (v := x0 + x1 * 2 ^ 8 + x2 * 2 ^ 16 + x3 * 2 ^ 24).
  change 0xFF000000 with (Z.shiftl 255 24).
  change 0x00FF0000 with (Z.shiftl 255 16).
  change 0x0000FF00 with (Z.shiftl 255 8).
  rewrite (@byte_of_word v 24) by lia.
  rewrite (@land_mask_shiftl v 255 16), (@land_mask_shiftl v 255 8) by lia.
  rewrite Z.shiftr_shiftl_l by lia.
  rewrite (Z.shiftl_shiftl (Z.land (Z.shiftr v 8) 255) 8 8) by lia.
  change (Z.land ?x 255) with (Z.land x (Z.ones 8)).
  rewrite !Z.land_ones by lia. rewrite !Z.shiftr_div_pow2 by lia.
  assert (E : (v / 2 ^ 24) mod 256 = x3 /\ (v / 2 ^ 16) mod 2 ^ 8 = x2
              /\ (v / 2 ^ 8) mod 2 ^ 8 = x1 /\ v mod 2 ^ 8 = x0).
  { subst v. change (2 ^ 24) with 16777216. change (2 ^ 16) with 65536.
    change (2 ^ 8) with 256. repeat split; Z.div_mod_to_equations; lia. }
  destruct E as (E3 & E2 & E1 & E0).
  rewrite E3, E2, E1, E0. cbn [Z.sub Z.add Z.opp Z.pos_sub Pos.add
    Pos.succ Pos.pred_double Z.double Z.succ_double Z.pred_double].
  rewrite (@lor_add_low x3 x2 8) by lia.
  rewrite (@lor_add_low _ x1 16) by lia.
  rewrite (@lor_add_low _ x0 24) by lia.
  reflexivity.
Qed.


Lemma word_bytes (x : Z) :
  0 <= x < 2 ^ 32 ->
  x = x mod 256 + (x / 2 ^ 8) mod 256 * 2 ^ 8
      + (x / 2 ^ 16) mod 256 * 2 ^ 16 + (x / 2 ^ 24) mod 256 * 2 ^ 24.
Proof.
  change (2 ^ 32) with 4294967296. change (2 ^ 24) with 16777216.
  change (2 ^ 16) with 65536. change (2 ^ 8) with 256.
  intros H. Z.div_mod_to_equations. lia.
Qed.

(** What [readLong] returns, by the number of bytes left. *)
Lemma readLong_run :
  forall (h : Hip) (left : list byte),
    skipn (Z.to_nat (fpos h)) (file h) = left ->
    readLong h
    = match left with
      | b0 :: b1 :: b2 :: b3 :: _ =>
          Done (Some (byteZ b0 * 2 ^ 24 + byteZ b1 * 2 ^ 16
                      + byteZ b2 * 2 ^ 8 + byteZ b3),
                set_fpos (fpos h + 4) h)
      | _ => Done (None, set_fpos (fpos h + Z.of_nat (length left)) h)
      end.
Proof.
  intros h left E. unfold readLong, bind, fread. rewrite E.
  change (Z.to_nat 4) with 4%nat.
  destruct left as [| b0 [| b1 [| b2 [| b3 rest]]]];
    try reflexivity.
  cbn [firstn length Z.of_nat Pos.of_succ_nat Pos.succ ret].
  unfold host32.
  rewrite swap_endian_bytes by apply byteZ_range.
  unfold ret.
  match goal with
  | |- Done (Some ?a, _) = Done (Some ?b, _) =>
      replace a with b by lia; reflexivity
  end.
Qed.

(** X4.  [readLong] decodes big-endian: when four bytes are left in
    the file it returns the word whose most significant byte is the
    first of them and advances the position by four; when fewer are
    left it returns [false] with the position at the end of what it
    obtained. *)
Theorem readLong_is_big_endian :
  forall (h : Hip) (left : list byte),
    skipn (Z.to_nat (fpos h)) (file h) = left ->
    readLong h
    = match left with
      | b0 :: b1 :: b2 :: b3 :: _ =>
          Done (Some (byteZ b0 * 2 ^ 24 + byteZ b1 * 2 ^ 16
                      + byteZ b2 * 2 ^ 8 + byteZ b3),
                set_fpos (fpos h + 4) h)
      | _ => Done (None, set_fpos (fpos h + Z.of_nat (length left)) h)
      end.
Proof. exact readLong_run. Qed.

(** At a concrete input: the bytes 00 00 01 02 are the word 258. *)
Lemma readLong_is_big_endian_witness :
  readLong (open [x00; x00; x01; x02])
  = Done (Some 258, set_fpos 4 (open [x00; x00; x01; x02])).
Proof.
  exact (@readLong_is_big_endian (open [x00; x00; x01; x02])
           [x00; x00; x01; x02] eq_refl).
Defined.

(** X5.  The byte swap of [readLong] is an involution on 32-bit
    words, and its result is a 32-bit word. *)
Theorem swap_endian_involutive :
  forall x : Z,
    swap_endian (swap_endian (wrap32 x)) = wrap32 x
    /\ uint32 (swap_endian (wrap32 x)).
Proof.
  intros x. unfold wrap32.
  pose proof (Z.mod_pos_bound x (2 ^ 32) eq_refl) as R.
  set (w := x mod 2 ^ 32) in *.
  assert (B : forall k, 0 <= (w / 2 ^ k) mod 256 < 256)
    by (intros k; apply Z.mod_pos_bound; reflexivity).
  assert (B0 : 0 <= w mod 256 < 256)
    by (apply Z.mod_pos_bound; reflexivity).
  rewrite (word_bytes R) at 1 3.
  rewrite !swap_endian_bytes by (try apply B; exact B0).
  split.
  - rewrite <- (word_bytes R). reflexivity.
  - unfold uint32. pose proof (B 24). pose proof (B 16). pose proof (B 8).
    lia.
Qed.



Lemma drop_last_newline_last (s : string) (c : ascii) :
  drop_last_newline (s ++ String c EmptyString)
  = if (c =? "010")%char then s else (s ++ String c EmptyString)%string.
Proof.
  induction s as [| x s IH]; [reflexivity |].
  cbn [String.append drop_last_newline]. rewrite IH.
  destruct s as [| y s]; cbn [String.append];
    destruct (c =? "010")%char; reflexivity.
Qed.

(** X7.  [hackPCRTString] removes one newline from the end of a
    string and nothing else: a string that ends with a newline loses
    exactly that character, a string that ends with another character
    is left as it is. *)
Theorem hackPCRTString_strips_one_newline :
  forall (s : string) (c : ascii),
    hackPCRTString (s ++ String c EmptyString)
    = Some (if (c =? "010")%char then s
            else (s ++ String c EmptyString)%string).
Proof.
  intros s c. unfold hackPCRTString. cbv zeta.
  assert (L : String.length (s ++ String c EmptyString) <> 0%nat).
  { rewrite string_length_app. cbn. lia. }
  apply Nat.eqb_neq in L. rewrite L, drop_last_newline_last. reflexivity.
Qed.


(** * Reading strings *)

Lemma set_fpos_set_fpos (a b : Z) (h : Hip) :
  set_fpos a (set_fpos b h) = set_fpos a h.
Proof. reflexivity. Qed.

Lemma skipn_next {B} (l : list B) (n : nat) (x : B) (r : list B) :
  skipn n l = x :: r -> skipn (S n) l = r.
Proof.
  intros E. change (S n) with (1 + n)%nat.
  rewrite <- skipn_skipn, E. reflexivity.
Qed.

Lemma left_next (h : Hip) (x : byte) (r : list byte) :
  0 <= fpos h ->
  skipn (Z.to_nat (fpos h)) (file h) = x :: r ->
  skipn (Z.to_nat (fpos h + 1)) (file h) = r.
Proof.
  intros Hp E. replace (Z.to_nat (fpos h + 1)) with (S (Z.to_nat (fpos h)))
    by lia.
  eapply skipn_next. exact E.
Qed.

Lemma fread_one (h : Hip) (x : byte) (r : list byte) :
  skipn (Z.to_nat (fpos h)) (file h) = x :: r ->
  fread 1 h = Done ([x], set_fpos (fpos h + 1) h).
Proof.
  intros E. unfold fread. rewrite E. reflexivity.
Qed.

Lemma fread_one_end (h : Hip) :
  skipn (Z.to_nat (fpos h)) (file h) = [] ->
  fread 1 h = Done ([], set_fpos (fpos h + 0) h).
Proof.
  intros E. unfold fread. rewrite E. reflexivity.
Qed.

(** The first loop of [readString] when the terminator comes within
    the [n] characters it may still store. *)
Lemma readString_fill_short :
  forall (s : list byte) (n : nat) (buf : list byte) (c : byte) (h : Hip)
         (tail : list byte),
    (length s < n)%nat -> 0 <= fpos h ->
    skipn (Z.to_nat (fpos h)) (file h) = s ++ x00 :: tail ->
    forallb (fun c => negb (isNUL c)) s = true ->
    readString_fill n buf c h
    = Done (Some (buf ++ s ++ [x00], x00),
            set_fpos (fpos h + Z.of_nat (length s) + 1) h).
Proof.
  induction s as [| x s IH]; intros n buf c h tail Hn Hp E Hs;
    (destruct n as [| n]; [cbn in Hn; lia |]); cbn [readString_fill].
  - erewrite bind_run by (eapply fread_one; exact E).
    cbn [isNUL]. change (isNUL x00) with true. cbn [app length Z.of_nat].
    unfold ret. do 2 f_equal. f_equal. lia.
  - cbn [forallb] in Hs. apply andb_prop in Hs. destruct Hs as [Hx Hs].
    apply negb_true_iff in Hx.
    erewrite bind_run by (eapply fread_one; exact E).
    cbn beta iota. rewrite Hx.
    erewrite IH with (tail := tail);
      [| cbn [length] in Hn; lia | cbn; lia
       | cbn [fpos set_fpos file]; eapply left_next; [exact Hp | exact E]
       | exact Hs].
    rewrite set_fpos_set_fpos. rewrite <- !app_assoc.
    cbn [app length fpos set_fpos].
    do 2 f_equal. f_equal. lia.
Qed.

(** The first loop of [readString] when the [n] characters it may
    store all come before the terminator. *)
Lemma readString_fill_long :
  forall (n : nat) (s : list byte) (buf : list byte) (c : byte) (h : Hip),
    (n <= length s)%nat -> 0 <= fpos h ->
    firstn (length s) (skipn (Z.to_nat (fpos h)) (file h)) = s ->
    forallb (fun c => negb (isNUL c)) s = true ->
    readString_fill n buf c h
    = Done (Some (buf ++ firstn n s, last (firstn n s) c),
            set_fpos (fpos h + Z.of_nat n) h).
Proof.
  induction n as [| n IH]; intros s buf c h Hn Hp E Hs.
  - cbn [readString_fill firstn last Z.of_nat]. rewrite app_nil_r.
    unfold ret. do 2 f_equal.
    destruct h; unfold set_fpos; cbn. f_equal. lia.
  - destruct s as [| x s]; [cbn in Hn; lia |].
    cbn [forallb] in Hs. apply andb_prop in Hs. destruct Hs as [Hx Hs].
    apply negb_true_iff in Hx.
    destruct (skipn (Z.to_nat (fpos h)) (file h)) as [| y r] eqn:R;
      [discriminate E |].
    cbn [length firstn] in E. injection E as -> E.
    cbn [readString_fill].
    erewrite bind_run by (eapply fread_one; exact R).
    cbn beta iota. rewrite Hx.
    erewrite IH with (s := s);
      [| cbn [length] in Hn; lia | cbn; lia
       | cbn [fpos set_fpos file];
         rewrite (@left_next h x r Hp R); exact E
       | exact Hs].
    rewrite set_fpos_set_fpos. rewrite <- app_assoc.
    cbn [app firstn fpos set_fpos].
    assert (L : last (x :: firstn n s) c = last (firstn n s) x).
    { destruct (firstn n s) as [| z t] eqn:F; [reflexivity |].
      rewrite <- F. cbn [last]. rewrite F. clear.
      revert z. induction t as [| w t IHt]; intros z; [reflexivity |].
      cbn [last] in *. apply IHt. }
    rewrite L. do 2 f_equal. f_equal. lia.
Qed.


Lemma store_nat_Some {A} (v : A) :
  forall (l : list A) (n : nat) (b : list A),
    store_nat l n v = Some b ->
    (n < length l)%nat /\ b = firstn n l ++ v :: skipn (S n) l.
Proof.
  induction l as [| x l IH]; intros n b H; [discriminate H |].
  destruct n as [| n]; cbn [store_nat] in H.
  - injection H as <-. split; [cbn; lia | reflexivity].
  - destruct (store_nat l n v) as [t |] eqn:E; [| discriminate H].
    injection H as <-. destruct (IH n t E) as [L ->].
    split; [cbn; lia | reflexivity].
Qed.

Lemma skip_to_NUL_found :
  forall (s tail : list byte) (n : Z),
    forallb (fun c => negb (isNUL c)) s = true ->
    skip_to_NUL (s ++ x00 :: tail) n = Some (n + Z.of_nat (length s) + 1).
Proof.
  induction s as [| x s IH]; intros tail n Hs.
  - cbn [app skip_to_NUL]. change (isNUL x00) with true. cbn. f_equal. lia.
  - cbn [forallb] in Hs. apply andb_prop in Hs. destruct Hs as [Hx Hs].
    apply negb_true_iff in Hx. cbn [app skip_to_NUL]. rewrite Hx.
    rewrite IH by exact Hs. f_equal. cbn [length]. lia.
Qed.

Lemma skip_to_NUL_missing :
  forall (s : list byte) (n : Z),
    forallb (fun c => negb (isNUL c)) s = true -> skip_to_NUL s n = None.
Proof.
  induction s as [| x s IH]; intros n Hs; [reflexivity |].
  cbn [forallb] in Hs. apply andb_prop in Hs. destruct Hs as [Hx Hs].
  apply negb_true_iff in Hx. cbn [skip_to_NUL]. rewrite Hx. apply IH.
  exact Hs.
Qed.

Lemma c_str_to_NUL :
  forall s tail : list byte,
    forallb (fun c => negb (isNUL c)) s = true ->
    c_str (s ++ x00 :: tail) = s.
Proof.
  induction s as [| x s IH]; intros tail Hs; [reflexivity |].
  cbn [forallb] in Hs. apply andb_prop in Hs. destruct Hs as [Hx Hs].
  apply negb_true_iff in Hx. cbn [app c_str]. rewrite Hx, IH by exact Hs.
  reflexivity.
Qed.

Lemma forallb_firstn {B} (f : B -> bool) (l : list B) (n : nat) :
  forallb f l = true -> forallb f (firstn n l) = true.
Proof.
  revert n. induction l as [| x l IH]; intros [| n] H; try reflexivity.
  cbn [forallb firstn] in *. apply andb_prop in H. destruct H as [-> H].
  apply IH. exact H.
Qed.

Lemma forallb_skipn {B} (f : B -> bool) (l : list B) (n : nat) :
  forallb f l = true -> forallb f (skipn n l) = true.
Proof.
  revert l. induction n as [| n IH]; intros l H; [exact H |].
  destruct l as [| x l]; [reflexivity |]. cbn [skipn].
  cbn [forallb] in H. apply andb_prop in H. apply IH, H.
Qed.

Lemma last_In {B} (l : list B) (d : B) : l <> [] -> In (last l d) l.
Proof.
  induction l as [| x l IH]; intros H; [contradiction |].
  destruct l as [| y l]; [left; reflexivity |].
  right. apply IH. discriminate.
Qed.

(** X8.  [readString] with a buffer of [bufsize > 0] characters, at
    a position from which the file holds the characters [s], none of
    them NUL, and then a NUL: it returns the first [bufsize - 1]
    characters of [s], and leaves the position after the NUL and after
    one more byte when the characters read, NUL included, were an odd
    number. *)
Theorem readString_reads_to_NUL :
  forall (bufsize : Z) (h : Hip) (s tail : list byte),
    0 < bufsize -> 0 <= fpos h ->
    skipn (Z.to_nat (fpos h)) (file h) = s ++ x00 :: tail ->
    forallb (fun c => negb (isNUL c)) s = true ->
    readString bufsize h
    = Done (string_of_list_byte (firstn (Z.to_nat (bufsize - 1)) s),
            set_fpos (fpos h + Z.of_nat (length s) + 1
                      + (if Z.odd (Z.of_nat (length s) + 1) then 1 else 0))
              h).
Proof.
  intros bufsize h s tail Hb Hp E Hs. unfold readString.
  assert (B0 : (0 <? bufsize) = true) by (apply Z.ltb_lt; exact Hb).
  assert (B1 : (bufsize =? 0) = false) by (apply Z.eqb_neq; lia).
  destruct (Nat.lt_ge_cases (length s) (Z.to_nat bufsize)) as [L | L].
  - unfold orFalse at 1. rewrite bind_bind.
    erewrite bind_run
      by (eapply readString_fill_short; [exact L | exact Hp | exact E
                                        | exact Hs]).
    cbv beta iota. rewrite bind_ret. cbv beta iota zeta. cbn [app].
    rewrite B0, B1.
    change (isNUL x00) with true. cbn [negb orb]. rewrite andb_false_r.
    rewrite bind_ret. rewrite length_app. cbn [length].
    replace (Z.of_nat (length s + 1)) with (Z.of_nat (length s) + 1) by lia.
    assert (C : c_str match store (s ++ [x00]) (bufsize - 1) x00 with
                      | Some b => b
                      | None => s ++ [x00]
                      end = s).
    { destruct (store (s ++ [x00]) (bufsize - 1) x00) as [b |] eqn:St;
        [| apply c_str_to_NUL; exact Hs].
      unfold store in St. destruct (bufsize - 1 <? 0); [discriminate St |].
      apply store_nat_Some in St. destruct St as [R ->].
      rewrite length_app in R. cbn [length] in R.
      assert (I : Z.to_nat (bufsize - 1) = length s) by lia.
      rewrite I, firstn_app, Nat.sub_diag, firstn_all. cbn [firstn].
      rewrite app_nil_r. apply c_str_to_NUL. exact Hs. }
    rewrite C.
    replace (firstn (Z.to_nat (bufsize - 1)) s) with s
      by (symmetry; apply firstn_all2; lia).
    destruct (Z.odd (Z.of_nat (length s) + 1)).
    + unfold fseek_cur. rewrite bind_modify. unfold ret.
      rewrite set_fpos_set_fpos. reflexivity.
    + rewrite bind_ret. unfold ret. do 2 f_equal.
      destruct h; unfold set_fpos; cbn. f_equal. lia.
  - assert (F : firstn (length s) (skipn (Z.to_nat (fpos h)) (file h)) = s).
    { rewrite E, firstn_app, Nat.sub_diag, firstn_all. cbn [firstn].
      apply app_nil_r. }
    unfold orFalse at 1. rewrite bind_bind.
    erewrite bind_run
      by (eapply readString_fill_long; [exact L | exact Hp | exact F
                                       | exact Hs]).
    cbv beta iota. rewrite bind_ret. cbv beta iota zeta. cbn [app].
    rewrite B0, B1.
    cbn [app orb].
    assert (Len : Z.of_nat (length (firstn (Z.to_nat bufsize) s)) = bufsize).
    { rewrite length_firstn. lia. }
    rewrite Len, Z.eqb_refl.
    assert (N : isNUL (last (firstn (Z.to_nat bufsize) s) x00) = false).
    { assert (I : In (last (firstn (Z.to_nat bufsize) s) x00)
                    (firstn (Z.to_nat bufsize) s)).
      { apply last_In. intros Z. apply (f_equal (@length byte)) in Z.
        rewrite length_firstn in Z. cbn in Z. lia. }
      pose proof (forallb_firstn _ _ (Z.to_nat bufsize) Hs) as Q.
      rewrite forallb_forall in Q. apply Q in I.
      apply negb_true_iff in I. exact I. }
    rewrite N. cbn [negb andb].
    unfold orFalse. rewrite !bind_bind.
    assert (K : readString_skip (set_fpos (fpos h + Z.of_nat (Z.to_nat bufsize)) h)
                = Done (Some (Z.of_nat (length s) - bufsize + 1),
                        set_fpos (fpos h + Z.of_nat (length s) + 1) h)).
    { unfold readString_skip. cbn [fpos set_fpos file].
      replace (Z.to_nat (fpos h + Z.of_nat (Z.to_nat bufsize)))
        with (Z.to_nat bufsize + Z.to_nat (fpos h))%nat by lia.
      rewrite <- skipn_skipn, E, skipn_app.
      replace (Z.to_nat bufsize - length s)%nat with 0%nat by lia.
      cbn [skipn]. rewrite skip_to_NUL_found.
      2: { apply forallb_skipn. exact Hs. }
      rewrite length_skipn, set_fpos_set_fpos.
      unfold set_fpos. cbn. do 2 f_equal; [f_equal; lia | f_equal; lia]. }
    erewrite bind_run by exact K. cbv beta iota. rewrite !bind_ret.
    replace (bufsize + (Z.of_nat (length s) - bufsize + 1))
      with (Z.of_nat (length s) + 1) by lia.
    assert (C : c_str match store (firstn (Z.to_nat bufsize) s)
                              (bufsize - 1) x00 with
                      | Some b => b
                      | None => firstn (Z.to_nat bufsize) s
                      end = firstn (Z.to_nat (bufsize - 1)) s).
    { rewrite store_spec by (rewrite length_firstn; lia).
      rewrite firstn_firstn.
      replace (Nat.min (Z.to_nat (bufsize - 1)) (Z.to_nat bufsize))
        with (Z.to_nat (bufsize - 1)) by lia.
      apply c_str_to_NUL. apply forallb_firstn. exact Hs. }
    rewrite C.
    destruct (Z.odd (Z.of_nat (length s) + 1)).
    + unfold fseek_cur. rewrite bind_modify. unfold ret.
      rewrite set_fpos_set_fpos. reflexivity.
    + rewrite bind_ret. unfold ret. do 2 f_equal.
      destruct h; unfold set_fpos; cbn. f_equal. lia.
Qed.

(** At a concrete input: the bytes [a b NUL 01]. *)
Lemma readString_reads_to_NUL_witness :
  readString 32 (open [x61; x62; x00; x01])
  = Done ("ab"%string, set_fpos 4 (open [x61; x62; x00; x01])).
Proof.
  exact (@readString_reads_to_NUL 32 (open [x61; x62; x00; x01])
           [x61; x62] [x01] eq_refl (Z.le_refl 0) eq_refl eq_refl).
Defined.

(** The first loop of [readString] when the file ends before the
    [n] characters it may store and before any terminator. *)
Lemma readString_fill_end :
  forall (s : list byte) (n : nat) (buf : list byte) (c : byte) (h : Hip),
    (length s < n)%nat -> 0 <= fpos h ->
    skipn (Z.to_nat (fpos h)) (file h) = s ->
    forallb (fun c => negb (isNUL c)) s = true ->
    exists h', readString_fill n buf c h = Done (None, h').
Proof.
  induction s as [| x s IH]; intros n buf c h Hn Hp E Hs;
    (destruct n as [| n]; [cbn in Hn; lia |]); cbn [readString_fill].
  - erewrite bind_run by (eapply fread_one_end; exact E).
    eexists. reflexivity.
  - cbn [forallb] in Hs. apply andb_prop in Hs. destruct Hs as [Hx Hs].
    apply negb_true_iff in Hx.
    erewrite bind_run by (eapply fread_one; exact E).
    cbn beta iota. rewrite Hx.
    apply IH; [cbn [length] in Hn; lia | cbn; lia
              | cbn [fpos set_fpos file]; eapply left_next;
                [exact Hp | exact E]
              | exact Hs].
Qed.

(** X9.  [readString] returns [false] when no NUL is left in the
    file, whatever the size of the buffer. *)
Theorem readString_without_NUL_fails :
  forall (bufsize : Z) (h : Hip),
    0 < bufsize -> 0 <= fpos h ->
    forallb (fun c => negb (isNUL c)) (skipn (Z.to_nat (fpos h)) (file h))
    = true ->
    readString bufsize h = Stop ReturnedFalse.
Proof.
  intros bufsize h Hb Hp Hs. unfold readString.
  set (s := skipn (Z.to_nat (fpos h)) (file h)) in *.
  assert (B0 : (0 <? bufsize) = true) by (apply Z.ltb_lt; exact Hb).
  assert (B1 : (bufsize =? 0) = false) by (apply Z.eqb_neq; lia).
  destruct (Nat.lt_ge_cases (length s) (Z.to_nat bufsize)) as [L | L].
  - destruct (@readString_fill_end s (Z.to_nat bufsize) [] x00 h L Hp
                eq_refl Hs) as [h' R].
    unfold orFalse at 1. rewrite bind_bind.
    erewrite bind_run by exact R. reflexivity.
  - unfold orFalse at 1. rewrite bind_bind.
    erewrite bind_run
      by (eapply readString_fill_long;
          [exact L | exact Hp | apply firstn_all | exact Hs]).
    cbv beta iota. rewrite bind_ret. cbv beta iota zeta. cbn [app].
    rewrite B0, B1. cbn [orb].
    assert (Len : Z.of_nat (length (firstn (Z.to_nat bufsize) s)) = bufsize).
    { rewrite length_firstn. lia. }
    rewrite Len, Z.eqb_refl.
    assert (N : isNUL (last (firstn (Z.to_nat bufsize) s) x00) = false).
    { assert (I : In (last (firstn (Z.to_nat bufsize) s) x00)
                    (firstn (Z.to_nat bufsize) s)).
      { apply last_In. intros Z. apply (f_equal (@length byte)) in Z.
        rewrite length_firstn in Z. cbn in Z. lia. }
      pose proof (forallb_firstn _ _ (Z.to_nat bufsize) Hs) as Q.
      rewrite forallb_forall in Q. apply Q in I.
      apply negb_true_iff in I. exact I. }
    rewrite N. cbn [negb andb].
    unfold orFalse. rewrite !bind_bind.
    unfold readString_skip at 1. unfold bind at 1.
    cbn [fpos set_fpos file].
    rewrite skip_to_NUL_missing; [reflexivity |].
    replace (Z.to_nat (fpos h + Z.of_nat (Z.to_nat bufsize)))
      with (Z.to_nat bufsize + Z.to_nat (fpos h))%nat by lia.
    rewrite <- skipn_skipn. apply forallb_skipn. exact Hs.
Qed.

(** At a concrete input: two characters and the end of the file. *)
Lemma readString_without_NUL_fails_witness :
  readString 32 (open [x61; x62]) = Stop ReturnedFalse.
Proof.
  exact (@readString_without_NUL_fails 32 (open [x61; x62]) eq_refl
           (Z.le_refl 0) eq_refl).
Defined.


(** * Blocks *)

Lemma left_after (h : Hip) (n : nat) (l r : list byte) :
  0 <= fpos h ->
  skipn (Z.to_nat (fpos h)) (file h) = l ++ r ->
  length l = n ->
  skipn (Z.to_nat (fpos h + Z.of_nat n)) (file h) = r.
Proof.
  intros Hp E <-.
  replace (Z.to_nat (fpos h + Z.of_nat (length l)))
    with (length l + Z.to_nat (fpos h))%nat by lia.
  rewrite <- skipn_skipn, E, skipn_app, Nat.sub_diag, skipn_all.
  reflexivity.
Qed.

Lemma readLong_four (h : Hip) (b0 b1 b2 b3 : byte) (r : list byte) :
  skipn (Z.to_nat (fpos h)) (file h) = b0 :: b1 :: b2 :: b3 :: r ->
  readLong h = Done (Some (be_word b0 b1 b2 b3), set_fpos (fpos h + 4) h).
Proof. intros E. rewrite (@readLong_run h _ E). reflexivity. Qed.

Lemma enterBlock_run (NDEBUG : bool) (h : Hip)
  (i0 i1 i2 i3 l0 l1 l2 l3 : byte) (rest : list byte) :
  stackDepth h < HIP_MAX_STACK_DEPTH ->
  match stack h with
  | [] => True
  | blk :: _ => wrap32 (fpos h) < endpos blk
  end ->
  0 <= fpos h ->
  skipn (Z.to_nat (fpos h)) (file h)
  = i0 :: i1 :: i2 :: i3 :: l0 :: l1 :: l2 :: l3 :: rest ->
  enterBlock NDEBUG h
  = Done (be_word i0 i1 i2 i3,
          set_stack
            ({| blk_id := be_word i0 i1 i2 i3;
                endpos := wrap32 (fpos h + 8 + be_word l0 l1 l2 l3) |}
             :: stack h) (set_fpos (fpos h + 8) h)).
Proof.
  intros Hd He Hp E.
  unfold enterBlock. rewrite bind_get.
  erewrite bind_run by (apply assert_run; apply Z.ltb_lt; exact Hd).
  rewrite Z.geb_leb.
  destruct (Z.leb_spec HIP_MAX_STACK_DEPTH (stackDepth h)) as [F | _];
    [lia |].
  assert (N : match stack h with
              | [] => false
              | b :: _ => wrap32 (fpos h) >=? endpos b
              end = false).
  { destruct (stack h) as [| b st]; [reflexivity |].
    rewrite Z.geb_leb. apply Z.leb_gt. exact He. }
  rewrite N.
  erewrite bind_run by (eapply readLong_four; exact E).
  cbv beta iota.
  erewrite bind_run.
  2: { eapply readLong_four. cbn [fpos set_fpos file].
       apply (@left_after h 4 [i0; i1; i2; i3]); [exact Hp | exact E
                                                  | reflexivity]. }
  cbv beta iota. unfold ftell. unfold bind at 1.
  rewrite bind_modify. unfold ret.
  cbn [fpos set_fpos stack file]. unfold be_word.
  replace (fpos h + 4 + 4) with (fpos h + 8) by lia. reflexivity.
Qed.

Lemma exitBlock_run (NDEBUG : bool) (h1 : Hip) (blk : Block)
  (st : list Block) :
  stack h1 = blk :: st ->
  exitBlock NDEBUG h1 = Done (tt, set_fpos (endpos blk) (set_stack st h1)).
Proof.
  intros Hs. unfold exitBlock. rewrite bind_get.
  erewrite bind_run
    by (apply assert_run; unfold stackDepth; rewrite Hs; reflexivity).
  rewrite Hs. rewrite bind_modify. reflexivity.
Qed.

(** X10.  A chunk is entered and left as a whole.  Below the stack
    cap and before the end of the enclosing block, [enterBlock] reads
    the tag and the length, returns the tag and pushes a block that
    ends [length] bytes after the header; and whatever was read
    meanwhile, [exitBlock] on that stack pops the block and puts the
    position at its end. *)
Theorem chunk_is_entered_and_left :
  forall (NDEBUG : bool) (h : Hip) (i0 i1 i2 i3 l0 l1 l2 l3 : byte)
         (rest : list byte),
    stackDepth h < HIP_MAX_STACK_DEPTH ->
    match stack h with
    | [] => True
    | blk :: _ => wrap32 (fpos h) < endpos blk
    end ->
    0 <= fpos h ->
    skipn (Z.to_nat (fpos h)) (file h)
    = i0 :: i1 :: i2 :: i3 :: l0 :: l1 :: l2 :: l3 :: rest ->
    let id := be_word i0 i1 i2 i3 in
    let blk := {| blk_id := id;
                  endpos := wrap32 (fpos h + 8 + be_word l0 l1 l2 l3) |} in
    enterBlock NDEBUG h
    = Done (id, set_stack (blk :: stack h) (set_fpos (fpos h + 8) h))
    /\ forall h1 : Hip,
         stack h1 = blk :: stack h ->
         exitBlock NDEBUG h1
         = Done (tt, set_fpos (endpos blk) (set_stack (stack h) h1)).
Proof.
  intros NDEBUG h i0 i1 i2 i3 l0 l1 l2 l3 rest Hd He Hp E id blk. split.
  - eapply enterBlock_run; eassumption.
  - intros h1 Hs. apply exitBlock_run. exact Hs.
Qed.

(** At a concrete input: a chunk [ABCD] of two bytes at the start of
    a file. *)
Lemma chunk_is_entered_and_left_witness :
  enterBlock false
    (open [x41; x42; x43; x44; x00; x00; x00; x02; x01; x02; x03])
  = Done (BLKID "A" "B" "C" "D",
          set_stack [{| blk_id := BLKID "A" "B" "C" "D"; endpos := 10 |}]
            (set_fpos 8
               (open [x41; x42; x43; x44; x00; x00; x00; x02;
                      x01; x02; x03]))).
Proof.
  exact (proj1 (@chunk_is_entered_and_left false
                  (open [x41; x42; x43; x44; x00; x00; x00; x02;
                         x01; x02; x03])
                  x41 x42 x43 x44 x00 x00 x00 x02 [x01; x02; x03]
                  eq_refl I (Z.le_refl 0) eq_refl)).
Defined.


(** * What the reader keeps *)

Lemma string_of_list_byte_length (l : list byte) :
  String.length (string_of_list_byte l) = length l.
Proof.
  unfold string_of_list_byte.
  induction l as [| x l IH]; [reflexivity |].
  cbn [map string_of_list_ascii String.length length]. rewrite IH.
  reflexivity.
Qed.

Lemma c_str_length (l : list byte) : (length (c_str l) <= length l)%nat.
Proof.
  induction l as [| x l IH]; [cbn; lia |].
  cbn [c_str]. destruct (isNUL x); cbn [length]; lia.
Qed.

Lemma c_str_NUL_at (t r : list byte) (x : byte) :
  isNUL x = true -> (length (c_str (t ++ x :: r)) <= length t)%nat.
Proof.
  intros Hx. induction t as [| y t IH]; cbn [app c_str].
  - rewrite Hx. cbn. lia.
  - destruct (isNUL y); cbn [length]; lia.
Qed.

(** The first loop of [readString] only moves the position, and it
    stops with a buffer that is full or ends with a NUL. *)
Lemma readString_fill_out :
  forall (n : nat) (buf : list byte) (c : byte) (h : Hip)
         (b' : list byte) (c' : byte) (h' : Hip),
    readString_fill n buf c h = Done (Some (b', c'), h') ->
    (exists p, h' = set_fpos p h)
    /\ (length b' <= length buf + n)%nat
    /\ (length b' = (length buf + n)%nat
        \/ exists t x, b' = t ++ [x] /\ isNUL x = true).
Proof.
  induction n as [| n IH]; intros buf c h b' c' h' H.
  - cbn [readString_fill] in H. injection H as <- <- <-.
    split; [exists (fpos h); destruct h; reflexivity |].
    split; [lia | left; lia].
  - cbn [readString_fill] in H. unfold fread at 1 in H.
    unfold bind at 1 in H.
    destruct (firstn (Z.to_nat 1) (skipn (Z.to_nat (fpos h)) (file h)))
      as [| x [| y l]]; try discriminate H.
    destruct (isNUL x) eqn:Hx.
    + injection H as <- <- <-. split; [eexists; reflexivity |].
      rewrite length_app. cbn [length]. split; [lia |].
      right. exists buf, x. split; [reflexivity | exact Hx].
    + apply IH in H. destruct H as ([p ->] & Le & R).
      split; [exists p; reflexivity |].
      rewrite length_app in Le, R. cbn [length] in Le, R.
      split; [lia |]. destruct R as [R | T]; [left; lia | right; exact T].
Qed.

Lemma readString_skip_state (h h' : Hip) (r : option Z) :
  readString_skip h = Done (r, h') -> exists p, h' = set_fpos p h.
Proof.
  unfold readString_skip. intros H.
  destruct (skip_to_NUL (skipn (Z.to_nat (fpos h)) (file h)) 0);
    injection H as <- <-; eexists; reflexivity.
Qed.

(** [readString] only moves the position, and what it returns fits
    the buffer with its terminator. *)
Lemma readString_short (bufsize : Z) (h h' : Hip) (s : string) :
  0 < bufsize ->
  readString bufsize h = Done (s, h') ->
  Z.of_nat (String.length s) < bufsize /\ exists p, h' = set_fpos p h.
Proof.
  intros Hb H. unfold readString in H.
  unfold orFalse at 1 in H. rewrite bind_bind in H. run_bind H.
  destruct a as [[buf c] |]; [| discriminate H].
  rewrite bind_ret in H. cbv beta iota zeta in H.
  match goal with
  | E : readString_fill _ _ _ _ = Done _ |- _ =>
      apply readString_fill_out in E; destruct E as ([p ->] & Le & R)
  end.
  cbn [length Nat.add] in Le, R.
  assert (B0 : (0 <? bufsize) = true) by (apply Z.ltb_lt; exact Hb).
  rewrite B0 in H.
  assert (L : (length (c_str match store buf (bufsize - 1) x00 with
                             | Some b => b
                             | None => buf
                             end) < Z.to_nat bufsize)%nat).
  { destruct (store buf (bufsize - 1) x00) as [b |] eqn:St.
    - unfold store in St. destruct (bufsize - 1 <? 0); [discriminate St |].
      apply store_nat_Some in St. destruct St as [Lb ->].
      pose proof (@c_str_NUL_at (firstn (Z.to_nat (bufsize - 1)) buf)
                    (skipn (S (Z.to_nat (bufsize - 1))) buf) x00 eq_refl)
        as Q.
      rewrite length_firstn in Q. lia.
    - destruct R as [R | (t & x & -> & Hx)].
      + exfalso. unfold store in St.
        destruct (Z.ltb_spec (bufsize - 1) 0) as [F | F]; [lia |].
        rewrite store_nat_spec in St by lia. discriminate St.
      + pose proof (@c_str_NUL_at t [] x Hx) as Q.
        rewrite length_app in Le. cbn [length] in Le. lia. }
  assert (F : exists p', h' = set_fpos p' h /\
                         s = string_of_list_byte
                               (c_str match store buf (bufsize - 1) x00 with
                                      | Some b => b
                                      | None => buf
                                      end)).
  { run_bind H.
    assert (P1 : exists p1, s0 = set_fpos p1 h).
    { match goal with
      | E : (if ?b then _ else _) _ = Done _ |- _ =>
          destruct b; [| injection E as _ <-; eexists; reflexivity];
          unfold orFalse in E; rewrite bind_bind in E; run_bind E
      end.
      match goal with
      | E : readString_skip _ = Done _ |- _ =>
          apply readString_skip_state in E; destruct E as [q ->]
      end.
      match goal with
      | E : bind (match ?a with _ => _ end) _ _ = Done _ |- _ =>
          destruct a; [| discriminate E];
          rewrite !bind_ret in E; injection E as _ <-
      end.
      eexists. reflexivity. }
    destruct P1 as [p1 ->].
    destruct (Z.odd a).
    - unfold fseek_cur in H. rewrite bind_modify in H.
      injection H as <- <-. eexists. split; reflexivity.
    - rewrite bind_ret in H. injection H as <- <-.
      eexists. split; reflexivity. }
  destruct F as (p' & -> & ->). split; [| exists p'; reflexivity].
  rewrite string_of_list_byte_length. lia.
Qed.


(** Unfolds [arrays_in_bounds] on states given by setters. *)
Ltac inv_cbn :=
  unfold arrays_in_bounds, stackDepth in *;
  cbn [stack plat pcrt adbg ahdr lhdr ldbg strings stringCount pcrt_string
       length
       set_pver set_pflg set_pcnt set_pcrt set_pmod set_plat set_ainf
       set_ahdr set_adbg set_linf set_lhdr set_ldbg set_dhdr set_dpak
       set_fpos set_stack set_layerAssetIDs set_heap] in *.

Create HintDb keeps.

(** Runs the first step of [H : (m ;; k) s = Done r], where [m]
    keeps [arrays_in_bounds], and moves [Hi] to the new state. *)
Ltac rcall H Hi :=
  match type of H with
  | bind ?m _ ?s = Done _ =>
      let E := fresh "E" in
      let a := fresh "a" in
      let s1 := fresh "s" in
      unfold bind at 1 in H;
      destruct (m s) as [[a s1] |] eqn:E; [| discriminate H];
      let N := fresh "Hi" in
      assert (N : arrays_in_bounds s1) by (eauto 2 with keeps);
      clear Hi; rename N into Hi
  end.

(** The same for a [modify] that leaves the arrays alone. *)
Ltac rmod H Hi :=
  match type of H with
  | bind (modify ?f) _ ?s = Done _ =>
      let N := fresh "Hi" in
      assert (N : arrays_in_bounds (f s))
        by (revert Hi; clear; inv_cbn; exact (fun x => x));
      rewrite bind_modify in H; clear Hi; rename N into Hi
  end.

Lemma store_nat_length {A} (v : A) :
  forall (l : list A) (n : nat) (b : list A),
    store_nat l n v = Some b -> length b = length l.
Proof.
  intros l n b H. apply store_nat_Some in H. destruct H as [L ->].
  rewrite length_app. cbn [length]. rewrite length_firstn, length_skipn.
  lia.
Qed.

Lemma store_length {A} (l b : list A) (i : Z) (v : A) :
  store l i v = Some b -> length b = length l.
Proof.
  unfold store. destruct (i <? 0); [discriminate |].
  apply store_nat_length.
Qed.

Lemma store_nat_Forall {A} (P : A -> Prop) (v : A) :
  forall (l : list A) (n : nat) (b : list A),
    store_nat l n v = Some b -> Forall P l -> P v -> Forall P b.
Proof.
  induction l as [| x l IH]; intros n b H Hl Hv; [discriminate H |].
  inversion Hl as [| y t Hx Ht]; subst.
  destruct n as [| n]; cbn [store_nat] in H.
  - injection H as <-. constructor; assumption.
  - destruct (store_nat l n v) as [t |] eqn:E; [| discriminate H].
    injection H as <-. constructor; [exact Hx |].
    eapply IH; eassumption.
Qed.

Lemma store_Forall {A} (P : A -> Prop) (l b : list A) (i : Z) (v : A) :
  store l i v = Some b -> Forall P l -> P v -> Forall P b.
Proof.
  unfold store. destruct (i <? 0); [discriminate |].
  apply store_nat_Forall.
Qed.

Lemma at_Forall {A} (P : A -> Prop) (l : list A) (i : Z) (x : A) :
  at_ l i = Some x -> Forall P l -> P x.
Proof.
  unfold at_. destruct (i <? 0); [discriminate |].
  intros H Hl. rewrite Forall_forall in Hl. apply Hl.
  eapply nth_error_In. exact H.
Qed.

Lemma readLong_keeps h a h' :
  arrays_in_bounds h -> readLong h = Done (a, h') -> arrays_in_bounds h'.
Proof.
  intros Hi H. apply readLong_state in H. destruct H as [p ->]. exact Hi.
Qed.

Lemma orFalse_readLong_keeps h a h' :
  arrays_in_bounds h -> orFalse readLong h = Done (a, h') ->
  arrays_in_bounds h'.
Proof.
  intros Hi H. unfold orFalse in H. run_bind H.
  match goal with
  | E : readLong _ = Done _ |- _ =>
      apply readLong_state in E; destruct E as [p ->]
  end.
  destruct a0; [| discriminate H]. injection H as _ <-. exact Hi.
Qed.

Lemma readString_keeps h a h' :
  arrays_in_bounds h -> readString HIP_STRING_SIZE h = Done (a, h') ->
  arrays_in_bounds h'.
Proof.
  intros Hi H. apply readString_short in H; [| reflexivity].
  destruct H as [_ [p ->]]. exact Hi.
Qed.

#[export] Hint Resolve readLong_keeps orFalse_readLong_keeps
  readString_keeps : keeps.


Lemma enterBlock_keeps NDEBUG h a h' :
  arrays_in_bounds h -> enterBlock NDEBUG h = Done (a, h') ->
  arrays_in_bounds h'.
Proof.
  intros Hi H. unfold enterBlock in H. rewrite bind_get in H.
  unfold assert at 1 in H.
  destruct (NDEBUG || (stackDepth h <? HIP_MAX_STACK_DEPTH));
    [rewrite bind_ret in H | discriminate H].
  rewrite Z.geb_leb in H.
  destruct (Z.leb_spec HIP_MAX_STACK_DEPTH (stackDepth h)) as [F | F];
    [injection H as _ <-; exact Hi |].
  match type of H with
  | (if ?b then _ else _) _ = _ =>
      destruct b; [injection H as _ <-; exact Hi |]
  end.
  rcall H Hi. destruct a0 as [i |]; [| injection H as _ <-; exact Hi].
  assert (S1 : stack s = stack h).
  { match goal with
    | E : readLong _ = Done _ |- _ =>
        apply readLong_state in E; destruct E as [p ->]
    end. reflexivity. }
  run_bind H.
  match goal with
  | E : readLong _ = Done _ |- _ =>
      apply readLong_state in E; destruct E as [p ->]
  end.
  destruct a0 as [len |]; [| injection H as _ <-; exact Hi].
  unfold ftell in H. unfold bind at 1 in H. rewrite bind_modify in H.
  injection H as _ <-. revert Hi. inv_cbn. rewrite S1.
  unfold HIP_MAX_STACK_DEPTH in *. unfold stackDepth in F.
  intros (_ & R). split; [lia | exact R].
Qed.

Lemma exitBlock_keeps NDEBUG h a h' :
  arrays_in_bounds h -> exitBlock NDEBUG h = Done (a, h') ->
  arrays_in_bounds h'.
Proof.
  intros Hi H. unfold exitBlock in H. rewrite bind_get in H.
  unfold assert at 1 in H.
  destruct (NDEBUG || (0 <? stackDepth h));
    [rewrite bind_ret in H | discriminate H].
  destruct (stack h) as [| blk rest] eqn:S1;
    [injection H as _ <-; exact Hi |].
  rewrite bind_modify in H. unfold fseek_set, modify in H.
  injection H as _ <-. revert Hi. inv_cbn. rewrite S1. cbn [length].
  intros (D & R). split; [lia | exact R].
Qed.

Lemma modify_ahdr_keeps i f h a h' :
  arrays_in_bounds h -> modify_ahdr i f h = Done (a, h') ->
  arrays_in_bounds h'.
Proof.
  intros Hi H. unfold modify_ahdr in H. rewrite bind_get in H.
  destruct (at_ (ahdr h) i) as [x |]; [| discriminate H].
  cbn [defined] in H. rewrite bind_ret in H.
  destruct (store (ahdr h) i (f x)) as [l |] eqn:St; [| discriminate H].
  cbn [defined] in H. rewrite bind_ret in H. injection H as _ <-.
  apply store_length in St. revert Hi. inv_cbn. rewrite St.
  exact (fun x => x).
Qed.

Lemma modify_lhdr_keeps i f h a h' :
  arrays_in_bounds h -> modify_lhdr i f h = Done (a, h') ->
  arrays_in_bounds h'.
Proof.
  intros Hi H. unfold modify_lhdr in H. rewrite bind_get in H.
  destruct (at_ (lhdr h) i) as [x |]; [| discriminate H].
  cbn [defined] in H. rewrite bind_ret in H.
  destruct (store (lhdr h) i (f x)) as [l |] eqn:St; [| discriminate H].
  cbn [defined] in H. rewrite bind_ret in H. injection H as _ <-.
  apply store_length in St. revert Hi. inv_cbn. rewrite St.
  exact (fun x => x).
Qed.

(** [modify_adbg] with an update that keeps the two strings short. *)
Lemma modify_adbg_keeps i f h a h' :
  (forall d, short (name d) /\ short (filename d) ->
             short (name (f d)) /\ short (filename (f d))) ->
  arrays_in_bounds h -> modify_adbg i f h = Done (a, h') ->
  arrays_in_bounds h'.
Proof.
  intros Hf Hi H. unfold modify_adbg in H. rewrite bind_get in H.
  destruct (at_ (adbg h) i) as [x |] eqn:At; [| discriminate H].
  cbn [defined] in H. rewrite bind_ret in H.
  destruct (store (adbg h) i (f x)) as [l |] eqn:St; [| discriminate H].
  cbn [defined] in H. rewrite bind_ret in H. injection H as _ <-.
  pose proof (store_length _ _ _ St) as Len.
  revert Hi. inv_cbn. rewrite Len.
  intros (H1 & H2 & H3 & H4 & H5 & H6 & H7 & H8).
  repeat split; try assumption; try apply H2.
  eapply store_Forall; [exact St | exact H6 |].
  apply Hf.
  exact (@at_Forall _ (fun d => short (name d) /\ short (filename d))
           (adbg h) i x At H6).
Qed.

#[export] Hint Resolve enterBlock_keeps exitBlock_keeps modify_ahdr_keeps
  modify_lhdr_keeps : keeps.

Lemma readADBG_keeps i h a h' :
  arrays_in_bounds h -> readADBG i h = Done (a, h') -> arrays_in_bounds h'.
Proof.
  intros Hi H. unfold readADBG in H.
  rcall H Hi. run_bind H.
  match goal with
  | E : modify_adbg _ _ _ = Done _ |- _ =>
      apply modify_adbg_keeps in E;
      [clear Hi; rename E into Hi | cbn; tauto | exact Hi]
  end.
  run_bind H.
  match goal with
  | E : readString _ _ = Done _ |- _ =>
      apply readString_short in E; [| reflexivity];
      destruct E as [Sh [p ->]]
  end.
  run_bind H.
  match goal with
  | E : modify_adbg _ _ _ = Done _ |- _ =>
      apply modify_adbg_keeps in E;
      [clear Hi; rename E into Hi
      | cbn; intros d [_ F]; split; [exact Sh | exact F] | exact Hi]
  end.
  clear Sh. run_bind H.
  match goal with
  | E : readString _ _ = Done _ |- _ =>
      apply readString_short in E; [| reflexivity];
      destruct E as [Sh [p' ->]]
  end.
  run_bind H.
  match goal with
  | E : modify_adbg _ _ _ = Done _ |- _ =>
      apply modify_adbg_keeps in E;
      [clear Hi; rename E into Hi
      | cbn; intros d [F _]; split; [exact F | exact Sh] | exact Hi]
  end.
  rcall H Hi.
  eapply modify_adbg_keeps; [| exact Hi | exact H]. cbn. tauto.
Qed.

#[export] Hint Resolve readADBG_keeps : keeps.


(** Runs a computation of the reader step by step, keeping
    [arrays_in_bounds] along; it stops at a step that needs an
    argument of its own. *)
Ltac rauto H Hi :=
  repeat first
    [ progress (rewrite ?bind_bind, ?bind_ret, ?bind_get in H)
    | match type of H with
      | bind (stop _) _ _ = Done _ => rewrite bind_stop in H; discriminate H
      | stop _ _ = Done _ => discriminate H
      | bind (if ?c then _ else _) _ _ = Done _ => destruct c
      | (if ?c then _ else _) _ = Done _ => destruct c
      | bind (defined ?o) _ _ = Done _ =>
          destruct o; [cbn [defined] in H | discriminate H]
      | bind (assert ?n ?b) _ _ = Done _ =>
          unfold assert at 1 in H; destruct (n || b)
      | assert ?n ?b _ = Done _ =>
          unfold assert in H; destruct (n || b)
      | bind (modify _) _ _ = Done _ => rmod H Hi
      | bind (fseek_cur _) _ _ = Done _ => unfold fseek_cur at 1 in H
      | bind ftell _ _ = Done _ =>
          change ftell with (fun h : Hip => Done (fpos h, h)) in H;
          unfold bind at 1 in H; cbv beta iota zeta in H
      | bind _ _ _ = Done _ => rcall H Hi
      end ];
  try (injection H as _ <-; exact Hi);
  try solve [eauto 2 with keeps].

Lemma readPVER_keeps h a h' :
  arrays_in_bounds h -> readPVER h = Done (a, h') -> arrays_in_bounds h'.
Proof. intros Hi H. unfold readPVER in H. rauto H Hi. Qed.

Lemma readPFLG_keeps h a h' :
  arrays_in_bounds h -> readPFLG h = Done (a, h') -> arrays_in_bounds h'.
Proof. intros Hi H. unfold readPFLG in H. rauto H Hi. Qed.

Lemma readPCNT_keeps h a h' :
  arrays_in_bounds h -> readPCNT h = Done (a, h') -> arrays_in_bounds h'.
Proof. intros Hi H. unfold readPCNT in H. rauto H Hi. Qed.

Lemma readPMOD_keeps h a h' :
  arrays_in_bounds h -> readPMOD h = Done (a, h') -> arrays_in_bounds h'.
Proof. intros Hi H. unfold readPMOD in H. rauto H Hi. Qed.

Lemma readAINF_keeps h a h' :
  arrays_in_bounds h -> readAINF h = Done (a, h') -> arrays_in_bounds h'.
Proof. intros Hi H. unfold readAINF in H. rauto H Hi. Qed.

Lemma readLINF_keeps h a h' :
  arrays_in_bounds h -> readLINF h = Done (a, h') -> arrays_in_bounds h'.
Proof. intros Hi H. unfold readLINF in H. rauto H Hi. Qed.

Lemma readDHDR_keeps h a h' :
  arrays_in_bounds h -> readDHDR h = Done (a, h') -> arrays_in_bounds h'.
Proof. intros Hi H. unfold readDHDR in H. rauto H Hi. Qed.

(** The creation string [readPCRT] stores fits its array. *)
Lemma readPCRT_keeps h a h' :
  arrays_in_bounds h -> readPCRT h = Done (a, h') -> arrays_in_bounds h'.
Proof.
  intros Hi H. unfold readPCRT in H. rcall H Hi. rmod H Hi. run_bind H.
  match goal with
  | E : readString _ _ = Done _ |- _ =>
      apply readString_short in E; [| reflexivity];
      destruct E as [Sh [p ->]]
  end.
  unfold modify in H. injection H as _ <-. revert Hi. inv_cbn.
  intros (H1 & H2 & H3 & H4 & H5 & H6 & H7 & H8).
  repeat split; try assumption; try apply H2.
Qed.

Lemma readLDBG_keeps i h a h' :
  arrays_in_bounds h -> readLDBG i h = Done (a, h') -> arrays_in_bounds h'.
Proof.
  intros Hi H. unfold readLDBG in H. rcall H Hi. rewrite bind_get in H.
  destruct (store (ldbg s) i {| ldbg_ldbg := a0 |}) as [l |] eqn:St;
    [| discriminate H].
  cbn [defined] in H. rewrite bind_ret in H. unfold modify in H.
  injection H as _ <-. apply store_length in St. revert Hi. inv_cbn.
  rewrite St. exact (fun x => x).
Qed.

Lemma readLHDR_ids_keeps :
  forall n ptr j h a h',
    arrays_in_bounds h -> readLHDR_ids n ptr j h = Done (a, h') ->
    arrays_in_bounds h'.
Proof.
  induction n as [| n IH]; intros ptr j h a h' Hi H; cbn [readLHDR_ids] in H.
  - injection H as _ <-. exact Hi.
  - rauto H Hi.
Qed.

Lemma readDPAK_views_keeps :
  forall n i b dataStart h a h',
    arrays_in_bounds h -> readDPAK_views n i b dataStart h = Done (a, h') ->
    arrays_in_bounds h'.
Proof.
  induction n as [| n IH]; intros i b dataStart h a h' Hi H;
    cbn [readDPAK_views] in H.
  - injection H as _ <-. exact Hi.
  - rauto H Hi.
Qed.

#[export] Hint Resolve readPVER_keeps readPFLG_keeps readPCNT_keeps
  readPMOD_keeps readAINF_keeps readLINF_keeps readDHDR_keeps readPCRT_keeps
  readLDBG_keeps readLHDR_ids_keeps readDPAK_views_keeps : keeps.

Lemma fread_keeps n h a h' :
  arrays_in_bounds h -> fread n h = Done (a, h') -> arrays_in_bounds h'.
Proof. intros Hi H. unfold fread in H. injection H as _ <-. exact Hi. Qed.

#[export] Hint Resolve fread_keeps : keeps.

Lemma readDPAK_keeps h a h' :
  arrays_in_bounds h -> readDPAK h = Done (a, h') -> arrays_in_bounds h'.
Proof. intros Hi H. unfold readDPAK in H. rauto H Hi. Qed.

#[export] Hint Resolve readDPAK_keeps : keeps.


(** The loop of [readPLAT] stores a string only below the cap of
    [HIP_MAX_PLATFORM_STRINGS], and what it stores fits. *)
Lemma readPLAT_strings_keeps blk :
  forall n h a h',
    arrays_in_bounds h -> readPLAT_strings n blk h = Done (a, h') ->
    arrays_in_bounds h'.
Proof.
  induction n as [| n IH]; intros h a h' Hi H; cbn [readPLAT_strings] in H;
    [discriminate H |].
  rewrite bind_get in H.
  destruct (wrap32 (fpos h) <? endpos blk);
    [| injection H as _ <-; exact Hi].
  rewrite Z.geb_leb in H.
  destruct (Z.leb_spec HIP_MAX_PLATFORM_STRINGS (stringCount (plat h)))
    as [F | F]; [injection H as _ <-; exact Hi |].
  rewrite bind_modify in H. run_bind H.
  match goal with
  | E : readString _ _ = Done _ |- _ =>
      apply readString_short in E; [| reflexivity];
      destruct E as [Sh [p ->]]
  end.
  rewrite bind_get in H. cbn [plat strings set_plat set_fpos] in H.
  destruct (store (strings (plat h)) (stringCount (plat h)) a0)
    as [l |] eqn:St; [| discriminate H].
  cbn [defined] in H. rewrite bind_ret, bind_modify in H.
  eapply IH; [| exact H].
  pose proof (store_length _ _ _ St) as Len.
  revert Hi. inv_cbn. rewrite Len.
  intros (H1 & H2 & H3 & H4 & H5 & H6 & H7 & H8).
  repeat split; try assumption; try lia.
  eapply store_Forall; [exact St | exact H4 | exact Sh].
Qed.

Lemma readPLAT_keeps h a h' :
  arrays_in_bounds h -> readPLAT h = Done (a, h') -> arrays_in_bounds h'.
Proof.
  intros Hi H. unfold readPLAT in H. rmod H Hi. rcall H Hi. rmod H Hi.
  rewrite bind_get in H.
  match type of H with
  | bind (defined ?o) _ _ = Done _ =>
      destruct o; [cbn [defined] in H; rewrite bind_ret in H
                  | discriminate H]
  end.
  eapply readPLAT_strings_keeps; [exact Hi | exact H].
Qed.

#[export] Hint Resolve readPLAT_keeps : keeps.

Lemma readAHDR_blocks_keeps NDEBUG :
  forall fuel i h a h',
    arrays_in_bounds h -> readAHDR_blocks NDEBUG fuel i h = Done (a, h') ->
    arrays_in_bounds h'.
Proof.
  induction fuel as [| fuel IH]; intros i h a h' Hi H;
    cbn [readAHDR_blocks] in H; [discriminate H |].
  rauto H Hi.
Qed.

#[export] Hint Resolve readAHDR_blocks_keeps : keeps.

Lemma readAHDR_keeps NDEBUG fuel i h a h' :
  arrays_in_bounds h -> readAHDR NDEBUG fuel i h = Done (a, h') ->
  arrays_in_bounds h'.
Proof. intros Hi H. unfold readAHDR in H. rauto H Hi. Qed.

#[export] Hint Resolve readAHDR_keeps : keeps.

Lemma readATOC_blocks_keeps NDEBUG :
  forall fuel i h a h',
    arrays_in_bounds h -> readATOC_blocks NDEBUG fuel i h = Done (a, h') ->
    arrays_in_bounds h'.
Proof.
  induction fuel as [| fuel IH]; intros i h a h' Hi H;
    cbn [readATOC_blocks] in H; [discriminate H |].
  rauto H Hi.
Qed.

#[export] Hint Resolve readATOC_blocks_keeps : keeps.

Lemma readATOC_keeps NDEBUG fuel h a h' :
  arrays_in_bounds h -> readATOC NDEBUG fuel h = Done (a, h') ->
  arrays_in_bounds h'.
Proof. intros Hi H. unfold readATOC in H. rauto H Hi. Qed.

Lemma readLHDR_blocks_keeps NDEBUG :
  forall fuel i h a h',
    arrays_in_bounds h -> readLHDR_blocks NDEBUG fuel i h = Done (a, h') ->
    arrays_in_bounds h'.
Proof.
  induction fuel as [| fuel IH]; intros i h a h' Hi H;
    cbn [readLHDR_blocks] in H; [discriminate H |].
  rauto H Hi.
Qed.

#[export] Hint Resolve readATOC_keeps readLHDR_blocks_keeps : keeps.

Lemma readLHDR_keeps NDEBUG fuel i ptr h a h' :
  arrays_in_bounds h -> readLHDR NDEBUG fuel i ptr h = Done (a, h') ->
  arrays_in_bounds h'.
Proof. intros Hi H. unfold readLHDR in H. rauto H Hi. Qed.

#[export] Hint Resolve readLHDR_keeps : keeps.

Lemma readLTOC_blocks_keeps NDEBUG :
  forall fuel i ptr h a h',
    arrays_in_bounds h ->
    readLTOC_blocks NDEBUG fuel i ptr h = Done (a, h') ->
    arrays_in_bounds h'.
Proof.
  induction fuel as [| fuel IH]; intros i ptr h a h' Hi H;
    cbn [readLTOC_blocks] in H; [discriminate H |].
  rauto H Hi.
Qed.

#[export] Hint Resolve readLTOC_blocks_keeps : keeps.

Lemma readLTOC_keeps NDEBUG fuel h a h' :
  arrays_in_bounds h -> readLTOC NDEBUG fuel h = Done (a, h') ->
  arrays_in_bounds h'.
Proof. intros Hi H. unfold readLTOC in H. rauto H Hi. Qed.

#[export] Hint Resolve readLTOC_keeps : keeps.

Lemma readDICT_blocks_keeps NDEBUG :
  forall fuel h a h',
    arrays_in_bounds h -> readDICT_blocks NDEBUG fuel h = Done (a, h') ->
    arrays_in_bounds h'.
Proof.
  induction fuel as [| fuel IH]; intros h a h' Hi H;
    cbn [readDICT_blocks] in H; [discriminate H |].
  rauto H Hi.
Qed.

(** [readDICT] allocates the debug tables with the header tables,
    zeroed. *)
Lemma readDICT_keeps NDEBUG fuel h a h' :
  arrays_in_bounds h -> readDICT NDEBUG fuel h = Done (a, h') ->
  arrays_in_bounds h'.
Proof.
  intros Hi H. unfold readDICT in H. rmod H Hi.
  rewrite !bind_modify in H.
  eapply readDICT_blocks_keeps; [| exact H].
  revert Hi. inv_cbn. rewrite !repeat_length.
  intros (H1 & H2 & H3 & H4 & H5 & H6 & H7 & H8).
  repeat split; try assumption; try apply H2.
  apply Forall_forall. intros d Hd. apply repeat_spec in Hd. subst d.
  split; reflexivity.
Qed.

Lemma readSTRM_keeps NDEBUG :
  forall fuel h a h',
    arrays_in_bounds h -> readSTRM NDEBUG fuel h = Done (a, h') ->
    arrays_in_bounds h'.
Proof.
  induction fuel as [| fuel IH]; intros h a h' Hi H;
    cbn [readSTRM] in H; [discriminate H |].
  rauto H Hi.
Qed.

Lemma readPACK_keeps NDEBUG :
  forall fuel h a h',
    arrays_in_bounds h -> readPACK NDEBUG fuel h = Done (a, h') ->
    arrays_in_bounds h'.
Proof.
  induction fuel as [| fuel IH]; intros h a h' Hi H;
    cbn [readPACK] in H; [discriminate H |].
  rauto H Hi.
Qed.

#[export] Hint Resolve readDICT_keeps readSTRM_keeps readPACK_keeps : keeps.

Lemma read_blocks_keeps NDEBUG :
  forall fuel valid h a h',
    arrays_in_bounds h -> read_blocks NDEBUG fuel valid h = Done (a, h') ->
    arrays_in_bounds h'.
Proof.
  induction fuel as [| fuel IH]; intros valid h a h' Hi H;
    cbn [read_blocks] in H; [discriminate H |].
  unfold readHIPA in H. rauto H Hi.
Qed.


(** X11.  Whatever the file holds, an archive that [read] accepts
    has used the fixed-size arrays of [Hip] within their bounds: the
    block stack holds at most 8 blocks, the platform record at most 4
    strings, the creation string, the platform strings and every asset
    name and file name are shorter than 32 characters, and the debug
    tables are as long as the header tables. *)
Theorem load_keeps_arrays_in_bounds :
  forall (NDEBUG : bool) (fuel : nat) (bytes : list byte) (h : Hip),
    load NDEBUG fuel bytes = Done h -> arrays_in_bounds h.
Proof.
  intros NDEBUG fuel bytes h H. unfold load, read in H.
  destruct (read_blocks NDEBUG fuel false (open bytes)) as [[u h'] |] eqn:E;
    [| discriminate H].
  injection H as <-. eapply read_blocks_keeps; [| exact E].
  unfold arrays_in_bounds, short, stackDepth, HIP_MAX_STACK_DEPTH,
    HIP_MAX_PLATFORM_STRINGS, HIP_STRING_SIZE. cbn.
  repeat split; try lia; repeat constructor.
Qed.

(** At a concrete input: [archive_A]. *)
Lemma load_keeps_arrays_in_bounds_witness :
  arrays_in_bounds (loaded archive_A).
Proof.
  assert (L : load true 100 archive_A = Done (loaded archive_A))
    by (vm_compute; reflexivity).
  exact (@load_keeps_arrays_in_bounds true 100 archive_A (loaded archive_A) L).
Defined.





(** * The command line *)

Example command_line_typical :
  command_line false ["hipdiff"; "-D"; "-w"; "60"; "a.hip"; "b.hip"]%string
  = Done (inl {| showHelp := false; showVersion := false;
                 flags_ := {| assetDiffsOnly := false;
                              detailedAssets := true;
                              ignoreDataIfChksumMatch := false;
                              diffOffsets := false; diffPluses := false |};
                 columnWidth := 60; paths := ["a.hip"; "b.hip"]%string |}).
Proof. reflexivity. Qed.

Lemma tolower_dash (c : ascii) : tolower c = "-"%char -> c = "-"%char.
Proof.
  destruct c as [[] [] [] [] [] [] [] []]; intros H; vm_compute in H;
    try discriminate H; reflexivity.
Qed.

(** An argument that [Stricmp] takes for [-w] is an option and none
    of the other options. *)
Lemma width_option (sg : bool) (w : string) :
  Stricmp sg w "-w" = 0 ->
  is_option w = true
  /\ forall o : string,
       lower o <> "-w"%string -> (Stricmp sg w o =? 0) = false.
Proof.
  intros H. apply Stricmp_zero_iff in H. change (lower "-w") with "-w"%string in H.
  split.
  - destruct w as [| c r]; [discriminate H |]. cbn [lower] in H.
    injection H as H _. apply tolower_dash in H. subst c. reflexivity.
  - intros o Ho. apply Z.eqb_neq. intros E. apply Stricmp_zero_iff in E.
    apply Ho. rewrite <- E. exact H.
Qed.

Lemma parse_args_width_last (sg : bool) (w : string) :
  Stricmp sg w "-w" = 0 ->
  forall (n : nat) (args : list string) (st st' : Args),
    (length args <= n)%nat ->
    parse_args sg args st = Done (inl st') ->
    parse_args sg (args ++ [w]) st = Stop UndefinedBehaviour.
Proof.
  intros Hw. destruct (width_option sg w Hw) as [Wo Wn].
  assert (Ww : (Stricmp sg w "-w" =? 0) = true) by (rewrite Hw; reflexivity).
  induction n as [| n IH]; intros args st st' Hn H.
  - destruct args as [| a r]; [| cbn in Hn; lia].
    cbn [app parse_args]. rewrite Wo.
    rewrite !Wn by (vm_compute; discriminate). rewrite Ww. reflexivity.
  - destruct args as [| arg rest].
    + cbn [app parse_args]. rewrite Wo.
      rewrite !Wn by (vm_compute; discriminate). rewrite Ww. reflexivity.
    + cbn [length] in Hn. cbn [app parse_args] in H |- *.
      destruct (is_option arg).
      * repeat match type of H with
          | (if ?c then _ else _) = _ =>
              destruct c; [try (eapply IH; [| exact H]; lia) |]
          end; [| discriminate H].
        destruct rest as [| width rest']; [discriminate H |].
        cbn [app]. destruct (atoi width); [| discriminate H].
        eapply IH; [| exact H]. cbn [length] in Hn. lia.
      * destruct (length (paths st) <? 2)%nat; [| discriminate H].
        eapply IH; [| exact H]. lia.
Qed.

(** X13.  [-w] as the last argument is undefined behaviour: when
    the arguments before it are accepted, the loop passes the null
    pointer after the last argument to [atoi].  This holds for [-W] as
    well. *)
Theorem width_option_needs_a_value :
  forall (char_signed : bool) (args : list string) (st st' : Args)
         (w : string),
    parse_args char_signed args st = Done (inl st') ->
    Stricmp char_signed w "-w" = 0 ->
    parse_args char_signed (args ++ [w]) st = Stop UndefinedBehaviour.
Proof.
  intros sg args st st' w H Hw.
  eapply parse_args_width_last; [exact Hw | apply Nat.le_refl | exact H].
Qed.

(** At a concrete input: [hipdiff a.hip b.hip -W]. *)
Lemma width_option_needs_a_value_witness :
  parse_args false (["a.hip"%string; "b.hip"%string] ++ ["-W"%string])
    Args0
  = Stop UndefinedBehaviour.
Proof.
  exact (@width_option_needs_a_value false ["a.hip"; "b.hip"]%string
           Args0 _ "-W"%string eq_refl eq_refl).
Defined.






(** * Printing *)

Example print_report_empty :
  print_report false 6 "a" "b" Report0 EmptyString
  = Done (tt, ("a     b     " ++ newline ++ "============" ++ newline
               ++ newline
               ++ "0 addition(s), 0 deletion(s), 0 modification(s)"
               ++ newline)%string).
Proof. vm_compute. reflexivity. Qed.


Lemma spaces_length (n : nat) : String.length (spaces n) = n.
Proof. induction n as [| n IH]; cbn; [reflexivity | rewrite IH; reflexivity]. Qed.

(** The format of [printDiffLine] fits its buffer for every width. *)
Lemma printDiffLine_run (w : Z) (l r o : string) :
  printDiffLine w l r o
  = Done (tt, (((o ++ left_justified w l) ++ left_justified w r)
               ++ newline)%string).
Proof.
  unfold printDiffLine. cbv zeta.
  assert (F : (Z.of_nat (String.length ("%-" ++ print_d w ++ "s")) <? 16)
              = true).
  { apply Z.ltb_lt. cbn [String.append String.length].
    rewrite string_length_app. cbn [String.length].
    pose proof (print_d_length w). lia. }
  rewrite F. rewrite bind_ret. unfold printf. rewrite !bind_modify.
  reflexivity.
Qed.

(** X15.  For a positive column width, as [main] prints with,
    [printDiffLine] never overflows its format buffer and prints two
    columns: the left text, spaces up to the column width, the right
    text, spaces up to the column width, and a newline; a text that
    is not longer than the column width fills exactly the column, so
    the right text starts at the column width. *)
Theorem printDiffLine_prints_two_columns :
  forall (columnWidth : Z) (left right out : string),
    0 < columnWidth ->
    printDiffLine columnWidth left right out
    = Done (tt, (((out ++ left_justified columnWidth left)
                  ++ left_justified columnWidth right) ++ newline)%string)
    /\ (Z.of_nat (String.length left) <= columnWidth ->
        Z.of_nat (String.length (left_justified columnWidth left))
        = columnWidth)
    /\ (columnWidth <= Z.of_nat (String.length left) ->
        left_justified columnWidth left = left).
Proof.
  intros w l r o Hw. split; [apply printDiffLine_run |].
  unfold left_justified. split; intros H.
  - rewrite string_length_app, spaces_length. lia.
  - replace (Z.to_nat w - String.length l)%nat with 0%nat by lia.
    cbn [spaces]. clear. induction l as [| c l IH]; cbn; [reflexivity |].
    rewrite IH. reflexivity.
Qed.

(** At a concrete input: two names in columns of 8. *)
Lemma printDiffLine_prints_two_columns_witness :
  printDiffLine 8 "foo" "bar" EmptyString
  = Done (tt, ("foo     bar     " ++ newline)%string).
Proof.
  exact (proj1 (@printDiffLine_prints_two_columns 8 "foo" "bar" EmptyString
                  eq_refl)).
Defined.


Lemma append_assoc (a b c : string) :
  ((a ++ b) ++ c)%string = (a ++ (b ++ c))%string.
Proof. induction a as [| x a IH]; cbn; [reflexivity | rewrite IH; reflexivity]. Qed.

Lemma rule_loop (n : nat) :
  forall (i : Z) (o : string),
    for_loop n i (fun _ u => printf "=" ;;; ret u) tt o
    = Done (tt, (o ++ rule n)%string).
Proof.
  induction n as [| n IH]; intros i o; cbn [for_loop rule].
  - unfold ret. do 2 f_equal. clear. induction o as [| c o IH]; cbn;
      [reflexivity | rewrite <- IH; reflexivity].
  - unfold printf at 1. rewrite bind_bind, bind_modify, bind_ret.
    rewrite IH, append_assoc. reflexivity.
Qed.

Lemma printDiffHeader_run (w : Z) (l r o : string) :
  w * 2 < 2 ^ 31 ->
  printDiffHeader w l r o
  = Done (tt, (o ++ left_justified w l ++ left_justified w r ++ newline
               ++ rule (Z.to_nat (w * 2)) ++ newline)%string).
Proof.
  intros H. unfold printDiffHeader.
  erewrite bind_run by apply printDiffLine_run.
  apply Z.ltb_lt in H. rewrite H, bind_ret. unfold for_.
  erewrite bind_run by apply rule_loop.
  unfold printf, modify. rewrite !append_assoc. reflexivity.
Qed.

(** * Chunks the reader does not know *)

Lemma left_block_state (h : Hip) (blk : Block) (p : Z) :
  set_fpos p (set_stack (stack h)
                (set_stack (blk :: stack h) (set_fpos (fpos h + 8) h)))
  = set_fpos p h.
Proof. destruct h; reflexivity. Qed.

(** Decides the tests on a tag that is none of the known ones. *)
Ltac unknown_tag Hn :=
  repeat match goal with
    | |- context [?x =? ?y] =>
        replace (x =? y) with false
          by (symmetry; apply Z.eqb_neq; intro; apply Hn; cbn [In];
              intuition congruence)
    end.

Lemma skipped_chunk (NDEBUG : bool) (h : Hip)
  (i0 i1 i2 i3 l0 l1 l2 l3 : byte) (rest : list byte) :
  stackDepth h < HIP_MAX_STACK_DEPTH ->
  match stack h with
  | [] => True
  | blk :: _ => wrap32 (fpos h) < endpos blk
  end ->
  0 <= fpos h ->
  skipn (Z.to_nat (fpos h)) (file h)
  = i0 :: i1 :: i2 :: i3 :: l0 :: l1 :: l2 :: l3 :: rest ->
  let id := be_word i0 i1 i2 i3 in
  let next := set_fpos (wrap32 (fpos h + 8 + be_word l0 l1 l2 l3)) h in
  id <> 0 ->
  (~ In id [BLKID "H" "I" "P" "A"; BLKID "P" "A" "C" "K";
            BLKID "D" "I" "C" "T"; BLKID "S" "T" "R" "M"] ->
   forall fuel,
     read_blocks NDEBUG (S fuel) true h = read_blocks NDEBUG fuel true next)
  /\ (~ In id [BLKID "P" "V" "E" "R"; BLKID "P" "F" "L" "G";
               BLKID "P" "C" "N" "T"; BLKID "P" "C" "R" "T";
               BLKID "P" "M" "O" "D"; BLKID "P" "L" "A" "T"] ->
      forall fuel, readPACK NDEBUG (S fuel) h = readPACK NDEBUG fuel next)
  /\ (~ In id [BLKID "A" "T" "O" "C"; BLKID "L" "T" "O" "C"] ->
      forall fuel,
        readDICT_blocks NDEBUG (S fuel) h = readDICT_blocks NDEBUG fuel next)
  /\ (~ In id [BLKID "D" "H" "D" "R"; BLKID "D" "P" "A" "K"] ->
      forall fuel, readSTRM NDEBUG (S fuel) h = readSTRM NDEBUG fuel next).
Proof.
  intros Hd He Hp E id next H0.
  pose proof (@enterBlock_run NDEBUG h i0 i1 i2 i3 l0 l1 l2 l3 rest
                Hd He Hp E) as En.
  fold id in En.
  assert (Z0 : (id =? 0) = false) by (apply Z.eqb_neq; exact H0).
  repeat split; intros Hn fuel.
  - cbn [read_blocks]. erewrite bind_run by exact En. cbv beta. rewrite Z0.
    unknown_tag Hn. rewrite bind_ret.
    erewrite bind_run by (apply exitBlock_run; reflexivity).
    cbn [negb endpos]. rewrite left_block_state. reflexivity.
  - cbn [readPACK]. erewrite bind_run by exact En. cbv beta. rewrite Z0.
    unknown_tag Hn. rewrite bind_ret.
    erewrite bind_run by (apply exitBlock_run; reflexivity).
    cbn [endpos]. rewrite left_block_state. reflexivity.
  - cbn [readDICT_blocks]. erewrite bind_run by exact En. cbv beta. rewrite Z0.
    unknown_tag Hn. rewrite bind_ret.
    erewrite bind_run by (apply exitBlock_run; reflexivity).
    cbn [endpos]. rewrite left_block_state. reflexivity.
  - cbn [readSTRM]. erewrite bind_run by exact En. cbv beta. rewrite Z0.
    unknown_tag Hn. rewrite bind_ret.
    erewrite bind_run by (apply exitBlock_run; reflexivity).
    cbn [endpos]. rewrite left_block_state. reflexivity.
Qed.

(** X17.  A chunk whose tag the reader does not know is skipped as a
    whole, whatever it holds: below the stack cap and before the end
    of the enclosing block, [read] (once [HIPA] was seen), [readPACK],
    [readDICT] and [readSTRM] go on from the position [length] bytes
    after the header of the chunk, with the object otherwise as it
    was. *)
Theorem unknown_chunk_is_skipped :
  forall (NDEBUG : bool) (h : Hip) (i0 i1 i2 i3 l0 l1 l2 l3 : byte)
         (rest : list byte),
    stackDepth h < HIP_MAX_STACK_DEPTH ->
    match stack h with
    | [] => True
    | blk :: _ => wrap32 (fpos h) < endpos blk
    end ->
    0 <= fpos h ->
    skipn (Z.to_nat (fpos h)) (file h)
    = i0 :: i1 :: i2 :: i3 :: l0 :: l1 :: l2 :: l3 :: rest ->
    let id := be_word i0 i1 i2 i3 in
    let next := set_fpos (wrap32 (fpos h + 8 + be_word l0 l1 l2 l3)) h in
    id <> 0 ->
    (~ In id [BLKID "H" "I" "P" "A"; BLKID "P" "A" "C" "K";
              BLKID "D" "I" "C" "T"; BLKID "S" "T" "R" "M"] ->
     forall fuel,
       read_blocks NDEBUG (S fuel) true h = read_blocks NDEBUG fuel true next)
    /\ (~ In id [BLKID "P" "V" "E" "R"; BLKID "P" "F" "L" "G";
                 BLKID "P" "C" "N" "T"; BLKID "P" "C" "R" "T";
                 BLKID "P" "M" "O" "D"; BLKID "P" "L" "A" "T"] ->
        forall fuel, readPACK NDEBUG (S fuel) h = readPACK NDEBUG fuel next)
    /\ (~ In id [BLKID "A" "T" "O" "C"; BLKID "L" "T" "O" "C"] ->
        forall fuel,
          readDICT_blocks NDEBUG (S fuel) h
          = readDICT_blocks NDEBUG fuel next)
    /\ (~ In id [BLKID "D" "H" "D" "R"; BLKID "D" "P" "A" "K"] ->
        forall fuel, readSTRM NDEBUG (S fuel) h = readSTRM NDEBUG fuel next).
Proof.
  intros NDEBUG h i0 i1 i2 i3 l0 l1 l2 l3 rest Hd He Hp E.
  exact (@skipped_chunk NDEBUG h i0 i1 i2 i3 l0 l1 l2 l3 rest Hd He Hp E).
Qed.

(** At a concrete input: a file that starts with a chunk [JUNK] of
    four bytes. *)
Lemma unknown_chunk_is_skipped_witness :
  let h := open (chunk "JUNK" [x01; x02; x03; x04] ++ chunk "HIPA" []) in
  read_blocks true 1 true h = read_blocks true 0 true (set_fpos 12 h).
Proof.
  intros h.
  assert (Hd : stackDepth h < HIP_MAX_STACK_DEPTH) by (vm_compute; reflexivity).
  assert (Hp : 0 <= fpos h) by (vm_compute; discriminate).
  assert (H0 : be_word "J" "U" "N" "K" <> 0) by (vm_compute; discriminate).
  assert (Hn : ~ In (be_word "J" "U" "N" "K")
                 [BLKID "H" "I" "P" "A"; BLKID "P" "A" "C" "K";
                  BLKID "D" "I" "C" "T"; BLKID "S" "T" "R" "M"]).
  { vm_compute. intros [F | [F | [F | [F | []]]]]; discriminate F. }
  exact (proj1 (@unknown_chunk_is_skipped true h "J" "U" "N" "K"
                  x00 x00 x00 x04
                  ([x01; x02; x03; x04] ++ chunk "HIPA" [])
                  Hd I Hp eq_refl H0) Hn 0%nat).
Defined.


(** * Summary and detailed mode *)

Lemma when_MODIFICATION_length (b : bool) v fmt l r (c : Counts) v' c' :
  when_ b (MODIFICATION v fmt l r) v c = Done (v', c') ->
  length v' = (length v + nat_of_bool b)%nat.
Proof.
  unfold when_. destruct b; intros H.
  - apply MODIFICATION_Done in H. destruct H as [-> _].
    rewrite length_app. reflexivity.
  - injection H as <- _. cbn. lia.
Qed.

Lemma more_than_title (n : nat) :
  (1 <? Z.of_nat (1 + n)) = negb (Nat.eqb n 0).
Proof.
  destruct n as [| n]; [reflexivity |].
  cbn [Nat.eqb negb]. apply Z.ltb_lt. lia.
Qed.

Lemma no_line (b : bool) (n : nat) :
  Nat.eqb (nat_of_bool b + n) 0 = negb b && Nat.eqb n 0.
Proof. destruct b; reflexivity. Qed.

Lemma no_last_line (b : bool) : Nat.eqb (nat_of_bool b) 0 = negb b.
Proof. destruct b; reflexivity. Qed.

(** The detailed comparison has more than its title lines exactly
    when the summary comparison finds the pair different. *)
Lemma assetMods_lengths NDEBUG opt oahdr mahdr oadbg madbg changed c
  ahdrMods adbgMods c' :
  assetMods NDEBUG opt oahdr mahdr oadbg madbg changed c
  = Done ((ahdrMods, adbgMods), c') ->
  (1 <? Z.of_nat (length ahdrMods)) || (1 <? Z.of_nat (length adbgMods))
  = assetDiffers opt oahdr mahdr oadbg madbg changed.
Proof.
  unfold assetMods. intros H.
  run_bind H. apply MODIFICATION_Done in E. destruct E as [-> _].
  run_bind H.
  assert (L0 : length a = (1 + nat_of_bool (neq (id oahdr) (id mahdr)))%nat).
  { destruct (neq (id oahdr) (id mahdr)).
    - run_plain E. apply MODIFICATION_Done in E. destruct E as [-> _].
      reflexivity.
    - injection E as <- _. reflexivity. }
  clear E.
  do 6 (run_bind H;
        match goal with
        | E : when_ _ _ _ _ = Done _ |- _ =>
            apply when_MODIFICATION_length in E
        end).
  run_bind H. apply MODIFICATION_Done in E5. destruct E5 as [-> _].
  do 4 (run_bind H;
        match goal with
        | E : when_ _ _ _ _ = Done _ |- _ =>
            apply when_MODIFICATION_length in E
        end).
  injection H as <- <- _.
  repeat match goal with
    | E : length ?x = _ |- _ => rewrite E; clear E
    end.
  cbn [app length]. change (0 + 1)%nat with 1%nat.
  rewrite <- !Nat.add_assoc, !more_than_title.
  rewrite !no_line, !no_last_line.
  unfold assetDiffers.
  destruct (neq (id oahdr) (id mahdr)); [reflexivity |].
  destruct (neq (type oahdr) (type mahdr)); [reflexivity |].
  destruct (neq (offset oahdr) (offset mahdr) && diffOffsets opt);
    [reflexivity |].
  destruct (neq (size oahdr) (size mahdr)); [reflexivity |].
  destruct (neq (plus oahdr) (plus mahdr) && diffPluses opt);
    [reflexivity |].
  destruct (neq (flags oahdr) (flags mahdr)); [reflexivity |].
  destruct changed, (neq (align oadbg) (align madbg)),
    (strdiff (name oadbg) (name madbg)),
    (strdiff (filename oadbg) (filename madbg)),
    (neq (checksum oadbg) (checksum madbg)); reflexivity.
Qed.


(** What one round of the loop over [ahdrIndices] does to the
    numbers and the sets, in either mode. *)
Lemma diffAsset_numbers NDEBUG opt ohip mhip it s c s' c' :
  diffAsset NDEBUG opt ohip mhip it s c = Done (s', c') ->
  (oidx (snd it) = -1
   /\ exists x,
        at_ (ahdr mhip) (midx (snd it)) = Some x
        /\ asset_numbers s'
           = (numAssetsAdded s + 1, numAssetsDeleted s, numAssetsModified s,
              set_insert (id x) (addedAssets s), deletedAssets s))
  \/ (oidx (snd it) <> -1 /\ midx (snd it) = -1
      /\ exists x,
           at_ (ahdr ohip) (oidx (snd it)) = Some x
           /\ asset_numbers s'
              = (numAssetsAdded s, numAssetsDeleted s + 1,
                 numAssetsModified s,
                 addedAssets s, set_insert (id x) (deletedAssets s)))
  \/ (oidx (snd it) <> -1 /\ midx (snd it) <> -1
      /\ exists oa ma od md b,
           at_ (ahdr ohip) (oidx (snd it)) = Some oa
           /\ at_ (ahdr mhip) (midx (snd it)) = Some ma
           /\ at_ (adbg ohip) (oidx (snd it)) = Some od
           /\ at_ (adbg mhip) (midx (snd it)) = Some md
           /\ dataChanged opt ohip mhip oa ma od md c = Done (b, c)
           /\ asset_numbers s'
              = (numAssetsAdded s, numAssetsDeleted s,
                 numAssetsModified s
                 + (if assetDiffers opt oa ma od md b then 1 else 0),
                 addedAssets s, deletedAssets s)).
Proof.
  unfold diffAsset. intros H. run_plain H.
  destruct (Z.eqb_spec (oidx (snd it)) (-1)) as [Ho | Ho];
    [| destruct (Z.eqb_spec (midx (snd it)) (-1)) as [Hm | Hm]].
  - left. split; [exact Ho |]. run_plain H. exists a. split; [reflexivity |].
    run_bind H. injection H as <- _. reflexivity.
  - right. left. split; [exact Ho |]. split; [exact Hm |].
    run_plain H. exists a. split; [reflexivity |].
    run_bind H. injection H as <- _. reflexivity.
  - right. right. split; [exact Ho |]. split; [exact Hm |].
    run_plain H. run_bind H.
    match goal with
    | E : dataChanged _ _ _ _ _ _ _ _ = Done _ |- _ =>
        pose proof (dataChanged_state _ _ _ _ _ _ _ _ E); subst
    end.
    exists a, a0, a1, a2, a3. repeat (split; [reflexivity || eassumption |]).
    destruct (detailedAssets opt).
    + run_plain H. run_bind H. destruct a4 as [ahdrMods adbgMods].
      match goal with
      | E : assetMods _ _ _ _ _ _ _ _ = Done _ |- _ =>
          apply assetMods_lengths in E; rewrite E in H
      end.
      destruct (assetDiffers opt a a0 a1 a2 a3).
      * run_plain H. injection H as <- _. reflexivity.
      * run_plain H. injection H as <- _. unfold asset_numbers.
        rewrite Z.add_0_r. reflexivity.
    + destruct (assetDiffers opt a a0 a1 a2 a3).
      * run_bind H. injection H as <- _. reflexivity.
      * injection H as <- _. unfold asset_numbers.
        rewrite Z.add_0_r. reflexivity.
Qed.

(** Whether the data changed does not depend on the state of the
    counters, and on the options only through
    [ignoreDataIfChksumMatch]. *)
Lemma dataChanged_flag opt1 opt2 ohip mhip oa ma od md c1 c2 b1 b2 c1' c2' :
  ignoreDataIfChksumMatch opt1 = ignoreDataIfChksumMatch opt2 ->
  dataChanged opt1 ohip mhip oa ma od md c1 = Done (b1, c1') ->
  dataChanged opt2 ohip mhip oa ma od md c2 = Done (b2, c2') ->
  b1 = b2.
Proof.
  unfold dataChanged. intros <- H1 H2.
  destruct (ignoreDataIfChksumMatch opt1).
  - injection H1 as <- _. injection H2 as <- _. reflexivity.
  - destruct (size oa =? size ma).
    + destruct (view ohip oa (size oa)); [| discriminate H1].
      destruct (view mhip ma (size oa)); [| discriminate H1].
      injection H1 as <- _. injection H2 as <- _. reflexivity.
    + injection H1 as <- _. injection H2 as <- _. reflexivity.
Qed.

Lemma assetDiffers_flags opt1 opt2 oa ma od md b :
  same_but_detailed opt1 opt2 ->
  assetDiffers opt1 oa ma od md b = assetDiffers opt2 oa ma od md b.
Proof.
  intros (_ & _ & Ho & Hp). unfold assetDiffers. rewrite Ho, Hp. reflexivity.
Qed.

Lemma diffAsset_modes NDEBUG opt1 opt2 ohip mhip it s1 s2 c1 c2
  s1' s2' c1' c2' :
  same_but_detailed opt1 opt2 ->
  diffAsset NDEBUG opt1 ohip mhip it s1 c1 = Done (s1', c1') ->
  diffAsset NDEBUG opt2 ohip mhip it s2 c2 = Done (s2', c2') ->
  asset_numbers s1 = asset_numbers s2 ->
  asset_numbers s1' = asset_numbers s2'.
Proof.
  intros Hs H1 H2 Hn.
  apply diffAsset_numbers in H1, H2.
  unfold asset_numbers in Hn. injection Hn as Na Nd Nm Sa Sd.
  destruct H1 as [(O1 & x1 & X1 & ->) | [(O1 & M1 & x1 & X1 & ->)
    | (O1 & M1 & oa1 & ma1 & od1 & md1 & b1 & A1 & B1 & C1 & D1 & E1 & ->)]];
  destruct H2 as [(O2 & x2 & X2 & ->) | [(O2 & M2 & x2 & X2 & ->)
    | (O2 & M2 & oa2 & ma2 & od2 & md2 & b2 & A2 & B2 & C2 & D2 & E2 & ->)]];
    try contradiction.
  - rewrite X1 in X2. injection X2 as <-. rewrite Na, Nd, Nm, Sa, Sd.
    reflexivity.
  - rewrite X1 in X2. injection X2 as <-. rewrite Na, Nd, Nm, Sa, Sd.
    reflexivity.
  - rewrite A1 in A2. injection A2 as <-.
    rewrite B1 in B2. injection B2 as <-.
    rewrite C1 in C2. injection C2 as <-.
    rewrite D1 in D2. injection D2 as <-.
    assert (b1 = b2) as <-
        by (eapply dataChanged_flag; [apply Hs | exact E1 | exact E2]).
    rewrite (@assetDiffers_flags opt1 opt2 oa1 ma1 od1 md1 b1 Hs).
    rewrite Na, Nd, Nm, Sa, Sd. reflexivity.
Qed.

Lemma diffAssets_modes NDEBUG opt1 opt2 ohip mhip :
  same_but_detailed opt1 opt2 ->
  forall (idx : list (Z * Index)) s1 s2 c1 c2 s1' s2' c1' c2',
    foreach idx (diffAsset NDEBUG opt1 ohip mhip) s1 c1 = Done (s1', c1') ->
    foreach idx (diffAsset NDEBUG opt2 ohip mhip) s2 c2 = Done (s2', c2') ->
    asset_numbers s1 = asset_numbers s2 ->
    asset_numbers s1' = asset_numbers s2'.
Proof.
  intros Hs. induction idx as [| it idx IH];
    intros s1 s2 c1 c2 s1' s2' c1' c2' H1 H2 Hn.
  - injection H1 as <- _. injection H2 as <- _. exact Hn.
  - cbn [foreach] in H1, H2.
    apply bind_Done in H1. destruct H1 as (a1 & d1 & E1 & H1).
    apply bind_Done in H2. destruct H2 as (a2 & d2 & E2 & H2).
    eapply IH; [exact H1 | exact H2 |].
    eapply diffAsset_modes; eassumption.
Qed.

(** The layers depend on the assets only through the two sets. *)
Lemma diffLayers_assets NDEBUG ohip mhip idx lidx (a1 a2 : Assets) lh :
  addedAssets a1 = addedAssets a2 ->
  deletedAssets a1 = deletedAssets a2 ->
  diffLayers NDEBUG ohip mhip idx lidx a1 lh
  = diffLayers NDEBUG ohip mhip idx lidx a2 lh.
Proof.
  intros Ha Hd.
  unfold diffLayers, diffLayer, addedLayerMember, deletedLayerMember,
    modifiedLayerMember.
  rewrite Ha, Hd. reflexivity.
Qed.

Lemma counts_eq (c1 c2 : Counts) :
  (forall t, counter t c1 = counter t c2) ->
  countsEnabled c1 = countsEnabled c2 -> c1 = c2.
Proof.
  intros H He. destruct c1, c2.
  pose proof (H Addition). pose proof (H Deletion).
  pose proof (H Modification). simpl in *. congruence.
Qed.

Lemma main_body_modes NDEBUG opt1 opt2 ohip mhip c0 hd1 a1 l1 c1
  hd2 a2 l2 c2 :
  same_but_detailed opt1 opt2 ->
  countsEnabled c0 = true ->
  main_body NDEBUG opt1 ohip mhip c0 = Done ((hd1, a1, l1), c1) ->
  main_body NDEBUG opt2 ohip mhip c0 = Done ((hd2, a2, l2), c2) ->
  hd1 = hd2 /\ l1 = l2 /\ c1 = c2 /\ asset_numbers a1 = asset_numbers a2.
Proof.
  intros Hs Hc H1 H2. pose proof Hs as (Ha & _).
  unfold main_body in H1, H2. rewrite <- Ha in H2.
  destruct (hackPCRTString (pcrt_string (pcrt ohip))) as [ostr |];
    [| discriminate H1].
  destruct (hackPCRTString (pcrt_string (pcrt mhip))) as [mstr |];
    [| discriminate H1].
  cbn [defined] in H1, H2. rewrite !bind_ret in H1, H2. cbv zeta in H1, H2.
  match type of H1 with
  | context [build_ahdrIndices ?o ?m] =>
      destruct (build_ahdrIndices o m) as [idx |]; [| discriminate H1]
  end.
  cbn [defined] in H1, H2. rewrite bind_ret in H1, H2.
  apply bind_Done in H1. destruct H1 as (t1 & d1 & T1 & H1).
  apply bind_Done in H2. destruct H2 as (t2 & d2 & T2 & H2).
  rewrite T1 in T2. injection T2 as <- <-.
  assert (Q : d1 = c0).
  { destruct (negb (assetDiffsOnly opt1)).
    - run_plain T1. injection T1 as _ <-. reflexivity.
    - injection T1 as _ <-. reflexivity. }
  subst d1. clear T1. destruct t1 as [lhdrIndices ahdrLHDRIndices].
  apply bind_Done in H1. destruct H1 as (h1 & e1 & Eh1 & H1).
  apply bind_Done in H2. destruct H2 as (h2 & e2 & Eh2 & H2).
  rewrite Eh1 in Eh2. injection Eh2 as <- <-.
  assert (He : countsEnabled e1 = true).
  { destruct (negb (assetDiffsOnly opt1)).
    - apply diffHeader_bumps in Eh1. subst e1.
      rewrite countsEnabled_bumps. exact Hc.
    - injection Eh1 as _ <-. exact Hc. }
  clear Eh1.
  apply bind_Done in H1. destruct H1 as (x1 & f1 & Ea1 & H1).
  apply bind_Done in H2. destruct H2 as (x2 & f2 & Ea2 & H2).
  unfold diffAssets in Ea1, Ea2.
  pose proof (@diffAssets_modes NDEBUG opt1 opt2 ohip mhip Hs idx _ _ _ _
                _ _ _ _ Ea1 Ea2 eq_refl) as Hn.
  assert (Hn' := Hn). unfold asset_numbers in Hn'.
  injection Hn' as Na Nd Nm Sa Sd.
  apply diffAssets_counts in Ea1; [| exact He]. destruct Ea1 as [G1 K1].
  apply diffAssets_counts in Ea2; [| exact He]. destruct Ea2 as [G2 K2].
  assert (f1 = f2) as <-.
  { apply counts_eq; [| congruence]. intros t.
    specialize (K1 t). specialize (K2 t).
    assert (asset_num t x1 = asset_num t x2)
      by (destruct t; simpl; assumption).
    lia. }
  apply bind_Done in H1. destruct H1 as (y1 & g1 & El1 & H1).
  apply bind_Done in H2. destruct H2 as (y2 & g2 & El2 & H2).
  rewrite (@diffLayers_assets NDEBUG _ _ idx ahdrLHDRIndices x1 x2
             lhdrIndices Sa Sd) in El1.
  rewrite El1 in El2. injection El2 as <- <-.
  injection H1 as <- <- <- <-. injection H2 as <- <- <- <-.
  repeat split. exact Hn.
Qed.

(** X18.  The option for detailed assets changes only the lines of
    the three asset sections.  When the comparison of two archives
    ends under two settings that differ in that option alone, the
    header sections, the layer sections, the three totals, the three
    numbers of added, deleted and modified assets, and the sets of
    added and deleted ids are the same: an asset is reported as
    modified in detailed mode exactly when it is in summary mode. *)
Theorem detailed_mode_changes_only_asset_lines :
  forall (NDEBUG : bool) (opt1 opt2 : Options) (ohip mhip : Hip)
         (r1 r2 : Report),
    same_but_detailed opt1 opt2 ->
    main_diff NDEBUG opt1 ohip mhip = Done r1 ->
    main_diff NDEBUG opt2 ohip mhip = Done r2 ->
    header r1 = header r2
    /\ layers r1 = layers r2
    /\ counts r1 = counts r2
    /\ asset_numbers (assets r1) = asset_numbers (assets r2).
Proof.
  intros NDEBUG opt1 opt2 ohip mhip r1 r2 Hs H1 H2.
  unfold main_diff in H1, H2.
  destruct (main_body NDEBUG opt1 ohip mhip Counts0)
    as [[[[hd1 a1] l1] c1] |] eqn:E1; [| discriminate H1].
  destruct (main_body NDEBUG opt2 ohip mhip Counts0)
    as [[[[hd2 a2] l2] c2] |] eqn:E2; [| discriminate H2].
  injection H1 as <-. injection H2 as <-. cbn [header layers counts assets].
  exact (@main_body_modes NDEBUG opt1 opt2 ohip mhip Counts0
           hd1 a1 l1 c1 hd2 a2 l2 c2 Hs eq_refl E1 E2).
Qed.

(** At a concrete input: [archive_A] against [archive_B], in summary
    and in detailed mode. *)
Lemma detailed_mode_changes_only_asset_lines_witness :
  exists r1 r2,
    main_diff false Options0 (loaded archive_A) (loaded archive_B) = Done r1
    /\ main_diff false Options_detailed (loaded archive_A) (loaded archive_B)
       = Done r2
    /\ header r1 = header r2
    /\ layers r1 = layers r2
    /\ counts r1 = counts r2
    /\ asset_numbers (assets r1) = asset_numbers (assets r2).
Proof.
  destruct (main_diff false Options0 (loaded archive_A) (loaded archive_B))
    as [r1 |] eqn:E1; [| vm_compute in E1; discriminate E1].
  destruct (main_diff false Options_detailed (loaded archive_A)
              (loaded archive_B))
    as [r2 |] eqn:E2; [| vm_compute in E2; discriminate E2].
  exists r1, r2. split; [reflexivity |]. split; [reflexivity |].
  exact (@detailed_mode_changes_only_asset_lines false Options0
           Options_detailed (loaded archive_A) (loaded archive_B) r1 r2
           (conj eq_refl (conj eq_refl (conj eq_refl eq_refl))) E1 E2).
Defined.


(** * The option for assets only *)

Lemma steady_ret {A} (a : A) : steady (ret a).
Proof.
  intros c1 c2 x c1' He H. injection H as <- <-.
  exists c2. split; [reflexivity | exact He].
Qed.

Lemma steady_bind {A B} (m : D A) (k : A -> D B) :
  steady m -> (forall a, steady (k a)) -> steady (bind m k).
Proof.
  intros Hm Hk c1 c2 b c1' He H.
  apply bind_Done in H. destruct H as (a & d1 & E & H).
  destruct (Hm c1 c2 a d1 He E) as (d2 & E2 & He2).
  destruct (Hk a d1 d2 b c1' He2 H) as (c2' & H2 & He').
  exists c2'. split; [| exact He'].
  erewrite bind_run by exact E2. exact H2.
Qed.

Lemma steady_defined {A} (o : option A) : steady (defined o).
Proof. destruct o; [apply steady_ret | intros c1 c2 a c1' _ H; discriminate H]. Qed.

Lemma steady_assert (NDEBUG b : bool) : steady (assert NDEBUG b).
Proof.
  unfold assert. destruct (NDEBUG || b);
    [apply steady_ret | intros c1 c2 a c1' _ H; discriminate H].
Qed.

Lemma steady_stop {A} (f : fault) : steady (@stop Counts A f).
Proof. intros c1 c2 a c1' _ H. discriminate H. Qed.

Lemma steady_sprintf_s (n : Z) (fmt : string) (val : arg) :
  steady (sprintf_s n fmt val).
Proof.
  unfold sprintf_s. cbv zeta.
  destruct (Z.of_nat (String.length (sprintf fmt val)) <? n);
    [apply steady_ret | apply steady_stop].
Qed.

Lemma steady_set_countsEnabled (b : bool) : steady (set_countsEnabled b).
Proof.
  intros c1 c2 a c1' _ H. injection H as <- <-.
  eexists. split; reflexivity.
Qed.

Lemma steady_additionCount_incr : steady additionCount_incr.
Proof.
  intros c1 c2 a c1' He H. injection H as <- <-.
  eexists. split; [reflexivity | exact He].
Qed.

Lemma steady_deletionCount_incr : steady deletionCount_incr.
Proof.
  intros c1 c2 a c1' He H. injection H as <- <-.
  eexists. split; [reflexivity | exact He].
Qed.

Lemma steady_modificationCount_incr : steady modificationCount_incr.
Proof.
  intros c1 c2 a c1' He H. injection H as <- <-.
  eexists. split; [reflexivity | exact He].
Qed.

Lemma steady_if {A} (b : bool) (m1 m2 : D A) :
  steady m1 -> steady m2 -> steady (if b then m1 else m2).
Proof. destruct b; auto. Qed.

Lemma steady_when {A} (b : bool) (m : D A) (a : A) :
  steady m -> steady (when_ b m a).
Proof. intros H. unfold when_. destruct b; [exact H | apply steady_ret]. Qed.

(** [if (countsEnabled) counter++]. *)
Lemma steady_count {A} (incr : D unit) (k : D A) :
  steady incr -> steady k ->
  steady (c <- get ;; (if countsEnabled c then incr else ret tt) ;;; k).
Proof.
  intros Hi Hk c1 c2 a c1' He H.
  assert (S : steady (bind (if countsEnabled c1 then incr else ret tt)
                        (fun _ => k))).
  { apply steady_bind; [| intro; exact Hk].
    apply steady_if; [exact Hi | apply steady_ret]. }
  rewrite bind_get in H. rewrite bind_get, <- He.
  exact (S c1 c2 a c1' He H).
Qed.

Lemma steady_ADDITION v fmt val : steady (ADDITION v fmt val).
Proof.
  unfold ADDITION. apply steady_bind; [apply steady_sprintf_s | intro r].
  apply steady_count; [apply steady_additionCount_incr | apply steady_ret].
Qed.

Lemma steady_DELETION v fmt val : steady (DELETION v fmt val).
Proof.
  unfold DELETION. apply steady_bind; [apply steady_sprintf_s | intro r].
  apply steady_count; [apply steady_deletionCount_incr | apply steady_ret].
Qed.

Lemma steady_MODIFICATION v fmt l r : steady (MODIFICATION v fmt l r).
Proof.
  unfold MODIFICATION.
  apply steady_bind; [apply steady_sprintf_s | intro x].
  apply steady_bind; [apply steady_sprintf_s | intro y].
  apply steady_count;
    [apply steady_modificationCount_incr | apply steady_ret].
Qed.

Lemma steady_foreach {A B} (body : B -> A -> D A) :
  (forall x a, steady (body x a)) ->
  forall l a, steady (foreach l body a).
Proof.
  intros Hb. induction l as [| x l IH]; intros a; cbn [foreach].
  - apply steady_ret.
  - apply steady_bind; [apply Hb | intros a'; apply IH].
Qed.

Lemma steady_pair {A B C} (p : A * B) (k : A -> B -> D C) :
  (forall a b, steady (k a b)) -> steady (let '(a, b) := p in k a b).
Proof. intros H. destruct p. apply H. Qed.

Ltac steady_tac :=
  repeat first
    [ simple apply steady_ret | simple apply steady_defined
    | simple apply steady_assert | simple apply steady_stop
    | simple apply steady_set_countsEnabled
    | simple apply steady_additionCount_incr
    | simple apply steady_deletionCount_incr
    | simple apply steady_modificationCount_incr
    | simple apply steady_ADDITION | simple apply steady_DELETION
    | simple apply steady_MODIFICATION
    | simple apply steady_when | simple apply steady_if
    | simple apply steady_pair; intros
    | simple apply steady_foreach; intros
    | simple apply steady_bind; [| intro] ].

Lemma steady_diffAsset NDEBUG opt ohip mhip it s :
  steady (diffAsset NDEBUG opt ohip mhip it s).
Proof.
  unfold diffAsset, dataChanged, assetMods, ADDITIONS, DELETIONS.
  cbv zeta. steady_tac.
Qed.

(** The round of the asset loop does not look at [assetDiffsOnly]. *)
Lemma diffAsset_assetDiffsOnly NDEBUG opt1 opt2 ohip mhip :
  same_but_assetDiffsOnly opt1 opt2 ->
  diffAsset NDEBUG opt1 ohip mhip = diffAsset NDEBUG opt2 ohip mhip.
Proof.
  intros (Hd & Hi & Ho & Hp).
  unfold diffAsset, dataChanged, assetMods, assetDiffers.
  rewrite Hd, Hi, Ho, Hp. reflexivity.
Qed.


Lemma main_body_assetDiffsOnly NDEBUG opt1 opt2 ohip mhip c0 hd a l c2 :
  assetDiffsOnly opt1 = true -> assetDiffsOnly opt2 = false ->
  same_but_assetDiffsOnly opt1 opt2 ->
  main_body NDEBUG opt2 ohip mhip c0 = Done ((hd, a, l), c2) ->
  exists c1,
    main_body NDEBUG opt1 ohip mhip c0 = Done ((Header0, a, Layers0), c1).
Proof.
  intros A1 A2 Hs H. unfold main_body in H |- *. rewrite A1. rewrite A2 in H.
  cbn [negb] in H |- *.
  destruct (hackPCRTString (pcrt_string (pcrt ohip))) as [ostr |];
    [| discriminate H].
  destruct (hackPCRTString (pcrt_string (pcrt mhip))) as [mstr |];
    [| discriminate H].
  cbn [defined] in H |- *. rewrite !bind_ret in H. rewrite !bind_ret.
  cbv zeta in H |- *.
  match type of H with
  | context [build_ahdrIndices ?o ?m] =>
      destruct (build_ahdrIndices o m) as [idx |]; [| discriminate H]
  end.
  cbn [defined] in H |- *. rewrite bind_ret in H. rewrite !bind_ret.
  cbv beta iota.
  apply bind_Done in H. destruct H as ([lhdrIndices ahdrLHDRIndices] & d & T & H).
  assert (Q : d = c0) by (run_plain T; injection T as _ _ <-; reflexivity).
  subst d. clear T.
  apply bind_Done in H. destruct H as (h1 & e1 & Eh & H).
  assert (He : countsEnabled c0 = countsEnabled e1).
  { apply diffHeader_bumps in Eh. subst e1.
    rewrite countsEnabled_bumps. reflexivity. }
  clear Eh.
  apply bind_Done in H. destruct H as (x & f & Ea & H).
  unfold diffAssets in Ea |- *.
  rewrite <- (@diffAsset_assetDiffsOnly NDEBUG opt1 opt2 _ _ Hs) in Ea.
  destruct (@steady_foreach _ _ _
              (fun it s => @steady_diffAsset NDEBUG opt1 _ _ it s)
              idx Assets0 e1 c0 x f (eq_sym He) Ea) as (c1 & E1 & _).
  apply bind_Done in H. destruct H as (y & g & _ & H).
  injection H as _ <- _ _.
  exists c1. erewrite bind_run by exact E1. reflexivity.
Qed.

(** X19.  The option for assets only hides the header and the layers
    and changes nothing else.  When the full comparison of two
    archives ends, the comparison with [assetDiffsOnly] set and the
    other options as they were ends too: its header and layer
    sections are empty, its three asset sections, numbers and sets
    are those of the full comparison, and its totals are the numbers
    of added, deleted and modified assets. *)
Theorem assets_only_hides_header_and_layers :
  forall (NDEBUG : bool) (opt1 opt2 : Options) (ohip mhip : Hip)
         (r : Report),
    assetDiffsOnly opt1 = true -> assetDiffsOnly opt2 = false ->
    same_but_assetDiffsOnly opt1 opt2 ->
    main_diff NDEBUG opt2 ohip mhip = Done r ->
    exists c,
      main_diff NDEBUG opt1 ohip mhip
      = Done {| header := Header0; assets := assets r; layers := Layers0;
                counts := c |}
      /\ additionCount c = numAssetsAdded (assets r)
      /\ deletionCount c = numAssetsDeleted (assets r)
      /\ modificationCount c = numAssetsModified (assets r).
Proof.
  intros NDEBUG opt1 opt2 ohip mhip r A1 A2 Hs H.
  unfold main_diff in H.
  destruct (main_body NDEBUG opt2 ohip mhip Counts0)
    as [[[[hd a] l] c2] |] eqn:E2; [| discriminate H].
  injection H as <-. cbn [assets].
  destruct (@main_body_assetDiffsOnly NDEBUG opt1 opt2 ohip mhip Counts0
              hd a l c2 A1 A2 Hs E2) as (c & E1).
  exists c. unfold main_diff. rewrite E1. split; [reflexivity |].
  pose proof (@main_body_counts NDEBUG opt1 ohip mhip Header0 a Layers0 c E1)
    as K.
  pose proof (K Addition) as Ka. pose proof (K Deletion) as Kd.
  pose proof (K Modification) as Km.
  cbn in Ka, Kd, Km. repeat split; lia.
Qed.

(** At a concrete input: [archive_A] against [archive_B]. *)
Lemma assets_only_hides_header_and_layers_witness :
  exists r c,
    main_diff false Options0 (loaded archive_A) (loaded archive_B) = Done r
    /\ main_diff false
         {| assetDiffsOnly := true; detailedAssets := false;
            ignoreDataIfChksumMatch := false; diffOffsets := false;
            diffPluses := false |}
         (loaded archive_A) (loaded archive_B)
       = Done {| header := Header0; assets := assets r; layers := Layers0;
                 counts := c |}
    /\ additionCount c = numAssetsAdded (assets r)
    /\ deletionCount c = numAssetsDeleted (assets r)
    /\ modificationCount c = numAssetsModified (assets r).
Proof.
  destruct (main_diff false Options0 (loaded archive_A) (loaded archive_B))
    as [r |] eqn:E; [| vm_compute in E; discriminate E].
  destruct (@assets_only_hides_header_and_layers false
              {| assetDiffsOnly := true; detailedAssets := false;
                 ignoreDataIfChksumMatch := false; diffOffsets := false;
                 diffPluses := false |}
              Options0 (loaded archive_A) (loaded archive_B) r
              eq_refl eq_refl
              (conj eq_refl (conj eq_refl (conj eq_refl eq_refl))) E)
    as (c & H).
  exists r, c. split; [reflexivity | exact H].
Defined.


(** * Printing a bucket *)

Lemma append_nil_r (s : string) : (s ++ EmptyString)%string = s.
Proof. induction s as [| c s IH]; cbn; [reflexivity | rewrite IH; reflexivity]. Qed.

Lemma printDiff_run (w : Z) (d : Diff) (o : string) :
  printDiff w d o = Done (tt, (o ++ entry_text w d)%string).
Proof.
  unfold printDiff, entry_text. unfold printf at 1. rewrite bind_modify.
  erewrite bind_run by apply printDiffLine_run.
  unfold printf, modify. rewrite !append_assoc. reflexivity.
Qed.

Lemma entries_loop (w : Z) :
  forall (diffs : list Diff) (o : string),
    foreach diffs (fun diff u => printDiff w diff ;;; ret u) tt o
    = Done (tt, (o ++ entries_text w diffs)%string).
Proof.
  induction diffs as [| d diffs IH]; intros o; cbn [foreach entries_text].
  - unfold ret. rewrite append_nil_r. reflexivity.
  - rewrite bind_bind. erewrite bind_run by apply printDiff_run.
    rewrite bind_ret, IH, append_assoc. reflexivity.
Qed.

Lemma printDiffs_run (w : Z) (diffs : list Diff) (title : string)
  (count : Z) (o : string) :
  (String.length title <= 49)%nat ->
  printDiffs w diffs title count o
  = Done (tt, (o ++ section_text w diffs title count)%string).
Proof.
  intros Ht. unfold printDiffs, section_text. destruct diffs as [| d diffs].
  - unfold ret. rewrite append_nil_r. reflexivity.
  - cbv zeta. destruct (count =? -1).
    + erewrite bind_run by apply printDiffLine_run.
      rewrite entries_loop, !append_assoc. reflexivity.
    + assert (F : (Z.of_nat (String.length
                               (title ++ " (" ++ print_d count ++ ")"))
                   <? 64) = true).
      { apply Z.ltb_lt. rewrite !string_length_app.
        pose proof (print_d_length count). cbn [String.length]. lia. }
      rewrite F, bind_bind, bind_ret.
      erewrite bind_run by apply printDiffLine_run.
      rewrite entries_loop, !append_assoc. reflexivity.
Qed.

(** X20.  A bucket is printed whole, and printing it never fails.
    For a positive column width and a title of at most 49 characters,
    as all titles of [main] are, and any count, the title with the
    count fits the buffer of 64 bytes; an empty bucket prints nothing, not even its title; any
    other prints the title line, with the count in parentheses unless
    it is -1, and then one line per entry in the order of the bucket,
    green for an addition, red for a deletion, yellow for a
    modification, each followed by the reset sequence. *)
Theorem printDiffs_prints_title_and_entries :
  forall (columnWidth : Z) (diffs : list Diff) (title : string) (count : Z)
         (out : string),
    0 < columnWidth ->
    (String.length title <= 49)%nat ->
    printDiffs columnWidth diffs title count out
    = Done (tt,
            (out ++ match diffs with
                    | [] => EmptyString
                    | _ =>
                        let t := if (count =? -1)%Z then title
                                 else title ++ " (" ++ print_d count ++ ")" in
                        left_justified columnWidth t
                        ++ left_justified columnWidth t ++ newline
                        ++ entries_text columnWidth diffs
                    end)%string).
Proof.
  intros w diffs title count out Hw Ht.
  rewrite (@printDiffs_run w diffs title count out Ht).
  unfold section_text. destruct diffs; reflexivity.
Qed.

(** At a concrete input: one added asset in columns of 12. *)
Lemma printDiffs_prints_title_and_entries_witness :
  printDiffs 12
    [{| diff_type := Addition; left := EmptyString; right := "  foo" |}]
    "Added assets" 1 EmptyString
  = Done (tt,
          ("Added assets (1)Added assets (1)" ++ newline
           ++ GRN ++ "              foo       " ++ newline ++ RESET)%string).
Proof.
  exact (@printDiffs_prints_title_and_entries 12
           [{| diff_type := Addition; left := EmptyString; right := "  foo" |}]
           "Added assets" 1 EmptyString eq_refl ltac:(cbn; lia)).
Defined.

(** * Printing the report *)

Lemma report_width (w : Z) (opath : string) :
  (if Z.of_nat (String.length opath) + 1
      >? (if Z.of_nat (String.length opath) + 1 >? w
          then Z.of_nat (String.length opath) + 1 else w)
   then Z.of_nat (String.length opath) + 1
   else if Z.of_nat (String.length opath) + 1 >? w
        then Z.of_nat (String.length opath) + 1 else w)
  = Z.max w (Z.of_nat (String.length opath) + 1).
Proof.
  set (n := Z.of_nat (String.length opath) + 1). rewrite !Z.gtb_ltb.
  destruct (Z.ltb_spec w n) as [L | L].
  - rewrite Z.ltb_irrefl. lia.
  - destruct (Z.ltb_spec w n); lia.
Qed.

(** Runs the calls of [printDiffs] in [main]. *)
Ltac print_sections :=
  repeat first
    [ rewrite bind_bind
    | rewrite bind_ret
    | erewrite bind_run by (apply printDiffs_run; cbn [String.length]; lia) ].

(** * The table of layer members *)

Lemma has_key_app (k : Z) (a b : list (Z * Z)) :
  has_key k (a ++ b) = has_key k a || has_key k b.
Proof. unfold has_key. apply existsb_app. Qed.

Lemma last_value_app (k : Z) :
  forall (a b : list (Z * Z)) (acc : Z),
    last_value k (a ++ b) acc = last_value k b (last_value k a acc).
Proof.
  induction a as [| [x i] a IH]; intros b acc; [reflexivity |].
  cbn [app last_value]. apply IH.
Qed.

Lemma has_key_members (k v : Z) (ids : list Z) :
  has_key k (map (fun x => (x, v)) ids) = true <-> In k ids.
Proof.
  rewrite has_key_In, map_map. cbn [fst]. rewrite map_id. reflexivity.
Qed.

Lemma last_value_members (k v : Z) (ids : list Z) (acc : Z) :
  In k ids -> last_value k (map (fun x => (x, v)) ids) acc = v.
Proof.
  intros H. apply has_key_members with (v := v) in H.
  apply last_value_key with (acc := acc) in H.
  apply in_map_iff in H. destruct H as (x & E & _).
  injection E as _ E. symmetry. exact E.
Qed.

(** The stores of the layers [ls], the first of which has the
    position [i]: the value kept for [k] is the position of the last
    layer that lists it. *)
Lemma last_value_layers (h : Hip) (k : Z) :
  forall (ls : list LHDR) (i acc : Z),
    0 <= i -> i + Z.of_nat (length ls) <= 2 ^ 31 ->
    let keys :=
      flat_map (fun il => map (fun x => (x, fst il)) (layer_ids h (snd il)))
        (with_index i ls) in
    (has_key k keys = false ->
     forall n l, nth_error ls n = Some l -> ~ In k (layer_ids h l))
    /\ (has_key k keys = true ->
        exists n l,
          last_value k keys acc = i + Z.of_nat n
          /\ nth_error ls n = Some l /\ In k (layer_ids h l)
          /\ forall n' l', (n < n')%nat -> nth_error ls n' = Some l' ->
                           ~ In k (layer_ids h l')).
Proof.
  induction ls as [| l ls IH]; intros i acc Hi Hn; cbv zeta.
  - cbn. split; [| discriminate]. intros _ n l H. destruct n; discriminate H.
  - cbn [with_index flat_map fst snd length] in *.
    assert (Ti : to_int i = i) by (apply to_int_small; lia).
    rewrite Ti, has_key_app, last_value_app.
    assert (Hn' : i + 1 + Z.of_nat (length ls) <= 2 ^ 31) by lia.
    assert (Hi' : 0 <= i + 1) by lia.
    destruct (IH (i + 1)
                (last_value k (map (fun x => (x, i)) (layer_ids h l)) acc)
                Hi' Hn') as [None Some_].
    split.
    + intros H. apply orb_false_iff in H. destruct H as [H1 H2].
      intros n l0 Hl. destruct n as [| n].
      * injection Hl as <-. intros C.
        apply (has_key_members k i) in C. congruence.
      * exact (None H2 n l0 Hl).
    + intros H.
      destruct (has_key k
                  (flat_map
                     (fun il => map (fun x => (x, fst il))
                                  (layer_ids h (snd il)))
                     (with_index (i + 1) ls))) eqn:T.
      * destruct (Some_ eq_refl) as (n & l0 & E & Hl & Hin & Later).
        exists (S n), l0. split; [rewrite E; lia |].
        split; [exact Hl |]. split; [exact Hin |].
        intros n' l' Hlt Hl'. destruct n' as [| n']; [lia |].
        apply (Later n' l'); [lia | exact Hl'].
      * rewrite orb_false_r in H. apply has_key_members in H.
        exists 0%nat, l.
        rewrite last_value_no_key by exact T.
        rewrite last_value_members by exact H.
        split; [lia |]. split; [reflexivity |]. split; [exact H |].
        intros n' l' Hlt Hl'. destruct n' as [| n']; [lia |].
        exact (None eq_refl n' l' Hl').
Qed.

Lemma last_value_layer_keys (h : Hip) (k : Z) :
  tables_readable h = true ->
  last_layer_of h k (last_value k (layer_keys h) (-1))
  /\ (has_key k (layer_keys h) = true <-> exists j, in_layer h k j).
Proof.
  intros W.
  destruct (@tables_readable_facts h W) as (_ & _ & _ & Hk & _).
  pose proof (layers_of_length h) as Hl.
  assert (B : 0 + Z.of_nat (length (layers_of h)) <= 2 ^ 31) by lia.
  destruct (@last_value_layers h k (layers_of h) 0 (-1) (Z.le_refl 0) B)
    as [None Some_].
  fold (layer_keys h) in None, Some_.
  destruct (has_key k (layer_keys h)) eqn:K.
  - destruct (Some_ eq_refl) as (n & l & E & Hn & Hin & Later).
    split.
    + right. exists n. split; [rewrite E; lia |].
      split; [exists l; split; assumption |].
      intros j' Hlt (l' & Hl' & Hin'). exact (Later j' l' Hlt Hl' Hin').
    + split; [intros _ | reflexivity].
      exists n, l. split; assumption.
  - rewrite last_value_no_key by exact K. split.
    + left. split; [reflexivity |].
      intros j (l & Hj & Hin). exact (None eq_refl j l Hj Hin).
    + split; [discriminate |].
      intros (j & l & Hj & Hin). exfalso. exact (None eq_refl j l Hj Hin).
Qed.

Lemma build_ahdrLHDRIndices_run (ohip mhip : Hip) :
  tables_readable ohip = true -> tables_readable mhip = true ->
  exists T,
    build_ahdrLHDRIndices ohip mhip = Some T
    /\ sorted_map T
    /\ forall k,
         map_find k T
         = if has_key k (layer_keys ohip) || has_key k (layer_keys mhip)
           then Some {| oidx := last_value k (layer_keys ohip) (-1);
                        midx := last_value k (layer_keys mhip) (-1) |}
           else None.
Proof.
  intros Wo Wm. unfold build_ahdrLHDRIndices.
  destruct (@ahdrLHDRIndices_fill_run ohip set_oidx [] Wo I)
    as (t1 & E1 & S1 & F1).
  destruct (@ahdrLHDRIndices_fill_run mhip set_midx t1 Wm S1)
    as (T & E & St & F).
  rewrite E1. exists T. split; [exact E |]. split; [exact St |].
  intros k. rewrite F, F1. cbn [map_find]. apply entry_after_both.
Qed.




(** * The sets of added and deleted assets *)

Lemma NoDup_filter_keys {V} (f : Z * V -> bool) :
  forall l : list (Z * V),
    NoDup (map fst l) -> NoDup (map fst (filter f l)).
Proof.
  induction l as [| x l IH]; intros H; cbn [filter map]; [constructor |].
  cbn [map] in H. inversion H as [| ? ? Hx Hl]; subst.
  destruct (f x); [| apply IH; exact Hl].
  cbn [map]. constructor; [| apply IH; exact Hl].
  intros C. apply Hx. apply in_map_iff in C.
  destruct C as (y & E & Hy). apply filter_In in Hy.
  apply in_map_iff. exists y. split; [exact E | apply Hy].
Qed.

(** The loop over [ahdrIndices] puts into [addedAssets] the keys
    without an original asset and into [deletedAssets] those without
    a modified one, once each, and counts them. *)
Lemma diffAssets_keys NDEBUG opt ohip mhip :
  forall (l : list (Z * Index)) s c s' c',
    (forall it, In it l ->
       (forall x, at_ (ahdr mhip) (midx (snd it)) = Some x -> id x = fst it)
       /\ (forall x, at_ (ahdr ohip) (oidx (snd it)) = Some x ->
                     id x = fst it)) ->
    foreach l (diffAsset NDEBUG opt ohip mhip) s c = Done (s', c') ->
    addedAssets s' = rev (added_keys l) ++ addedAssets s
    /\ deletedAssets s' = rev (deleted_keys l) ++ deletedAssets s
    /\ numAssetsAdded s'
       = numAssetsAdded s + Z.of_nat (length (added_keys l))
    /\ numAssetsDeleted s'
       = numAssetsDeleted s + Z.of_nat (length (deleted_keys l)).
Proof.
  induction l as [| it l IH]; intros s c s' c' Hk H.
  - injection H as <- _. cbn. repeat split; lia.
  - cbn [foreach] in H. apply bind_Done in H.
    destruct H as (s1 & c1 & E & H).
    apply IH in H; [| intros it' Hin; apply Hk; right; exact Hin].
    destruct H as (Ha & Hd & Na & Nd).
    destruct (Hk it (or_introl eq_refl)) as [Km Ko].
    apply diffAsset_numbers in E. unfold asset_numbers in E.
    unfold added_keys, deleted_keys in *. cbn [filter].
    destruct E as [(O & x & X & E) | [(O & M & x & X & E)
      | (O & M & oa & ma & od & md & b & _ & _ & _ & _ & _ & E)]];
      injection E as E1 E2 E3 E4 E5.
    + apply Z.eqb_eq in O. rewrite O. cbn [negb andb map rev length].
      rewrite Ha, Hd, Na, Nd, E1, E2, E4, E5, (Km x X).
      unfold set_insert. rewrite <- !app_assoc. cbn [app].
      repeat split; lia.
    + apply Z.eqb_neq in O. apply Z.eqb_eq in M. rewrite O, M.
      cbn [negb andb map rev length].
      rewrite Ha, Hd, Na, Nd, E1, E2, E4, E5, (Ko x X).
      unfold set_insert. rewrite <- !app_assoc. cbn [app].
      repeat split; lia.
    + apply Z.eqb_neq in O, M. rewrite O, M. cbn [negb andb].
      rewrite Ha, Hd, Na, Nd, E1, E2, E4, E5. repeat split.
Qed.

(** What the entries of [ahdrIndices] say about the two archives. *)
Lemma ahdrIndices_entry (ohip mhip : Hip) (idx : map_ Index) (k : Z)
  (a : Index) :
  uint32 (assetCount (pcnt ohip)) -> uint32 (assetCount (pcnt mhip)) ->
  build_ahdrIndices ohip mhip = Some idx ->
  In (k, a) idx ->
  (In k (asset_ids ohip) \/ In k (asset_ids mhip))
  /\ (oidx a = -1 <-> ~ In k (asset_ids ohip))
  /\ (midx a = -1 <-> ~ In k (asset_ids mhip))
  /\ (forall x, at_ (ahdr mhip) (midx a) = Some x -> id x = k)
  /\ (forall x, at_ (ahdr ohip) (oidx a) = Some x -> id x = k).
Proof.
  intros Uo Um Hb Hin.
  destruct (build_ahdrIndices_spec _ _ Hb) as [S F].
  apply (In_map_find k a idx S) in Hin. rewrite F in Hin.
  destruct (has_key k (asset_keys ohip) || has_key k (asset_keys mhip))
    eqn:K; [| discriminate Hin].
  injection Hin as <-. cbn [oidx midx].
  split.
  { apply orb_true_iff in K. rewrite !has_key_In, !asset_keys_ids in K.
    exact K. }
  split; [apply (@last_value_side ohip k Uo) |].
  split; [apply (@last_value_side mhip k Um) |].
  split; intros x Hx;
    [exact (@asset_at_key mhip k x Um Hx) | exact (@asset_at_key ohip k x Uo Hx)].
Qed.

Lemma ahdrIndices_has_entry (ohip mhip : Hip) (idx : map_ Index) (k : Z) :
  build_ahdrIndices ohip mhip = Some idx ->
  In k (asset_ids ohip) \/ In k (asset_ids mhip) ->
  exists a, In (k, a) idx.
Proof.
  intros Hb Hin. destruct (build_ahdrIndices_spec _ _ Hb) as [S F].
  rewrite <- !asset_keys_ids, <- !has_key_In, <- orb_true_iff in Hin.
  specialize (F k). rewrite Hin in F.
  eexists. apply map_find_In. exact F.
Qed.

Lemma one_sided_assets NDEBUG opt ohip mhip idx s c c' :
  uint32 (assetCount (pcnt ohip)) -> uint32 (assetCount (pcnt mhip)) ->
  build_ahdrIndices ohip mhip = Some idx ->
  diffAssets NDEBUG opt ohip mhip idx c = Done (s, c') ->
  (forall i, In i (addedAssets s)
             <-> In i (asset_ids mhip) /\ ~ In i (asset_ids ohip))
  /\ (forall i, In i (deletedAssets s)
                <-> In i (asset_ids ohip) /\ ~ In i (asset_ids mhip))
  /\ NoDup (addedAssets s) /\ NoDup (deletedAssets s)
  /\ numAssetsAdded s = Z.of_nat (length (addedAssets s))
  /\ numAssetsDeleted s = Z.of_nat (length (deletedAssets s)).
Proof.
  intros Uo Um Hb Hd.
  pose proof (fun k a => @ahdrIndices_entry ohip mhip idx k a Uo Um Hb) as En.
  destruct (build_ahdrIndices_spec _ _ Hb) as [S _].
  unfold diffAssets in Hd. apply diffAssets_keys in Hd.
  2:{ intros [k a] Hin. cbn [fst snd]. split; apply (En k a Hin). }
  destruct Hd as (Ha & Hdl & Na & Nd). cbn [Assets0 addedAssets
    deletedAssets numAssetsAdded numAssetsDeleted] in Ha, Hdl, Na, Nd.
  rewrite app_nil_r in Ha, Hdl.
  rewrite Ha, Hdl, Na, Nd, !length_rev.
  split; [| split]; [| | split; [| split]]; try (split; reflexivity).
  - intros i. rewrite <- in_rev. unfold added_keys.
    rewrite in_map_iff. split.
    + intros ([k a] & E & Hin). cbn [fst] in E. subst k.
      apply filter_In in Hin. cbn [snd] in Hin. destruct Hin as [Hin O].
      apply Z.eqb_eq in O.
      destruct (En i a Hin) as (Some_ & Io & _). apply Io in O.
      split; [| exact O]. destruct Some_ as [C | C]; [contradiction | exact C].
    + intros [Hm Ho].
      destruct (@ahdrIndices_has_entry ohip mhip idx i Hb (or_intror Hm))
        as (a & Hin).
      exists (i, a). split; [reflexivity |]. apply filter_In.
      split; [exact Hin |]. cbn [snd]. apply Z.eqb_eq.
      apply (En i a Hin). exact Ho.
  - intros i. rewrite <- in_rev. unfold deleted_keys.
    rewrite in_map_iff. split.
    + intros ([k a] & E & Hin). cbn [fst] in E. subst k.
      apply filter_In in Hin. cbn [snd] in Hin. destruct Hin as [Hin O].
      apply andb_prop in O. destruct O as [_ M]. apply Z.eqb_eq in M.
      destruct (En i a Hin) as (Some_ & _ & Im & _). apply Im in M.
      split; [| exact M]. destruct Some_ as [C | C]; [exact C | contradiction].
    + intros [Ho Hm].
      destruct (@ahdrIndices_has_entry ohip mhip idx i Hb (or_introl Ho))
        as (a & Hin).
      exists (i, a). split; [reflexivity |]. apply filter_In.
      split; [exact Hin |]. cbn [snd].
      destruct (En i a Hin) as (_ & Io & Im & _).
      apply andb_true_intro. split.
      * apply negb_true_iff. apply Z.eqb_neq. intros C. apply Io in C.
        contradiction.
      * apply Z.eqb_eq. apply Im. exact Hm.
  - apply NoDup_rev. apply NoDup_filter_keys. apply sorted_map_NoDup. exact S.
  - apply NoDup_rev. apply NoDup_filter_keys. apply sorted_map_NoDup. exact S.
Qed.

(** X23.  The assets reported as added are exactly those whose id
    only the modified archive has, and the assets reported as deleted
    exactly those whose id only the original archive has; each such
    id is in its set once, and the numbers shown with the titles of
    the two sections are the sizes of the sets, however many assets
    of an archive share an id and whatever the options are. *)
Theorem added_and_deleted_are_the_one_sided_ids :
  forall (NDEBUG : bool) (opt : Options) (ohip mhip : Hip) (r : Report),
    uint32 (assetCount (pcnt ohip)) -> uint32 (assetCount (pcnt mhip)) ->
    main_diff NDEBUG opt ohip mhip = Done r ->
    (forall i, In i (addedAssets (assets r))
               <-> In i (asset_ids mhip) /\ ~ In i (asset_ids ohip))
    /\ (forall i, In i (deletedAssets (assets r))
                  <-> In i (asset_ids ohip) /\ ~ In i (asset_ids mhip))
    /\ NoDup (addedAssets (assets r)) /\ NoDup (deletedAssets (assets r))
    /\ numAssetsAdded (assets r)
       = Z.of_nat (length (addedAssets (assets r)))
    /\ numAssetsDeleted (assets r)
       = Z.of_nat (length (deletedAssets (assets r))).
Proof.
  intros NDEBUG opt ohip mhip r Uo Um H. unfold main_diff in H.
  destruct (main_body NDEBUG opt ohip mhip Counts0)
    as [[[[hd a] l] c] |] eqn:E; [| discriminate H].
  injection H as <-. cbn [assets].
  unfold main_body in E.
  destruct (hackPCRTString (pcrt_string (pcrt ohip))) as [ostr |];
    [| discriminate E].
  destruct (hackPCRTString (pcrt_string (pcrt mhip))) as [mstr |];
    [| discriminate E].
  cbn [defined] in E. rewrite !bind_ret in E. cbv zeta in E.
  match type of E with
  | context [build_ahdrIndices ?o ?m] =>
      destruct (build_ahdrIndices o m) as [idx |] eqn:Hb; [| discriminate E]
  end.
  cbn [defined] in E. rewrite bind_ret in E.
  apply bind_Done in E. destruct E as ([lhdrIndices ahdrLHDRIndices] & d & _ & E).
  apply bind_Done in E. destruct E as (h1 & e1 & _ & E).
  apply bind_Done in E. destruct E as (x & f & Ea & E).
  apply bind_Done in E. destruct E as (y & g & _ & E).
  injection E as _ <- _ _.
  exact (@one_sided_assets NDEBUG opt _ _ idx x e1 f Uo Um Hb Ea).
Qed.

(** At a concrete input: [archive_A] against [archive_B]. *)
Lemma added_and_deleted_are_the_one_sided_ids_witness :
  exists r,
    main_diff false Options0 (loaded archive_A) (loaded archive_B) = Done r
    /\ (forall i, In i (addedAssets (assets r))
                  <-> In i (asset_ids (loaded archive_B))
                      /\ ~ In i (asset_ids (loaded archive_A)))
    /\ (forall i, In i (deletedAssets (assets r))
                  <-> In i (asset_ids (loaded archive_A))
                      /\ ~ In i (asset_ids (loaded archive_B)))
    /\ NoDup (addedAssets (assets r)) /\ NoDup (deletedAssets (assets r))
    /\ numAssetsAdded (assets r)
       = Z.of_nat (length (addedAssets (assets r)))
    /\ numAssetsDeleted (assets r)
       = Z.of_nat (length (deletedAssets (assets r))).
Proof.
  destruct (main_diff false Options0 (loaded archive_A) (loaded archive_B))
    as [r |] eqn:E; [| vm_compute in E; discriminate E].
  exists r. split; [reflexivity |].
  assert (Uo : uint32 (assetCount (pcnt (loaded archive_A))))
    by (vm_compute; split; [discriminate | reflexivity]).
  assert (Um : uint32 (assetCount (pcnt (loaded archive_B))))
    by (vm_compute; split; [discriminate | reflexivity]).
  exact (@added_and_deleted_are_the_one_sided_ids false Options0
           (loaded archive_A) (loaded archive_B) r Uo Um E).
Defined.


(** * Comparisons that end *)

Lemma runs_ret {A} (a : A) : runs (ret a).
Proof. intros c. exists a, c. reflexivity. Qed.

Lemma runs_bind {A B} (m : D A) (k : A -> D B) :
  runs m -> (forall a, runs (k a)) -> runs (bind m k).
Proof.
  intros Hm Hk c. destruct (Hm c) as (a & c1 & E).
  destruct (Hk a c1) as (b & c2 & E2).
  exists b, c2. erewrite bind_run by exact E. exact E2.
Qed.

Lemma runs_bind_ret {A B} (a : A) (k : A -> D B) :
  runs (k a) -> runs (bind (ret a) k).
Proof. intros H c. rewrite bind_ret. apply H. Qed.

Lemma runs_if {A} (b : bool) (m1 m2 : D A) :
  runs m1 -> runs m2 -> runs (if b then m1 else m2).
Proof. destruct b; auto. Qed.

Lemma runs_when {A} (b : bool) (m : D A) (a : A) :
  runs m -> runs (when_ b m a).
Proof. intros H. unfold when_. destruct b; [exact H | apply runs_ret]. Qed.

Lemma runs_pair {A B C} (p : A * B) (k : A -> B -> D C) :
  (forall a b, runs (k a b)) -> runs (let '(a, b) := p in k a b).
Proof. intros H. destruct p. apply H. Qed.

Lemma runs_assert (NDEBUG b : bool) :
  NDEBUG || b = true -> runs (@assert Counts NDEBUG b).
Proof. intros H c. unfold assert. rewrite H. exists tt, c. reflexivity. Qed.

Lemma runs_modify (f : Counts -> Counts) : runs (modify f).
Proof. intros c. exists tt, (f c). reflexivity. Qed.

Lemma runs_count {A} (incr : D unit) (k : D A) :
  runs incr -> runs k ->
  runs (c <- get ;; (if countsEnabled c then incr else ret tt) ;;; k).
Proof.
  intros Hi Hk c. rewrite bind_get.
  apply (@runs_bind unit A (if countsEnabled c then incr else ret tt)
           (fun _ => k)); [| intros _; exact Hk].
  apply runs_if; [exact Hi | apply runs_ret].
Qed.

Lemma runs_sprintf_s (fmt : string) (val : arg) :
  Z.of_nat (String.length (sprintf fmt val)) < 64 ->
  runs (sprintf_s 64 fmt val).
Proof.
  intros H c. rewrite (sprintf_s_run fmt val c H). eauto.
Qed.

Lemma runs_ADDITION v fmt val :
  Z.of_nat (String.length (sprintf fmt val)) < 64 ->
  runs (ADDITION v fmt val).
Proof.
  intros H. unfold ADDITION.
  apply runs_bind; [apply runs_sprintf_s; exact H | intro r].
  apply runs_count; [apply runs_modify | apply runs_ret].
Qed.

Lemma runs_DELETION v fmt val :
  Z.of_nat (String.length (sprintf fmt val)) < 64 ->
  runs (DELETION v fmt val).
Proof.
  intros H. unfold DELETION.
  apply runs_bind; [apply runs_sprintf_s; exact H | intro r].
  apply runs_count; [apply runs_modify | apply runs_ret].
Qed.

Lemma runs_MODIFICATION v fmt l r :
  Z.of_nat (String.length (sprintf fmt l)) < 64 ->
  Z.of_nat (String.length (sprintf fmt r)) < 64 ->
  runs (MODIFICATION v fmt l r).
Proof.
  intros Hl Hr. unfold MODIFICATION.
  apply runs_bind; [apply runs_sprintf_s; exact Hl | intro x].
  apply runs_bind; [apply runs_sprintf_s; exact Hr | intro y].
  apply runs_count; [apply runs_modify | apply runs_ret].
Qed.

Lemma runs_for_loop {A} (body : Z -> A -> D A) :
  forall (n : nat) (i : Z),
    (forall j, i <= j < i + Z.of_nat n -> forall a, runs (body j a)) ->
    forall a, runs (for_loop n i body a).
Proof.
  induction n as [| n IH]; intros i H a; cbn [for_loop].
  - apply runs_ret.
  - apply runs_bind; [apply H; lia |].
    intros a'. apply IH. intros j Hj. apply H. lia.
Qed.

Lemma runs_for {A} (count : Z) (body : Z -> A -> D A) :
  (forall j, 0 <= j < count -> forall a, runs (body j a)) ->
  forall a, runs (for_ count body a).
Proof.
  intros H a. unfold for_. apply runs_for_loop. intros j Hj. apply H. lia.
Qed.

Lemma runs_foreach {A B} (body : B -> A -> D A) :
  forall l : list B,
    (forall x, In x l -> forall a, runs (body x a)) ->
    forall a, runs (foreach l body a).
Proof.
  induction l as [| x l IH]; intros H a; cbn [foreach].
  - apply runs_ret.
  - apply runs_bind; [apply H; left; reflexivity |].
    intros a'. apply IH. intros y Hy. apply H. right. exact Hy.
Qed.

(** Proves [runs m] for a computation built from the emitting
    functions, leaving what the lengths of strings, the assertions
    and the loops need. *)
Ltac runs_step :=
  first
    [ simple apply runs_ret
    | simple apply runs_modify
    | simple apply runs_bind_ret
    | simple apply runs_ADDITION
    | simple apply runs_DELETION
    | simple apply runs_MODIFICATION
    | simple apply runs_when
    | simple apply runs_if
    | simple apply runs_pair; intros
    | simple apply runs_bind; [| intro] ].

Ltac runs_tac := repeat runs_step.

Lemma at_In {B} (l : list B) (i : Z) (x : B) : at_ l i = Some x -> In x l.
Proof.
  unfold at_. destruct (i <? 0); [discriminate |]. apply nth_error_In.
Qed.

(** A string of the platform record, read inside the record. *)
Lemma runs_plat_string {A} (p : PLAT) (i : Z) (k : string -> D A) :
  0 <= i < stringCount p ->
  stringCount p <= Z.of_nat (length (strings p)) ->
  (forall s, In s (strings p) -> runs (k s)) ->
  runs (bind (defined (at_ (strings p) i)) k).
Proof.
  intros Hi Hc Hk.
  destruct (@at_in_range _ (strings p) i ltac:(lia)) as [s E].
  rewrite E. cbn [defined]. apply runs_bind_ret. apply Hk.
  eapply at_In. exact E.
Qed.

Lemma diffPLAT_runs (ohip mhip : Hip) :
  stringCount (plat ohip) <= Z.of_nat (length (strings (plat ohip))) ->
  stringCount (plat mhip) <= Z.of_nat (length (strings (plat mhip))) ->
  (forall s, In s (strings (plat ohip)) -> (String.length s < 32)%nat) ->
  (forall s, In s (strings (plat mhip)) -> (String.length s < 32)%nat) ->
  runs (diffPLAT ohip mhip).
Proof.
  intros Co Cm So Sm. unfold diffPLAT. cbv zeta.
  repeat apply runs_if.
  - apply runs_bind; [apply runs_DELETION; fits | intro v].
    apply runs_for. intros j Hj a.
    apply runs_plat_string; [exact Hj | exact Co |].
    intros s Hs. pose proof (So s Hs). apply runs_DELETION. fits.
  - apply runs_bind; [apply runs_ADDITION; fits | intro v].
    apply runs_for. intros j Hj a.
    apply runs_plat_string; [exact Hj | exact Cm |].
    intros s Hs. pose proof (Sm s Hs). apply runs_ADDITION. fits.
  - apply runs_bind;
      [apply runs_when; apply runs_MODIFICATION; fits | intro v].
    apply runs_for. intros j Hj a.
    assert (Hmax : j < stringCount (plat ohip) \/ j < stringCount (plat mhip)).
    { destruct (Z.ltb_spec (stringCount (plat ohip))
                  (stringCount (plat mhip))); lia. }
    rewrite !Z.geb_leb.
    destruct (Z.leb_spec (stringCount (plat ohip)) j) as [Lo | Lo].
    + apply runs_plat_string; [lia | exact Cm |].
      intros s Hs. pose proof (Sm s Hs). apply runs_ADDITION. fits.
    + destruct (Z.leb_spec (stringCount (plat mhip)) j) as [Lm | Lm].
      * apply runs_plat_string; [lia | exact Co |].
        intros s Hs. pose proof (So s Hs). apply runs_DELETION. fits.
      * apply runs_plat_string; [lia | exact Co |]. intros so Hso.
        apply runs_plat_string; [lia | exact Cm |]. intros sm Hsm.
        pose proof (So so Hso). pose proof (Sm sm Hsm).
        apply runs_when. apply runs_MODIFICATION; fits.
  - apply runs_ret.
Qed.

Lemma diffHeader_runs (ohip mhip : Hip) :
  stringCount (plat ohip) <= Z.of_nat (length (strings (plat ohip))) ->
  stringCount (plat mhip) <= Z.of_nat (length (strings (plat mhip))) ->
  (forall s, In s (strings (plat ohip)) -> (String.length s < 32)%nat) ->
  (forall s, In s (strings (plat mhip)) -> (String.length s < 32)%nat) ->
  (String.length (pcrt_string (pcrt ohip)) < 32)%nat ->
  (String.length (pcrt_string (pcrt mhip)) < 32)%nat ->
  runs (diffHeader ohip mhip).
Proof.
  intros Co Cm So Sm Po Pm. unfold diffHeader. cbv zeta.
  repeat (apply runs_bind;
          [first [ apply runs_when; apply runs_MODIFICATION; fits
                 | apply diffPLAT_runs; assumption ]
          | intro ]).
  apply runs_ret.
Qed.


(** * The assets of two archives *)

Lemma asset_lines_runs (add : bool) v (a : AHDR) (d : ADBG) :
  (String.length (name d) < 32)%nat ->
  (String.length (filename d) < 32)%nat ->
  runs (if add then ADDITIONS v (asset_lines a d)
        else DELETIONS v (asset_lines a d)).
Proof.
  intros N F. unfold ADDITIONS, DELETIONS.
  destruct add; apply runs_foreach; intros x Hx v';
    cbn [asset_lines In] in Hx;
    repeat (destruct Hx as [<- | Hx]; [cbn [fst snd] |]);
    try contradiction;
    first [apply runs_ADDITION | apply runs_DELETION]; fits.
Qed.

Lemma dataChanged_runs opt ohip mhip oa ma od md bo bm :
  view ohip oa (size oa) = Some bo ->
  view mhip ma (size ma) = Some bm ->
  runs (dataChanged opt ohip mhip oa ma od md).
Proof.
  intros Vo Vm. unfold dataChanged.
  apply runs_if; [apply runs_ret |].
  destruct (Z.eqb_spec (size oa) (size ma)) as [E | _]; [| apply runs_ret].
  rewrite Vo, E, Vm. cbn [defined]. runs_tac.
Qed.

Lemma assetMods_runs NDEBUG opt oa ma od md changed :
  id oa = id ma ->
  (String.length (name od) < 32)%nat ->
  (String.length (name md) < 32)%nat ->
  (String.length (filename od) < 32)%nat ->
  (String.length (filename md) < 32)%nat ->
  runs (assetMods NDEBUG opt oa ma od md changed).
Proof.
  intros Hid N1 N2 F1 F2. unfold assetMods. rewrite Hid, neq_refl.
  repeat (apply runs_bind;
          [first [ apply runs_when; apply runs_MODIFICATION; fits
                 | apply runs_MODIFICATION; fits
                 | apply runs_ret ]
          | intro ]).
  apply runs_ret.
Qed.

Lemma diffAsset_runs NDEBUG opt ohip mhip k a s :
  oidx a <> -1 \/ midx a <> -1 ->
  oidx a = -1 \/ readable_asset ohip k (oidx a) ->
  midx a = -1 \/ readable_asset mhip k (midx a) ->
  runs (diffAsset NDEBUG opt ohip mhip (k, a) s).
Proof.
  intros Hne Ho Hm. unfold diffAsset. cbn [snd]. cbv zeta.
  unfold set_countsEnabled, additionCount_incr, deletionCount_incr,
    modificationCount_incr.
  apply runs_bind; [| intros _].
  { apply runs_assert. unfold neq.
    destruct (Z.eqb_spec (oidx a) (-1)), (Z.eqb_spec (midx a) (-1));
      cbn [negb orb]; try apply orb_true_r.
    destruct Hne; contradiction. }
  destruct (Z.eqb_spec (oidx a) (-1)) as [Eo | No];
    [| destruct (Z.eqb_spec (midx a) (-1)) as [Em | Nm]].
  - destruct Hm as [Em | (x & d & b & Hx & Hd & _ & _ & N & F)];
      [destruct Hne; contradiction |].
    rewrite Hx, Hd. cbn [defined]. do 2 apply runs_bind_ret.
    apply runs_bind; [| intro; apply runs_ret].
    apply runs_if; [| apply runs_ADDITION; fits].
    apply runs_bind; [apply runs_modify | intros _].
    apply runs_bind;
      [exact (@asset_lines_runs true _ x d N F) | intros v].
    runs_tac.
  - destruct Ho as [Eo | (x & d & b & Hx & Hd & _ & _ & N & F)];
      [contradiction |].
    rewrite Hx, Hd. cbn [defined]. do 2 apply runs_bind_ret.
    apply runs_bind; [| intro; apply runs_ret].
    apply runs_if; [| apply runs_DELETION; fits].
    apply runs_bind; [apply runs_modify | intros _].
    apply runs_bind;
      [exact (@asset_lines_runs false _ x d N F) | intros v].
    runs_tac.
  - destruct Ho as [Eo | (xo & do_ & bo & Hxo & Hdo & Io & Vo & No_ & Fo)];
      [contradiction |].
    destruct Hm as [Em | (xm & dm & bm & Hxm & Hdm & Im & Vm & Nm_ & Fm)];
      [contradiction |].
    rewrite Hxo, Hdo, Hxm, Hdm. cbn [defined]. do 4 apply runs_bind_ret.
    apply runs_bind; [| intros _].
    { apply runs_assert. rewrite Io, Im, Z.eqb_refl. apply orb_true_r. }
    apply runs_bind; [eapply dataChanged_runs; eassumption | intros changed].
    apply runs_if.
    + apply runs_bind; [apply runs_modify | intros _].
      apply runs_bind;
        [apply assetMods_runs; [congruence | assumption ..] | intros mods].
      runs_tac.
    + apply runs_if; [| apply runs_ret].
      apply runs_bind; [apply runs_MODIFICATION; fits | intro].
      apply runs_ret.
Qed.

(** The index kept for a key on one side names a readable asset. *)
Lemma ahdrIndices_readable_side (h : Hip) (k : Z) :
  tables_readable h = true ->
  (forall d, In d (firstn (Z.to_nat (assetCount (pcnt h))) (adbg h)) ->
             (String.length (filename d) < 32)%nat) ->
  last_value k (asset_keys h) (-1) = -1
  \/ readable_asset h k (last_value k (asset_keys h) (-1)).
Proof.
  intros W Hf.
  destruct (@tables_readable_facts h W)
    as (Hn & Ha & Hd & _ & _ & _ & Hv & Hname & _ & _).
  assert (U : uint32 (assetCount (pcnt h))) by (unfold uint32; lia).
  destruct (@last_value_side h k U) as [_ Side].
  destruct (Z.eq_dec (last_value k (asset_keys h) (-1)) (-1)) as [E | N];
    [left; exact E | right].
  destruct (Side N) as (j & x & E & Hj & Hx & Hid).
  rewrite E, to_int_small by lia.
  destruct (@at_in_range _ (adbg h) j ltac:(lia)) as [d Hdj].
  assert (Ix : In x (assets_of h)).
  { unfold assets_of. eapply at_In_firstn; [exact Hx | lia]. }
  assert (Id : In d (firstn (Z.to_nat (assetCount (pcnt h))) (adbg h))).
  { eapply at_In_firstn; [exact Hdj | lia]. }
  destruct (Hv x Ix) as [b Hb].
  exists x, d, b. repeat split; auto.
Qed.

Lemma diffAssets_runs NDEBUG opt ohip mhip idx :
  tables_readable ohip = true -> tables_readable mhip = true ->
  (forall d, In d (firstn (Z.to_nat (assetCount (pcnt ohip))) (adbg ohip)) ->
             (String.length (filename d) < 32)%nat) ->
  (forall d, In d (firstn (Z.to_nat (assetCount (pcnt mhip))) (adbg mhip)) ->
             (String.length (filename d) < 32)%nat) ->
  build_ahdrIndices ohip mhip = Some idx ->
  runs (diffAssets NDEBUG opt ohip mhip idx).
Proof.
  intros Wo Wm Fo Fm Hb.
  destruct (@tables_readable_facts ohip Wo) as (Hno & _).
  destruct (@tables_readable_facts mhip Wm) as (Hnm & _).
  assert (Uo : uint32 (assetCount (pcnt ohip))) by (unfold uint32; lia).
  assert (Um : uint32 (assetCount (pcnt mhip))) by (unfold uint32; lia).
  destruct (build_ahdrIndices_spec _ _ Hb) as [S F].
  unfold diffAssets. apply runs_foreach. intros [k a] Hin s.
  destruct (@ahdrIndices_entry ohip mhip idx k a Uo Um Hb Hin)
    as (Some_ & Io & Im & _).
  apply (In_map_find k a idx S) in Hin. rewrite F in Hin.
  destruct (has_key k (asset_keys ohip) || has_key k (asset_keys mhip));
    [| discriminate Hin].
  injection Hin as <-. cbn [oidx midx] in *.
  apply diffAsset_runs; cbn [oidx midx].
  - destruct Some_ as [C | C]; [left; intros E; apply Io in E
                               | right; intros E; apply Im in E];
      contradiction.
  - apply ahdrIndices_readable_side; assumption.
  - apply ahdrIndices_readable_side; assumption.
Qed.


(** * The layers of two archives *)

Lemma zipPad_In (l : Index) :
  forall o m : list Z,
    In l (zipPad o m) ->
    (oidx l = -1 \/ In (oidx l) o) /\ (midx l = -1 \/ In (midx l) m)
    /\ (In (oidx l) o \/ In (midx l) m).
Proof.
  induction o as [| x o IH]; intros m H; cbn [zipPad] in H.
  - apply in_map_iff in H. destruct H as (y & <- & Hy). cbn [oidx midx].
    auto.
  - destruct m as [| y m].
    + destruct H as [<- | H]; cbn [oidx midx In]; [auto |].
      apply IH in H. destruct H as (H1 & H2 & H3). cbn [In] in *.
      intuition.
    + destruct H as [<- | H]; cbn [oidx midx In]; [auto |].
      apply IH in H. cbn [In]. intuition.
Qed.

Lemma positions_type (ty : Z) :
  forall (l : list LHDR) (i x : Z),
    In x (positions ty i l) ->
    exists j y, nth_error l j = Some y /\ lhdr_type y = ty
                /\ x = to_int (i + Z.of_nat j).
Proof.
  induction l as [| y l IH]; intros i x H; [destruct H |].
  cbn [positions] in H.
  assert (T : In x (positions ty (i + 1) l) ->
              exists j z, nth_error (y :: l) j = Some z /\ lhdr_type z = ty
                          /\ x = to_int (i + Z.of_nat j)).
  { intros Hx. destruct (IH _ _ Hx) as (j & z & Hj & Hz & ->).
    exists (S j), z. split; [exact Hj |]. split; [exact Hz | f_equal; lia]. }
  destruct (Z.eqb_spec (lhdr_type y) ty) as [E | _]; [| exact (T H)].
  destruct H as [<- | H]; [| exact (T H)].
  exists 0%nat, y. split; [reflexivity |]. split; [exact E | f_equal; lia].
Qed.

Lemma layer_position_readable (h : Hip) (ty x : Z) :
  tables_readable h = true ->
  In x (layer_positions h ty) -> x <> -1 /\ readable_layer h ty x.
Proof.
  intros W H.
  destruct (@tables_readable_facts h W) as (_ & _ & _ & Hk & Hl & Hg & _).
  unfold layer_positions in H. apply positions_type in H.
  destruct H as (j & y & Hj & Hy & ->).
  pose proof (layers_of_length h) as Len.
  assert (Lj : (j < length (layers_of h))%nat).
  { apply nth_error_Some. rewrite Hj. discriminate. }
  rewrite to_int_small by lia. cbn [Z.add].
  split; [lia |].
  destruct (@at_in_range _ (ldbg h) (Z.of_nat j) ltac:(lia)) as [g Hgj].
  exists y, g. split.
  - apply (@at_firstn _ (lhdr h) (Z.to_nat (layerCount (pcnt h)))).
    rewrite at_nth_error. exact Hj.
  - split; [exact Hgj |]. split; [exact Hy |].
    eapply nth_error_In. exact Hj.
Qed.

Lemma lhdrIndices_readable (ohip mhip : Hip) (L : map_ (list Index))
  (ty : Z) (v : list Index) (l : Index) :
  tables_readable ohip = true -> tables_readable mhip = true ->
  build_lhdrIndices ohip mhip = Some L ->
  In (ty, v) L -> In l v ->
  (oidx l <> -1 \/ midx l <> -1)
  /\ (oidx l = -1 \/ readable_layer ohip ty (oidx l))
  /\ (midx l = -1 \/ readable_layer mhip ty (midx l)).
Proof.
  intros Wo Wm Hb Hin Hl.
  destruct (build_lhdrIndices_spec _ _ Hb) as [S F].
  apply (In_map_find ty v L S) in Hin.
  specialize (F ty). unfold map_at in F. rewrite Hin in F. subst v.
  apply zipPad_In in Hl. destruct Hl as (H1 & H2 & H3).
  split; [| split].
  - destruct H3 as [H | H];
      [left; apply (@layer_position_readable ohip ty _ Wo H)
      | right; apply (@layer_position_readable mhip ty _ Wm H)].
  - destruct H1 as [H | H]; [left; exact H | right].
    apply (@layer_position_readable ohip ty _ Wo H).
  - destruct H2 as [H | H]; [left; exact H | right].
    apply (@layer_position_readable mhip ty _ Wm H).
Qed.

(** An id read from a layer is one of the ids of the layer. *)
Lemma layer_assetID_member (h : Hip) (l : LHDR) (j : Z) :
  layer_ids_readable h l = true -> 0 <= j < lhdr_assetCount l ->
  exists a, layer_assetID h l j = Some a /\ In a (layer_ids h l).
Proof.
  unfold layer_ids_readable, layer_assetID, layer_ids. intros R Hj.
  apply orb_true_iff in R. destruct R as [R | R];
    [apply Z.leb_le in R; lia |].
  destruct (assetIDs l) as [p |]; [| discriminate R].
  apply andb_prop in R. destruct R as [R1 R2].
  apply Z.leb_le in R1, R2.
  destruct (@at_in_range _ (layerAssetIDs h) (p + j) ltac:(lia)) as [a Ha].
  exists a. split; [exact Ha |].
  unfold at_ in Ha. destruct (Z.ltb_spec (p + j) 0); [lia |].
  apply (@nth_error_In_firstn _ a _ _ (Z.to_nat j)); [| lia].
  rewrite nth_error_skipn. rewrite <- Ha. f_equal. lia.
Qed.

(** The name of an asset of the archive is found through
    [ahdrIndices], and it fits a line. *)
Lemma member_named (ohip mhip : Hip) (idx : map_ Index) (i : Z) :
  tables_readable ohip = true -> tables_readable mhip = true ->
  (forall d, In d (firstn (Z.to_nat (assetCount (pcnt ohip))) (adbg ohip)) ->
             (String.length (filename d) < 32)%nat) ->
  (forall d, In d (firstn (Z.to_nat (assetCount (pcnt mhip))) (adbg mhip)) ->
             (String.length (filename d) < 32)%nat) ->
  build_ahdrIndices ohip mhip = Some idx ->
  (In i (asset_ids ohip) ->
   exists n, oname ohip idx i = Some n /\ (String.length n < 32)%nat)
  /\ (In i (asset_ids mhip) ->
      exists n, mname mhip idx i = Some n /\ (String.length n < 32)%nat).
Proof.
  intros Wo Wm Fo Fm Hb.
  destruct (@tables_readable_facts ohip Wo) as (Hno & _).
  destruct (@tables_readable_facts mhip Wm) as (Hnm & _).
  assert (Uo : uint32 (assetCount (pcnt ohip))) by (unfold uint32; lia).
  assert (Um : uint32 (assetCount (pcnt mhip))) by (unfold uint32; lia).
  destruct (build_ahdrIndices_spec _ _ Hb) as [S F].
  split; intros Hin.
  - assert (K : has_key i (asset_keys ohip) = true)
      by (apply has_key_In; rewrite asset_keys_ids; exact Hin).
    unfold oname, map_at. rewrite F, K. cbn [orb oidx].
    destruct (@ahdrIndices_readable_side ohip i Wo Fo)
      as [E | (x & d & b & _ & Hd & _ & _ & N & _)].
    + apply (@last_value_side ohip i Uo) in E. contradiction.
    + rewrite Hd. exists (name d). split; [reflexivity | exact N].
  - assert (K : has_key i (asset_keys mhip) = true)
      by (apply has_key_In; rewrite asset_keys_ids; exact Hin).
    unfold mname, map_at. rewrite F, K, orb_true_r. cbn [midx].
    destruct (@ahdrIndices_readable_side mhip i Wm Fm)
      as [E | (x & d & b & _ & Hd & _ & _ & N & _)].
    + apply (@last_value_side mhip i Um) in E. contradiction.
    + rewrite Hd. exists (name d). split; [reflexivity | exact N].
Qed.

(** What the entries of [ahdrLHDRIndices] say about the two
    archives. *)
Lemma ahdrLHDRIndices_entry (ohip mhip : Hip) (T : map_ Index) (i : Z)
  (a : Index) :
  tables_readable ohip = true -> tables_readable mhip = true ->
  members_are_assets ohip -> members_are_assets mhip ->
  build_ahdrLHDRIndices ohip mhip = Some T ->
  In (i, a) T ->
  (oidx a <> -1 \/ midx a <> -1)
  /\ (oidx a <> -1 -> In i (asset_ids ohip))
  /\ (midx a <> -1 -> In i (asset_ids mhip)).
Proof.
  intros Wo Wm Mo Mm Hb Hin.
  destruct (@build_ahdrLHDRIndices_run ohip mhip Wo Wm) as (T' & E & S & F).
  rewrite Hb in E. injection E as <-.
  apply (In_map_find i a T S) in Hin. rewrite F in Hin.
  destruct (@last_value_layer_keys ohip i Wo) as [Lo Ko].
  destruct (@last_value_layer_keys mhip i Wm) as [Lm Km].
  destruct (has_key i (layer_keys ohip) || has_key i (layer_keys mhip))
    eqn:K; [| discriminate Hin].
  injection Hin as <-. cbn [oidx midx].
  assert (Side : forall h v, members_are_assets h ->
                   last_layer_of h i v ->
                   (v <> -1 -> In i (asset_ids h))
                   /\ ((exists j, in_layer h i j) -> v <> -1)).
  { intros h v M [[E N] | (j & E & (l & Hl & Hi) & _)].
    - split; [intros C; contradiction |].
      intros (j & Hj). exfalso. exact (N j Hj).
    - split; [| intros _; lia]. intros _.
      apply (M l); [eapply nth_error_In; exact Hl | exact Hi]. }
  destruct (Side ohip _ Mo Lo) as [Ao Bo].
  destruct (Side mhip _ Mm Lm) as [Am Bm].
  split; [| split; assumption].
  apply orb_true_iff in K. destruct K as [K | K].
  - left. apply Bo. apply Ko. exact K.
  - right. apply Bm. apply Km. exact K.
Qed.


Lemma addedLayerMember_runs mhip idx s i v :
  (exists n, mname mhip idx i = Some n /\ (String.length n < 32)%nat) ->
  runs (addedLayerMember mhip idx s i v).
Proof.
  intros (n & E & N). unfold addedLayerMember. rewrite E. cbn [defined].
  apply runs_if; [| apply runs_ret].
  apply runs_bind_ret. apply runs_ADDITION. fits.
Qed.

Lemma deletedLayerMember_runs ohip idx s i v :
  (exists n, oname ohip idx i = Some n /\ (String.length n < 32)%nat) ->
  runs (deletedLayerMember ohip idx s i v).
Proof.
  intros (n & E & N). unfold deletedLayerMember. rewrite E. cbn [defined].
  apply runs_if; [| apply runs_ret].
  apply runs_bind_ret. apply runs_DELETION. fits.
Qed.

Lemma modifiedLayerMember_runs NDEBUG ohip mhip idx s l i a v :
  oidx a <> -1 \/ midx a <> -1 ->
  oidx l <> -1 -> midx l <> -1 ->
  (oidx a <> -1 ->
   exists n, oname ohip idx i = Some n /\ (String.length n < 32)%nat) ->
  (midx a <> -1 ->
   exists n, mname mhip idx i = Some n /\ (String.length n < 32)%nat) ->
  runs (modifiedLayerMember NDEBUG ohip mhip idx s l (i, a) v).
Proof.
  intros Hne Lo Lm No Nm. unfold modifiedLayerMember. cbn [fst snd].
  cbv zeta. unfold additionCount_incr, deletionCount_incr.
  apply runs_bind; [| intros _].
  { apply runs_assert. unfold neq.
    destruct (Z.eqb_spec (oidx a) (-1)), (Z.eqb_spec (midx a) (-1));
      cbn [negb orb]; try apply orb_true_r.
    destruct Hne; contradiction. }
  unfold neq.
  destruct (Z.eqb_spec (oidx a) (oidx l)) as [Eo | Neo],
    (Z.eqb_spec (midx a) (midx l)) as [Em | Nem]; cbn [orb negb];
    try apply runs_ret.
  - apply runs_if; [| apply runs_ret].
    destruct (No ltac:(congruence)) as (n & E & N). rewrite E.
    cbn [defined]. apply runs_bind_ret.
    apply runs_bind; [apply runs_DELETION; fits | intro].
    runs_tac.
  - apply runs_if; [| apply runs_ret].
    destruct (Nm ltac:(congruence)) as (n & E & N). rewrite E.
    cbn [defined]. apply runs_bind_ret.
    apply runs_bind; [apply runs_ADDITION; fits | intro].
    runs_tac.
Qed.

Lemma diffLayer_runs NDEBUG ohip mhip idx T s ty l :
  tables_readable ohip = true -> tables_readable mhip = true ->
  members_are_assets ohip -> members_are_assets mhip ->
  (forall i, In i (asset_ids ohip) ->
     exists n, oname ohip idx i = Some n /\ (String.length n < 32)%nat) ->
  (forall i, In i (asset_ids mhip) ->
     exists n, mname mhip idx i = Some n /\ (String.length n < 32)%nat) ->
  build_ahdrLHDRIndices ohip mhip = Some T ->
  oidx l <> -1 \/ midx l <> -1 ->
  oidx l = -1 \/ readable_layer ohip ty (oidx l) ->
  midx l = -1 \/ readable_layer mhip ty (midx l) ->
  forall v, runs (diffLayer NDEBUG ohip mhip idx T s l v).
Proof.
  intros Wo Wm Mo Mm No Nm Hb Hne Ho Hm v.
  destruct (@tables_readable_facts ohip Wo)
    as (_ & _ & _ & _ & _ & _ & _ & _ & Ro & _).
  destruct (@tables_readable_facts mhip Wm)
    as (_ & _ & _ & _ & _ & _ & _ & _ & Rm & _).
  unfold diffLayer. cbv zeta.
  unfold set_countsEnabled, additionCount_incr, deletionCount_incr,
    modificationCount_incr.
  apply runs_bind; [| intros _].
  { apply runs_assert. unfold neq.
    destruct (Z.eqb_spec (oidx l) (-1)), (Z.eqb_spec (midx l) (-1));
      cbn [negb orb]; try apply orb_true_r.
    destruct Hne; contradiction. }
  destruct (Z.eqb_spec (oidx l) (-1)) as [Eo | Ne_o];
    [| destruct (Z.eqb_spec (midx l) (-1)) as [Em | Ne_m]].
  - destruct Hm as [Em | (y & g & Hy & Hg & Ty & Iy)];
      [destruct Hne; contradiction |].
    rewrite Hy, Hg. cbn [defined]. do 2 apply runs_bind_ret.
    apply runs_bind; [apply runs_modify | intros _].
    apply runs_bind; [apply runs_ADDITION; fits | intro].
    apply runs_bind; [apply runs_ADDITION; fits | intro].
    apply runs_bind; [| intro; runs_tac; fits].
    apply runs_for. intros j Hj w.
    destruct (@layer_assetID_member mhip y j (Rm y Iy) Hj) as (member & E & Ia).
    rewrite E. cbn [defined]. apply runs_bind_ret.
    apply addedLayerMember_runs. apply Nm. exact (Mm y Iy member Ia).
  - destruct Ho as [Eo | (y & g & Hy & Hg & Ty & Iy)]; [contradiction |].
    rewrite Hy, Hg. cbn [defined]. do 2 apply runs_bind_ret.
    apply runs_bind; [apply runs_modify | intros _].
    apply runs_bind; [apply runs_DELETION; fits | intro].
    apply runs_bind; [apply runs_DELETION; fits | intro].
    apply runs_bind; [| intro; runs_tac; fits].
    apply runs_for. intros j Hj w.
    destruct (@layer_assetID_member ohip y j (Ro y Iy) Hj) as (member & E & Ia).
    rewrite E. cbn [defined]. apply runs_bind_ret.
    apply deletedLayerMember_runs. apply No. exact (Mo y Iy member Ia).
  - destruct Ho as [Eo | (yo & go & Hyo & Hgo & Tyo & Iyo)];
      [contradiction |].
    destruct Hm as [Em | (ym & gm & Hym & Hgm & Tym & Iym)];
      [contradiction |].
    rewrite Hyo, Hgo, Hym, Hgm. cbn [defined]. do 4 apply runs_bind_ret.
    apply runs_bind; [| intros _].
    { apply runs_assert. rewrite Tyo, Tym, Z.eqb_refl. apply orb_true_r. }
    apply runs_bind; [apply runs_modify | intros _].
    apply runs_bind; [apply runs_MODIFICATION; fits | intro].
    rewrite Tyo, Tym, neq_refl.
    apply runs_bind_ret.
    apply runs_bind.
    { apply runs_foreach. intros [i e] Hin w.
      destruct (@ahdrLHDRIndices_entry ohip mhip T i e Wo Wm Mo Mm Hb Hin)
        as (An & Ao & Am).
      apply modifiedLayerMember_runs; auto. }
    intro. apply runs_bind; [apply runs_MODIFICATION; fits | intro].
    apply runs_bind; [apply runs_when; apply runs_MODIFICATION; fits | intro].
    runs_tac.
Qed.


(** * The comparison of consistent archives *)

Lemma members_listed_spec (h : Hip) :
  members_listed h = true -> members_are_assets h.
Proof.
  unfold members_listed, members_are_assets. intros H l Hl i Hi.
  rewrite forallb_forall in H. specialize (H l Hl).
  rewrite forallb_forall in H. apply set_mem_In. exact (H i Hi).
Qed.

Lemma drop_last_newline_length (s : string) :
  (String.length (drop_last_newline s) <= String.length s)%nat.
Proof.
  induction s as [| c s IH]; [apply Nat.le_refl |].
  cbn [drop_last_newline]. destruct s as [| c' s'].
  - destruct (c =? "010")%char; cbn; lia.
  - cbn [String.length] in *. lia.
Qed.

Lemma diffLayers_runs NDEBUG ohip mhip idx T L s :
  tables_readable ohip = true -> tables_readable mhip = true ->
  members_are_assets ohip -> members_are_assets mhip ->
  (forall d, In d (firstn (Z.to_nat (assetCount (pcnt ohip))) (adbg ohip)) ->
             (String.length (filename d) < 32)%nat) ->
  (forall d, In d (firstn (Z.to_nat (assetCount (pcnt mhip))) (adbg mhip)) ->
             (String.length (filename d) < 32)%nat) ->
  build_ahdrIndices ohip mhip = Some idx ->
  build_ahdrLHDRIndices ohip mhip = Some T ->
  build_lhdrIndices ohip mhip = Some L ->
  runs (diffLayers NDEBUG ohip mhip idx T s L).
Proof.
  intros Wo Wm Mo Mm Fo Fm Hi Ht Hl.
  unfold diffLayers. apply runs_foreach. intros [ty v] Hin s0.
  cbn [snd]. apply runs_foreach. intros l Hlv s1.
  destruct (@lhdrIndices_readable ohip mhip L ty v l Wo Wm Hl Hin Hlv)
    as (Hne & Ho & Hm).
  apply (@diffLayer_runs NDEBUG ohip mhip idx T s ty l); try assumption.
  - intros i. apply (@member_named ohip mhip idx i Wo Wm Fo Fm Hi).
  - intros i. apply (@member_named ohip mhip idx i Wo Wm Fo Fm Hi).
Qed.

Lemma runs_bind_bind {A B C} (m : D A) (k : A -> D B) (k' : B -> D C) :
  runs (bind m (fun a => bind (k a) k')) -> runs (bind (bind m k) k').
Proof. intros H c. rewrite bind_bind. apply H. Qed.

Lemma consistent_facts (h : Hip) :
  consistent h = true ->
  (exists str, hackPCRTString (pcrt_string (pcrt h)) = Some str
               /\ (String.length str < 32)%nat)
  /\ tables_readable h = true
  /\ (forall s, In s (strings (plat h)) -> (String.length s < 32)%nat)
  /\ (forall d, In d (firstn (Z.to_nat (assetCount (pcnt h))) (adbg h)) ->
                (String.length (filename d) < 32)%nat)
  /\ members_are_assets h.
Proof.
  unfold consistent, well_formed, strings_fit. intros H.
  repeat match goal with
    | E : _ && _ = true |- _ => apply andb_prop in E; destruct E
    end.
  repeat match goal with
    | E : forallb _ _ = true |- _ => rewrite forallb_forall in E
    | E : (_ <? _)%nat = true |- _ => apply Nat.ltb_lt in E
    end.
  split; [| split; [assumption | split; [| split]]].
  - unfold hackPCRTString.
    destruct (Nat.eqb (String.length (pcrt_string (pcrt h))) 0);
      [discriminate |].
    eexists. split; [reflexivity |].
    pose proof (drop_last_newline_length (pcrt_string (pcrt h))). lia.
  - intros s Hs. apply Nat.ltb_lt. auto.
  - intros d Hd. apply Nat.ltb_lt. auto.
  - apply members_listed_spec. assumption.
Qed.

Lemma main_body_runs NDEBUG opt ohip mhip :
  consistent ohip = true -> consistent mhip = true ->
  runs (main_body NDEBUG opt ohip mhip).
Proof.
  intros Co Cm.
  destruct (consistent_facts ohip Co)
    as ((ostr & Eo & Po) & Wo & So & Fo & Mo).
  destruct (consistent_facts mhip Cm)
    as ((mstr & Em & Pm) & Wm & Sm & Fm & Mm).
  unfold main_body. rewrite Eo, Em. cbn [defined].
  do 2 apply runs_bind_ret. cbv zeta.
  set (o := set_pcrt _ ohip). set (m := set_pcrt _ mhip).
  change (tables_readable o = true) in Wo.
  change (tables_readable m = true) in Wm.
  change (members_are_assets o) in Mo. change (members_are_assets m) in Mm.
  change (forall d, In d (firstn (Z.to_nat (assetCount (pcnt o))) (adbg o)) ->
                    (String.length (filename d) < 32)%nat) in Fo.
  change (forall d, In d (firstn (Z.to_nat (assetCount (pcnt m))) (adbg m)) ->
                    (String.length (filename d) < 32)%nat) in Fm.
  change (forall s, In s (strings (plat o)) ->
                    (String.length s < 32)%nat) in So.
  change (forall s, In s (strings (plat m)) ->
                    (String.length s < 32)%nat) in Sm.
  change (String.length (pcrt_string (pcrt o)) < 32)%nat in Po.
  change (String.length (pcrt_string (pcrt m)) < 32)%nat in Pm.
  destruct (@tables_readable_facts o Wo)
    as (Hno & Hao & _ & Hko & Hlo & _ & _ & _ & _ & Hso).
  destruct (@tables_readable_facts m Wm)
    as (Hnm & Ham & _ & Hkm & Hlm & _ & _ & _ & _ & Hsm).
  destruct (@build_ahdrIndices_total o m ltac:(lia) ltac:(lia)) as [idx Hi].
  rewrite Hi. cbn [defined]. apply runs_bind_ret.
  destruct (assetDiffsOnly opt); cbn [negb].
  - apply runs_bind_ret. cbv beta iota. apply runs_bind_ret.
    apply runs_bind;
      [apply diffAssets_runs; assumption | intros a].
    runs_tac.
  - destruct (@build_lhdrIndices_run o m ltac:(lia) ltac:(lia))
      as (L & Hl & _).
    destruct (@build_ahdrLHDRIndices_run o m Wo Wm) as (T & Ht & _).
    rewrite Hl, Ht. cbn [defined].
    apply runs_bind_bind, runs_bind_ret, runs_bind_bind, runs_bind_ret,
      runs_bind_ret. cbv beta iota.
    apply runs_bind;
      [apply diffHeader_runs; assumption | intros hd].
    apply runs_bind;
      [apply diffAssets_runs; assumption | intros a].
    apply runs_bind;
      [apply diffLayers_runs; assumption | intros l].
    apply runs_ret.
Qed.

Lemma In_firstn_In {B} (x : B) :
  forall (n : nat) (l : list B), In x (firstn n l) -> In x l.
Proof.
  induction n as [| n IH]; intros l H; [destruct H |].
  destruct l as [| y l]; [destruct H |].
  cbn [firstn] in H. destruct H as [-> | H];
    [left; reflexivity | right; apply IH; exact H].
Qed.

(** The strings of an archive that was read fit. *)
Lemma loaded_strings_fit (NDEBUG : bool) (fuel : nat) (bytes : list byte)
  (h : Hip) :
  load NDEBUG fuel bytes = Done h -> strings_fit h = true.
Proof.
  intros H. unfold load, read in H.
  destruct (read_blocks NDEBUG fuel false (open bytes)) as [[u h'] |] eqn:E;
    [| discriminate H].
  injection H as <-.
  assert (B : arrays_in_bounds h').
  { eapply read_blocks_keeps; [| exact E].
    unfold arrays_in_bounds, short, stackDepth, HIP_MAX_STACK_DEPTH,
      HIP_MAX_PLATFORM_STRINGS, HIP_STRING_SIZE. cbn.
    repeat split; try lia; repeat constructor. }
  destruct B as (_ & _ & _ & Hs & Hp & Hd & _ & _).
  unfold short, HIP_STRING_SIZE in Hs, Hp, Hd.
  rewrite Forall_forall in Hs, Hd.
  unfold strings_fit. apply andb_true_intro. split.
  - apply andb_true_intro. split.
    + apply Nat.ltb_lt. lia.
    + apply forallb_forall. intros s Hin. apply Nat.ltb_lt.
      specialize (Hs s Hin). lia.
  - apply forallb_forall. intros d Hin. apply Nat.ltb_lt.
    apply In_firstn_In in Hin. destruct (Hd d Hin) as [_ F]. lia.
Qed.

(** X24.  Two files that are read and hold consistent tables are
    compared to the end.  When both archives are read, are well
    formed and list in their layers only ids of their own assets,
    then under every option, with assertions compiled in or out,
    [main] reaches the report: no array is read outside its bounds,
    no assertion fails and no line overflows its buffer; the lengths
    of the strings need no assumption, because [read] bounds them. *)
Theorem files_with_consistent_tables_are_compared :
  forall (NDEBUG : bool) (opt : Options) (fuel : nat)
         (obytes mbytes : list byte) (ohip mhip : Hip),
    load NDEBUG fuel obytes = Done ohip ->
    load NDEBUG fuel mbytes = Done mhip ->
    well_formed ohip = true -> well_formed mhip = true ->
    members_listed ohip = true -> members_listed mhip = true ->
    exists r,
      main NDEBUG opt fuel obytes mbytes = Done r
      /\ main_diff NDEBUG opt ohip mhip = Done r.
Proof.
  intros NDEBUG opt fuel obytes mbytes ohip mhip Lo Lm Wo Wm Mo Mm.
  assert (Co : consistent ohip = true).
  { unfold consistent.
    rewrite Wo, (loaded_strings_fit NDEBUG fuel obytes Lo), Mo. reflexivity. }
  assert (Cm : consistent mhip = true).
  { unfold consistent.
    rewrite Wm, (loaded_strings_fit NDEBUG fuel mbytes Lm), Mm. reflexivity. }
  destruct (@main_body_runs NDEBUG opt ohip mhip Co Cm Counts0)
    as ([[hd a] l] & c & E).
  unfold main. rewrite Lo, Lm. unfold main_diff. rewrite E.
  eexists. split; reflexivity.
Qed.

(** At a concrete input: [archive_A_layers] against
    [archive_A_moved], in detailed mode with assertions compiled
    in. *)
Lemma files_with_consistent_tables_are_compared_witness :
  exists r,
    main false Options_detailed 100 archive_A_layers archive_A_moved = Done r
    /\ main_diff false Options_detailed (loaded archive_A_layers)
         (loaded archive_A_moved) = Done r.
Proof.
  assert (Lo : load false 100 archive_A_layers
               = Done (loaded archive_A_layers))
    by (vm_compute; reflexivity).
  assert (Lm : load false 100 archive_A_moved
               = Done (loaded archive_A_moved))
    by (vm_compute; reflexivity).
  assert (Wo : well_formed (loaded archive_A_layers) = true)
    by (vm_compute; reflexivity).
  assert (Wm : well_formed (loaded archive_A_moved) = true)
    by (vm_compute; reflexivity).
  assert (Mo : members_listed (loaded archive_A_layers) = true)
    by (vm_compute; reflexivity).
  assert (Mm : members_listed (loaded archive_A_moved) = true)
    by (vm_compute; reflexivity).
  exact (@files_with_consistent_tables_are_compared false Options_detailed
           100 archive_A_layers archive_A_moved
           (loaded archive_A_layers) (loaded archive_A_moved)
           Lo Lm Wo Wm Mo Mm).
Defined.


(** * A chunk that ends where it starts *)

Lemma set_fpos_same (h : Hip) : set_fpos (fpos h) h = h.
Proof. destruct h; reflexivity. Qed.

Lemma entered_HIPA (NDEBUG : bool) (h : Hip)
  (i0 i1 i2 i3 l0 l1 l2 l3 : byte) (rest : list byte)
  (valid : bool) (fuel : nat) :
  stackDepth h < HIP_MAX_STACK_DEPTH ->
  match stack h with
  | [] => True
  | blk :: _ => wrap32 (fpos h) < endpos blk
  end ->
  0 <= fpos h ->
  skipn (Z.to_nat (fpos h)) (file h)
  = i0 :: i1 :: i2 :: i3 :: l0 :: l1 :: l2 :: l3 :: rest ->
  be_word i0 i1 i2 i3 = BLKID "H" "I" "P" "A" ->
  read_blocks NDEBUG (S fuel) valid h
  = read_blocks NDEBUG fuel true
      (set_fpos (wrap32 (fpos h + 8 + be_word l0 l1 l2 l3)) h).
Proof.
  intros Hd He Hp E Ht.
  pose proof (@enterBlock_run NDEBUG h i0 i1 i2 i3 l0 l1 l2 l3 rest
                Hd He Hp E) as En.
  rewrite Ht in En.
  cbn [read_blocks]. erewrite bind_run by exact En. cbv beta.
  change (BLKID "H" "I" "P" "A" =? 0) with false.
  rewrite Z.eqb_refl. unfold readHIPA. rewrite bind_bind, !bind_ret.
  erewrite bind_run by (apply exitBlock_run; reflexivity).
  cbn [negb endpos]. rewrite left_block_state. reflexivity.
Qed.

Lemma read_forever (NDEBUG : bool) (h : Hip)
  (i0 i1 i2 i3 l0 l1 l2 l3 : byte) (rest : list byte) :
  stackDepth h < HIP_MAX_STACK_DEPTH ->
  match stack h with
  | [] => True
  | blk :: _ => wrap32 (fpos h) < endpos blk
  end ->
  0 <= fpos h ->
  skipn (Z.to_nat (fpos h)) (file h)
  = i0 :: i1 :: i2 :: i3 :: l0 :: l1 :: l2 :: l3 :: rest ->
  wrap32 (fpos h + 8 + be_word l0 l1 l2 l3) = fpos h ->
  (be_word i0 i1 i2 i3 = BLKID "H" "I" "P" "A" ->
   forall fuel valid, read_blocks NDEBUG fuel valid h = Stop FuelExhausted)
  /\ (be_word i0 i1 i2 i3 <> 0 ->
      ~ In (be_word i0 i1 i2 i3)
          [BLKID "H" "I" "P" "A"; BLKID "P" "A" "C" "K";
           BLKID "D" "I" "C" "T"; BLKID "S" "T" "R" "M"] ->
      forall fuel, read_blocks NDEBUG fuel true h = Stop FuelExhausted).
Proof.
  intros Hd He Hp E Hw. split.
  - intros Ht. induction fuel as [| fuel IH]; intros valid; [reflexivity |].
    rewrite (@entered_HIPA NDEBUG h i0 i1 i2 i3 l0 l1 l2 l3 rest valid fuel
               Hd He Hp E Ht).
    rewrite Hw, set_fpos_same. apply IH.
  - intros H0 Hn. induction fuel as [| fuel IH]; [reflexivity |].
    destruct (@skipped_chunk NDEBUG h i0 i1 i2 i3 l0 l1 l2 l3 rest
                Hd He Hp E H0) as [Skip _].
    rewrite (Skip Hn fuel), Hw, set_fpos_same. exact IH.
Qed.

(** X25.  A chunk that ends where it starts is read forever.  When
    the length in the header of a top-level chunk is such that the
    end of the chunk, computed in 32 bits, is the position of its own
    header (a length of 2^32 - 8), [read] comes back to the same
    header after every round: for the tag [HIPA], and for an unknown
    tag once [HIPA] was seen, no amount of rounds makes [read]
    return. *)
Theorem chunk_ending_at_its_start_is_read_forever :
  forall (NDEBUG : bool) (h : Hip) (i0 i1 i2 i3 l0 l1 l2 l3 : byte)
         (rest : list byte),
    stackDepth h < HIP_MAX_STACK_DEPTH ->
    match stack h with
    | [] => True
    | blk :: _ => wrap32 (fpos h) < endpos blk
    end ->
    0 <= fpos h ->
    skipn (Z.to_nat (fpos h)) (file h)
    = i0 :: i1 :: i2 :: i3 :: l0 :: l1 :: l2 :: l3 :: rest ->
    wrap32 (fpos h + 8 + be_word l0 l1 l2 l3) = fpos h ->
    (be_word i0 i1 i2 i3 = BLKID "H" "I" "P" "A" ->
     forall fuel valid, read_blocks NDEBUG fuel valid h = Stop FuelExhausted)
    /\ (be_word i0 i1 i2 i3 <> 0 ->
        ~ In (be_word i0 i1 i2 i3)
            [BLKID "H" "I" "P" "A"; BLKID "P" "A" "C" "K";
             BLKID "D" "I" "C" "T"; BLKID "S" "T" "R" "M"] ->
        forall fuel, read_blocks NDEBUG fuel true h = Stop FuelExhausted).
Proof.
  intros NDEBUG h i0 i1 i2 i3 l0 l1 l2 l3 rest Hd He Hp E Hw.
  exact (@read_forever NDEBUG h i0 i1 i2 i3 l0 l1 l2 l3 rest Hd He Hp E Hw).
Qed.

(** At a concrete input: the file of eight bytes [HIPA] and the
    length 0xFFFFFFF8, which no amount of fuel loads. *)
Lemma chunk_ending_at_its_start_is_read_forever_witness :
  load false 1000
    (list_byte_of_string "HIPA" ++ [xff; xff; xff; xf8])
  = Stop FuelExhausted.
Proof.
  unfold load, read.
  assert (Hd : stackDepth
                 (open (list_byte_of_string "HIPA" ++ [xff; xff; xff; xf8]))
               < HIP_MAX_STACK_DEPTH) by (vm_compute; reflexivity).
  assert (Hp : 0 <= fpos (open (list_byte_of_string "HIPA"
                                 ++ [xff; xff; xff; xf8])))
    by (vm_compute; discriminate).
  rewrite (proj1 (@chunk_ending_at_its_start_is_read_forever false
                    (open (list_byte_of_string "HIPA"
                           ++ [xff; xff; xff; xf8]))
                    "H" "I" "P" "A" xff xff xff xf8 []
                    Hd I Hp eq_refl eq_refl) eq_refl 1000%nat false).
  reflexivity.
Defined.


(** * The tables of the identity matcher *)




(** * The text of the report *)

Lemma print_report_text (assetDiffsOnly : bool) (w : Z)
  (opath mpath : string) (r : Report) (o : string) :
  Z.max w (Z.of_nat (String.length opath) + 1) * 2 < 2 ^ 31 ->
  print_report assetDiffsOnly w opath mpath r o
  = Done (tt,
          let W := Z.max w (Z.of_nat (String.length opath) + 1) in
          (o ++ left_justified W opath ++ left_justified W mpath
           ++ newline ++ rule (Z.to_nat (W * 2)) ++ newline
           ++ sections_text assetDiffsOnly W r ++ newline
           ++ print_d (additionCount (counts r)) ++ " addition(s), "
           ++ print_d (deletionCount (counts r)) ++ " deletion(s), "
           ++ print_d (modificationCount (counts r))
           ++ " modification(s)" ++ newline)%string).
Proof.
  intros H. unfold print_report, sections_text. cbv zeta.
  rewrite report_width.
  set (W := Z.max w (Z.of_nat (String.length opath) + 1)) in *.
  erewrite bind_run by (apply printDiffHeader_run; exact H).
  destruct assetDiffsOnly; cbn [negb];
    print_sections; unfold printf; rewrite bind_modify; unfold modify;
    cbn [String.append]; rewrite ?append_nil_r, !append_assoc; reflexivity.
Qed.

(** X21.  Every report is printed, and in full: whatever the buckets
    and the numbers hold and whatever was printed before, as long as
    twice the column width [main] prints with fits an [int], no
    buffer of the printing functions is too small and [main] appends
    the header line, the rule, the seven header sections (unless only
    assets are asked for), the three asset sections, the three layer
    sections (unless only assets are asked for), an empty line and
    the totals line, each section being the text [printDiffs] writes
    for its bucket. *)
Theorem report_is_always_printed :
  forall (assetDiffsOnly : bool) (columnWidth : Z) (opath mpath : string)
         (r : Report) (out : string),
    Z.max columnWidth (Z.of_nat (String.length opath) + 1) * 2 < 2 ^ 31 ->
    print_report assetDiffsOnly columnWidth opath mpath r out
    = Done (tt,
            let W := Z.max columnWidth
                       (Z.of_nat (String.length opath) + 1) in
            (out ++ left_justified W opath ++ left_justified W mpath
             ++ newline ++ rule (Z.to_nat (W * 2)) ++ newline
             ++ sections_text assetDiffsOnly W r ++ newline
             ++ print_d (additionCount (counts r)) ++ " addition(s), "
             ++ print_d (deletionCount (counts r)) ++ " deletion(s), "
             ++ print_d (modificationCount (counts r))
             ++ " modification(s)" ++ newline)%string).
Proof.
  intros a w opath mpath r out H.
  exact (@print_report_text a w opath mpath r out H).
Qed.

(** At a concrete input: the report on [archive_A] against
    [archive_B] in columns of 20, one added and one deleted asset. *)
Lemma report_is_always_printed_witness :
  exists r,
    main_diff false Options0 (loaded archive_A) (loaded archive_B) = Done r
    /\ print_report false 20 "a.hip" "b.hip" r EmptyString
       = Done (tt,
               (left_justified 20 "a.hip" ++ left_justified 20 "b.hip"
                ++ newline ++ rule 40 ++ newline
                ++ left_justified 20 "Added assets (1)"
                ++ left_justified 20 "Added assets (1)" ++ newline
                ++ GRN ++ left_justified 20 EmptyString
                ++ left_justified 20 "  baz" ++ newline ++ RESET
                ++ left_justified 20 "Deleted assets (1)"
                ++ left_justified 20 "Deleted assets (1)" ++ newline
                ++ RED ++ left_justified 20 "  foo"
                ++ left_justified 20 EmptyString ++ newline ++ RESET
                ++ newline
                ++ "1 addition(s), 1 deletion(s), 0 modification(s)"
                ++ newline)%string).
Proof.
  eexists. split; [vm_compute; reflexivity |].
  rewrite (@report_is_always_printed false 20 "a.hip" "b.hip" _ EmptyString
             eq_refl).
  vm_compute. reflexivity.
Defined.

(** X16.  After both files are read, whatever was printed before,
    diffing a well-formed archive against itself appends the header
    line with the two paths, the rule, an empty line and the totals
    [0 addition(s), 0 deletion(s), 0 modification(s)], and nothing
    else, under every option, as long as twice the column width
    [main] prints with fits an [int]; that width is the one asked
    for, or the length of the original path and one if this is
    more. *)
Theorem self_diff_prints_only_totals :
  forall (NDEBUG : bool) (opt : Options) (h : Hip) (columnWidth : Z)
         (opath mpath out : string),
    well_formed h = true ->
    Z.max columnWidth (Z.of_nat (String.length opath) + 1) * 2 < 2 ^ 31 ->
    exists r,
      main_diff NDEBUG opt h h = Done r
      /\ print_report (assetDiffsOnly opt) columnWidth opath mpath r out
         = Done (tt,
                 let W := Z.max columnWidth
                            (Z.of_nat (String.length opath) + 1) in
                 (out ++ left_justified W opath ++ left_justified W mpath
                  ++ newline ++ rule (Z.to_nat (W * 2)) ++ newline
                  ++ newline
                  ++ "0 addition(s), 0 deletion(s), 0 modification(s)"
                  ++ newline)%string).
Proof.
  intros NDEBUG opt h w opath mpath out W Hw. exists Report0. split.
  - unfold main_diff.
    rewrite (@main_body_same NDEBUG opt h Counts0 W eq_refl). reflexivity.
  - rewrite (@print_report_text (assetDiffsOnly opt) w opath mpath Report0
               out Hw).
    destruct (assetDiffsOnly opt); reflexivity.
Qed.

(** At a concrete input: [archive_A] against itself in columns of
    50, after a warning of the reader. *)
Lemma self_diff_prints_only_totals_witness :
  exists r,
    main_diff false Options0 (loaded archive_A) (loaded archive_A) = Done r
    /\ print_report false 50 "a.hip" "b.hip" r ("HIP: Warning" ++ newline)%string
       = Done (tt,
               ("HIP: Warning" ++ newline
                ++ left_justified 50 "a.hip" ++ left_justified 50 "b.hip"
                ++ newline ++ rule 100 ++ newline ++ newline
                ++ "0 addition(s), 0 deletion(s), 0 modification(s)"
                ++ newline)%string).
Proof.
  assert (W : well_formed (loaded archive_A) = true)
    by (vm_compute; reflexivity).
  exact (@self_diff_prints_only_totals false Options0 (loaded archive_A) 50
           "a.hip" "b.hip" ("HIP: Warning" ++ newline)%string W eq_refl).
Defined.


(** * A deleted asset that an added layer lists *)

(** C7 fails on the code.  [archive_foo] holds the asset 1;
    [archive_baz_lists_foo] does not, but its layer, which the
    original has no partner for, lists the id 1.  Both files are
    read in either build.  The asset 1 is reported as deleted, and
    the added layer then asks [addedAssets] only: the id is not in
    it, so the member line of the deleted asset is written, its name
    taken from [mhip.adbg[-1]], the index [ahdrIndices] holds for an
    id the modified file does not have.  The asset loop tests the
    index for -1 before it uses it; the layer loop does not. *)
Theorem deleted_asset_gets_member_line_of_added_layer :
  forall (NDEBUG detailed chk offs pluses : bool),
    let opt := {| assetDiffsOnly := false; detailedAssets := detailed;
                  ignoreDataIfChksumMatch := chk; diffOffsets := offs;
                  diffPluses := pluses |} in
    let ohip := loaded archive_foo in
    let mhip := loaded archive_baz_lists_foo in
    let idx := [(1, {| oidx := 0; midx := -1 |});
                (3, {| oidx := -1; midx := 0 |})] in
    load NDEBUG 100 archive_foo = Done ohip
    /\ load NDEBUG 100 archive_baz_lists_foo = Done mhip
    /\ build_ahdrIndices ohip mhip = Some idx
    /\ build_lhdrIndices ohip mhip
       = Some [(0, [{| oidx := -1; midx := 0 |}]);
               (5, [{| oidx := 0; midx := -1 |}])]
    /\ in_layer mhip 1 0
    /\ (exists s c,
          diffAssets NDEBUG opt ohip mhip idx Counts0 = Done (s, c)
          /\ deletedAssets s = [1] /\ addedAssets s = [3]
          /\ negb (set_mem 1 (addedAssets s)) = true
          /\ at_ (adbg mhip) (midx (map_at Index0 1 idx)) = None
          /\ (forall v c', addedLayerMember mhip idx s 1 v c'
                           = Stop UndefinedBehaviour)
          /\ forall T c',
               diffLayer NDEBUG ohip mhip idx T s
                 {| oidx := -1; midx := 0 |} Layers0 c'
               = Stop UndefinedBehaviour)
    /\ main_diff NDEBUG opt ohip mhip = Stop UndefinedBehaviour
    /\ main NDEBUG opt 100 archive_foo archive_baz_lists_foo
       = Stop UndefinedBehaviour.
Proof.
  intros NDEBUG detailed chk offs pluses opt ohip mhip idx.
  split; [destruct NDEBUG; vm_compute; reflexivity |].
  split; [destruct NDEBUG; vm_compute; reflexivity |].
  split; [vm_compute; reflexivity |].
  split; [vm_compute; reflexivity |].
  split.
  { eexists. split; [vm_compute; reflexivity |]. vm_compute. left.
    reflexivity. }
  split.
  { destruct NDEBUG, detailed, chk, offs, pluses;
      (eexists; eexists; split; [vm_compute; reflexivity |]);
      (split; [reflexivity |]); (split; [reflexivity |]);
      (split; [reflexivity |]); (split; [reflexivity |]);
      (split; [intros v c'; reflexivity |]);
      intros T c'; destruct c' as [ca cd cm ce]; reflexivity. }
  split; destruct NDEBUG, detailed, chk, offs, pluses;
    vm_compute; reflexivity.
Qed.


(** * The events of a comparison *)

Lemma count_type_events (t : DiffType) (ds : list Diff) :
  count_type t ds = count_events t (map diff_type ds).
Proof.
  unfold count_type, count_events. f_equal.
  induction ds as [| d ds IH]; [reflexivity |].
  cbn [map filter]. change (is_type t d) with (same_type t (diff_type d)).
  destruct (same_type t (diff_type d)); cbn [length]; rewrite IH; reflexivity.
Qed.

Lemma count_events_app (t : DiffType) (a b : list DiffType) :
  count_events t (a ++ b) = count_events t a + count_events t b.
Proof. unfold count_events. rewrite filter_app, length_app. lia. Qed.

Lemma yields_ret (v : list Diff) : yields (ret v) v [].
Proof.
  intros c v' c' H. injection H as <- _. rewrite app_nil_r. reflexivity.
Qed.

Lemma yields_bind (m : D (list Diff)) (k : list Diff -> D (list Diff))
  v ts1 ts2 :
  yields m v ts1 -> (forall v1, yields (k v1) v1 ts2) ->
  yields (bind m k) v (ts1 ++ ts2).
Proof.
  intros Hm Hk c v' c' H. apply bind_Done in H.
  destruct H as (v1 & c1 & E & H).
  rewrite (Hk v1 _ _ _ H), (Hm _ _ _ E), app_assoc. reflexivity.
Qed.

Lemma yields_ADDITION v fmt val : yields (ADDITION v fmt val) v [Addition].
Proof.
  intros c v' c' H. apply ADDITION_Done in H. destruct H as [-> _].
  rewrite map_app. reflexivity.
Qed.

Lemma yields_DELETION v fmt val : yields (DELETION v fmt val) v [Deletion].
Proof.
  intros c v' c' H. apply DELETION_Done in H. destruct H as [-> _].
  rewrite map_app. reflexivity.
Qed.

Lemma yields_MODIFICATION v fmt l r :
  yields (MODIFICATION v fmt l r) v [Modification].
Proof.
  intros c v' c' H. apply MODIFICATION_Done in H. destruct H as [-> _].
  rewrite map_app. reflexivity.
Qed.

Lemma yields_when (b : bool) (m : D (list Diff)) v :
  yields m v [Modification] -> yields (when_ b m v) v (changed b).
Proof.
  intros H. unfold when_, changed. destruct b; [exact H | apply yields_ret].
Qed.

Lemma yields_defined {A} (o : option A) (k : A -> D (list Diff)) v ts :
  (forall a, o = Some a -> yields (k a) v ts) ->
  yields (bind (defined o) k) v ts.
Proof.
  intros Hk c v' c' H. destruct o as [a |]; [| discriminate H].
  exact (Hk a eq_refl c v' c' H).
Qed.

Lemma yields_for_loop (body : Z -> list Diff -> D (list Diff))
  (f : Z -> list DiffType) :
  (forall j v, yields (body j v) v (f j)) ->
  forall n i v, yields (for_loop n i body v) v (flat_map f (upto n i)).
Proof.
  intros Hb. induction n as [| n IH]; intros i v; cbn [for_loop upto flat_map].
  - apply yields_ret.
  - apply yields_bind; [apply Hb | intros v1; apply IH].
Qed.

Lemma flat_map_const {A B} (x : B) (l : list A) :
  flat_map (fun _ => [x]) l = repeat x (length l).
Proof.
  induction l as [| a l IH]; [reflexivity |].
  cbn [flat_map length repeat app]. rewrite IH. reflexivity.
Qed.

Lemma upto_length (n : nat) (i : Z) : length (upto n i) = n.
Proof.
  revert i. induction n as [| n IH]; intros i; [reflexivity |].
  cbn [upto length]. rewrite IH. reflexivity.
Qed.

(** The platform records: the lines are the events. *)
Lemma diffPLAT_yields (ohip mhip : Hip) :
  yields (diffPLAT ohip mhip) [] (plat_events (plat ohip) (plat mhip)).
Proof.
  unfold diffPLAT, plat_events. cbv zeta.
  destruct (plat_exists (plat ohip) || plat_exists (plat mhip));
    [| apply yields_ret].
  destruct (negb (Bool.eqb (plat_exists (plat ohip))
                    (plat_exists (plat mhip)))).
  - destruct (plat_exists (plat ohip) && negb (plat_exists (plat mhip))).
    + change (Deletion :: ?l) with ([Deletion] ++ l).
      apply yields_bind; [apply yields_DELETION | intros v1].
      rewrite <- (upto_length (Z.to_nat (stringCount (plat ohip))) 0).
      rewrite <- flat_map_const. unfold for_.
      apply yields_for_loop. intros j v.
      apply yields_defined. intros s _. apply yields_DELETION.
    + change (Addition :: ?l) with ([Addition] ++ l).
      apply yields_bind; [apply yields_ADDITION | intros v1].
      rewrite <- (upto_length (Z.to_nat (stringCount (plat mhip))) 0).
      rewrite <- flat_map_const. unfold for_.
      apply yields_for_loop. intros j v.
      apply yields_defined. intros s _. apply yields_ADDITION.
  - apply yields_bind;
      [apply yields_when; apply yields_MODIFICATION | intros v1].
    replace (if stringCount (plat ohip) <? stringCount (plat mhip)
             then stringCount (plat mhip) else stringCount (plat ohip))
      with (Z.max (stringCount (plat ohip)) (stringCount (plat mhip)))
      by (destruct (Z.ltb_spec (stringCount (plat ohip))
                      (stringCount (plat mhip))); lia).
    unfold for_. apply yields_for_loop. intros j v.
    unfold plat_string_events.
    destruct (j >=? stringCount (plat ohip)).
    + apply yields_defined. intros s _. apply yields_ADDITION.
    + destruct (j >=? stringCount (plat mhip)).
      * apply yields_defined. intros s _. apply yields_DELETION.
      * apply yields_defined. intros so ->.
        apply yields_defined. intros sm ->.
        apply yields_when. apply yields_MODIFICATION.
Qed.

Lemma when_MODIFICATION_types (b : bool) v fmt l r (c : Counts) v' c' :
  when_ b (MODIFICATION v fmt l r) v c = Done (v', c') ->
  map diff_type v' = map diff_type v ++ changed b.
Proof.
  apply (@yields_when b (MODIFICATION v fmt l r) v
           (@yields_MODIFICATION v fmt l r)).
Qed.

(** The header: the lines of its vectors are its events. *)
Lemma diffHeader_events (ohip mhip : Hip) (c c' : Counts) (hd : Header) :
  diffHeader ohip mhip c = Done (hd, c') ->
  map diff_type (header_entries hd) = header_events ohip mhip.
Proof.
  unfold diffHeader. intros H.
  repeat (run_bind H;
          match goal with
          | E : when_ _ _ _ _ = Done _ |- _ =>
              apply when_MODIFICATION_types in E
          | E : diffPLAT _ _ _ = Done _ |- _ =>
              apply diffPLAT_yields in E
          end).
  injection H as <- _. unfold header_entries, header_events.
  cbn [pverDiffs pflgDiffs pcntDiffs pcrtDiffs pmodDiffs platDiffs ainfDiffs].
  rewrite !map_app.
  repeat match goal with
    | E : map diff_type ?x = _ |- _ => rewrite E; clear E
    end.
  cbn [map app]. rewrite <- !app_assoc. reflexivity.
Qed.

(** ** The assets *)

Lemma dataChanged_pure opt ohip mhip oa ma od md c b c' :
  dataChanged opt ohip mhip oa ma od md c = Done (b, c') ->
  b = data_changed opt ohip mhip oa ma od md.
Proof.
  unfold dataChanged, data_changed. intros H.
  destruct (ignoreDataIfChksumMatch opt); [injection H as <- _; reflexivity |].
  destruct (size oa =? size ma); [| injection H as <- _; reflexivity].
  run_plain H. injection H as <- _. reflexivity.
Qed.

Lemma count_events_changed (t : DiffType) (b : bool) :
  count_events t (changed b)
  = match t with Modification => if b then 1 else 0 | _ => 0 end.
Proof. destruct t, b; reflexivity. Qed.

(** One round of the loop over [ahdrIndices]: the numbers move by
    the event of the entry, and the sets take the id of an added or
    deleted asset. *)
Lemma diffAsset_events NDEBUG opt ohip mhip it s c s' c' :
  diffAsset NDEBUG opt ohip mhip it s c = Done (s', c') ->
  (forall t, asset_num t s'
             = asset_num t s + count_events t (asset_event opt ohip mhip it))
  /\ addedAssets s' = rev (added_ids mhip [it]) ++ addedAssets s
  /\ deletedAssets s' = rev (deleted_ids ohip [it]) ++ deletedAssets s.
Proof.
  intros H. apply diffAsset_numbers in H.
  unfold asset_numbers in H. unfold asset_event, added_ids, deleted_ids.
  cbn [flat_map]. cbv zeta.
  destruct H as [(O & x & X & E) | [(O & M & x & X & E)
    | (O & M & oa & ma & od & md & b & A1 & A2 & A3 & A4 & Hb & E)]];
    injection E as E1 E2 E3 E4 E5.
  - apply Z.eqb_eq in O. rewrite O, X. cbn [app rev].
    split; [| split; assumption].
    intros t; destruct t; cbn [asset_num]; rewrite ?E1, ?E2, ?E3;
      unfold count_events; cbn; lia.
  - apply Z.eqb_neq in O. apply Z.eqb_eq in M. rewrite O, M, X.
    cbn [app rev].
    split; [| split; assumption].
    intros t; destruct t; cbn [asset_num]; rewrite ?E1, ?E2, ?E3;
      unfold count_events; cbn; lia.
  - apply Z.eqb_neq in O, M. rewrite O, M, A1, A2, A3, A4.
    cbn [app rev].
    split; [| split; assumption].
    apply dataChanged_pure in Hb. subst b.
    intros t. rewrite count_events_changed.
    destruct t; cbn [asset_num]; rewrite ?E1, ?E2, ?E3; lia.
Qed.

Lemma diffAssets_events NDEBUG opt ohip mhip :
  forall (idx : list (Z * Index)) s c s' c',
    foreach idx (diffAsset NDEBUG opt ohip mhip) s c = Done (s', c') ->
    (forall t, asset_num t s'
               = asset_num t s
                 + count_events t (asset_events opt ohip mhip idx))
    /\ addedAssets s' = rev (added_ids mhip idx) ++ addedAssets s
    /\ deletedAssets s' = rev (deleted_ids ohip idx) ++ deletedAssets s.
Proof.
  induction idx as [| it idx IH]; intros s c s' c' H.
  - injection H as <- _. cbn. split; [intros t; unfold count_events; cbn; lia |].
    split; reflexivity.
  - cbn [foreach] in H. apply bind_Done in H.
    destruct H as (s1 & c1 & E & H).
    apply diffAsset_events in E. destruct E as (N1 & A1 & D1).
    apply IH in H. destruct H as (N2 & A2 & D2).
    unfold asset_events, added_ids, deleted_ids in *.
    cbn [flat_map] in *. rewrite app_nil_r in A1, D1.
    split; [| split].
    + intros t. rewrite count_events_app, N2, N1. lia.
    + rewrite A2, A1, rev_app_distr, <- app_assoc. reflexivity.
    + rewrite D2, D1, rev_app_distr, <- app_assoc. reflexivity.
Qed.

Lemma set_mem_rev (x : Z) (s : list Z) : set_mem x (rev s) = set_mem x s.
Proof.
  unfold set_mem. induction s as [| y s IH]; [reflexivity |].
  cbn [rev existsb]. rewrite existsb_app, IH. cbn [existsb].
  rewrite orb_false_r. apply orb_comm.
Qed.

(** ** The layers *)

Lemma yields_then {A} (m1 : D A) (m : D (list Diff)) v ts :
  yields m v ts -> yields (bind m1 (fun _ => m)) v ts.
Proof.
  intros Hm c v' c' H. apply bind_Done in H.
  destruct H as (x & c1 & _ & H). exact (Hm _ _ _ H).
Qed.

Lemma yields_foreach {B} (body : B -> list Diff -> D (list Diff))
  (f : B -> list DiffType) :
  (forall x v, yields (body x v) v (f x)) ->
  forall l v, yields (foreach l body v) v (flat_map f l).
Proof.
  intros Hb. induction l as [| x l IH]; intros v; cbn [foreach flat_map].
  - apply yields_ret.
  - apply yields_bind; [apply Hb | intros v1; apply IH].
Qed.

(** A line of a modified layer is written for the members that join
    or leave. *)
Lemma modifiedLayerMember_yields NDEBUG ohip mhip idx a l it v :
  yields (modifiedLayerMember NDEBUG ohip mhip idx a l it v) v
    (member_event (addedAssets a) (deletedAssets a) l it).
Proof.
  unfold modifiedLayerMember, member_event. cbv zeta.
  apply yields_then.
  destruct ((oidx (snd it) =? oidx l) || (midx (snd it) =? midx l));
    [| apply yields_ret].
  destruct (neq (oidx (snd it)) (oidx l)).
  - destruct (negb (set_mem (fst it) (addedAssets a))); [| apply yields_ret].
    apply yields_defined. intros n _.
    change [Addition] with ([Addition] ++ []).
    apply yields_bind; [apply yields_ADDITION | intros v1].
    apply yields_then. apply yields_ret.
  - destruct (neq (midx (snd it)) (midx l)); [| apply yields_ret].
    destruct (negb (set_mem (fst it) (deletedAssets a))); [| apply yields_ret].
    apply yields_defined. intros n _.
    change [Deletion] with ([Deletion] ++ []).
    apply yields_bind; [apply yields_DELETION | intros v1].
    apply yields_then. apply yields_ret.
Qed.

Lemma more_than_one_line (v : list Diff) (b : bool) (ts : list DiffType) :
  map diff_type v = ([Modification] ++ changed b) ++ ts ->
  (1 <? Z.of_nat (length v)) = b || nonempty ts.
Proof.
  intros H. apply (f_equal (@length _)) in H.
  rewrite length_map, !length_app in H. rewrite H.
  destruct b, ts; cbn; try reflexivity;
    match goal with |- (1 <? ?n) = true => apply Z.ltb_lt; lia end.
Qed.

Lemma count_events_one (t u : DiffType) :
  count_events t [u] = if same_type t u then 1 else 0.
Proof. unfold count_events. cbn. destruct (same_type t u); reflexivity. Qed.

Lemma count_events_nil (t : DiffType) : count_events t [] = 0.
Proof. reflexivity. Qed.

Lemma member_event_kinds added deleted l T :
  count_events Modification (flat_map (member_event added deleted l) T) = 0.
Proof.
  induction T as [| it T IH]; [reflexivity |].
  cbn [flat_map]. rewrite count_events_app, IH.
  unfold member_event. cbv zeta.
  destruct ((oidx (snd it) =? oidx l) || (midx (snd it) =? midx l)),
    (neq (oidx (snd it)) (oidx l)), (neq (midx (snd it)) (midx l)),
    (negb (set_mem (fst it) added)), (negb (set_mem (fst it) deleted));
    reflexivity.
Qed.

(** One round of the loops over [lhdrIndices]: the number of added,
    deleted or modified layers and of member lines of modified layers
    moves by the events of the entry. *)
Lemma diffLayer_events NDEBUG ohip mhip idx T a l s c s' c' :
  diffLayer NDEBUG ohip mhip idx T a l s c = Done (s', c') ->
  forall t,
    layer_num t s'
    = layer_num t s
      + count_events t
          (pair_events ohip mhip (addedAssets a) (deletedAssets a) T l).
Proof.
  unfold diffLayer, pair_events. intros H. run_plain H.
  destruct (oidx l =? -1); [| destruct (midx l =? -1)].
  - run_plain H. repeat run_bind H. run_plain H. injection H as <- _.
    intros t; destruct t; unfold layer_num, count_events; cbn; lia.
  - run_plain H. repeat run_bind H. run_plain H. injection H as <- _.
    intros t; destruct t; unfold layer_num, count_events; cbn; lia.
  - run_plain H. cbv zeta.
    repeat match goal with
      | Q : at_ (lhdr ohip) _ = Some ?x |- _ =>
          is_var x; rename x into olhdr; revert Q
      | Q : at_ (ldbg ohip) _ = Some ?x |- _ =>
          is_var x; rename x into oldbg; revert Q
      | Q : at_ (lhdr mhip) _ = Some ?x |- _ =>
          is_var x; rename x into mlhdr; revert Q
      | Q : at_ (ldbg mhip) _ = Some ?x |- _ =>
          is_var x; rename x into mldbg; revert Q
      end.
    intros _ _ _ _.
    set (ms := flat_map (member_event (addedAssets a) (deletedAssets a) l) T).
    run_bind_as H v1 c1 Y1.
    apply (@yields_MODIFICATION [] _ _ _) in Y1.
    run_bind_as H v2 c2 Y2.
    assert (T2 : map diff_type v2
                 = map diff_type v1
                   ++ changed (neq (lhdr_type olhdr) (lhdr_type mlhdr))).
    { destruct (neq (lhdr_type olhdr) (lhdr_type mlhdr)).
      - refine (@yields_then _ _ _ _ _ _ _ _ _ Y2).
        apply yields_MODIFICATION.
      - exact (@yields_ret v1 _ _ _ Y2). }
    clear Y2.
    run_bind_as H lhdrMods c3 Y3.
    apply (@yields_foreach _ _ _
             (fun x v => @modifiedLayerMember_yields NDEBUG ohip mhip idx a l
                           x v)) in Y3.
    fold ms in Y3. rewrite T2, Y1 in Y3. cbn [map] in Y3.
    run_bind_as H v4 c4 Y4.
    apply (@yields_MODIFICATION [] _ _ _) in Y4.
    run_bind_as H ldbgMods c5 Y5.
    apply when_MODIFICATION_types in Y5. rewrite Y4 in Y5. cbn [map] in Y5.
    pose proof (@more_than_one_line lhdrMods _ ms Y3) as L3.
    pose proof (@more_than_one_line ldbgMods _ [] (eq_trans Y5
                  (eq_sym (app_nil_r _)))) as L5.
    rewrite L3, L5 in H. cbn [nonempty] in H. rewrite orb_false_r in H.
    pose proof (@member_event_kinds (addedAssets a) (deletedAssets a) l T)
      as K. fold ms in K.
    assert (N : nonempty ms = false -> ms = [])
      by (destruct ms; [reflexivity | discriminate]).
    destruct (neq (lhdr_type olhdr) (lhdr_type mlhdr)) eqn:Q1;
      destruct (nonempty ms) eqn:Q2;
      destruct (neq (ldbg_ldbg oldbg) (ldbg_ldbg mldbg)) eqn:Q3;
      cbn [orb] in H |- *; run_plain H; injection H as <- _;
      try (rewrite (N eq_refl) in *);
      intros t; destruct t;
      cbn [layer_num numLayersAdded numLayersDeleted numLayersModified
             layerModifications];
      rewrite ?count_type_events, ?map_app, ?Y3, ?Y5, ?count_events_app,
        ?count_events_changed, ?K;
      rewrite ?count_events_one, ?count_events_nil;
      cbn [same_type]; lia.
Qed.

Lemma diffLayers_events NDEBUG ohip mhip idx T a :
  forall (L : map_ (list Index)) s c s' c',
    foreach L
      (fun it s => foreach (snd it) (diffLayer NDEBUG ohip mhip idx T a) s)
      s c = Done (s', c') ->
    forall t,
      layer_num t s'
      = layer_num t s
        + count_events t
            (layer_events ohip mhip (addedAssets a) (deletedAssets a) T L).
Proof.
  assert (I : forall (ls : list Index) s c s' c',
             foreach ls (diffLayer NDEBUG ohip mhip idx T a) s c
             = Done (s', c') ->
             forall t,
               layer_num t s'
               = layer_num t s
                 + count_events t
                     (flat_map (pair_events ohip mhip (addedAssets a)
                                  (deletedAssets a) T) ls)).
  { induction ls as [| l ls IH]; intros s c s' c' H t.
    - injection H as <- _. unfold count_events. cbn. lia.
    - cbn [foreach] in H. apply bind_Done in H.
      destruct H as (s1 & c1 & E & H).
      cbn [flat_map]. rewrite count_events_app.
      apply diffLayer_events with (t := t) in E.
      rewrite (IH _ _ _ _ H t), E. lia. }
  induction L as [| it L IH]; intros s c s' c' H t.
  - injection H as <- _. unfold count_events. cbn. lia.
  - cbn [foreach] in H. apply bind_Done in H.
    destruct H as (s1 & c1 & E & H).
    unfold layer_events in *. cbn [flat_map]. rewrite count_events_app.
    rewrite (IH _ _ _ _ H t), (I _ _ _ _ _ E t). lia.
Qed.

(** ** The whole comparison *)

Lemma hackPCRTString_Some (s r : string) :
  hackPCRTString s = Some r -> r = drop_last_newline s.
Proof.
  unfold hackPCRTString. destruct (Nat.eqb (String.length s) 0);
    [discriminate |]. intros H. injection H as <-. reflexivity.
Qed.

Lemma member_event_ext added added' deleted deleted' l it :
  (forall i, set_mem i added = set_mem i added') ->
  (forall i, set_mem i deleted = set_mem i deleted') ->
  member_event added deleted l it = member_event added' deleted' l it.
Proof.
  intros Ha Hd. unfold member_event. rewrite Ha, Hd. reflexivity.
Qed.

Lemma layer_events_ext o m added added' deleted deleted' T L :
  (forall i, set_mem i added = set_mem i added') ->
  (forall i, set_mem i deleted = set_mem i deleted') ->
  layer_events o m added deleted T L = layer_events o m added' deleted' T L.
Proof.
  intros Ha Hd. unfold layer_events.
  apply flat_map_ext. intros it. apply flat_map_ext. intros l.
  unfold pair_events.
  rewrite (@flat_map_ext _ _ (member_event added deleted l)
             (member_event added' deleted' l)
             (fun it => @member_event_ext added added' deleted deleted' l it
                          Ha Hd)).
  reflexivity.
Qed.

(** The numbers of the report are the numbers of events of the two
    archives [main] compares. *)
Lemma main_body_events NDEBUG opt ohip mhip hd a l c :
  main_body NDEBUG opt ohip mhip Counts0 = Done ((hd, a, l), c) ->
  forall t,
    count_type t (header_entries hd) + asset_num t a + layer_num t l
    = count_events t (diff_events opt (hacked ohip) (hacked mhip)).
Proof.
  unfold main_body. intros H.
  destruct (hackPCRTString (pcrt_string (pcrt ohip))) as [ostr |] eqn:Eo;
    [| discriminate H].
  destruct (hackPCRTString (pcrt_string (pcrt mhip))) as [mstr |] eqn:Em;
    [| discriminate H].
  apply hackPCRTString_Some in Eo, Em. subst ostr mstr.
  cbn [defined] in H. rewrite !bind_ret in H. cbv zeta in H.
  fold (hacked ohip) in H. fold (hacked mhip) in H.
  unfold diff_events. cbv zeta.
  set (o := hacked ohip) in *. set (m := hacked mhip) in *.
  destruct (build_ahdrIndices o m) as [idx |]; [| discriminate H].
  cbn [defined table] in H |- *. rewrite bind_ret in H.
  destruct (assetDiffsOnly opt); cbn [negb] in H.
  - rewrite !bind_ret in H.
    run_bind_as H a' c3 Ea. unfold diffAssets in Ea.
    apply diffAssets_events in Ea. destruct Ea as (Na & _ & _).
    rewrite bind_ret in H. injection H as <- <- <- _.
    intros t. rewrite Na. destruct t; cbn; lia.
  - destruct (build_lhdrIndices o m) as [L |]; [| discriminate H].
    cbn [defined] in H. rewrite bind_bind, bind_ret in H.
    destruct (build_ahdrLHDRIndices o m) as [T |]; [| discriminate H].
    cbn [defined table] in H |- *. rewrite bind_bind, !bind_ret in H.
    run_bind_as H hd' c2 Eh. apply diffHeader_events in Eh.
    run_bind_as H a' c3 Ea. unfold diffAssets in Ea.
    apply diffAssets_events in Ea. destruct Ea as (Na & Sa & Sd).
    run_bind_as H l' c4 El. unfold diffLayers in El.
    injection H as <- <- <- _. intros t.
    apply diffLayers_events with (t := t) in El.
    rewrite El, Na, count_type_events, Eh, !count_events_app.
    rewrite (@layer_events_ext o m (addedAssets a') (added_ids m idx)
               (deletedAssets a') (deleted_ids o idx) T L).
    + destruct t; cbn; lia.
    + intros i. rewrite Sa. cbn [addedAssets Assets0].
      rewrite app_nil_r. apply set_mem_rev.
    + intros i. rewrite Sd. cbn [deletedAssets Assets0].
      rewrite app_nil_r. apply set_mem_rev.
Qed.

(** C4, as amended: each counter is the number of events of its
    kind between the two archives [main] compares.  The events are
    one per header field that differs (and per id or string of the
    platform records that is added, deleted or differs), one per
    added, deleted or modified asset, one per added, deleted or
    modified layer and, in a pair of layers, one per member that
    joins or leaves it: the lines of a detailed added, deleted or
    modified asset or layer are not counted one by one, the line that
    names a member joining or leaving a modified layer is.  The
    counters are also the numbers the report holds.  In the scenario
    the totals are one addition, one deletion and no modification,
    under every option. *)
Theorem counters_count_events :
  forall NDEBUG opt ohip mhip r,
    main_diff NDEBUG opt ohip mhip = Done r ->
    (forall t, counter t (counts r)
               = count_events t
                   (diff_events opt (hacked ohip) (hacked mhip)))
    /\ (forall t, counter t (counts r) = counted t r)
    /\ exists r0,
         main NDEBUG opt 100 archive_A archive_B = Done r0
         /\ additionCount (counts r0) = 1
         /\ deletionCount (counts r0) = 1
         /\ modificationCount (counts r0) = 0.
Proof.
  intros NDEBUG opt ohip mhip r H. unfold main_diff in H.
  destruct (main_body NDEBUG opt ohip mhip Counts0)
    as [[[[hd a] l] c] |] eqn:E; [| discriminate].
  injection H as <-. cbn [counts].
  split; [| split].
  - intros t.
    rewrite <- (@main_body_events NDEBUG opt ohip mhip hd a l c E t).
    apply (@main_body_counts NDEBUG opt ohip mhip hd a l c E t).
  - intros t.
    pose proof (@main_body_counts NDEBUG opt ohip mhip hd a l c E t) as Q.
    destruct t; unfold counted; simpl in *; lia.
  - destruct NDEBUG, opt as [[|] [|] [|] [|] [|]];
      (eexists; split; [vm_compute; reflexivity |]);
      repeat split.
Qed.

(** At a concrete input: [archive_before] against [archive_after]
    with detailed assets.  Nine events, four additions, two deletions
    and three modifications, for forty-four lines. *)
Lemma counters_count_events_witness :
  let opt := {| assetDiffsOnly := false; detailedAssets := true;
                ignoreDataIfChksumMatch := false; diffOffsets := false;
                diffPluses := false |} in
  exists r,
    main false opt 100 archive_before archive_after = Done r
    /\ main_diff false opt (loaded archive_before) (loaded archive_after)
       = Done r
    /\ diff_events opt (hacked (loaded archive_before))
         (hacked (loaded archive_after))
       = [Modification; Deletion; Modification; Addition; Addition;
          Modification; Deletion; Addition; Addition]
    /\ additionCount (counts r) = 4
    /\ deletionCount (counts r) = 2
    /\ modificationCount (counts r) = 3
    /\ length (header_entries (header r)
               ++ assetAdditions (assets r) ++ assetDeletions (assets r)
               ++ assetModifications (assets r)
               ++ layerAdditions (layers r) ++ layerDeletions (layers r)
               ++ layerModifications (layers r)) = 44%nat
    /\ (forall t, counter t (counts r)
                  = count_events t
                      (diff_events opt (hacked (loaded archive_before))
                         (hacked (loaded archive_after))))
    /\ (forall t, counter t (counts r) = counted t r)
    /\ exists r0,
         main false opt 100 archive_A archive_B = Done r0
         /\ additionCount (counts r0) = 1
         /\ deletionCount (counts r0) = 1
         /\ modificationCount (counts r0) = 0.
Proof.
  cbv zeta. eexists.
  split; [vm_compute; reflexivity |].
  split; [vm_compute; reflexivity |].
  split; [vm_compute; reflexivity |].
  split; [reflexivity |]. split; [reflexivity |]. split; [reflexivity |].
  split; [reflexivity |].
  apply counters_count_events. vm_compute. reflexivity.
Defined.
